(** * FlashFloppy image track engine: sector images (img.c) and HFE (hfe.c)

    A shallow embedding of the track engine of [src/image/img.c] and
    [src/image/hfe.c], and of the allocator of [src/arena.c].  C integers are carried as [Z] and every narrowing
    store is written out with [u8], [u16] or [u32]; arrays are lists
    indexed through stdpp's lookup and insert; the image handle is a
    record threaded through the functions that mutate it. *)

From Stdlib Require Import ZArith Bool List Lia.
From stdpp Require Import base list.

Local Open Scope Z_scope.

(** ** Machine integers *)

Definition u8 (x : Z) : Z := x mod 2 ^ 8.
Definition u16 (x : Z) : Z := x mod 2 ^ 16.
Definition u32 (x : Z) : Z := x mod 2 ^ 32.
(** Two's complement reading of the low 16 bits: the cast [(int16_t)x]. *)
Definition s16 (x : Z) : Z := (x + 2 ^ 15) mod 2 ^ 16 - 2 ^ 15.
(** Two's complement reading of the low 32 bits: a store to an [int32_t]. *)
Definition s32 (x : Z) : Z := (x + 2 ^ 31) mod 2 ^ 32 - 2 ^ 31.

(** [min_t(type, a, b)] with both sides already cast to [type]. *)
Definition min_t (a b : Z) : Z := if a <? b then a else b.

(** [x ?: d], the GNU conditional with omitted middle operand. *)
Definition or_default (x d : Z) : Z := if x =? 0 then d else x.

(** [_rbit32(x) >> 24] for a byte [x]: the byte with its bit order
    reversed. *)
Definition rbit8 (x : Z) : Z :=
  let bit k := if Z.testbit x k then Z.shiftl 1 (7 - k) else 0 in
  bit 0 + bit 1 + bit 2 + bit 3 + bit 4 + bit 5 + bit 6 + bit 7.

(** ** External collaborators

    The clock macros, the MFM table, the CRC routine and the byte-order
    macro are declared in headers and sources outside [src/image]; the
    engine only calls them, so they are taken as an interface. *)

Class Clock : Type := {
  sysclk_us : Z -> Z;
  sysclk_ns : Z -> Z;
  sysclk_ms : Z -> Z;
  stk_ms : Z -> Z;
  sysclk_stk : Z -> Z;
  stk_sysclk : Z -> Z
}.

(** The bytes an uninitialised local of [n] bytes happens to hold when a
    function is entered. *)
Class Uninit : Type := {
  uninit : nat -> list Z;
  length_uninit : forall n : nat, length (uninit n) = n
}.

(** What hfe.c takes from the C library and from the configuration header:
    the value [rand()] returns when the byte at ring position [bc_c] is the
    flaky-byte opcode, and the bound on recorded index pulses. *)
Class HfeEnv : Type := {
  rand : Z -> Z;
  MAX_CUSTOM_PULSES : Z
}.

Class Codec : Type := {
  mfmtab : Z -> Z;                     (* const uint16_t mfmtab[256] *)
  crc16_ccitt : list Z -> Z -> Z;      (* crc16_ccitt(buf, len, crc) *)
  htobe16 : Z -> Z;
  FM_SYNC_CLK : Z
}.

(** ** Files

    The FatFS handle as the engine sees it: a size, the byte at each
    offset and the read/write pointer. *)

Record FIL : Type := mk_FIL {
  f_size : Z;
  f_data : Z -> Z;
  f_tell : Z
}.

Definition F_lseek (ofs : Z) (fp : FIL) : FIL :=
  {| f_size := f_size fp; f_data := f_data fp; f_tell := ofs |}.

(** Bytes that [F_read(fp, buf, n, NULL)] transfers: at most [n], and none
    past the end of the file. *)
Definition F_avail (n : Z) (fp : FIL) : nat :=
  Z.to_nat (Z.min n (f_size fp - f_tell fp)).

Definition F_bytes (n : Z) (fp : FIL) : list Z :=
  (fun i : nat => u8 (f_data fp (f_tell fp + Z.of_nat i)))
    <$> seq 0 (F_avail n fp).

(** [F_read] into the memory [old]: the transferred bytes overwrite its
    first cells, the rest keeps what it held. *)
Definition F_read (n : Z) (old : list Z) (fp : FIL) : list Z * FIL :=
  let got := F_bytes n fp in
  (got ++ drop (length got) old,
   {| f_size := f_size fp; f_data := f_data fp;
      f_tell := f_tell fp + Z.of_nat (length got) |}).

(** A little-endian 16-bit object read back from two bytes of memory. *)
Definition le16 (m : list Z) : Z := m !!! 0%nat + 256 * m !!! 1%nat.

(** The little-endian 16-bit word stored at offset [ofs] of a file. *)
Definition word_at (f : FIL) (ofs : Z) : Z :=
  u8 (f_data f ofs) + 256 * u8 (f_data f (ofs + 1)).

(** [strncmp(a, b, n) == 0] on byte strings. *)
Fixpoint strn_eq (n : nat) (a b : list Z) : bool :=
  match n with
  | O => true
  | S n' =>
      let x := a !!! 0%nat in
      let y := b !!! 0%nat in
      if x =? y then (if x =? 0 then true else strn_eq n' (tail a) (tail b))
      else false
  end.

(** ** Pieces of the image handle shared by both formats *)

Inductive sync_mode : Type := SYNC_none | SYNC_fm | SYNC_mfm.

(** One ring buffer of [im->bufs]. *)
Record image_buf : Type := mk_image_buf {
  bp : list Z;  (* p *)
  blen : Z;  (* len, in bytes *)
  bprod : Z;  (* prod *)
  bcons : Z  (* cons *)
}.

Definition set_bp (v : list Z) (r : image_buf) : image_buf :=
  {| bp := v; blen := blen r; bprod := bprod r; bcons := bcons r |}.
Definition set_blen (v : Z) (r : image_buf) : image_buf :=
  {| bp := bp r; blen := v; bprod := bprod r; bcons := bcons r |}.
Definition set_bprod (v : Z) (r : image_buf) : image_buf :=
  {| bp := bp r; blen := blen r; bprod := v; bcons := bcons r |}.
Definition set_bcons (v : Z) (r : image_buf) : image_buf :=
  {| bp := bp r; blen := blen r; bprod := bprod r; bcons := v |}.

(** * Sector images: img.c *)

Module Img.

(** [ARRAY_SIZE(im->img.sec_map)].  Modelled from the spec: the header that
    declares [struct image_img] is outside [src/image]; the spec names the
    bound [MAX_SECS] and the type tables need at least the 6-bit [nr_secs]
    range, hence 64 slots. *)
Definition MAX_SECS : Z := 64.

(** The IMG block [im->img].  Modelled from the spec: the field list is the
    one of the spec's data model; the widths are those the casts, masks and
    stores of img.c imply. *)
Record image_img : Type := mk_image_img {
  trk_off : Z;  (* uint32_t *)
  base_off : Z;  (* uint32_t *)
  trk_sec : Z;  (* uint16_t *)
  rd_sec_pos : Z;  (* uint16_t *)
  decode_pos : Z;  (* int32_t *)
  decode_data_pos : Z;  (* uint16_t *)
  crc : Z;  (* uint16_t *)
  layout : Z;  (* uint8_t, LAYOUT_* *)
  has_iam : bool;  (* bool_t *)
  gap_2 : Z;  (* uint8_t *)
  gap_3 : Z;  (* uint8_t *)
  gap_4a : Z;  (* uint8_t *)
  post_crc_syncs : Z;  (* uint8_t *)
  write_sector : Z;  (* int8_t *)
  sec_base : Z * Z;  (* uint8_t [2] *)
  sec_map : list Z;  (* uint8_t [MAX_SECS] *)
  nr_sectors : Z;  (* uint8_t *)
  sec_no : Z;  (* uint8_t *)
  interleave : Z;  (* uint8_t *)
  skew : Z;  (* uint8_t *)
  skew_cyls_only : bool;  (* bool_t *)
  data_rate : Z;  (* uint16_t *)
  gap_4 : Z;  (* uint16_t *)
  idx_sz : Z;  (* uint32_t *)
  idam_sz : Z;  (* uint32_t *)
  dam_sz_pre : Z;  (* uint16_t *)
  dam_sz_post : Z;  (* uint16_t *)
  rpm : Z  (* uint16_t *)
}.

Definition set_trk_off (v : Z) (r : image_img) : image_img :=
  {| trk_off := v; base_off := base_off r; trk_sec := trk_sec r;
     rd_sec_pos := rd_sec_pos r; decode_pos := decode_pos r;
     decode_data_pos := decode_data_pos r; crc := crc r; layout := layout r;
     has_iam := has_iam r; gap_2 := gap_2 r; gap_3 := gap_3 r;
     gap_4a := gap_4a r; post_crc_syncs := post_crc_syncs r;
     write_sector := write_sector r; sec_base := sec_base r;
     sec_map := sec_map r; nr_sectors := nr_sectors r; sec_no := sec_no r;
     interleave := interleave r; skew := skew r;
     skew_cyls_only := skew_cyls_only r; data_rate := data_rate r;
     gap_4 := gap_4 r; idx_sz := idx_sz r; idam_sz := idam_sz r;
     dam_sz_pre := dam_sz_pre r; dam_sz_post := dam_sz_post r;
     rpm := rpm r |}.
Definition set_base_off (v : Z) (r : image_img) : image_img :=
  {| trk_off := trk_off r; base_off := v; trk_sec := trk_sec r;
     rd_sec_pos := rd_sec_pos r; decode_pos := decode_pos r;
     decode_data_pos := decode_data_pos r; crc := crc r; layout := layout r;
     has_iam := has_iam r; gap_2 := gap_2 r; gap_3 := gap_3 r;
     gap_4a := gap_4a r; post_crc_syncs := post_crc_syncs r;
     write_sector := write_sector r; sec_base := sec_base r;
     sec_map := sec_map r; nr_sectors := nr_sectors r; sec_no := sec_no r;
     interleave := interleave r; skew := skew r;
     skew_cyls_only := skew_cyls_only r; data_rate := data_rate r;
     gap_4 := gap_4 r; idx_sz := idx_sz r; idam_sz := idam_sz r;
     dam_sz_pre := dam_sz_pre r; dam_sz_post := dam_sz_post r;
     rpm := rpm r |}.
Definition set_trk_sec (v : Z) (r : image_img) : image_img :=
  {| trk_off := trk_off r; base_off := base_off r; trk_sec := v;
     rd_sec_pos := rd_sec_pos r; decode_pos := decode_pos r;
     decode_data_pos := decode_data_pos r; crc := crc r; layout := layout r;
     has_iam := has_iam r; gap_2 := gap_2 r; gap_3 := gap_3 r;
     gap_4a := gap_4a r; post_crc_syncs := post_crc_syncs r;
     write_sector := write_sector r; sec_base := sec_base r;
     sec_map := sec_map r; nr_sectors := nr_sectors r; sec_no := sec_no r;
     interleave := interleave r; skew := skew r;
     skew_cyls_only := skew_cyls_only r; data_rate := data_rate r;
     gap_4 := gap_4 r; idx_sz := idx_sz r; idam_sz := idam_sz r;
     dam_sz_pre := dam_sz_pre r; dam_sz_post := dam_sz_post r;
     rpm := rpm r |}.
Definition set_rd_sec_pos (v : Z) (r : image_img) : image_img :=
  {| trk_off := trk_off r; base_off := base_off r; trk_sec := trk_sec r;
     rd_sec_pos := v; decode_pos := decode_pos r;
     decode_data_pos := decode_data_pos r; crc := crc r; layout := layout r;
     has_iam := has_iam r; gap_2 := gap_2 r; gap_3 := gap_3 r;
     gap_4a := gap_4a r; post_crc_syncs := post_crc_syncs r;
     write_sector := write_sector r; sec_base := sec_base r;
     sec_map := sec_map r; nr_sectors := nr_sectors r; sec_no := sec_no r;
     interleave := interleave r; skew := skew r;
     skew_cyls_only := skew_cyls_only r; data_rate := data_rate r;
     gap_4 := gap_4 r; idx_sz := idx_sz r; idam_sz := idam_sz r;
     dam_sz_pre := dam_sz_pre r; dam_sz_post := dam_sz_post r;
     rpm := rpm r |}.
Definition set_decode_pos (v : Z) (r : image_img) : image_img :=
  {| trk_off := trk_off r; base_off := base_off r; trk_sec := trk_sec r;
     rd_sec_pos := rd_sec_pos r; decode_pos := v;
     decode_data_pos := decode_data_pos r; crc := crc r; layout := layout r;
     has_iam := has_iam r; gap_2 := gap_2 r; gap_3 := gap_3 r;
     gap_4a := gap_4a r; post_crc_syncs := post_crc_syncs r;
     write_sector := write_sector r; sec_base := sec_base r;
     sec_map := sec_map r; nr_sectors := nr_sectors r; sec_no := sec_no r;
     interleave := interleave r; skew := skew r;
     skew_cyls_only := skew_cyls_only r; data_rate := data_rate r;
     gap_4 := gap_4 r; idx_sz := idx_sz r; idam_sz := idam_sz r;
     dam_sz_pre := dam_sz_pre r; dam_sz_post := dam_sz_post r;
     rpm := rpm r |}.
Definition set_decode_data_pos (v : Z) (r : image_img) : image_img :=
  {| trk_off := trk_off r; base_off := base_off r; trk_sec := trk_sec r;
     rd_sec_pos := rd_sec_pos r; decode_pos := decode_pos r;
     decode_data_pos := v; crc := crc r; layout := layout r;
     has_iam := has_iam r; gap_2 := gap_2 r; gap_3 := gap_3 r;
     gap_4a := gap_4a r; post_crc_syncs := post_crc_syncs r;
     write_sector := write_sector r; sec_base := sec_base r;
     sec_map := sec_map r; nr_sectors := nr_sectors r; sec_no := sec_no r;
     interleave := interleave r; skew := skew r;
     skew_cyls_only := skew_cyls_only r; data_rate := data_rate r;
     gap_4 := gap_4 r; idx_sz := idx_sz r; idam_sz := idam_sz r;
     dam_sz_pre := dam_sz_pre r; dam_sz_post := dam_sz_post r;
     rpm := rpm r |}.
Definition set_crc (v : Z) (r : image_img) : image_img :=
  {| trk_off := trk_off r; base_off := base_off r; trk_sec := trk_sec r;
     rd_sec_pos := rd_sec_pos r; decode_pos := decode_pos r;
     decode_data_pos := decode_data_pos r; crc := v; layout := layout r;
     has_iam := has_iam r; gap_2 := gap_2 r; gap_3 := gap_3 r;
     gap_4a := gap_4a r; post_crc_syncs := post_crc_syncs r;
     write_sector := write_sector r; sec_base := sec_base r;
     sec_map := sec_map r; nr_sectors := nr_sectors r; sec_no := sec_no r;
     interleave := interleave r; skew := skew r;
     skew_cyls_only := skew_cyls_only r; data_rate := data_rate r;
     gap_4 := gap_4 r; idx_sz := idx_sz r; idam_sz := idam_sz r;
     dam_sz_pre := dam_sz_pre r; dam_sz_post := dam_sz_post r;
     rpm := rpm r |}.
Definition set_layout (v : Z) (r : image_img) : image_img :=
  {| trk_off := trk_off r; base_off := base_off r; trk_sec := trk_sec r;
     rd_sec_pos := rd_sec_pos r; decode_pos := decode_pos r;
     decode_data_pos := decode_data_pos r; crc := crc r; layout := v;
     has_iam := has_iam r; gap_2 := gap_2 r; gap_3 := gap_3 r;
     gap_4a := gap_4a r; post_crc_syncs := post_crc_syncs r;
     write_sector := write_sector r; sec_base := sec_base r;
     sec_map := sec_map r; nr_sectors := nr_sectors r; sec_no := sec_no r;
     interleave := interleave r; skew := skew r;
     skew_cyls_only := skew_cyls_only r; data_rate := data_rate r;
     gap_4 := gap_4 r; idx_sz := idx_sz r; idam_sz := idam_sz r;
     dam_sz_pre := dam_sz_pre r; dam_sz_post := dam_sz_post r;
     rpm := rpm r |}.
Definition set_has_iam (v : bool) (r : image_img) : image_img :=
  {| trk_off := trk_off r; base_off := base_off r; trk_sec := trk_sec r;
     rd_sec_pos := rd_sec_pos r; decode_pos := decode_pos r;
     decode_data_pos := decode_data_pos r; crc := crc r; layout := layout r;
     has_iam := v; gap_2 := gap_2 r; gap_3 := gap_3 r; gap_4a := gap_4a r;
     post_crc_syncs := post_crc_syncs r; write_sector := write_sector r;
     sec_base := sec_base r; sec_map := sec_map r;
     nr_sectors := nr_sectors r; sec_no := sec_no r;
     interleave := interleave r; skew := skew r;
     skew_cyls_only := skew_cyls_only r; data_rate := data_rate r;
     gap_4 := gap_4 r; idx_sz := idx_sz r; idam_sz := idam_sz r;
     dam_sz_pre := dam_sz_pre r; dam_sz_post := dam_sz_post r;
     rpm := rpm r |}.
Definition set_gap_2 (v : Z) (r : image_img) : image_img :=
  {| trk_off := trk_off r; base_off := base_off r; trk_sec := trk_sec r;
     rd_sec_pos := rd_sec_pos r; decode_pos := decode_pos r;
     decode_data_pos := decode_data_pos r; crc := crc r; layout := layout r;
     has_iam := has_iam r; gap_2 := v; gap_3 := gap_3 r; gap_4a := gap_4a r;
     post_crc_syncs := post_crc_syncs r; write_sector := write_sector r;
     sec_base := sec_base r; sec_map := sec_map r;
     nr_sectors := nr_sectors r; sec_no := sec_no r;
     interleave := interleave r; skew := skew r;
     skew_cyls_only := skew_cyls_only r; data_rate := data_rate r;
     gap_4 := gap_4 r; idx_sz := idx_sz r; idam_sz := idam_sz r;
     dam_sz_pre := dam_sz_pre r; dam_sz_post := dam_sz_post r;
     rpm := rpm r |}.
Definition set_gap_3 (v : Z) (r : image_img) : image_img :=
  {| trk_off := trk_off r; base_off := base_off r; trk_sec := trk_sec r;
     rd_sec_pos := rd_sec_pos r; decode_pos := decode_pos r;
     decode_data_pos := decode_data_pos r; crc := crc r; layout := layout r;
     has_iam := has_iam r; gap_2 := gap_2 r; gap_3 := v; gap_4a := gap_4a r;
     post_crc_syncs := post_crc_syncs r; write_sector := write_sector r;
     sec_base := sec_base r; sec_map := sec_map r;
     nr_sectors := nr_sectors r; sec_no := sec_no r;
     interleave := interleave r; skew := skew r;
     skew_cyls_only := skew_cyls_only r; data_rate := data_rate r;
     gap_4 := gap_4 r; idx_sz := idx_sz r; idam_sz := idam_sz r;
     dam_sz_pre := dam_sz_pre r; dam_sz_post := dam_sz_post r;
     rpm := rpm r |}.
Definition set_gap_4a (v : Z) (r : image_img) : image_img :=
  {| trk_off := trk_off r; base_off := base_off r; trk_sec := trk_sec r;
     rd_sec_pos := rd_sec_pos r; decode_pos := decode_pos r;
     decode_data_pos := decode_data_pos r; crc := crc r; layout := layout r;
     has_iam := has_iam r; gap_2 := gap_2 r; gap_3 := gap_3 r; gap_4a := v;
     post_crc_syncs := post_crc_syncs r; write_sector := write_sector r;
     sec_base := sec_base r; sec_map := sec_map r;
     nr_sectors := nr_sectors r; sec_no := sec_no r;
     interleave := interleave r; skew := skew r;
     skew_cyls_only := skew_cyls_only r; data_rate := data_rate r;
     gap_4 := gap_4 r; idx_sz := idx_sz r; idam_sz := idam_sz r;
     dam_sz_pre := dam_sz_pre r; dam_sz_post := dam_sz_post r;
     rpm := rpm r |}.
Definition set_post_crc_syncs (v : Z) (r : image_img) : image_img :=
  {| trk_off := trk_off r; base_off := base_off r; trk_sec := trk_sec r;
     rd_sec_pos := rd_sec_pos r; decode_pos := decode_pos r;
     decode_data_pos := decode_data_pos r; crc := crc r; layout := layout r;
     has_iam := has_iam r; gap_2 := gap_2 r; gap_3 := gap_3 r;
     gap_4a := gap_4a r; post_crc_syncs := v; write_sector := write_sector r;
     sec_base := sec_base r; sec_map := sec_map r;
     nr_sectors := nr_sectors r; sec_no := sec_no r;
     interleave := interleave r; skew := skew r;
     skew_cyls_only := skew_cyls_only r; data_rate := data_rate r;
     gap_4 := gap_4 r; idx_sz := idx_sz r; idam_sz := idam_sz r;
     dam_sz_pre := dam_sz_pre r; dam_sz_post := dam_sz_post r;
     rpm := rpm r |}.
Definition set_write_sector (v : Z) (r : image_img) : image_img :=
  {| trk_off := trk_off r; base_off := base_off r; trk_sec := trk_sec r;
     rd_sec_pos := rd_sec_pos r; decode_pos := decode_pos r;
     decode_data_pos := decode_data_pos r; crc := crc r; layout := layout r;
     has_iam := has_iam r; gap_2 := gap_2 r; gap_3 := gap_3 r;
     gap_4a := gap_4a r; post_crc_syncs := post_crc_syncs r;
     write_sector := v; sec_base := sec_base r; sec_map := sec_map r;
     nr_sectors := nr_sectors r; sec_no := sec_no r;
     interleave := interleave r; skew := skew r;
     skew_cyls_only := skew_cyls_only r; data_rate := data_rate r;
     gap_4 := gap_4 r; idx_sz := idx_sz r; idam_sz := idam_sz r;
     dam_sz_pre := dam_sz_pre r; dam_sz_post := dam_sz_post r;
     rpm := rpm r |}.
Definition set_sec_base (v : Z * Z) (r : image_img) : image_img :=
  {| trk_off := trk_off r; base_off := base_off r; trk_sec := trk_sec r;
     rd_sec_pos := rd_sec_pos r; decode_pos := decode_pos r;
     decode_data_pos := decode_data_pos r; crc := crc r; layout := layout r;
     has_iam := has_iam r; gap_2 := gap_2 r; gap_3 := gap_3 r;
     gap_4a := gap_4a r; post_crc_syncs := post_crc_syncs r;
     write_sector := write_sector r; sec_base := v; sec_map := sec_map r;
     nr_sectors := nr_sectors r; sec_no := sec_no r;
     interleave := interleave r; skew := skew r;
     skew_cyls_only := skew_cyls_only r; data_rate := data_rate r;
     gap_4 := gap_4 r; idx_sz := idx_sz r; idam_sz := idam_sz r;
     dam_sz_pre := dam_sz_pre r; dam_sz_post := dam_sz_post r;
     rpm := rpm r |}.
Definition set_sec_map (v : list Z) (r : image_img) : image_img :=
  {| trk_off := trk_off r; base_off := base_off r; trk_sec := trk_sec r;
     rd_sec_pos := rd_sec_pos r; decode_pos := decode_pos r;
     decode_data_pos := decode_data_pos r; crc := crc r; layout := layout r;
     has_iam := has_iam r; gap_2 := gap_2 r; gap_3 := gap_3 r;
     gap_4a := gap_4a r; post_crc_syncs := post_crc_syncs r;
     write_sector := write_sector r; sec_base := sec_base r; sec_map := v;
     nr_sectors := nr_sectors r; sec_no := sec_no r;
     interleave := interleave r; skew := skew r;
     skew_cyls_only := skew_cyls_only r; data_rate := data_rate r;
     gap_4 := gap_4 r; idx_sz := idx_sz r; idam_sz := idam_sz r;
     dam_sz_pre := dam_sz_pre r; dam_sz_post := dam_sz_post r;
     rpm := rpm r |}.
Definition set_nr_sectors (v : Z) (r : image_img) : image_img :=
  {| trk_off := trk_off r; base_off := base_off r; trk_sec := trk_sec r;
     rd_sec_pos := rd_sec_pos r; decode_pos := decode_pos r;
     decode_data_pos := decode_data_pos r; crc := crc r; layout := layout r;
     has_iam := has_iam r; gap_2 := gap_2 r; gap_3 := gap_3 r;
     gap_4a := gap_4a r; post_crc_syncs := post_crc_syncs r;
     write_sector := write_sector r; sec_base := sec_base r;
     sec_map := sec_map r; nr_sectors := v; sec_no := sec_no r;
     interleave := interleave r; skew := skew r;
     skew_cyls_only := skew_cyls_only r; data_rate := data_rate r;
     gap_4 := gap_4 r; idx_sz := idx_sz r; idam_sz := idam_sz r;
     dam_sz_pre := dam_sz_pre r; dam_sz_post := dam_sz_post r;
     rpm := rpm r |}.
Definition set_sec_no (v : Z) (r : image_img) : image_img :=
  {| trk_off := trk_off r; base_off := base_off r; trk_sec := trk_sec r;
     rd_sec_pos := rd_sec_pos r; decode_pos := decode_pos r;
     decode_data_pos := decode_data_pos r; crc := crc r; layout := layout r;
     has_iam := has_iam r; gap_2 := gap_2 r; gap_3 := gap_3 r;
     gap_4a := gap_4a r; post_crc_syncs := post_crc_syncs r;
     write_sector := write_sector r; sec_base := sec_base r;
     sec_map := sec_map r; nr_sectors := nr_sectors r; sec_no := v;
     interleave := interleave r; skew := skew r;
     skew_cyls_only := skew_cyls_only r; data_rate := data_rate r;
     gap_4 := gap_4 r; idx_sz := idx_sz r; idam_sz := idam_sz r;
     dam_sz_pre := dam_sz_pre r; dam_sz_post := dam_sz_post r;
     rpm := rpm r |}.
Definition set_interleave (v : Z) (r : image_img) : image_img :=
  {| trk_off := trk_off r; base_off := base_off r; trk_sec := trk_sec r;
     rd_sec_pos := rd_sec_pos r; decode_pos := decode_pos r;
     decode_data_pos := decode_data_pos r; crc := crc r; layout := layout r;
     has_iam := has_iam r; gap_2 := gap_2 r; gap_3 := gap_3 r;
     gap_4a := gap_4a r; post_crc_syncs := post_crc_syncs r;
     write_sector := write_sector r; sec_base := sec_base r;
     sec_map := sec_map r; nr_sectors := nr_sectors r; sec_no := sec_no r;
     interleave := v; skew := skew r; skew_cyls_only := skew_cyls_only r;
     data_rate := data_rate r; gap_4 := gap_4 r; idx_sz := idx_sz r;
     idam_sz := idam_sz r; dam_sz_pre := dam_sz_pre r;
     dam_sz_post := dam_sz_post r; rpm := rpm r |}.
Definition set_skew (v : Z) (r : image_img) : image_img :=
  {| trk_off := trk_off r; base_off := base_off r; trk_sec := trk_sec r;
     rd_sec_pos := rd_sec_pos r; decode_pos := decode_pos r;
     decode_data_pos := decode_data_pos r; crc := crc r; layout := layout r;
     has_iam := has_iam r; gap_2 := gap_2 r; gap_3 := gap_3 r;
     gap_4a := gap_4a r; post_crc_syncs := post_crc_syncs r;
     write_sector := write_sector r; sec_base := sec_base r;
     sec_map := sec_map r; nr_sectors := nr_sectors r; sec_no := sec_no r;
     interleave := interleave r; skew := v;
     skew_cyls_only := skew_cyls_only r; data_rate := data_rate r;
     gap_4 := gap_4 r; idx_sz := idx_sz r; idam_sz := idam_sz r;
     dam_sz_pre := dam_sz_pre r; dam_sz_post := dam_sz_post r;
     rpm := rpm r |}.
Definition set_skew_cyls_only (v : bool) (r : image_img) : image_img :=
  {| trk_off := trk_off r; base_off := base_off r; trk_sec := trk_sec r;
     rd_sec_pos := rd_sec_pos r; decode_pos := decode_pos r;
     decode_data_pos := decode_data_pos r; crc := crc r; layout := layout r;
     has_iam := has_iam r; gap_2 := gap_2 r; gap_3 := gap_3 r;
     gap_4a := gap_4a r; post_crc_syncs := post_crc_syncs r;
     write_sector := write_sector r; sec_base := sec_base r;
     sec_map := sec_map r; nr_sectors := nr_sectors r; sec_no := sec_no r;
     interleave := interleave r; skew := skew r; skew_cyls_only := v;
     data_rate := data_rate r; gap_4 := gap_4 r; idx_sz := idx_sz r;
     idam_sz := idam_sz r; dam_sz_pre := dam_sz_pre r;
     dam_sz_post := dam_sz_post r; rpm := rpm r |}.
Definition set_data_rate (v : Z) (r : image_img) : image_img :=
  {| trk_off := trk_off r; base_off := base_off r; trk_sec := trk_sec r;
     rd_sec_pos := rd_sec_pos r; decode_pos := decode_pos r;
     decode_data_pos := decode_data_pos r; crc := crc r; layout := layout r;
     has_iam := has_iam r; gap_2 := gap_2 r; gap_3 := gap_3 r;
     gap_4a := gap_4a r; post_crc_syncs := post_crc_syncs r;
     write_sector := write_sector r; sec_base := sec_base r;
     sec_map := sec_map r; nr_sectors := nr_sectors r; sec_no := sec_no r;
     interleave := interleave r; skew := skew r;
     skew_cyls_only := skew_cyls_only r; data_rate := v; gap_4 := gap_4 r;
     idx_sz := idx_sz r; idam_sz := idam_sz r; dam_sz_pre := dam_sz_pre r;
     dam_sz_post := dam_sz_post r; rpm := rpm r |}.
Definition set_gap_4 (v : Z) (r : image_img) : image_img :=
  {| trk_off := trk_off r; base_off := base_off r; trk_sec := trk_sec r;
     rd_sec_pos := rd_sec_pos r; decode_pos := decode_pos r;
     decode_data_pos := decode_data_pos r; crc := crc r; layout := layout r;
     has_iam := has_iam r; gap_2 := gap_2 r; gap_3 := gap_3 r;
     gap_4a := gap_4a r; post_crc_syncs := post_crc_syncs r;
     write_sector := write_sector r; sec_base := sec_base r;
     sec_map := sec_map r; nr_sectors := nr_sectors r; sec_no := sec_no r;
     interleave := interleave r; skew := skew r;
     skew_cyls_only := skew_cyls_only r; data_rate := data_rate r;
     gap_4 := v; idx_sz := idx_sz r; idam_sz := idam_sz r;
     dam_sz_pre := dam_sz_pre r; dam_sz_post := dam_sz_post r;
     rpm := rpm r |}.
Definition set_idx_sz (v : Z) (r : image_img) : image_img :=
  {| trk_off := trk_off r; base_off := base_off r; trk_sec := trk_sec r;
     rd_sec_pos := rd_sec_pos r; decode_pos := decode_pos r;
     decode_data_pos := decode_data_pos r; crc := crc r; layout := layout r;
     has_iam := has_iam r; gap_2 := gap_2 r; gap_3 := gap_3 r;
     gap_4a := gap_4a r; post_crc_syncs := post_crc_syncs r;
     write_sector := write_sector r; sec_base := sec_base r;
     sec_map := sec_map r; nr_sectors := nr_sectors r; sec_no := sec_no r;
     interleave := interleave r; skew := skew r;
     skew_cyls_only := skew_cyls_only r; data_rate := data_rate r;
     gap_4 := gap_4 r; idx_sz := v; idam_sz := idam_sz r;
     dam_sz_pre := dam_sz_pre r; dam_sz_post := dam_sz_post r;
     rpm := rpm r |}.
Definition set_idam_sz (v : Z) (r : image_img) : image_img :=
  {| trk_off := trk_off r; base_off := base_off r; trk_sec := trk_sec r;
     rd_sec_pos := rd_sec_pos r; decode_pos := decode_pos r;
     decode_data_pos := decode_data_pos r; crc := crc r; layout := layout r;
     has_iam := has_iam r; gap_2 := gap_2 r; gap_3 := gap_3 r;
     gap_4a := gap_4a r; post_crc_syncs := post_crc_syncs r;
     write_sector := write_sector r; sec_base := sec_base r;
     sec_map := sec_map r; nr_sectors := nr_sectors r; sec_no := sec_no r;
     interleave := interleave r; skew := skew r;
     skew_cyls_only := skew_cyls_only r; data_rate := data_rate r;
     gap_4 := gap_4 r; idx_sz := idx_sz r; idam_sz := v;
     dam_sz_pre := dam_sz_pre r; dam_sz_post := dam_sz_post r;
     rpm := rpm r |}.
Definition set_dam_sz_pre (v : Z) (r : image_img) : image_img :=
  {| trk_off := trk_off r; base_off := base_off r; trk_sec := trk_sec r;
     rd_sec_pos := rd_sec_pos r; decode_pos := decode_pos r;
     decode_data_pos := decode_data_pos r; crc := crc r; layout := layout r;
     has_iam := has_iam r; gap_2 := gap_2 r; gap_3 := gap_3 r;
     gap_4a := gap_4a r; post_crc_syncs := post_crc_syncs r;
     write_sector := write_sector r; sec_base := sec_base r;
     sec_map := sec_map r; nr_sectors := nr_sectors r; sec_no := sec_no r;
     interleave := interleave r; skew := skew r;
     skew_cyls_only := skew_cyls_only r; data_rate := data_rate r;
     gap_4 := gap_4 r; idx_sz := idx_sz r; idam_sz := idam_sz r;
     dam_sz_pre := v; dam_sz_post := dam_sz_post r; rpm := rpm r |}.
Definition set_dam_sz_post (v : Z) (r : image_img) : image_img :=
  {| trk_off := trk_off r; base_off := base_off r; trk_sec := trk_sec r;
     rd_sec_pos := rd_sec_pos r; decode_pos := decode_pos r;
     decode_data_pos := decode_data_pos r; crc := crc r; layout := layout r;
     has_iam := has_iam r; gap_2 := gap_2 r; gap_3 := gap_3 r;
     gap_4a := gap_4a r; post_crc_syncs := post_crc_syncs r;
     write_sector := write_sector r; sec_base := sec_base r;
     sec_map := sec_map r; nr_sectors := nr_sectors r; sec_no := sec_no r;
     interleave := interleave r; skew := skew r;
     skew_cyls_only := skew_cyls_only r; data_rate := data_rate r;
     gap_4 := gap_4 r; idx_sz := idx_sz r; idam_sz := idam_sz r;
     dam_sz_pre := dam_sz_pre r; dam_sz_post := v; rpm := rpm r |}.
Definition set_rpm (v : Z) (r : image_img) : image_img :=
  {| trk_off := trk_off r; base_off := base_off r; trk_sec := trk_sec r;
     rd_sec_pos := rd_sec_pos r; decode_pos := decode_pos r;
     decode_data_pos := decode_data_pos r; crc := crc r; layout := layout r;
     has_iam := has_iam r; gap_2 := gap_2 r; gap_3 := gap_3 r;
     gap_4a := gap_4a r; post_crc_syncs := post_crc_syncs r;
     write_sector := write_sector r; sec_base := sec_base r;
     sec_map := sec_map r; nr_sectors := nr_sectors r; sec_no := sec_no r;
     interleave := interleave r; skew := skew r;
     skew_cyls_only := skew_cyls_only r; data_rate := data_rate r;
     gap_4 := gap_4 r; idx_sz := idx_sz r; idam_sz := idam_sz r;
     dam_sz_pre := dam_sz_pre r; dam_sz_post := dam_sz_post r; rpm := v |}.

(** The image handle, restricted to what img.c reads and writes. *)
Record image : Type := mk_image {
  fp : FIL;
  nr_cyls : Z;  (* uint8_t *)
  nr_sides : Z;  (* uint8_t *)
  cur_track : Z;  (* uint16_t *)
  cur_bc : Z;  (* uint32_t *)
  cur_ticks : Z;  (* uint32_t *)
  ticks_since_flux : Z;  (* uint32_t *)
  tracklen_bc : Z;  (* uint32_t *)
  ticks_per_cell : Z;  (* uint32_t *)
  write_bc_ticks : Z;  (* uint32_t *)
  stk_per_rev : Z;  (* uint32_t *)
  sync : sync_mode;
  read_data : image_buf;  (* bufs.read_data *)
  read_bc : image_buf;  (* bufs.read_bc *)
  img : image_img
}.

Definition set_fp (v : FIL) (r : image) : image :=
  {| fp := v; nr_cyls := nr_cyls r; nr_sides := nr_sides r;
     cur_track := cur_track r; cur_bc := cur_bc r; cur_ticks := cur_ticks r;
     ticks_since_flux := ticks_since_flux r; tracklen_bc := tracklen_bc r;
     ticks_per_cell := ticks_per_cell r; write_bc_ticks := write_bc_ticks r;
     stk_per_rev := stk_per_rev r; sync := sync r; read_data := read_data r;
     read_bc := read_bc r; img := img r |}.
Definition set_nr_cyls (v : Z) (r : image) : image :=
  {| fp := fp r; nr_cyls := v; nr_sides := nr_sides r;
     cur_track := cur_track r; cur_bc := cur_bc r; cur_ticks := cur_ticks r;
     ticks_since_flux := ticks_since_flux r; tracklen_bc := tracklen_bc r;
     ticks_per_cell := ticks_per_cell r; write_bc_ticks := write_bc_ticks r;
     stk_per_rev := stk_per_rev r; sync := sync r; read_data := read_data r;
     read_bc := read_bc r; img := img r |}.
Definition set_nr_sides (v : Z) (r : image) : image :=
  {| fp := fp r; nr_cyls := nr_cyls r; nr_sides := v;
     cur_track := cur_track r; cur_bc := cur_bc r; cur_ticks := cur_ticks r;
     ticks_since_flux := ticks_since_flux r; tracklen_bc := tracklen_bc r;
     ticks_per_cell := ticks_per_cell r; write_bc_ticks := write_bc_ticks r;
     stk_per_rev := stk_per_rev r; sync := sync r; read_data := read_data r;
     read_bc := read_bc r; img := img r |}.
Definition set_cur_track (v : Z) (r : image) : image :=
  {| fp := fp r; nr_cyls := nr_cyls r; nr_sides := nr_sides r;
     cur_track := v; cur_bc := cur_bc r; cur_ticks := cur_ticks r;
     ticks_since_flux := ticks_since_flux r; tracklen_bc := tracklen_bc r;
     ticks_per_cell := ticks_per_cell r; write_bc_ticks := write_bc_ticks r;
     stk_per_rev := stk_per_rev r; sync := sync r; read_data := read_data r;
     read_bc := read_bc r; img := img r |}.
Definition set_cur_bc (v : Z) (r : image) : image :=
  {| fp := fp r; nr_cyls := nr_cyls r; nr_sides := nr_sides r;
     cur_track := cur_track r; cur_bc := v; cur_ticks := cur_ticks r;
     ticks_since_flux := ticks_since_flux r; tracklen_bc := tracklen_bc r;
     ticks_per_cell := ticks_per_cell r; write_bc_ticks := write_bc_ticks r;
     stk_per_rev := stk_per_rev r; sync := sync r; read_data := read_data r;
     read_bc := read_bc r; img := img r |}.
Definition set_cur_ticks (v : Z) (r : image) : image :=
  {| fp := fp r; nr_cyls := nr_cyls r; nr_sides := nr_sides r;
     cur_track := cur_track r; cur_bc := cur_bc r; cur_ticks := v;
     ticks_since_flux := ticks_since_flux r; tracklen_bc := tracklen_bc r;
     ticks_per_cell := ticks_per_cell r; write_bc_ticks := write_bc_ticks r;
     stk_per_rev := stk_per_rev r; sync := sync r; read_data := read_data r;
     read_bc := read_bc r; img := img r |}.
Definition set_ticks_since_flux (v : Z) (r : image) : image :=
  {| fp := fp r; nr_cyls := nr_cyls r; nr_sides := nr_sides r;
     cur_track := cur_track r; cur_bc := cur_bc r; cur_ticks := cur_ticks r;
     ticks_since_flux := v; tracklen_bc := tracklen_bc r;
     ticks_per_cell := ticks_per_cell r; write_bc_ticks := write_bc_ticks r;
     stk_per_rev := stk_per_rev r; sync := sync r; read_data := read_data r;
     read_bc := read_bc r; img := img r |}.
Definition set_tracklen_bc (v : Z) (r : image) : image :=
  {| fp := fp r; nr_cyls := nr_cyls r; nr_sides := nr_sides r;
     cur_track := cur_track r; cur_bc := cur_bc r; cur_ticks := cur_ticks r;
     ticks_since_flux := ticks_since_flux r; tracklen_bc := v;
     ticks_per_cell := ticks_per_cell r; write_bc_ticks := write_bc_ticks r;
     stk_per_rev := stk_per_rev r; sync := sync r; read_data := read_data r;
     read_bc := read_bc r; img := img r |}.
Definition set_ticks_per_cell (v : Z) (r : image) : image :=
  {| fp := fp r; nr_cyls := nr_cyls r; nr_sides := nr_sides r;
     cur_track := cur_track r; cur_bc := cur_bc r; cur_ticks := cur_ticks r;
     ticks_since_flux := ticks_since_flux r; tracklen_bc := tracklen_bc r;
     ticks_per_cell := v; write_bc_ticks := write_bc_ticks r;
     stk_per_rev := stk_per_rev r; sync := sync r; read_data := read_data r;
     read_bc := read_bc r; img := img r |}.
Definition set_write_bc_ticks (v : Z) (r : image) : image :=
  {| fp := fp r; nr_cyls := nr_cyls r; nr_sides := nr_sides r;
     cur_track := cur_track r; cur_bc := cur_bc r; cur_ticks := cur_ticks r;
     ticks_since_flux := ticks_since_flux r; tracklen_bc := tracklen_bc r;
     ticks_per_cell := ticks_per_cell r; write_bc_ticks := v;
     stk_per_rev := stk_per_rev r; sync := sync r; read_data := read_data r;
     read_bc := read_bc r; img := img r |}.
Definition set_stk_per_rev (v : Z) (r : image) : image :=
  {| fp := fp r; nr_cyls := nr_cyls r; nr_sides := nr_sides r;
     cur_track := cur_track r; cur_bc := cur_bc r; cur_ticks := cur_ticks r;
     ticks_since_flux := ticks_since_flux r; tracklen_bc := tracklen_bc r;
     ticks_per_cell := ticks_per_cell r; write_bc_ticks := write_bc_ticks r;
     stk_per_rev := v; sync := sync r; read_data := read_data r;
     read_bc := read_bc r; img := img r |}.
Definition set_sync (v : sync_mode) (r : image) : image :=
  {| fp := fp r; nr_cyls := nr_cyls r; nr_sides := nr_sides r;
     cur_track := cur_track r; cur_bc := cur_bc r; cur_ticks := cur_ticks r;
     ticks_since_flux := ticks_since_flux r; tracklen_bc := tracklen_bc r;
     ticks_per_cell := ticks_per_cell r; write_bc_ticks := write_bc_ticks r;
     stk_per_rev := stk_per_rev r; sync := v; read_data := read_data r;
     read_bc := read_bc r; img := img r |}.
Definition set_read_data (v : image_buf) (r : image) : image :=
  {| fp := fp r; nr_cyls := nr_cyls r; nr_sides := nr_sides r;
     cur_track := cur_track r; cur_bc := cur_bc r; cur_ticks := cur_ticks r;
     ticks_since_flux := ticks_since_flux r; tracklen_bc := tracklen_bc r;
     ticks_per_cell := ticks_per_cell r; write_bc_ticks := write_bc_ticks r;
     stk_per_rev := stk_per_rev r; sync := sync r; read_data := v;
     read_bc := read_bc r; img := img r |}.
Definition set_read_bc (v : image_buf) (r : image) : image :=
  {| fp := fp r; nr_cyls := nr_cyls r; nr_sides := nr_sides r;
     cur_track := cur_track r; cur_bc := cur_bc r; cur_ticks := cur_ticks r;
     ticks_since_flux := ticks_since_flux r; tracklen_bc := tracklen_bc r;
     ticks_per_cell := ticks_per_cell r; write_bc_ticks := write_bc_ticks r;
     stk_per_rev := stk_per_rev r; sync := sync r; read_data := read_data r;
     read_bc := v; img := img r |}.
Definition set_img (v : image_img) (r : image) : image :=
  {| fp := fp r; nr_cyls := nr_cyls r; nr_sides := nr_sides r;
     cur_track := cur_track r; cur_bc := cur_bc r; cur_ticks := cur_ticks r;
     ticks_since_flux := ticks_since_flux r; tracklen_bc := tracklen_bc r;
     ticks_per_cell := ticks_per_cell r; write_bc_ticks := write_bc_ticks r;
     stk_per_rev := stk_per_rev r; sync := sync r; read_data := read_data r;
     read_bc := read_bc r; img := v |}.

Definition on_img (f : image_img -> image_img) (im : image) : image :=
  set_img (f (img im)) im.
Definition on_read_data (f : image_buf -> image_buf) (im : image) : image :=
  set_read_data (f (read_data im)) im.
Definition on_read_bc (f : image_buf -> image_buf) (im : image) : image :=
  set_read_bc (f (read_bc im)) im.

(** [memset(&im->img, 0, sizeof(im->img))]. *)
Definition img_zero : image_img :=
  {| trk_off := 0; base_off := 0; trk_sec := 0; rd_sec_pos := 0;
     decode_pos := 0; decode_data_pos := 0; crc := 0; layout := 0;
     has_iam := false; gap_2 := 0; gap_3 := 0; gap_4a := 0;
     post_crc_syncs := 0; write_sector := 0; sec_base := (0, 0);
     sec_map := replicate (Z.to_nat MAX_SECS) 0; nr_sectors := 0;
     sec_no := 0; interleave := 0; skew := 0; skew_cyls_only := false;
     data_rate := 0; gap_4 := 0; idx_sz := 0; idam_sz := 0;
     dam_sz_pre := 0; dam_sz_post := 0; rpm := 0 |}.

Definition LAYOUT_interleaved : Z := 0.
Definition LAYOUT_interleaved_swap_sides : Z := 1.
Definition LAYOUT_sequential_reverse_side1 : Z := 2.

(** [#define sec_sz(im) (128u << (im)->img.sec_no)] *)
Definition sec_sz (im : image) : Z := u32 (Z.shiftl 128 (sec_no (img im))).

(** ** Type tables *)

Definition _IAM : Z := 1.
Definition _ITN : Z := 1.
Definition _C (cyls : Z) : Z := cyls / 40.
Definition _R (rpm : Z) : Z := rpm / 60 - 5.
Definition _S (sides : Z) : Z := sides - 1.

(** [struct img_type]; the tables below carry the names of the C arrays. *)
Record struct_img_type : Type := TY {
  ty_nr_secs : Z;
  ty_nr_sides : Z;
  ty_has_iam : Z;
  ty_gap3 : Z;
  ty_interleave : Z;
  ty_no : Z;
  ty_base : Z;
  ty_inter_track_numbering : Z;
  ty_skew : Z;
  ty_cyls : Z;
  ty_rpm : Z
}.

(** The terminating [{ 0 }] entry. *)
Definition TY_end : struct_img_type := TY 0 0 0 0 0 0 0 0 0 0 0.

Definition img_type : list struct_img_type :=
  [ TY  8 (_S 1) _IAM 84 1 2 1 0 0 (_C 40) (_R 300);  (* 160k *)
    TY  9 (_S 1) _IAM 84 1 2 1 0 0 (_C 40) (_R 300);  (* 180k *)
    TY 10 (_S 1) _IAM 30 1 2 1 0 0 (_C 40) (_R 300);  (* 200k *)
    TY  8 (_S 2) _IAM 84 1 2 1 0 0 (_C 40) (_R 300);  (* 320k *)
    TY  9 (_S 2) _IAM 84 1 2 1 0 0 (_C 40) (_R 300);  (* 360k (#1) *)
    TY 10 (_S 2) _IAM 30 1 2 1 0 0 (_C 40) (_R 300);  (* 400k (#1) *)
    TY 15 (_S 2) _IAM 84 1 2 1 0 0 (_C 80) (_R 360);  (* 1.2MB *)
    TY  9 (_S 1) _IAM 84 1 2 1 0 0 (_C 80) (_R 300);  (* 360k (#2) *)
    TY 10 (_S 1) _IAM 30 1 2 1 0 0 (_C 80) (_R 300);  (* 400k (#2) *)
    TY 11 (_S 1) _IAM  3 2 2 1 0 0 (_C 80) (_R 300);  (* 440k *)
    TY  8 (_S 2) _IAM 84 1 2 1 0 0 (_C 80) (_R 300);  (* 640k *)
    TY  9 (_S 2) _IAM 84 1 2 1 0 0 (_C 80) (_R 300);  (* 720k *)
    TY 10 (_S 2) _IAM 30 1 2 1 0 0 (_C 80) (_R 300);  (* 800k *)
    TY 11 (_S 2) _IAM  3 2 2 1 0 0 (_C 80) (_R 300);  (* 880k *)
    TY 18 (_S 2) _IAM 84 1 2 1 0 0 (_C 80) (_R 300);  (* 1.44M *)
    TY 19 (_S 2) _IAM 70 1 2 1 0 0 (_C 80) (_R 300);  (* 1.52M *)
    TY 21 (_S 2) _IAM 18 2 2 1 0 0 (_C 80) (_R 300);  (* 1.68M *)
    TY 20 (_S 2) _IAM 40 1 2 1 0 0 (_C 80) (_R 300);  (* 1.6M *)
    TY 36 (_S 2) _IAM 84 1 2 1 0 0 (_C 80) (_R 300);  (* 2.88M *)
    TY_end ].

Definition akai_type : list struct_img_type :=
  [ TY  5 (_S 2) _IAM 116 1 3 1 0 0 (_C 80) (_R 300);  (* Akai DD *)
    TY 10 (_S 2) _IAM 116 1 3 1 0 0 (_C 80) (_R 300);  (* Akai HD *)
    TY_end ].

Definition casio_type : list struct_img_type :=
  [ TY 8 (_S 2) _IAM 116 3 3 1 0 0 (_C 80) (_R 360);  (* 1280k *)
    TY_end ].

Definition dec_type : list struct_img_type :=
  [ TY 10 (_S 1) _IAM 30 1 2 1 0 0 (_C 80) (_R 300);  (* RX50 (400k) *)
    TY_end ].

Definition ensoniq_type : list struct_img_type :=
  [ TY 10 (_S 2) _IAM 30 1 2 0 0 0 (_C 80) (_R 300);  (* 800kB *)
    TY 20 (_S 2) _IAM 40 1 2 0 0 0 (_C 80) (_R 300);  (* 1.6MB *)
    TY_end ].

Definition fluke_type : list struct_img_type :=
  [ TY 16 (_S 2) _IAM 57 2 1 0 0 0 (_C 80) (_R 300);
    TY_end ].

Definition kaypro_type : list struct_img_type :=
  [ TY 10 (_S 1) _IAM 30 3 2 0 _ITN 0 (_C 40) (_R 300);  (* 200k *)
    TY 10 (_S 2) _IAM 30 3 2 0 _ITN 0 (_C 40) (_R 300);  (* 400k *)
    TY 10 (_S 2) _IAM 30 3 2 0 _ITN 0 (_C 80) (_R 300);  (* 800k *)
    TY_end ].

Definition memotech_type : list struct_img_type :=
  [ TY 16 (_S 2) _IAM 57 3 1 1 0 0 (_C 40) (_R 300);  (* Type 03 *)
    TY 16 (_S 2) _IAM 57 3 1 1 0 0 (_C 80) (_R 300);  (* Type 07 *)
    TY_end ].

Definition msx_type : list struct_img_type :=
  [ TY 8 (_S 1) _IAM 84 1 2 1 0 0 (_C 80) (_R 300);  (* 320k *)
    TY 9 (_S 1) _IAM 84 1 2 1 0 0 (_C 80) (_R 300);  (* 360k *)
    TY_end ].

Definition nascom_type : list struct_img_type :=
  [ TY 16 (_S 1) _IAM 57 3 1 1 0 8 (_C 80) (_R 300);  (* 320k *)
    TY 16 (_S 2) _IAM 57 3 1 1 0 8 (_C 80) (_R 300);  (* 360k *)
    TY_end ].

Definition pc98_type : list struct_img_type :=
  [ TY 8 (_S 2) _IAM 116 1 3 1 0 0 (_C 80) (_R 360);  (* 1232k *)
    TY 8 (_S 2) _IAM 116 1 2 1 0 0 (_C 80) (_R 360);  (* 640k *)
    TY 9 (_S 2) _IAM 116 1 2 1 0 0 (_C 80) (_R 360);  (* 720k *)
    TY_end ].

Definition uknc_type : list struct_img_type :=
  [ TY 10 (_S 2) 0 38 1 2 1 0 0 (_C 80) (_R 300);
    TY_end ].

(** ** Helpers of the IMG block *)

Definition im_size (im : image) : Z :=
  if f_size (fp im) <? base_off (img im) then 0
  else f_size (fp im) - base_off (img im).

(** Element [k] of a two-element array. *)
Definition at2 (a : Z * Z) (k : Z) : Z := if k =? 0 then fst a else snd a.

(** [sec_base(im)]: the base sector number of the current head. *)
Definition sec_base_of (im : image) : Z :=
  at2 (sec_base (img im)) (Z.land (cur_track im) (nr_sides im - 1)).

Definition enc_sec_sz (im : image) : Z :=
  u32 (idam_sz (img im) + dam_sz_pre (img im) + sec_sz im
       + dam_sz_post (img im)).

(** ** MFM geometry: mfm_open *)

Definition GAP_1 : Z := 50.    (* Post-IAM *)
Definition GAP_2 : Z := 22.    (* Post-IDAM *)
Definition GAP_4A : Z := 80.   (* Post-Index *)
Definition GAP_SYNC : Z := 12.

(** Shrink the IDAM pre-sync gap if sectors are close together. *)
Definition idam_gap_sync (im : image) : Z := min_t (gap_3 (img im)) GAP_SYNC.

Definition GAP_3 : list Z := [32; 54; 84; 116; 255; 255; 255; 255].

(** The data-rate loop [for (i = 0; i < 3; i++)]: stops at the first [i]
    whose [maxlen] exceeds [tracklen], or leaves [i] at 3. *)
Fixpoint rate_loop (todo : nat) (i rpm tracklen : Z) : Z :=
  match todo with
  | O => i
  | S todo' =>
      let maxlen := u32 (Z.shiftl (50000 * 300 / rpm) i + 5000) in
      if tracklen <? maxlen then i else rate_loop todo' (i + 1) rpm tracklen
  end.

(** mfm_open is long; its consecutive blocks are named so that each can be
    reasoned about on its own.  First block: defaults for what the caller
    left at zero. *)
Definition mfm_defaults `{Clock} (im : image) : image :=
  let im := on_img (set_rpm (or_default (rpm (img im)) 300)) im in
  let im := on_img (set_gap_2 (or_default (gap_2 (img im)) GAP_2)) im in
  let im := on_img (set_gap_3 (or_default (gap_3 (img im))
                               (GAP_3 !!! Z.to_nat (sec_no (img im))))) im in
  let im := on_img (set_gap_4a (or_default (gap_4a (img im)) GAP_4A)) im in
  set_stk_per_rev (u32 (stk_ms 200 * 300 / rpm (img im))) im.

(** Second block: the sizes of the track regions, in bytes. *)
Definition mfm_sizes (im : image) : image :=
  let im := on_img (set_idx_sz (gap_4a (img im))) im in
  let im := on_img (set_idx_sz
                      (if has_iam (img im)
                       then u32 (idx_sz (img im) + (GAP_SYNC + 4 + GAP_1))
                       else idx_sz (img im))) im in
  let im := on_img (set_idam_sz
                      (u32 (idam_gap_sync im + 8 + 2 + gap_2 (img im)))) im in
  let im := on_img (set_dam_sz_pre (u16 (GAP_SYNC + 4))) im in
  let im := on_img (set_dam_sz_post (u16 (2 + gap_3 (img im)))) im in
  let im := on_img (set_idam_sz
                      (u32 (idam_sz (img im) + post_crc_syncs (img im)))) im in
  on_img (set_dam_sz_post
            (u16 (dam_sz_post (img im) + post_crc_syncs (img im)))) im.

(** Work out minimum track length (with no pre-index track gap). *)
Definition min_tracklen (im : image) : Z :=
  let tracklen := u32 (enc_sec_sz im * nr_sectors (img im)) in
  let tracklen := u32 (tracklen + idx_sz (img im)) in
  u32 (tracklen * 16).

(** Infer the data rate and hence the standard track length. *)
Definition mfm_rate (tracklen : Z) (im : image) : image :=
  let i := rate_loop 3 0 (rpm (img im)) tracklen in
  let im := on_img (set_data_rate (u16 (Z.shiftl 250 i))) im in
  set_tracklen_bc (u32 (data_rate (img im) * 200 * 300 / rpm (img im))) im.

(** Does the track data fit within standard track length? *)
Definition mfm_fit (tracklen : Z) (im : image) : Z * image :=
  if tracklen_bc im <? tracklen then
    if u32 (tracklen - gap_4a (img im) * 16) <=? tracklen_bc im then
      (* Eliminate the post-index gap 4a if that suffices. *)
      let tracklen' := u32 (tracklen - gap_4a (img im) * 16) in
      let im := on_img (set_idx_sz
                          (u32 (idx_sz (img im) - gap_4a (img im)))) im in
      (tracklen', on_img (set_gap_4a 0) im)
    else
      (* Extend the track length ("long track"). *)
      (tracklen, set_tracklen_bc (u32 (tracklen + 100)) im)
  else (tracklen, im).

(** Last block, the same in mfm_open and fm_open: round the track length
    up to a multiple of 32 bitcells, then derive the timings and GAP4. *)
Definition track_finish `{Clock} (tracklen : Z) (im : image) : image :=
  let im := set_tracklen_bc
              (Z.land (u32 (tracklen_bc im + 31)) (u32 (Z.lnot 31))) im in
  let im := set_ticks_per_cell
              (u32 (u32 (sysclk_stk (stk_per_rev im) * 16)
                    / tracklen_bc im)) im in
  let im := on_img (set_gap_4 (u16 (u32 (tracklen_bc im - tracklen) / 16))) im in
  set_write_bc_ticks (u32 (sysclk_ms 1 / data_rate (img im))) im.

Definition mfm_open `{Clock} (im : image) : bool * image :=
  if (nr_sides im <? 1) || (2 <? nr_sides im)
     || (nr_cyls im <? 1) || (254 <? nr_cyls im)
     || (nr_sectors (img im) <? 1)
     || (MAX_SECS <? nr_sectors (img im))
  then (false, im)
  else
    let im := mfm_defaults im in
    let im := mfm_sizes im in
    let tracklen := min_tracklen im in
    let im := mfm_rate tracklen im in
    let '(tracklen, im) := mfm_fit tracklen im in
    let im := track_finish tracklen im in
    (true, set_sync SYNC_mfm im).

(** ** FM geometry: fm_open *)

(* 8271 mini-diskette values *)
Definition FM_GAP_2 : Z := 11.
Definition FM_GAP_4A : Z := 16.
Definition FM_GAP_SYNC : Z := 6.

Definition FM_GAP_3 : list Z := [27; 42; 58; 138; 255; 255; 255; 255].

(** The first blocks of fm_open: defaults and region sizes. *)
Definition fm_defaults `{Clock} (im : image) : image :=
  let im := on_img (set_rpm (or_default (rpm (img im)) 300)) im in
  let im := on_img (set_gap_2 (or_default (gap_2 (img im)) FM_GAP_2)) im in
  let im := on_img (set_gap_3 (or_default (gap_3 (img im))
                               (FM_GAP_3 !!! Z.to_nat (sec_no (img im))))) im in
  let im := on_img (set_gap_4a (or_default (gap_4a (img im)) FM_GAP_4A)) im in
  set_stk_per_rev (u32 (stk_ms 200 * 300 / rpm (img im))) im.

Definition fm_sizes (im : image) : image :=
  let im := on_img (set_idx_sz (gap_4a (img im))) im in
  let im := on_img (set_idam_sz
                      (u32 (FM_GAP_SYNC + 5 + 2 + gap_2 (img im)))) im in
  let im := on_img (set_dam_sz_pre (u16 (FM_GAP_SYNC + 1))) im in
  on_img (set_dam_sz_post (u16 (2 + gap_3 (img im)))) im.

(** Data rate is always SD. *)
Definition fm_rate (im : image) : image :=
  let im := on_img (set_data_rate 250) im in
  set_tracklen_bc (u32 (data_rate (img im) * 200 * 300 / rpm (img im))) im.

(** [None] is the failing [ASSERT(im->tracklen_bc > tracklen)]. *)
Definition fm_open `{Clock} (im : image) : option (bool * image) :=
  if (nr_sides im <? 1) || (2 <? nr_sides im)
     || (nr_cyls im <? 1) || (254 <? nr_cyls im)
     || (nr_sectors (img im) <? 1)
     || (MAX_SECS <? nr_sectors (img im))
  then Some (false, im)
  else
    let im := fm_defaults im in
    let im := fm_sizes im in
    let tracklen := min_tracklen im in
    let im := fm_rate im in
    if negb (tracklen <? tracklen_bc im) then None
    else
      let im := track_finish tracklen im in
      Some (true, set_sync SYNC_fm im).

(** ** The type-table matcher: _img_open *)

(** The walk over the table and the inner loop over cylinder counts; the
    result is the matching entry and [nr_cyls], as at label [found]. *)
Fixpoint walk_types (type : list struct_img_type) (size : Z)
  : option (struct_img_type * Z) :=
  match type with
  | [] => None
  | ty :: rest =>
      if ty_nr_secs ty =? 0 then None
      else
        let '(min_cyls, max_cyls) :=
          if ty_cyls ty =? _C 40 then (38, 42) else (77, 85) in
        let nr_sides := ty_nr_sides ty + 1 in
        let cyl_sz := u32 (ty_nr_secs ty * Z.shiftl 128 (ty_no ty) * nr_sides) in
        match List.find (fun nr_cyls => u32 (nr_cyls * cyl_sz) =? size)
                        (seqZ min_cyls (max_cyls - min_cyls + 1))
        with
        | Some nr_cyls => Some (ty, nr_cyls)
        | None => walk_types rest size
        end
  end.

Definition _img_open `{Clock} (type : list struct_img_type) (im : image)
  : bool * image :=
  match walk_types type (im_size im) with
  | None => (false, im)
  | Some (ty, nr_cyls) =>
      let im := set_nr_cyls (u8 nr_cyls) im in
      let im := set_nr_sides (u8 (ty_nr_sides ty + 1)) im in
      let im := on_img (set_sec_no (ty_no ty)) im in
      let im := on_img (set_interleave (ty_interleave ty)) im in
      let im := on_img (set_skew (ty_skew ty)) im in
      let im := on_img (set_nr_sectors (ty_nr_secs ty)) im in
      let im := on_img (set_gap_3 (ty_gap3 ty)) im in
      let im := on_img (set_rpm (u16 ((ty_rpm ty + 5) * 60))) im in
      let im := on_img (set_sec_base (ty_base ty, ty_base ty)) im in
      let im := on_img (set_sec_base
                          (fst (sec_base (img im)),
                           if ty_inter_track_numbering ty =? _ITN
                           then u8 (snd (sec_base (img im))
                                    + nr_sectors (img im))
                           else snd (sec_base (img im)))) im in
      let im := on_img (set_has_iam (negb (ty_has_iam ty =? 0))) im in
      mfm_open im
  end.

(** ** BPB probes: msx_open and pc_dos_open *)

Record bpb : Type := mk_bpb {
  sig : Z;
  bytes_per_sec : Z;
  sec_per_track : Z;
  num_heads : Z;
  tot_sec : Z
}.

(** Each field is read into the same local [uint16_t x], which starts out
    uninitialised. *)
Definition bpb_read `{Uninit} (im : image) : bpb * image :=
  let x := uninit 2 in
  let '(x, f) := F_read 2 x (F_lseek 510 (fp im)) in   (* BS_55AA *)
  let sig := le16 x in
  let '(x, f) := F_read 2 x (F_lseek 11 f) in          (* BPB_BytsPerSec *)
  let bytes_per_sec := le16 x in
  let '(x, f) := F_read 2 x (F_lseek 24 f) in          (* BPB_SecPerTrk *)
  let sec_per_track := le16 x in
  let '(x, f) := F_read 2 x (F_lseek 26 f) in          (* BPB_NumHeads *)
  let num_heads := le16 x in
  let '(x, f) := F_read 2 x (F_lseek 19 f) in          (* BPB_TotSec *)
  let tot_sec := le16 x in
  (mk_bpb sig bytes_per_sec sec_per_track num_heads tot_sec, set_fp f im).

Definition msx_open `{Clock} `{Uninit} (im : image) : bool * image :=
  (* Try to disambiguate overloaded image sizes via the boot sector. *)
  let '(opened, im) :=
    if (im_size im =? 320 * 1024) || (im_size im =? 360 * 1024) then
      let '(b, im) := bpb_read im in
      (* BS_55AA (bpb.sig) is not valid in MSXDOS so don't check it. *)
      if (bytes_per_sec b =? 512)
         && ((num_heads b =? 1) || (num_heads b =? 2))
         && (tot_sec b =? im_size im / bytes_per_sec b)
         && ((sec_per_track b =? 8) || (sec_per_track b =? 9))
      then
        let im := on_img (set_sec_no 2) im in
        let im := on_img (set_nr_sectors (u8 (sec_per_track b))) im in
        let im := set_nr_sides (u8 (num_heads b)) im in
        let im := set_nr_cyls (if nr_sides im =? 1 then 80 else 40) im in
        let im := on_img (set_interleave 1) im in
        let im := on_img (set_sec_base (1, 1)) im in
        let im := on_img (set_skew 0) im in
        let im := on_img (set_has_iam true) im in
        mfm_open im
      else (false, im)
    else (false, im) in
  if opened then (true, im)
  else
    (* Use the MSX-specific list. *)
    let im := set_img img_zero im in
    _img_open msx_type im.

(** [for (sec_no = 0; sec_no <= 6; sec_no++) if (sec_sz(im) == bps) break;]
    leaves [sec_no] at the match, or at 7. *)
Fixpoint scan_sec_no (todo : nat) (no bps : Z) : Z :=
  match todo with
  | O => no
  | S todo' =>
      if u32 (Z.shiftl 128 no) =? bps then no
      else scan_sec_no todo' (no + 1) bps
  end.

Definition pc_dos_open `{Clock} `{Uninit} (im : image) : bool * image :=
  let '(b, im) := bpb_read im in
  if negb (sig b =? 0xaa55) then (false, im)
  else
    let im := on_img (set_sec_no (scan_sec_no 7 0 (bytes_per_sec b))) im in
    if 6 <? sec_no (img im) then (false, im)        (* >8kB? *)
    else if (sec_per_track b =? 0) || (MAX_SECS <? sec_per_track b)
    then (false, im)
    else
      let im := on_img (set_nr_sectors (u8 (sec_per_track b))) im in
      if negb (num_heads b =? 1) && negb (num_heads b =? 2) then (false, im)
      else
        let im := set_nr_sides (u8 (num_heads b)) im in
        let im := set_nr_cyls
                    (u8 ((tot_sec b + nr_sectors (img im) * nr_sides im - 1)
                         / (nr_sectors (img im) * nr_sides im))) im in
        if nr_cyls im =? 0 then (false, im)
        else
          let im := on_img (set_interleave 1) im in
          let im := on_img (set_sec_base (1, 1)) im in
          let im := on_img (set_skew 0) im in
          let im := on_img (set_has_iam true) im in
          mfm_open im.

(** ** TI-99/4A images: ti99_open *)

(** The common tail of every accepted case: cylinders, sides, sectors,
    an optional interleave override and GAP3. *)
Definition ti99_geom (cyls sides secs : Z) (ileave : option Z) (gap3 : Z)
    (im : image) : image :=
  let im := set_nr_cyls cyls im in
  let im := set_nr_sides sides im in
  let im := on_img (set_nr_sectors secs) im in
  let im := match ileave with
            | Some v => on_img (set_interleave v) im
            | None => im
            end in
  on_img (set_gap_3 gap3) im.

Definition ti99_open `{Clock} `{Uninit} (im : image) : option (bool * image) :=
  let fsize := u32 (im_size im) in
  (* Must be a multiple of 256 sectors. *)
  if negb (fsize mod 256 =? 0) then Some (false, im)
  else
    let fsize := fsize / 256 in
    (* Check for 3-sector footer containing a bad sector map. *)
    let fsize := if fsize mod 10 =? 3 then fsize - 3 else fsize in
    (* Main image must be non-zero size. *)
    if fsize =? 0 then Some (false, im)
    else
      (* Check for Volume Information Block in sector 0. *)
      let '(vib, f) := F_read 20 (uninit 20) (fp im) in
      let im := set_fp f im in
      let have_vib := strn_eq 3 (drop 13 vib) [68; 83; 75] in   (* "DSK" *)
      let vib_tracks_per_side := vib !!! 17%nat in
      let vib_sides := vib !!! 18%nat in
      let im := on_img (set_has_iam false) im in
      let im := on_img (set_interleave 4) im in
      let im := on_img (set_skew 3) im in
      let im := on_img (set_skew_cyls_only true) im in
      let im := on_img (set_sec_no 1) im in
      let im := on_img (set_sec_base (0, 0)) im in
      let im := on_img (set_layout LAYOUT_sequential_reverse_side1) im in
      if fsize mod (40 * 9) =? 0 then
        (* 9/18/36 sectors-per-track formats. *)
        let k := fsize / (40 * 9) in
        if k =? 1 then                                    (* SSSD *)
          fm_open (ti99_geom 40 1 9 None 44 im)
        else if k =? 2 then                               (* DSSD (or SSDD) *)
          if have_vib && (vib_sides =? 1)
          then Some (mfm_open (ti99_geom 40 1 18 (Some 5) 24 im))
          else fm_open (ti99_geom 40 2 9 None 44 im)
        else if k =? 4 then                               (* DSDD (or DSSD80) *)
          if have_vib && (vib_tracks_per_side =? 80)
          then fm_open (ti99_geom 80 2 9 None 44 im)
          else Some (mfm_open (ti99_geom 40 2 18 (Some 5) 24 im))
        else if k =? 8 then                               (* DSDD80 *)
          Some (mfm_open (ti99_geom 80 2 18 (Some 5) 24 im))
        else if k =? 16 then                              (* DSHD80 *)
          Some (mfm_open (ti99_geom 80 2 36 (Some 5) 24 im))
        else Some (false, im)
      else if fsize mod (40 * 16) =? 0 then
        (* SSDD/DSDD, 16 sectors *)
        let im := set_nr_sides (u8 (fsize / (40 * 16))) im in
        if nr_sides im <=? 2
        then Some (mfm_open (ti99_geom 40 (nr_sides im) 16 (Some 5) 44 im))
        else Some (false, im)
      else Some (false, im).

(** ** JVC images: jvc_open *)

Definition jvc_open `{Clock} (im : image) : bool * image :=
  let jvc := [18; 1; 1; 1; 0] in   (* spt, sides, ssize_code, sec_id, attr *)
  let im := on_img (set_base_off (Z.land (f_size (fp im)) 255)) im in
  (* Check the image header. *)
  let '(jvc, f) := F_read (min_t (base_off (img im)) 5) jvc (fp im) in
  let im := set_fp f im in
  let spt := jvc !!! 0%nat in
  let sides := jvc !!! 1%nat in
  let ssize_code := jvc !!! 2%nat in
  let sec_id := jvc !!! 3%nat in
  let attr := jvc !!! 4%nat in
  if negb (attr =? 0) || (negb (sides =? 1) && negb (sides =? 2))
     || (spt =? 0)
  then (false, im)
  else
    let im := set_nr_sides sides im in
    let im := on_img (set_sec_no (Z.land ssize_code 3)) im in
    let im := on_img (set_interleave 3) im in
    let im := on_img (set_sec_base (sec_id, sec_id)) im in
    let im := on_img (set_nr_sectors spt) im in
    (* Calculate number of cylinders. *)
    let bps := u32 (Z.shiftl 128 (sec_no (img im))) in
    let bpc := u32 (bps * nr_sectors (img im) * nr_sides im) in
    let im := set_nr_cyls (u8 (im_size im / bpc)) im in
    let '(bpc, im) :=
      if (88 <=? nr_cyls im) && (nr_sides im =? 1) then
        let im := set_nr_sides (u8 (nr_sides im + 1)) im in
        let im := set_nr_cyls (nr_cyls im / 2) im in
        (u32 (bpc * 2), im)
      else (bpc, im) in
    let im := set_nr_cyls (if bps <=? im_size im mod bpc
                           then u8 (nr_cyls im + 1) else nr_cyls im) im in
    let im := on_img (set_gap_3 20) im in
    let im := on_img (set_gap_4a 54) im in
    let im := on_img (set_has_iam true) im in
    mfm_open im.

(** ** Host dispatch: img_open *)

(** [ff_cfg.host], with the values of the host-profile enumeration. *)
Inductive host_t : Type :=
  | HOST_unspecified | HOST_akai | HOST_gem | HOST_casio | HOST_dec
  | HOST_ensoniq | HOST_fluke | HOST_kaypro | HOST_memotech | HOST_msx
  | HOST_nascom | HOST_pc98 | HOST_pc_dos | HOST_ti99 | HOST_uknc.

(** Label [fallback]: the default list on a cleared IMG block. *)
Definition img_open_fallback `{Clock} (im : image) : bool * image :=
  _img_open img_type (set_img img_zero im).

(** Try the host-specific geometries, then fall back. *)
Definition img_open_with `{Clock} (type : list struct_img_type) (im : image)
  : bool * image :=
  let '(ok, im) := _img_open type im in
  if ok then (true, im) else img_open_fallback im.

Definition img_open `{Clock} `{Uninit} (host : host_t) (im : image)
  : option (bool * image) :=
  match host with
  | HOST_akai | HOST_gem => Some (img_open_with akai_type im)
  | HOST_casio => Some (img_open_with casio_type im)
  | HOST_dec => Some (img_open_with dec_type im)
  | HOST_ensoniq => Some (img_open_with ensoniq_type im)
  | HOST_fluke => Some (img_open_with fluke_type im)
  | HOST_kaypro => Some (img_open_with kaypro_type im)
  | HOST_memotech => Some (img_open_with memotech_type im)
  | HOST_msx =>
      let '(ok, im) := msx_open im in
      Some (if ok then (true, im) else img_open_fallback im)
  | HOST_nascom =>
      Some (img_open_with nascom_type (on_img (set_skew_cyls_only true) im))
  | HOST_pc98 => Some (img_open_with pc98_type im)
  | HOST_pc_dos =>
      let '(ok, im) := pc_dos_open im in
      Some (if ok then (true, im) else img_open_fallback im)
  | HOST_ti99 => ti99_open im
  | HOST_uknc =>
      let im := on_img (set_gap_2 24) im in
      let im := on_img (set_gap_4a 27) im in
      let im := on_img (set_post_crc_syncs 1) im in
      Some (_img_open uknc_type im)
  | HOST_unspecified => Some (img_open_with img_type im)
  end.

(** ** The sector mapper: img_seek_track *)

(** [while (sec_map[pos] != 0xff) pos = (pos + 1) % nr_sectors;]
    After [nr_sectors] steps the scan is back where it started, so that
    much fuel decides it: [None] is the loop that never ends. *)
Fixpoint skip_used (fuel : nat) (nr_sectors : Z) (sec_map : list Z) (pos : Z)
  : option Z :=
  if negb (sec_map !!! Z.to_nat pos =? 0xff) then
    match fuel with
    | O => None
    | S fuel' => skip_used fuel' nr_sectors sec_map (u32 (pos + 1) mod nr_sectors)
    end
  else Some pos.

(** [for (i = 0; i < nr_sectors; i++) { ... }], with [todo] the iterations
    still to run. *)
Fixpoint fill_sec_map (todo : nat) (nr_sectors interleave base : Z)
    (i pos : Z) (sec_map : list Z) : option (list Z) :=
  match todo with
  | O => Some sec_map
  | S todo' =>
      pos ← skip_used (Z.to_nat nr_sectors) nr_sectors sec_map pos;
      let sec_map := <[Z.to_nat pos := u8 (i + base)]> sec_map in
      let pos := u32 (pos + interleave) mod nr_sectors in
      fill_sec_map todo' nr_sectors interleave base (i + 1) pos sec_map
  end.

(** [memset(dst, c, n)] on a byte array. *)
Definition memset (dst : list Z) (c : Z) (n : Z) : list Z :=
  replicate (Z.to_nat n) c ++ drop (Z.to_nat n) dst.

Definition img_seek_track (track cyl side : Z) (im : image) : option image :=
  let trk := u32 (cyl * nr_sides im + side) in
  let im := set_cur_track track im in
  (* Create logical sector map in rotational order. *)
  let n := nr_sectors (img im) in
  let im := on_img (set_sec_map (memset (sec_map (img im)) 0xff n)) im in
  let pos := u32 ((if skew_cyls_only (img im) then cyl else trk)
                  * skew (img im)) mod n in
  let base := sec_base_of im in
  sm ← fill_sec_map (Z.to_nat n) n (interleave (img im)) base 0 pos
                    (sec_map (img im));
  let im := on_img (set_sec_map sm) im in
  let trk_len := u32 (n * sec_sz im) in
  let im :=
    on_img (set_trk_off
              (if layout (img im) =? LAYOUT_sequential_reverse_side1 then
                 u32 ((if negb (side =? 0)
                       then u32 (2 * nr_cyls im - cyl - 1) else cyl)
                      * trk_len)
               else
                 let trk := if layout (img im) =? LAYOUT_interleaved_swap_sides
                            then Z.lxor trk (u32 (nr_sides im - 1))
                            else trk in
                 u32 (trk * trk_len))) im in
  Some (on_img (set_trk_off (u32 (trk_off (img im) + base_off (img im)))) im).

(** ** Seeking within a track: calc_start_pos *)

Definition calc_start_pos (im : image) : Z * image :=
  let im := on_img (set_crc 0xffff) im in
  let im := on_img (set_trk_sec 0) im in
  let im := on_img (set_rd_sec_pos 0) im in
  let im := on_img (set_decode_data_pos 0) im in
  let decode_off := cur_bc im / 16 in
  if decode_off <? idx_sz (img im) then
    (* Post-index track gap *)
    (decode_off, on_img (set_decode_pos 0) im)
  else
    let ess := enc_sec_sz im in
    let decode_off := u32 (decode_off - idx_sz (img im)) in
    let im := on_img (set_decode_pos (s32 (decode_off / ess))) im in
    if decode_pos (img im) <? nr_sectors (img im) then
      (* IDAM *)
      let im := on_img (set_trk_sec (u16 (decode_pos (img im)))) im in
      let im := on_img (set_decode_pos (s32 (decode_pos (img im) * 4 + 1))) im in
      let decode_off := u32 (decode_off - trk_sec (img im) * ess) in
      if idam_sz (img im) <=? decode_off then
        (* DAM *)
        let decode_off := u32 (decode_off - idam_sz (img im)) in
        let im := on_img (set_decode_pos (s32 (decode_pos (img im) + 1))) im in
        if dam_sz_pre (img im) <=? decode_off then
          (* Data or Post Data *)
          let decode_off := u32 (decode_off - dam_sz_pre (img im)) in
          let im := on_img (set_decode_pos (s32 (decode_pos (img im) + 1))) im in
          if decode_off <? sec_sz im then
            (* Data *)
            let im := on_img (set_rd_sec_pos (u16 (decode_off / 1024))) im in
            let im := on_img (set_decode_data_pos (rd_sec_pos (img im))) im in
            (decode_off mod 1024, im)
          else
            (* Post Data *)
            let decode_off := u32 (decode_off - sec_sz im) in
            let im := on_img (set_decode_pos (s32 (decode_pos (img im) + 1))) im in
            (* Start fetch at next sector. *)
            let im := on_img (set_trk_sec
                                (u16 ((trk_sec (img im) + 1)
                                      mod nr_sectors (img im)))) im in
            (decode_off, im)
        else (decode_off, im)
      else (decode_off, im)
    else
      (* Pre-index track gap *)
      let decode_off := u32 (decode_off - nr_sectors (img im) * ess) in
      let im := on_img (set_decode_pos
                          (s32 (nr_sectors (img im) * 4 + 1))) im in
      let im := on_img (set_decode_data_pos (u16 (decode_off / 1024))) im in
      (decode_off mod 1024, im).

(** ** Fetching sector data: img_fetch_data *)

Definition img_fetch_data (im : image) : image :=
  let rd := read_data im in
  if negb (bprod rd =? bcons rd) then im
  else
    let g := img im in
    let sec := u8 (sec_map g !!! Z.to_nat (trk_sec g) - sec_base_of im) in
    let off := u16 (sec * sec_sz im + rd_sec_pos g * 1024) in
    let len := u16 (sec_sz im - rd_sec_pos g * 1024) in
    let '(len, im) :=
      if 1024 <? len then
        (1024, on_img (set_rd_sec_pos (u16 (rd_sec_pos g + 1))) im)
      else
        let im := on_img (set_rd_sec_pos 0) im in
        let im := on_img (set_trk_sec (u16 (trk_sec g + 1))) im in
        (len, if nr_sectors g <=? trk_sec (img im)
              then on_img (set_trk_sec 0) im else im) in
    let f := F_lseek (u32 (trk_off g + off)) (fp im) in
    let '(buf, f) := F_read len (bp rd) f in
    let im := set_fp f im in
    on_read_data (fun b => set_bprod (u32 (bprod b + 1)) (set_bp buf b)) im.

(** ** The MFM encoder: mfm_read_track *)

(** The locals the [emit_raw] macro works on: the ring [bc_b], the producer
    index [bc_p] in words, and the previous raw word [pr]. *)
Record emitter : Type := mk_emitter {
  bc_b : list Z;
  bc_p : Z;
  pr : Z
}.

(** [[
#define emit_raw(r) ({                                   \
    uint16_t _r = (r);                                   \
    bc_b[bc_p++ & bc_mask] = htobe16(_r & ~(pr << 15));  \
    pr = _r; })
]] *)
Definition emit_raw `{Codec} (bc_mask r : Z) (e : emitter) : emitter :=
  let _r := u16 r in
  {| bc_b := <[Z.to_nat (Z.land (bc_p e) bc_mask) :=
                 htobe16 (u16 (Z.land _r (Z.lnot (Z.shiftl (pr e) 15))))]>
               (bc_b e);
     bc_p := u32 (bc_p e + 1);
     pr := _r |}.

(** [#define emit_byte(b) emit_raw(mfmtab[(uint8_t)(b)])] *)
Definition emit_byte `{Codec} (bc_mask b : Z) (e : emitter) : emitter :=
  emit_raw bc_mask (mfmtab (u8 b)) e.

(** [for (i = 0; i < n; i++) step;] *)
Definition times (n : Z) (step : emitter -> emitter) (e : emitter) : emitter :=
  Nat.iter (Z.to_nat n) step e.

(** [for (i = 0; i < n; i++) emit(buf[i]);] *)
Definition emit_each (emit : Z -> emitter -> emitter) (bs : list Z)
    (e : emitter) : emitter :=
  fold_left (fun e b => emit b e) bs e.

(** [buf[0 .. n-1]], as the loops above read it. *)
Definition first_bytes (n : Z) (buf : list Z) : list Z :=
  (fun i : nat => buf !!! i) <$> seq 0 (Z.to_nat n).

(** The ring-buffer bookkeeping shared by both read-track routines. *)
Definition bc_words (bc : image_buf) : Z * Z * Z :=
  let bc_p := bprod bc / 16 in
  let bc_c := bcons bc / 16 in
  let bc_len := blen bc / 2 in
  let bc_mask := u32 (bc_len - 1) in
  let bc_space := u32 (bc_len - u16 (bc_p - bc_c)) in
  (bc_p, bc_mask, bc_space).

(** The common exit: [im->img.decode_pos++; bc->prod = bc_p * 16;]. *)
Definition read_track_done (e : emitter) (im : image) : bool * image :=
  let im := on_img (set_decode_pos (s32 (decode_pos (img im) + 1))) im in
  (true, on_read_bc (fun b => set_bprod (u32 (bc_p e * 16))
                                (set_bp (bc_b e) b)) im).

Definition mfm_read_track `{Codec} (im : image) : bool * image :=
  let im := img_fetch_data im in
  let buf := bp (read_data im) in
  let '(bc_p0, bc_mask, bc_space) := bc_words (read_bc im) in
  let e := {| bc_b := bp (read_bc im); bc_p := bc_p0; pr := 0 |} in
  let g := img im in
  let raw := emit_raw bc_mask in
  let byte := emit_byte bc_mask in
  if decode_pos g =? 0 then
    (* Post-index track gap *)
    if bc_space <? idx_sz g then (false, im)
    else
      let e := times (gap_4a g) (byte 0x4e) e in
      let e :=
        if has_iam g then
          (* IAM *)
          let e := times GAP_SYNC (byte 0x00) e in
          let e := times 3 (raw 0x5224) e in
          let e := byte 0xfc e in
          times GAP_1 (byte 0x4e) e
        else e in
      read_track_done e im
  else if decode_pos g =? nr_sectors g * 4 + 1 then
    (* Pre-index track gap *)
    let sz := u16 (gap_4 g - decode_data_pos g * 1024) in
    if bc_space <? min_t sz 1024 then (false, im)
    else
      let '(sz, im) :=
        if 1024 <? sz then
          let im := on_img (set_decode_data_pos
                              (u16 (decode_data_pos g + 1))) im in
          (1024, on_img (set_decode_pos (s32 (decode_pos g - 1))) im)
        else
          let im := on_img (set_decode_data_pos 0) im in
          (sz, on_img (set_decode_pos
                         (if negb (idx_sz g =? 0) then -1 else 0)) im) in
      let e := times sz (byte 0x4e) e in
      read_track_done e im
  else
    let phase := Z.land (decode_pos g - 1) 3 in
    if phase =? 0 then
      (* IDAM *)
      let cyl := u8 (cur_track im / 2) in
      let hd := u8 (Z.land (cur_track im) 1) in
      let sec := sec_map g !!! Z.to_nat (Z.shiftr (decode_pos g - 1) 2) in
      let idam := [0xa1; 0xa1; 0xa1; 0xfe; cyl; hd; sec; sec_no g] in
      if bc_space <? idam_sz g then (false, im)
      else
        let e := times (idam_gap_sync im) (byte 0x00) e in
        let e := times 3 (raw 0x4489) e in
        let e := emit_each byte (drop 3 idam) e in
        let crc := crc16_ccitt idam 0xffff in
        let e := byte (Z.shiftr crc 8) e in
        let e := byte crc e in
        let e := times (post_crc_syncs g) (raw 0x4489) e in
        let e := times (gap_2 g) (byte 0x4e) e in
        read_track_done e im
    else if phase =? 1 then
      (* DAM *)
      let dam := [0xa1; 0xa1; 0xa1; 0xfb] in
      if bc_space <? dam_sz_pre g then (false, im)
      else
        let e := times GAP_SYNC (byte 0x00) e in
        let e := times 3 (raw 0x4489) e in
        let e := byte 0xfb e in
        let im := on_img (set_crc (crc16_ccitt dam 0xffff)) im in
        read_track_done e im
    else if phase =? 2 then
      (* Data *)
      let sec_sz := u16 (sec_sz im) in
      let sec_sz := u16 (sec_sz - decode_data_pos g * 1024) in
      if bc_space <? min_t sec_sz 1024 then (false, im)
      else
        let '(sec_sz, im) :=
          if 1024 <? sec_sz then
            let im := on_img (set_decode_data_pos
                                (u16 (decode_data_pos g + 1))) im in
            (1024, on_img (set_decode_pos (s32 (decode_pos g - 1))) im)
          else (sec_sz, on_img (set_decode_data_pos 0) im) in
        let e := emit_each byte (first_bytes sec_sz buf) e in
        let im := on_img (set_crc (crc16_ccitt (first_bytes sec_sz buf)
                                               (crc (img im)))) im in
        let im := on_read_data (fun b => set_bcons (u32 (bcons b + 1)) b) im in
        read_track_done e im
    else
      (* Post Data *)
      if bc_space <? dam_sz_post g then (false, im)
      else
        let crc := crc g in
        let e := byte (Z.shiftr crc 8) e in
        let e := byte crc e in
        let e := times (post_crc_syncs g) (raw 0x4489) e in
        let e := times (gap_3 g) (byte 0x4e) e in
        read_track_done e im.

(** ** The FM encoder: fm_read_track *)

Definition fm_sync `{Codec} (dat clk : Z) : Z :=
  let _dat := Z.land (mfmtab (u8 dat)) 0x5555 in
  let _clk := u16 (Z.shiftl (Z.land (mfmtab (u8 clk)) 0x5555) 1) in
  Z.lor _clk _dat.

(** The FM flavour of [emit_raw]: no clock suppression. *)
Definition fm_emit_raw `{Codec} (bc_mask r : Z) (e : emitter) : emitter :=
  {| bc_b := <[Z.to_nat (Z.land (bc_p e) bc_mask) := htobe16 (u16 r)]> (bc_b e);
     bc_p := u32 (bc_p e + 1);
     pr := pr e |}.

Definition fm_emit_byte `{Codec} (bc_mask b : Z) (e : emitter) : emitter :=
  fm_emit_raw bc_mask (Z.lor (mfmtab (u8 b)) 0xaaaa) e.

(** [None] is the failing [ASSERT(!im->img.has_iam)]. *)
Definition fm_read_track `{Codec} (im : image) : option (bool * image) :=
  let im := img_fetch_data im in
  let buf := bp (read_data im) in
  let '(bc_p0, bc_mask, bc_space) := bc_words (read_bc im) in
  let e := {| bc_b := bp (read_bc im); bc_p := bc_p0; pr := 0 |} in
  let g := img im in
  let raw := fm_emit_raw bc_mask in
  let byte := fm_emit_byte bc_mask in
  if decode_pos g =? 0 then
    (* Post-index track gap *)
    if bc_space <? idx_sz g then Some (false, im)
    else
      let e := times (gap_4a g) (byte 0xff) e in
      if has_iam g then None else Some (read_track_done e im)
  else if decode_pos g =? nr_sectors g * 4 + 1 then
    (* Pre-index track gap *)
    let sz := u16 (gap_4 g - decode_data_pos g * 1024) in
    if bc_space <? min_t sz 1024 then Some (false, im)
    else
      let '(sz, im) :=
        if 1024 <? sz then
          let im := on_img (set_decode_data_pos
                              (u16 (decode_data_pos g + 1))) im in
          (1024, on_img (set_decode_pos (s32 (decode_pos g - 1))) im)
        else
          let im := on_img (set_decode_data_pos 0) im in
          (sz, on_img (set_decode_pos
                         (if negb (idx_sz g =? 0) then -1 else 0)) im) in
      let e := times sz (byte 0xff) e in
      Some (read_track_done e im)
  else
    let phase := Z.land (decode_pos g - 1) 3 in
    if phase =? 0 then
      (* IDAM *)
      let cyl := u8 (cur_track im / 2) in
      let hd := u8 (Z.land (cur_track im) 1) in
      let sec := sec_map g !!! Z.to_nat (Z.shiftr (decode_pos g - 1) 2) in
      let idam := [0xfe; cyl; hd; sec; sec_no g] in
      if bc_space <? idam_sz g then Some (false, im)
      else
        let e := times FM_GAP_SYNC (byte 0x00) e in
        let e := raw (fm_sync 0xfe FM_SYNC_CLK) e in
        let e := emit_each byte (drop 1 idam) e in
        let crc := crc16_ccitt idam 0xffff in
        let e := byte (Z.shiftr crc 8) e in
        let e := byte crc e in
        let e := times (gap_2 g) (byte 0xff) e in
        Some (read_track_done e im)
    else if phase =? 1 then
      (* DAM *)
      let dam := [0xfb] in
      if bc_space <? dam_sz_pre g then Some (false, im)
      else
        let e := times FM_GAP_SYNC (byte 0x00) e in
        let e := raw (fm_sync 0xfb FM_SYNC_CLK) e in
        let im := on_img (set_crc (crc16_ccitt dam 0xffff)) im in
        Some (read_track_done e im)
    else if phase =? 2 then
      (* Data *)
      let sec_sz := u16 (sec_sz im) in
      let sec_sz := u16 (sec_sz - decode_data_pos g * 1024) in
      if bc_space <? min_t sec_sz 1024 then Some (false, im)
      else
        let '(sec_sz, im) :=
          if 1024 <? sec_sz then
            let im := on_img (set_decode_data_pos
                                (u16 (decode_data_pos g + 1))) im in
            (1024, on_img (set_decode_pos (s32 (decode_pos g - 1))) im)
          else (sec_sz, on_img (set_decode_data_pos 0) im) in
        let e := emit_each byte (first_bytes sec_sz buf) e in
        let im := on_img (set_crc (crc16_ccitt (first_bytes sec_sz buf)
                                               (crc (img im)))) im in
        let im := on_read_data (fun b => set_bcons (u32 (bcons b + 1)) b) im in
        Some (read_track_done e im)
    else
      (* Post Data *)
      if bc_space <? dam_sz_post g then Some (false, im)
      else
        let crc := crc g in
        let e := byte (Z.shiftr crc 8) e in
        let e := byte crc e in
        let e := times (gap_3 g) (byte 0xff) e in
        Some (read_track_done e im).

Definition img_read_track `{Codec} (im : image) : option (bool * image) :=
  match sync im with
  | SYNC_fm => fm_read_track im
  | _ => Some (mfm_read_track im)
  end.

(** [image_read_track(im)].  Modelled from the spec: the dispatcher lives in
    the image core outside [src/image]; it calls the [read_track] entry of
    the handler vtable, which every handler of img.c sets to
    [img_read_track]. *)
Definition image_read_track `{Codec} (im : image) : option (bool * image) :=
  img_read_track im.

(** ** Track setup: img_setup_track *)

(** [start_pos] is the optional in/out pointer argument; the second
    component of the result is what [*start_pos] holds on return.

    [setup_position] is the body of [img_setup_track] from
    [im->img.write_sector = -1] to its end: it places the read position and
    primes the ring. *)
Definition setup_position `{Codec} (start_pos : option Z) (im : image)
  : option (image * option Z) :=
  let sys_ticks := match start_pos with Some t => t | None => 0 end in
  let im := on_img (set_write_sector (-1)) im in
  let im := set_cur_bc (u32 (u32 (sys_ticks * 16) / ticks_per_cell im)) im in
  let im := set_cur_bc (Z.land (cur_bc im) (u32 (Z.lnot 15))) im in
  let im := set_cur_bc (if tracklen_bc im <=? cur_bc im then 0
                        else cur_bc im) im in
  let im := set_cur_ticks (u32 (cur_bc im * ticks_per_cell im)) im in
  let im := set_ticks_since_flux 0 im in
  let '(decode_off, im) := calc_start_pos im in
  let im := on_read_data (fun b => set_bprod 0 (set_bcons 0 b)) im in
  let im := on_read_bc (fun b => set_bprod 0 (set_bcons 0 b)) im in
  match start_pos with
  | Some _ =>
      r ← image_read_track im;
      let im := on_read_bc (set_bcons (u32 (decode_off * 16))) (snd r) in
      Some (im, Some sys_ticks)
  | None => Some (im, None)
  end.

Definition img_setup_track `{Codec} (track : Z) (start_pos : option Z)
    (im : image) : option (image * option Z) :=
  let cyl := u8 (track / 2) in
  let side := u8 (Z.land track 1) in
  (* TODO: Fake out unformatted tracks. *)
  let cyl := min_t cyl (u8 (nr_cyls im - 1)) in
  let side := min_t side (u8 (nr_sides im - 1)) in
  let track := u16 (cyl * 2 + side) in
  im ← (if negb (track =? cur_track im)
        then img_seek_track track cyl side im else Some im);
  setup_position start_pos im.

(** ** Statements about the engine *)

(** The fields the sector mapper reads are none of those the geometry
    builders write. *)
Definition same_layout (im im' : image) : Prop :=
  nr_sides im' = nr_sides im /\ nr_cyls im' = nr_cyls im
  /\ cur_track im' = cur_track im
  /\ nr_sectors (img im') = nr_sectors (img im)
  /\ sec_base (img im') = sec_base (img im)
  /\ sec_map (img im') = sec_map (img im)
  /\ interleave (img im') = interleave (img im)
  /\ skew (img im') = skew (img im).

(** What a selected track consists of: its number, the encoding, the IAM
    flag, the sector map and the file offset of its data. *)
Definition track_state (im : image) :=
  (cur_track im, sync im, has_iam (img im), sec_map (img im),
   trk_off (img im)).

(** The geometry and layout fields an opener settles on, side by side. *)
Definition opened_as (im : image) :=
  (nr_cyls im, nr_sides im, sec_no (img im), nr_sectors (img im),
   gap_3 (img im), data_rate (img im), has_iam (img im),
   interleave (img im), skew (img im), sec_base (img im)).

(** ** The remaining openers of img.c *)

Definition adfs_type : list struct_img_type :=
  [ TY  5 (_S 2) _IAM 116 1 3 0 0 1 (_C 80) (_R 300);  (* ADFS D/E *)
    TY 10 (_S 2) _IAM 116 1 3 0 0 2 (_C 80) (_R 300);  (* ADFS F *)
    TY 16 (_S 2) _IAM  57 1 1 0 0 0 (_C 80) (_R 300);  (* ADFS L 640k *)
    TY 16 (_S 1) _IAM  57 1 1 0 0 0 (_C 80) (_R 300);  (* ADFS M 320k *)
    TY 16 (_S 1) _IAM  57 1 1 0 0 0 (_C 40) (_R 300);  (* ADFS S 160k *)
    TY_end ].

Definition d81_type : list struct_img_type :=
  [ TY 10 (_S 2) _IAM 30 1 2 1 0 0 (_C 80) (_R 300);
    TY_end ].

Definition mbd_type : list struct_img_type :=
  [ TY 11 (_S 2) _IAM  30 1 3 1 0 0 (_C 80) (_R 300);
    TY  5 (_S 2) _IAM 116 3 1 1 0 0 (_C 80) (_R 300);
    TY 11 (_S 2) _IAM  30 1 3 1 0 0 (_C 40) (_R 300);
    TY  5 (_S 2) _IAM 116 3 1 1 0 0 (_C 40) (_R 300);
    TY_end ].

(** The widths of the bit-fields of [struct img_type]. *)
Definition type_fits (ty : struct_img_type) : bool :=
  (0 <=? ty_nr_secs ty) && (ty_nr_secs ty <? 64)
  && (0 <=? ty_nr_sides ty) && (ty_nr_sides ty <? 2)
  && (0 <=? ty_has_iam ty) && (ty_has_iam ty <? 2)
  && (0 <=? ty_gap3 ty) && (ty_gap3 ty <? 256)
  && (0 <=? ty_interleave ty) && (ty_interleave ty <? 8)
  && (0 <=? ty_no ty) && (ty_no ty <? 8)
  && (0 <=? ty_base ty) && (ty_base ty <? 2)
  && (0 <=? ty_inter_track_numbering ty) && (ty_inter_track_numbering ty <? 2)
  && (0 <=? ty_skew ty) && (ty_skew ty <? 16)
  && (0 <=? ty_cyls ty) && (ty_cyls ty <? 4)
  && (0 <=? ty_rpm ty) && (ty_rpm ty <? 4).

(** The rows of a table in front of its terminator. *)
Fixpoint type_rows (type : list struct_img_type) : list struct_img_type :=
  match type with
  | [] => []
  | ty :: rest => if ty_nr_secs ty =? 0 then [] else ty :: type_rows rest
  end.

(** The bytes of one cylinder, and the cylinder counts tried, for a row. *)
Definition type_cyl_sz (ty : struct_img_type) : Z :=
  ty_nr_secs ty * Z.shiftl 128 (ty_no ty) * (ty_nr_sides ty + 1).

Definition type_min_cyls (ty : struct_img_type) : Z :=
  if ty_cyls ty =? _C 40 then 38 else 77.

Definition type_max_cyls (ty : struct_img_type) : Z :=
  if ty_cyls ty =? _C 40 then 42 else 85.


Definition d81_open `{Clock} (im : image) : bool * image :=
  let im := on_img (set_layout LAYOUT_interleaved_swap_sides) im in
  _img_open d81_type im.

(** [st_open] copies the 80-cylinder rows of [img_type] into a table of
    its own, without IAM and with skew 2 on 9-sector rows.  The copy is
    laid out in the [read_data] buffer, whose bytes are dead while an
    image is opened; here the table is a value. *)
Fixpoint st_rows (inp : list struct_img_type) : list struct_img_type :=
  match inp with
  | [] => []
  | ty :: rest =>
      if ty_nr_secs ty =? 0 then []
      else if negb (ty_cyls ty =? _C 80) then st_rows rest
      else
        TY (ty_nr_secs ty) (ty_nr_sides ty) 0 (ty_gap3 ty)
           (ty_interleave ty) (ty_no ty) (ty_base ty)
           (ty_inter_track_numbering ty)
           (if ty_nr_secs ty =? 9 then 2 else ty_skew ty)
           (ty_cyls ty) (ty_rpm ty)
        :: st_rows rest
  end.

Definition st_type : list struct_img_type := st_rows img_type ++ [TY_end].

Definition st_open `{Clock} (im : image) : bool * image :=
  _img_open st_type im.

Definition mbd_open `{Clock} (im : image) : bool * image :=
  _img_open mbd_type im.

Definition mgt_open `{Clock} (im : image) : bool * image :=
  _img_open img_type im.

(** A little-endian 32-bit object read back from four bytes of memory. *)
Definition le32 (m : list Z) : Z :=
  m !!! 0%nat + 256 * m !!! 1%nat + 65536 * m !!! 2%nat
  + 16777216 * m !!! 3%nat.

(** The header of a PC-98 FDI image is eight 32-bit words: zero, density,
    header_size, image_body_size, sector_size_bytes, nr_secs, nr_sides,
    cyls. *)
Definition pc98fdi_open `{Clock} `{Uninit} (im : image) : bool * image :=
  let '(header, f) := F_read 32 (uninit 32) (fp im) in
  let im := set_fp f im in
  let im :=
    if le32 (drop 4 header) =? 0x30
    then on_img (set_gap_3 84) (on_img (set_rpm 300) im)
    else on_img (set_gap_3 116) (on_img (set_rpm 360) im) in
  let im := on_img (set_sec_no
                      (if le32 (drop 16 header) =? 512 then 2 else 3)) im in
  let im := set_nr_cyls (u8 (le32 (drop 28 header))) im in
  let im := set_nr_sides (u8 (le32 (drop 24 header))) im in
  let im := on_img (set_nr_sectors (u8 (le32 (drop 20 header)))) im in
  let im := on_img (set_interleave 1) im in
  let im := on_img (set_sec_base (1, 1)) im in
  let im := on_img (set_skew 0) im in
  let im := on_img (set_has_iam true) im in
  (* Skip 4096-byte header. *)
  let im := on_img (set_base_off (le32 (drop 8 header))) im in
  mfm_open im.

Definition pc98hdm_open `{Clock} (im : image) : bool * image :=
  let im := on_img (set_rpm 360) im in
  let im := on_img (set_gap_3 116) im in
  let im := on_img (set_sec_no 3) im in
  let im := set_nr_cyls 77 im in
  let im := set_nr_sides 2 im in
  let im := on_img (set_nr_sectors 8) im in
  let im := on_img (set_interleave 1) im in
  let im := on_img (set_sec_base (1, 1)) im in
  let im := on_img (set_skew 0) im in
  let im := on_img (set_has_iam true) im in
  let im := on_img (set_base_off 0) im in
  mfm_open im.

Definition trd_open `{Clock} `{Uninit} (im : image) : bool * image :=
  (* Interrogate TR-DOS geometry identifier. *)
  let '(g, f) := F_read 1 (uninit 1) (F_lseek 0x8e3 (fp im)) in
  let im := set_fp f im in
  let geometry := u8 (g !!! 0%nat) in
  let '(cyls, sides) :=
    if geometry =? 0x16 then (80, 2)
    else if geometry =? 0x17 then (40, 2)
    else if geometry =? 0x18 then (80, 1)
    else if geometry =? 0x19 then (40, 1)
    else
      (* Guess geometry *)
      if im_size im <=? 40 * 16 * 256 then (40, 1)
      else if im_size im <? 40 * 2 * 16 * 256 then (40, 1)
      else (80, 2) in
  let im := set_nr_sides sides (set_nr_cyls cyls im) in
  let im := on_img (set_sec_no 1) im in   (* 256-byte *)
  let im := on_img (set_interleave 1) im in
  let im := on_img (set_skew 0) im in
  let im := on_img (set_sec_base (1, 1)) im in
  let im := on_img (set_nr_sectors 16) im in
  let im := on_img (set_gap_3 57) im in
  let im := on_img (set_has_iam true) im in
  mfm_open im.

Definition opd_open `{Clock} (im : image) : bool * image :=
  let geometry :=
    if im_size im =? 184320 then Some (40, 1)
    else if im_size im =? 737280 then Some (80, 2)
    else None in
  match geometry with
  | None => (false, im)
  | Some (cyls, sides) =>
      let im := set_nr_sides sides (set_nr_cyls cyls im) in
      let im := on_img (set_sec_no 1) im in   (* 256-byte *)
      let im := on_img (set_interleave 13) im in
      let im := on_img (set_skew 13) im in
      let im := on_img (set_skew_cyls_only true) im in
      let im := on_img (set_sec_base (0, 0)) im in
      let im := on_img (set_nr_sectors 18) im in
      let im := on_img (set_gap_3 12) im in
      let im := on_img (set_has_iam true) im in
      mfm_open im
  end.

Definition dfs_open `{Clock} (im : image) : option (bool * image) :=
  let im := set_nr_cyls 80 im in
  let im := on_img (set_interleave 1) im in
  let im := on_img (set_skew 3) im in
  let im := on_img (set_skew_cyls_only true) im in
  let im := on_img (set_sec_no 1) im in   (* 256-byte *)
  let im := on_img (set_sec_base (0, 0)) im in
  let im := on_img (set_nr_sectors 10) im in
  let im := on_img (set_gap_3 21) im in
  fm_open im.

Definition ssd_open `{Clock} (im : image) : option (bool * image) :=
  dfs_open (set_nr_sides 1 im).

Definition dsd_open `{Clock} (im : image) : option (bool * image) :=
  dfs_open (set_nr_sides 2 im).

(** The SABDU header is 46 bytes: [app[21]], [ver[5]], then 16-bit words
    for flags, type, max.c, max.h, max.s, used.c, used.h, used.s,
    sec_size and trk_size. *)
Definition sdu_open `{Clock} `{Uninit} (im : image) : bool * image :=
  (* Read basic (cyls, heads, spt) geometry from the image header. *)
  let '(header, f) := F_read 46 (uninit 46) (fp im) in
  let im := set_fp f im in
  let im := set_nr_cyls (u8 (le16 (drop 30 header))) im in
  let im := set_nr_sides (u8 (le16 (drop 32 header))) im in
  let im := on_img (set_nr_sectors (u8 (le16 (drop 34 header)))) im in
  (* Check the geometry. Accept 180k/360k/720k/1.44M/2.88M PC sizes. *)
  if (negb (nr_cyls im =? 40) && negb (nr_cyls im =? 80))
     || (negb (nr_sides im =? 1) && negb (nr_sides im =? 2))
     || (negb (nr_sectors (img im) =? 9)
         && negb (nr_sectors (img im) =? 18)
         && negb (nr_sectors (img im) =? 36))
  then (false, im)
  else
    (* Fill in the rest of the geometry. *)
    let im := on_img (set_sec_no 2) im in
    let im := on_img (set_interleave 1) im in
    let im := on_img (set_sec_base (1, 1)) im in
    let im := on_img (set_gap_3 84) im in
    let im := on_img (set_has_iam true) im in
    (* Skip 46-byte SABDU header. *)
    let im := on_img (set_base_off 46) im in
    mfm_open im.

(** The VDK header is 12 bytes: [id[2]], the 16-bit [hlen], [misc[4]],
    [cyls], [heads], [flags], [compression].  [le16toh(vdk.hlen < 12)] is
    nonzero exactly when [hlen < 12]. *)
Definition vdk_open `{Clock} `{Uninit} (im : image) : bool * image :=
  (* Check the image header. *)
  let '(vdk, f) := F_read 12 (uninit 12) (fp im) in
  let im := set_fp f im in
  let hlen := le16 (drop 2 vdk) in
  if negb (strn_eq 2 vdk [100; 107]) || (hlen <? 12) then (false, im)
  else
    (* Read (cyls, heads) geometry from the image header. *)
    let im := set_nr_cyls (u8 (vdk !!! 8%nat)) im in
    let im := set_nr_sides (u8 (vdk !!! 9%nat)) im in
    (* Check the geometry. *)
    if negb (nr_sides im =? 1) && negb (nr_sides im =? 2) then (false, im)
    else
      (* Fill in the rest of the geometry. *)
      let im := on_img (set_sec_no 1) im in
      let im := on_img (set_interleave 2) im in
      let im := on_img (set_sec_base (1, 1)) im in
      let im := on_img (set_nr_sectors 18) im in
      let im := on_img (set_gap_3 20) im in
      let im := on_img (set_gap_4a 54) im in
      let im := on_img (set_has_iam true) im in
      let im := on_img (set_base_off hlen) im in
      mfm_open im.

(** The host profiles that end in [fallback:] or in the default list. *)
Definition has_fallback (host : host_t) : bool :=
  match host with
  | HOST_ti99 | HOST_uknc => false
  | _ => true
  end.

(** Everything [mfm_open] and [fm_open] leave as they find it. *)
Definition open_frame (im : image) :=
  let g := img im in
  (fp im, nr_cyls im, nr_sides im, cur_track im, read_data im, read_bc im,
   (trk_off g, base_off g, trk_sec g, rd_sec_pos g, decode_pos g,
    decode_data_pos g, crc g),
   (layout g, has_iam g, post_crc_syncs g, write_sector g, sec_base g,
    sec_map g),
   (nr_sectors g, sec_no g, interleave g, skew g, skew_cyls_only g)).

End Img.

(** * Pre-encoded images: hfe.c *)

Module Hfe.

(** The HFE block [im->hfe], restricted to what the functions below read
    and write.  Modelled from the spec: the declaration is in a header
    outside [src/image]; the fields are those of the spec's data model. *)
Record image_hfe : Type := mk_image_hfe {
  is_v3 : bool;  (* bool_t *)
  double_step : bool;  (* bool_t *)
  tlut_base : Z;  (* uint16_t *)
  trk_off : Z;  (* uint16_t *)
  trk_len : Z;  (* uint16_t *)
  trk_pos : Z;  (* uint16_t *)
  write_batch_off : Z;  (* write_batch.off, uint32_t *)
  write_batch_len : Z;  (* write_batch.len, uint32_t *)
  write_batch_dirty : bool;  (* write_batch.dirty *)
  write_wrapped : bool;  (* write.wrapped *)
  next_index_pulses_pos : Z
}.

Definition set_is_v3 (v : bool) (r : image_hfe) : image_hfe :=
  {| is_v3 := v; double_step := double_step r; tlut_base := tlut_base r;
     trk_off := trk_off r; trk_len := trk_len r; trk_pos := trk_pos r;
     write_batch_off := write_batch_off r;
     write_batch_len := write_batch_len r;
     write_batch_dirty := write_batch_dirty r;
     write_wrapped := write_wrapped r;
     next_index_pulses_pos := next_index_pulses_pos r |}.
Definition set_double_step (v : bool) (r : image_hfe) : image_hfe :=
  {| is_v3 := is_v3 r; double_step := v; tlut_base := tlut_base r;
     trk_off := trk_off r; trk_len := trk_len r; trk_pos := trk_pos r;
     write_batch_off := write_batch_off r;
     write_batch_len := write_batch_len r;
     write_batch_dirty := write_batch_dirty r;
     write_wrapped := write_wrapped r;
     next_index_pulses_pos := next_index_pulses_pos r |}.
Definition set_tlut_base (v : Z) (r : image_hfe) : image_hfe :=
  {| is_v3 := is_v3 r; double_step := double_step r; tlut_base := v;
     trk_off := trk_off r; trk_len := trk_len r; trk_pos := trk_pos r;
     write_batch_off := write_batch_off r;
     write_batch_len := write_batch_len r;
     write_batch_dirty := write_batch_dirty r;
     write_wrapped := write_wrapped r;
     next_index_pulses_pos := next_index_pulses_pos r |}.
Definition set_trk_off (v : Z) (r : image_hfe) : image_hfe :=
  {| is_v3 := is_v3 r; double_step := double_step r;
     tlut_base := tlut_base r; trk_off := v; trk_len := trk_len r;
     trk_pos := trk_pos r; write_batch_off := write_batch_off r;
     write_batch_len := write_batch_len r;
     write_batch_dirty := write_batch_dirty r;
     write_wrapped := write_wrapped r;
     next_index_pulses_pos := next_index_pulses_pos r |}.
Definition set_trk_len (v : Z) (r : image_hfe) : image_hfe :=
  {| is_v3 := is_v3 r; double_step := double_step r;
     tlut_base := tlut_base r; trk_off := trk_off r; trk_len := v;
     trk_pos := trk_pos r; write_batch_off := write_batch_off r;
     write_batch_len := write_batch_len r;
     write_batch_dirty := write_batch_dirty r;
     write_wrapped := write_wrapped r;
     next_index_pulses_pos := next_index_pulses_pos r |}.
Definition set_trk_pos (v : Z) (r : image_hfe) : image_hfe :=
  {| is_v3 := is_v3 r; double_step := double_step r;
     tlut_base := tlut_base r; trk_off := trk_off r; trk_len := trk_len r;
     trk_pos := v; write_batch_off := write_batch_off r;
     write_batch_len := write_batch_len r;
     write_batch_dirty := write_batch_dirty r;
     write_wrapped := write_wrapped r;
     next_index_pulses_pos := next_index_pulses_pos r |}.
Definition set_write_batch_off (v : Z) (r : image_hfe) : image_hfe :=
  {| is_v3 := is_v3 r; double_step := double_step r;
     tlut_base := tlut_base r; trk_off := trk_off r; trk_len := trk_len r;
     trk_pos := trk_pos r; write_batch_off := v;
     write_batch_len := write_batch_len r;
     write_batch_dirty := write_batch_dirty r;
     write_wrapped := write_wrapped r;
     next_index_pulses_pos := next_index_pulses_pos r |}.
Definition set_write_batch_len (v : Z) (r : image_hfe) : image_hfe :=
  {| is_v3 := is_v3 r; double_step := double_step r;
     tlut_base := tlut_base r; trk_off := trk_off r; trk_len := trk_len r;
     trk_pos := trk_pos r; write_batch_off := write_batch_off r;
     write_batch_len := v; write_batch_dirty := write_batch_dirty r;
     write_wrapped := write_wrapped r;
     next_index_pulses_pos := next_index_pulses_pos r |}.
Definition set_write_batch_dirty (v : bool) (r : image_hfe) : image_hfe :=
  {| is_v3 := is_v3 r; double_step := double_step r;
     tlut_base := tlut_base r; trk_off := trk_off r; trk_len := trk_len r;
     trk_pos := trk_pos r; write_batch_off := write_batch_off r;
     write_batch_len := write_batch_len r; write_batch_dirty := v;
     write_wrapped := write_wrapped r;
     next_index_pulses_pos := next_index_pulses_pos r |}.
Definition set_write_wrapped (v : bool) (r : image_hfe) : image_hfe :=
  {| is_v3 := is_v3 r; double_step := double_step r;
     tlut_base := tlut_base r; trk_off := trk_off r; trk_len := trk_len r;
     trk_pos := trk_pos r; write_batch_off := write_batch_off r;
     write_batch_len := write_batch_len r;
     write_batch_dirty := write_batch_dirty r; write_wrapped := v;
     next_index_pulses_pos := next_index_pulses_pos r |}.
Definition set_next_index_pulses_pos (v : Z) (r : image_hfe) : image_hfe :=
  {| is_v3 := is_v3 r; double_step := double_step r;
     tlut_base := tlut_base r; trk_off := trk_off r; trk_len := trk_len r;
     trk_pos := trk_pos r; write_batch_off := write_batch_off r;
     write_batch_len := write_batch_len r;
     write_batch_dirty := write_batch_dirty r;
     write_wrapped := write_wrapped r; next_index_pulses_pos := v |}.

(** The image handle as hfe.c uses it. *)
Record image : Type := mk_image {
  fp : FIL;
  nr_cyls : Z;  (* uint8_t *)
  nr_sides : Z;  (* uint8_t *)
  cur_track : Z;  (* uint16_t *)
  cur_bc : Z;  (* uint32_t *)
  cur_ticks : Z;  (* uint32_t *)
  ticks_since_flux : Z;  (* uint32_t *)
  tracklen_bc : Z;  (* uint32_t *)
  tracklen_ticks : Z;  (* uint32_t *)
  ticks_per_cell : Z;  (* uint32_t *)
  write_bc_ticks : Z;  (* uint32_t *)
  stk_per_rev : Z;  (* uint32_t *)
  sync : sync_mode;
  index_pulses : list Z;  (* uint32_t [MAX_CUSTOM_PULSES] *)
  index_pulses_len : Z;
  index_pulses_ver : Z;
  read_data : image_buf;  (* bufs.read_data *)
  read_bc : image_buf;  (* bufs.read_bc *)
  write_data : image_buf;  (* bufs.write_data *)
  write_bc : image_buf;  (* bufs.write_bc *)
  hfe : image_hfe
}.

Definition set_fp (v : FIL) (r : image) : image :=
  {| fp := v; nr_cyls := nr_cyls r; nr_sides := nr_sides r;
     cur_track := cur_track r; cur_bc := cur_bc r; cur_ticks := cur_ticks r;
     ticks_since_flux := ticks_since_flux r; tracklen_bc := tracklen_bc r;
     tracklen_ticks := tracklen_ticks r; ticks_per_cell := ticks_per_cell r;
     write_bc_ticks := write_bc_ticks r; stk_per_rev := stk_per_rev r;
     sync := sync r; index_pulses := index_pulses r;
     index_pulses_len := index_pulses_len r;
     index_pulses_ver := index_pulses_ver r; read_data := read_data r;
     read_bc := read_bc r; write_data := write_data r;
     write_bc := write_bc r; hfe := hfe r |}.
Definition set_nr_cyls (v : Z) (r : image) : image :=
  {| fp := fp r; nr_cyls := v; nr_sides := nr_sides r;
     cur_track := cur_track r; cur_bc := cur_bc r; cur_ticks := cur_ticks r;
     ticks_since_flux := ticks_since_flux r; tracklen_bc := tracklen_bc r;
     tracklen_ticks := tracklen_ticks r; ticks_per_cell := ticks_per_cell r;
     write_bc_ticks := write_bc_ticks r; stk_per_rev := stk_per_rev r;
     sync := sync r; index_pulses := index_pulses r;
     index_pulses_len := index_pulses_len r;
     index_pulses_ver := index_pulses_ver r; read_data := read_data r;
     read_bc := read_bc r; write_data := write_data r;
     write_bc := write_bc r; hfe := hfe r |}.
Definition set_nr_sides (v : Z) (r : image) : image :=
  {| fp := fp r; nr_cyls := nr_cyls r; nr_sides := v;
     cur_track := cur_track r; cur_bc := cur_bc r; cur_ticks := cur_ticks r;
     ticks_since_flux := ticks_since_flux r; tracklen_bc := tracklen_bc r;
     tracklen_ticks := tracklen_ticks r; ticks_per_cell := ticks_per_cell r;
     write_bc_ticks := write_bc_ticks r; stk_per_rev := stk_per_rev r;
     sync := sync r; index_pulses := index_pulses r;
     index_pulses_len := index_pulses_len r;
     index_pulses_ver := index_pulses_ver r; read_data := read_data r;
     read_bc := read_bc r; write_data := write_data r;
     write_bc := write_bc r; hfe := hfe r |}.
Definition set_cur_track (v : Z) (r : image) : image :=
  {| fp := fp r; nr_cyls := nr_cyls r; nr_sides := nr_sides r;
     cur_track := v; cur_bc := cur_bc r; cur_ticks := cur_ticks r;
     ticks_since_flux := ticks_since_flux r; tracklen_bc := tracklen_bc r;
     tracklen_ticks := tracklen_ticks r; ticks_per_cell := ticks_per_cell r;
     write_bc_ticks := write_bc_ticks r; stk_per_rev := stk_per_rev r;
     sync := sync r; index_pulses := index_pulses r;
     index_pulses_len := index_pulses_len r;
     index_pulses_ver := index_pulses_ver r; read_data := read_data r;
     read_bc := read_bc r; write_data := write_data r;
     write_bc := write_bc r; hfe := hfe r |}.
Definition set_cur_bc (v : Z) (r : image) : image :=
  {| fp := fp r; nr_cyls := nr_cyls r; nr_sides := nr_sides r;
     cur_track := cur_track r; cur_bc := v; cur_ticks := cur_ticks r;
     ticks_since_flux := ticks_since_flux r; tracklen_bc := tracklen_bc r;
     tracklen_ticks := tracklen_ticks r; ticks_per_cell := ticks_per_cell r;
     write_bc_ticks := write_bc_ticks r; stk_per_rev := stk_per_rev r;
     sync := sync r; index_pulses := index_pulses r;
     index_pulses_len := index_pulses_len r;
     index_pulses_ver := index_pulses_ver r; read_data := read_data r;
     read_bc := read_bc r; write_data := write_data r;
     write_bc := write_bc r; hfe := hfe r |}.
Definition set_cur_ticks (v : Z) (r : image) : image :=
  {| fp := fp r; nr_cyls := nr_cyls r; nr_sides := nr_sides r;
     cur_track := cur_track r; cur_bc := cur_bc r; cur_ticks := v;
     ticks_since_flux := ticks_since_flux r; tracklen_bc := tracklen_bc r;
     tracklen_ticks := tracklen_ticks r; ticks_per_cell := ticks_per_cell r;
     write_bc_ticks := write_bc_ticks r; stk_per_rev := stk_per_rev r;
     sync := sync r; index_pulses := index_pulses r;
     index_pulses_len := index_pulses_len r;
     index_pulses_ver := index_pulses_ver r; read_data := read_data r;
     read_bc := read_bc r; write_data := write_data r;
     write_bc := write_bc r; hfe := hfe r |}.
Definition set_ticks_since_flux (v : Z) (r : image) : image :=
  {| fp := fp r; nr_cyls := nr_cyls r; nr_sides := nr_sides r;
     cur_track := cur_track r; cur_bc := cur_bc r; cur_ticks := cur_ticks r;
     ticks_since_flux := v; tracklen_bc := tracklen_bc r;
     tracklen_ticks := tracklen_ticks r; ticks_per_cell := ticks_per_cell r;
     write_bc_ticks := write_bc_ticks r; stk_per_rev := stk_per_rev r;
     sync := sync r; index_pulses := index_pulses r;
     index_pulses_len := index_pulses_len r;
     index_pulses_ver := index_pulses_ver r; read_data := read_data r;
     read_bc := read_bc r; write_data := write_data r;
     write_bc := write_bc r; hfe := hfe r |}.
Definition set_tracklen_bc (v : Z) (r : image) : image :=
  {| fp := fp r; nr_cyls := nr_cyls r; nr_sides := nr_sides r;
     cur_track := cur_track r; cur_bc := cur_bc r; cur_ticks := cur_ticks r;
     ticks_since_flux := ticks_since_flux r; tracklen_bc := v;
     tracklen_ticks := tracklen_ticks r; ticks_per_cell := ticks_per_cell r;
     write_bc_ticks := write_bc_ticks r; stk_per_rev := stk_per_rev r;
     sync := sync r; index_pulses := index_pulses r;
     index_pulses_len := index_pulses_len r;
     index_pulses_ver := index_pulses_ver r; read_data := read_data r;
     read_bc := read_bc r; write_data := write_data r;
     write_bc := write_bc r; hfe := hfe r |}.
Definition set_tracklen_ticks (v : Z) (r : image) : image :=
  {| fp := fp r; nr_cyls := nr_cyls r; nr_sides := nr_sides r;
     cur_track := cur_track r; cur_bc := cur_bc r; cur_ticks := cur_ticks r;
     ticks_since_flux := ticks_since_flux r; tracklen_bc := tracklen_bc r;
     tracklen_ticks := v; ticks_per_cell := ticks_per_cell r;
     write_bc_ticks := write_bc_ticks r; stk_per_rev := stk_per_rev r;
     sync := sync r; index_pulses := index_pulses r;
     index_pulses_len := index_pulses_len r;
     index_pulses_ver := index_pulses_ver r; read_data := read_data r;
     read_bc := read_bc r; write_data := write_data r;
     write_bc := write_bc r; hfe := hfe r |}.
Definition set_ticks_per_cell (v : Z) (r : image) : image :=
  {| fp := fp r; nr_cyls := nr_cyls r; nr_sides := nr_sides r;
     cur_track := cur_track r; cur_bc := cur_bc r; cur_ticks := cur_ticks r;
     ticks_since_flux := ticks_since_flux r; tracklen_bc := tracklen_bc r;
     tracklen_ticks := tracklen_ticks r; ticks_per_cell := v;
     write_bc_ticks := write_bc_ticks r; stk_per_rev := stk_per_rev r;
     sync := sync r; index_pulses := index_pulses r;
     index_pulses_len := index_pulses_len r;
     index_pulses_ver := index_pulses_ver r; read_data := read_data r;
     read_bc := read_bc r; write_data := write_data r;
     write_bc := write_bc r; hfe := hfe r |}.
Definition set_write_bc_ticks (v : Z) (r : image) : image :=
  {| fp := fp r; nr_cyls := nr_cyls r; nr_sides := nr_sides r;
     cur_track := cur_track r; cur_bc := cur_bc r; cur_ticks := cur_ticks r;
     ticks_since_flux := ticks_since_flux r; tracklen_bc := tracklen_bc r;
     tracklen_ticks := tracklen_ticks r; ticks_per_cell := ticks_per_cell r;
     write_bc_ticks := v; stk_per_rev := stk_per_rev r; sync := sync r;
     index_pulses := index_pulses r; index_pulses_len := index_pulses_len r;
     index_pulses_ver := index_pulses_ver r; read_data := read_data r;
     read_bc := read_bc r; write_data := write_data r;
     write_bc := write_bc r; hfe := hfe r |}.
Definition set_stk_per_rev (v : Z) (r : image) : image :=
  {| fp := fp r; nr_cyls := nr_cyls r; nr_sides := nr_sides r;
     cur_track := cur_track r; cur_bc := cur_bc r; cur_ticks := cur_ticks r;
     ticks_since_flux := ticks_since_flux r; tracklen_bc := tracklen_bc r;
     tracklen_ticks := tracklen_ticks r; ticks_per_cell := ticks_per_cell r;
     write_bc_ticks := write_bc_ticks r; stk_per_rev := v; sync := sync r;
     index_pulses := index_pulses r; index_pulses_len := index_pulses_len r;
     index_pulses_ver := index_pulses_ver r; read_data := read_data r;
     read_bc := read_bc r; write_data := write_data r;
     write_bc := write_bc r; hfe := hfe r |}.
Definition set_sync (v : sync_mode) (r : image) : image :=
  {| fp := fp r; nr_cyls := nr_cyls r; nr_sides := nr_sides r;
     cur_track := cur_track r; cur_bc := cur_bc r; cur_ticks := cur_ticks r;
     ticks_since_flux := ticks_since_flux r; tracklen_bc := tracklen_bc r;
     tracklen_ticks := tracklen_ticks r; ticks_per_cell := ticks_per_cell r;
     write_bc_ticks := write_bc_ticks r; stk_per_rev := stk_per_rev r;
     sync := v; index_pulses := index_pulses r;
     index_pulses_len := index_pulses_len r;
     index_pulses_ver := index_pulses_ver r; read_data := read_data r;
     read_bc := read_bc r; write_data := write_data r;
     write_bc := write_bc r; hfe := hfe r |}.
Definition set_index_pulses (v : list Z) (r : image) : image :=
  {| fp := fp r; nr_cyls := nr_cyls r; nr_sides := nr_sides r;
     cur_track := cur_track r; cur_bc := cur_bc r; cur_ticks := cur_ticks r;
     ticks_since_flux := ticks_since_flux r; tracklen_bc := tracklen_bc r;
     tracklen_ticks := tracklen_ticks r; ticks_per_cell := ticks_per_cell r;
     write_bc_ticks := write_bc_ticks r; stk_per_rev := stk_per_rev r;
     sync := sync r; index_pulses := v;
     index_pulses_len := index_pulses_len r;
     index_pulses_ver := index_pulses_ver r; read_data := read_data r;
     read_bc := read_bc r; write_data := write_data r;
     write_bc := write_bc r; hfe := hfe r |}.
Definition set_index_pulses_len (v : Z) (r : image) : image :=
  {| fp := fp r; nr_cyls := nr_cyls r; nr_sides := nr_sides r;
     cur_track := cur_track r; cur_bc := cur_bc r; cur_ticks := cur_ticks r;
     ticks_since_flux := ticks_since_flux r; tracklen_bc := tracklen_bc r;
     tracklen_ticks := tracklen_ticks r; ticks_per_cell := ticks_per_cell r;
     write_bc_ticks := write_bc_ticks r; stk_per_rev := stk_per_rev r;
     sync := sync r; index_pulses := index_pulses r; index_pulses_len := v;
     index_pulses_ver := index_pulses_ver r; read_data := read_data r;
     read_bc := read_bc r; write_data := write_data r;
     write_bc := write_bc r; hfe := hfe r |}.
Definition set_index_pulses_ver (v : Z) (r : image) : image :=
  {| fp := fp r; nr_cyls := nr_cyls r; nr_sides := nr_sides r;
     cur_track := cur_track r; cur_bc := cur_bc r; cur_ticks := cur_ticks r;
     ticks_since_flux := ticks_since_flux r; tracklen_bc := tracklen_bc r;
     tracklen_ticks := tracklen_ticks r; ticks_per_cell := ticks_per_cell r;
     write_bc_ticks := write_bc_ticks r; stk_per_rev := stk_per_rev r;
     sync := sync r; index_pulses := index_pulses r;
     index_pulses_len := index_pulses_len r; index_pulses_ver := v;
     read_data := read_data r; read_bc := read_bc r;
     write_data := write_data r; write_bc := write_bc r; hfe := hfe r |}.
Definition set_read_data (v : image_buf) (r : image) : image :=
  {| fp := fp r; nr_cyls := nr_cyls r; nr_sides := nr_sides r;
     cur_track := cur_track r; cur_bc := cur_bc r; cur_ticks := cur_ticks r;
     ticks_since_flux := ticks_since_flux r; tracklen_bc := tracklen_bc r;
     tracklen_ticks := tracklen_ticks r; ticks_per_cell := ticks_per_cell r;
     write_bc_ticks := write_bc_ticks r; stk_per_rev := stk_per_rev r;
     sync := sync r; index_pulses := index_pulses r;
     index_pulses_len := index_pulses_len r;
     index_pulses_ver := index_pulses_ver r; read_data := v;
     read_bc := read_bc r; write_data := write_data r;
     write_bc := write_bc r; hfe := hfe r |}.
Definition set_read_bc (v : image_buf) (r : image) : image :=
  {| fp := fp r; nr_cyls := nr_cyls r; nr_sides := nr_sides r;
     cur_track := cur_track r; cur_bc := cur_bc r; cur_ticks := cur_ticks r;
     ticks_since_flux := ticks_since_flux r; tracklen_bc := tracklen_bc r;
     tracklen_ticks := tracklen_ticks r; ticks_per_cell := ticks_per_cell r;
     write_bc_ticks := write_bc_ticks r; stk_per_rev := stk_per_rev r;
     sync := sync r; index_pulses := index_pulses r;
     index_pulses_len := index_pulses_len r;
     index_pulses_ver := index_pulses_ver r; read_data := read_data r;
     read_bc := v; write_data := write_data r; write_bc := write_bc r;
     hfe := hfe r |}.
Definition set_write_data (v : image_buf) (r : image) : image :=
  {| fp := fp r; nr_cyls := nr_cyls r; nr_sides := nr_sides r;
     cur_track := cur_track r; cur_bc := cur_bc r; cur_ticks := cur_ticks r;
     ticks_since_flux := ticks_since_flux r; tracklen_bc := tracklen_bc r;
     tracklen_ticks := tracklen_ticks r; ticks_per_cell := ticks_per_cell r;
     write_bc_ticks := write_bc_ticks r; stk_per_rev := stk_per_rev r;
     sync := sync r; index_pulses := index_pulses r;
     index_pulses_len := index_pulses_len r;
     index_pulses_ver := index_pulses_ver r; read_data := read_data r;
     read_bc := read_bc r; write_data := v; write_bc := write_bc r;
     hfe := hfe r |}.
Definition set_write_bc (v : image_buf) (r : image) : image :=
  {| fp := fp r; nr_cyls := nr_cyls r; nr_sides := nr_sides r;
     cur_track := cur_track r; cur_bc := cur_bc r; cur_ticks := cur_ticks r;
     ticks_since_flux := ticks_since_flux r; tracklen_bc := tracklen_bc r;
     tracklen_ticks := tracklen_ticks r; ticks_per_cell := ticks_per_cell r;
     write_bc_ticks := write_bc_ticks r; stk_per_rev := stk_per_rev r;
     sync := sync r; index_pulses := index_pulses r;
     index_pulses_len := index_pulses_len r;
     index_pulses_ver := index_pulses_ver r; read_data := read_data r;
     read_bc := read_bc r; write_data := write_data r; write_bc := v;
     hfe := hfe r |}.
Definition set_hfe (v : image_hfe) (r : image) : image :=
  {| fp := fp r; nr_cyls := nr_cyls r; nr_sides := nr_sides r;
     cur_track := cur_track r; cur_bc := cur_bc r; cur_ticks := cur_ticks r;
     ticks_since_flux := ticks_since_flux r; tracklen_bc := tracklen_bc r;
     tracklen_ticks := tracklen_ticks r; ticks_per_cell := ticks_per_cell r;
     write_bc_ticks := write_bc_ticks r; stk_per_rev := stk_per_rev r;
     sync := sync r; index_pulses := index_pulses r;
     index_pulses_len := index_pulses_len r;
     index_pulses_ver := index_pulses_ver r; read_data := read_data r;
     read_bc := read_bc r; write_data := write_data r;
     write_bc := write_bc r; hfe := v |}.

Definition on_hfe (f : image_hfe -> image_hfe) (im : image) : image :=
  set_hfe (f (hfe im)) im.
Definition on_read_bc (f : image_buf -> image_buf) (im : image) : image :=
  set_read_bc (f (read_bc im)) im.
Definition on_write_data (f : image_buf -> image_buf) (im : image) : image :=
  set_write_data (f (write_data im)) im.

(** HFEv3 opcodes. The 4-bit codes have their bit ordering reversed. *)
Definition OP_nop : Z := 0.       (* 0: no effect *)
Definition OP_index : Z := 8.     (* 1: index mark *)
Definition OP_bitrate : Z := 4.   (* 2: +1byte: new bitrate *)
Definition OP_skip : Z := 12.     (* 3: +1byte: skip 0-8 bits in next byte *)
Definition OP_rand : Z := 2.      (* 4: flaky byte *)

(** ** Opening: hfe_open and hfe_seek_track *)

(** Byte offsets of the fields of [struct disk_header] (26 bytes). *)
Definition dh_formatrevision (dhdr : list Z) : Z := dhdr !!! 8%nat.
Definition dh_nr_tracks (dhdr : list Z) : Z := dhdr !!! 9%nat.
Definition dh_nr_sides (dhdr : list Z) : Z := dhdr !!! 10%nat.
Definition dh_bitrate (dhdr : list Z) : Z := le16 (drop 12 dhdr).
Definition dh_track_list_offset (dhdr : list Z) : Z := le16 (drop 18 dhdr).
Definition dh_single_step (dhdr : list Z) : Z := dhdr !!! 21%nat.

Definition HXCHFEV3 : list Z := [72; 88; 67; 72; 70; 69; 86; 51].
Definition HXCPICFE : list Z := [72; 88; 67; 80; 73; 67; 70; 69].

Definition hfe_seek_track `{Clock} `{Uninit} (track : Z) (im : image) : image :=
  let f := F_lseek (tlut_base (hfe im) * 512 + (track / 2) * 4) (fp im) in
  let '(thdr, f) := F_read 4 (uninit 4) f in
  let im := set_fp f im in
  let im := on_hfe (set_trk_off (le16 thdr)) im in
  let im := on_hfe (set_trk_len (le16 (drop 2 thdr) / 2)) im in
  let im := set_tracklen_bc (u32 (trk_len (hfe im) * 8)) im in
  let im := set_stk_per_rev
              (u32 (stk_sysclk (u32 (tracklen_bc im * write_bc_ticks im)))) im in
  set_cur_track track im.

(** [None] is the failing [ASSERT(8*512 <= im->bufs.read_data.len)]; the
    volume-cache calls act on the FAT layer only and leave the handle as it
    is. *)
Definition hfe_open `{Clock} `{Uninit} (im : image) : option (bool * image) :=
  let '(dhdr, f) := F_read 26 (uninit 26) (fp im) in
  let im := set_fp f im in
  let version :=
    if strn_eq 8 dhdr HXCHFEV3 then
      if 0 <? dh_formatrevision dhdr then None else Some true
    else if strn_eq 8 dhdr HXCPICFE then
      if 1 <? dh_formatrevision dhdr then None else Some false
    else None in
  match version with
  | None => Some (false, im)
  | Some v3 =>
      let im := on_hfe (set_is_v3 v3) im in
      (* Sanity-check the header fields. *)
      let bitrate := dh_bitrate dhdr in
      if (dh_nr_tracks dhdr =? 0)
         || (dh_nr_sides dhdr <? 1) || (2 <? dh_nr_sides dhdr)
         || (bitrate =? 0)
      then Some (false, im)
      else
        let im := on_hfe (set_double_step (dh_single_step dhdr =? 0)) im in
        let im := on_hfe (set_tlut_base (dh_track_list_offset dhdr)) im in
        let im := set_nr_cyls (dh_nr_tracks dhdr) im in
        let im := set_nr_cyls (if double_step (hfe im)
                               then u8 (min_t (nr_cyls im * 2) 255)
                               else nr_cyls im) im in
        let im := set_nr_sides (dh_nr_sides dhdr) im in
        let im := set_write_bc_ticks (u32 (sysclk_us 500 / bitrate)) im in
        let im := set_ticks_per_cell (u32 (write_bc_ticks im * 16)) im in
        let im := set_sync SYNC_none im in
        if negb (8 * 512 <=? blen (read_data im)) then None
        else
          (* Get an initial value for ticks per revolution. *)
          Some (true, hfe_seek_track 0 im)
  end.

(** ** Flux generation: hfe_rdata_flux *)

(** The locals of [hfe_rdata_flux] that live across loop iterations,
    together with the handle and the flux written to [tbuf] so far. *)
Record flux : Type := mk_flux {
  fx_im : image;
  fx_bc_c : Z;
  fx_ticks : Z;
  fx_ticks_per_cell : Z;
  fx_y : Z;
  fx_todo : Z;
  fx_tbuf : list Z
}.

(** [[
        while (y < 8) {
            y++;
            ticks += ticks_per_cell;
            if (x & 1) {
                *tbuf++ = (ticks >> 4) - 1;
                ticks &= 15;
                if (!--todo)
                    goto out;
            }
            x >>= 1;
        }
]]
    The boolean tells whether [goto out] was taken. *)
Fixpoint flux_bits (fuel : nat) (x : Z) (s : flux) : flux * bool :=
  match fuel with
  | O => (s, false)
  | S fuel' =>
      if fx_y s <? 8 then
        let y := fx_y s + 1 in
        let ticks := u32 (fx_ticks s + fx_ticks_per_cell s) in
        if Z.testbit x 0 then
          let tbuf := fx_tbuf s ++ [u16 (Z.shiftr ticks 4 - 1)] in
          let ticks := Z.land ticks 15 in
          let todo := u32 (fx_todo s - 1) in
          let s := mk_flux (fx_im s) (fx_bc_c s) ticks (fx_ticks_per_cell s)
                           y todo tbuf in
          if todo =? 0 then (s, true) else flux_bits fuel' (Z.shiftr x 1) s
        else
          flux_bits fuel' (Z.shiftr x 1)
                    (mk_flux (fx_im s) (fx_bc_c s) ticks (fx_ticks_per_cell s)
                             y (fx_todo s) (fx_tbuf s))
      else (s, false)
  end.

(** The tail of the loop body once [x] and [y] are settled. *)
Definition flux_emit (x y : Z) (s : flux) : flux * bool :=
  let im := fx_im s in
  let tpc := fx_ticks_per_cell s in
  let im := set_cur_bc (u32 (cur_bc im + (8 - y))) im in
  let im := set_cur_ticks (u32 (cur_ticks im + (8 - y) * tpc)) im in
  flux_bits 8 x (mk_flux im (u32 (fx_bc_c s + (8 - y))) (fx_ticks s) tpc y
                         (fx_todo s) (fx_tbuf s)).

(** [bc_c += n; im->cur_bc += n; y = 8; continue;] *)
Definition flux_skip (n : Z) (im : image) (s : flux) : flux * bool :=
  (mk_flux (set_cur_bc (u32 (cur_bc im + n)) im) (u32 (fx_bc_c s + n))
           (fx_ticks s) (fx_ticks_per_cell s) 8 (fx_todo s) (fx_tbuf s),
   false).

(** One pass through the body of
    [while ((uint32_t)(bc_p - bc_c) >= 3*8)]; [None] is a failing [ASSERT],
    the boolean tells whether the pass left through [goto out]. *)
Definition flux_iter `{Clock} `{HfeEnv} (bc_b : list Z) (bc_mask : Z)
    (is_v3 : bool) (s : flux) : option (flux * bool) :=
  let im := fx_im s in
  let bc_c := fx_bc_c s in
  if negb (fx_y s =? 8) then None
  else if tracklen_bc im <=? cur_bc im then
    if negb (cur_bc im =? tracklen_bc im) then None
    else
      let im := set_tracklen_ticks (cur_ticks im) im in
      let im := set_cur_ticks 0 (set_cur_bc 0 im) in
      (* Skip tail of current 256-byte block. *)
      let bc_c := Z.land (u32 (bc_c + (256 * 8 - 1)))
                         (u32 (Z.lnot (256 * 8 - 1))) in
      let im :=
        if negb (index_pulses_len im =? next_index_pulses_pos (hfe im)) then
          let im := set_index_pulses_len (next_index_pulses_pos (hfe im)) im in
          set_index_pulses_ver (index_pulses_ver im + 1) im
        else im in
      let im := on_hfe (set_next_index_pulses_pos 0) im in
      Some (mk_flux im bc_c (fx_ticks s) (fx_ticks_per_cell s) (fx_y s)
                    (fx_todo s) (fx_tbuf s), false)
  else
    let y := bc_c mod 8 in
    let byte_at (k : Z) := bc_b !!! Z.to_nat (Z.land k bc_mask) in
    let x := u8 (Z.shiftr (byte_at (bc_c / 8)) y) in
    if is_v3 && (y =? 0) && (Z.land x 0xf =? 0xf) then
      (* V3 byte-aligned opcode processing. *)
      let op := Z.shiftr x 4 in
      if op =? OP_index then
        let pos := next_index_pulses_pos (hfe im) in
        let im :=
          if (pos <? MAX_CUSTOM_PULSES)
             && negb (index_pulses im !!! Z.to_nat pos =? cur_ticks im) then
            let im := set_index_pulses
                        (<[Z.to_nat pos := cur_ticks im]> (index_pulses im)) im in
            set_index_pulses_ver (index_pulses_ver im + 1) im
          else im in
        let im := on_hfe (set_next_index_pulses_pos (pos + 1)) im in
        Some (flux_skip 8 im s)
      else if op =? OP_bitrate then
        let x := rbit8 (byte_at (bc_c / 8 + 1)) in
        let ticks_per_cell := u32 (sysclk_us 2 * 16 * x / 72) in
        let im := set_ticks_per_cell ticks_per_cell im in
        let im := set_write_bc_ticks (ticks_per_cell / 16) im in
        let '(s', out) := flux_skip (2 * 8) im s in
        Some (mk_flux (fx_im s') (fx_bc_c s') (fx_ticks s') ticks_per_cell
                      (fx_y s') (fx_todo s') (fx_tbuf s'), out)
      else if op =? OP_skip then
        let x := Z.land (rbit8 (byte_at (bc_c / 8 + 1))) 7 in
        let bc_c := u32 (bc_c + (2 * 8 + x)) in
        let im := set_cur_bc (u32 (cur_bc im + (2 * 8 + x))) im in
        let y := x in
        let x := u8 (Z.shiftr (byte_at (bc_c / 8)) y) in
        Some (flux_emit x y
                (mk_flux im bc_c (fx_ticks s) (fx_ticks_per_cell s) (fx_y s)
                         (fx_todo s) (fx_tbuf s)))
      else if op =? OP_rand then
        Some (flux_emit (u8 (rand bc_c)) y s)
      else
        (* OP_nop and every other code *)
        Some (flux_skip 8 im s)
    else Some (flux_emit x y s).

(** The loop itself; [None] is a failing [ASSERT], or fuel that ran out. *)
Fixpoint flux_loop `{Clock} `{HfeEnv} (fuel : nat) (bc_b : list Z)
    (bc_p bc_mask : Z) (is_v3 : bool) (s : flux) : option flux :=
  match fuel with
  | O => None
  | S fuel' =>
      if 3 * 8 <=? u32 (bc_p - fx_bc_c s) then
        match flux_iter bc_b bc_mask is_v3 s with
        | None => None
        | Some (s', true) => Some s'
        | Some (s', false) => flux_loop fuel' bc_b bc_p bc_mask is_v3 s'
        end
      else Some s
  end.

(** [hfe_rdata_flux(im, tbuf, nr)]: the flux written to [tbuf], the count
    returned, and the handle. *)
Definition hfe_rdata_flux `{Clock} `{HfeEnv} (fuel : nat) (nr : Z) (im : image)
  : option (list Z * Z * image) :=
  let bc := read_bc im in
  let s0 := mk_flux im (bcons bc) (ticks_since_flux im) (ticks_per_cell im)
                    8 nr [] in
  s ← flux_loop fuel (bp bc) (bprod bc) (u32 (blen bc - 1)) (is_v3 (hfe im)) s0;
  (* out: *)
  let im := fx_im s in
  let y := fx_y s in
  let im := on_read_bc (set_bcons (u32 (fx_bc_c s - (8 - y)))) im in
  let im := set_cur_bc (u32 (cur_bc im - (8 - y))) im in
  let im := set_cur_ticks
              (u32 (cur_ticks im - (8 - y) * fx_ticks_per_cell s)) im in
  let im := set_ticks_since_flux (fx_ticks s) im in
  Some (fx_tbuf s, u16 (nr - fx_todo s), im).

(** ** Write encoding: the [for (;;)] loop of hfe_write_track *)

(** The locals of the inner loop [for (i = 0; i < nr; i++)]: the sector
    buffer [wrbuf], the offset [w] of the cursor into it, the loop counter
    [i] and the consumer index [c] of the bitcell ring. *)
Record encoder : Type := mk_encoder {
  e_wrbuf : list Z;
  e_w : Z;
  e_i : Z;
  e_c : Z
}.

(** One pass through the loop body, the [i++] of the loop header included.
    A byte under the cursor whose low nibble is [0xf] is an opcode and is
    stepped over together with its operands (three bytes for skip, two for
    bitrate, one otherwise) unless it is the flaky-byte opcode; every other
    byte is overwritten with [_rbit32(buf[c++ & bufmask]) >> 24]. *)
Definition encode_pass (is_v3 : bool) (buf : list Z) (bufmask : Z)
    (s : encoder) : encoder :=
  let b := e_wrbuf s !!! Z.to_nat (e_w s) in
  let store :=
    mk_encoder
      (<[Z.to_nat (e_w s)
         := rbit8 (buf !!! Z.to_nat (Z.land (e_c s) bufmask))]> (e_wrbuf s))
      (e_w s + 1) (e_i s + 1) (u32 (e_c s + 1)) in
  let keep (k : Z) := mk_encoder (e_wrbuf s) (e_w s + k) (e_i s + k) (e_c s) in
  if is_v3 && (Z.land b 0xf =? 0xf) then
    let op := Z.shiftr b 4 in
    if op =? OP_skip then keep 3
    else if op =? OP_bitrate then keep 2
    else if op =? OP_rand then store
    else keep 1
  else store.

(** The loop.  Every pass raises [i], so [nr - i] units of fuel run it to
    its end. *)
Fixpoint hfe_encode (fuel : nat) (is_v3 : bool) (buf : list Z)
    (bufmask nr : Z) (s : encoder) : encoder :=
  match fuel with
  | O => s
  | S fuel' =>
      if e_i s <? nr
      then hfe_encode fuel' is_v3 buf bufmask nr (encode_pass is_v3 buf bufmask s)
      else s
  end.


(** How one pass through the body of [for (;;)] ends. *)
Inductive block_result : Type :=
  | Bail (writeback : bool)        (* [break], with the flag at that point *)
  | Trap                           (* a failing [ASSERT] *)
  | Next (c : Z) (im : image).     (* fall through to the next pass *)

Definition hfe_write_block (p c : Z) (im : image) : block_result :=
  let wr := write_bc im in
  let buf := bp wr in
  let bufmask := u32 (blen wr - 1) in
  let wrbuf := bp (write_data im) in
  let off := trk_pos (hfe im) in
  (* All bytes remaining in the raw-bitcell buffer. *)
  let space := Z.land (u32 (p - c)) bufmask in
  (* Limit to end of current 256-byte HFE block. *)
  let nr := min_t space (256 - Z.land off 255) in
  (* Limit to end of HFE track. *)
  let nr := min_t nr (u32 (trk_len (hfe im) - off)) in
  (* Bail if no bytes to write. *)
  if nr =? 0 then Bail false
  else
    (* Bail if required data not in the write buffer. *)
    let batch_off := u32 (Z.shiftl (Z.land off (u32 (Z.lnot 255))) 1) in
    if (batch_off <? write_batch_off (hfe im))
       || (u32 (write_batch_off (hfe im) + write_batch_len (hfe im))
           <=? batch_off)
    then Bail true
    else
      (* Encode into the sector buffer for later write-out. *)
      let w := Z.land (cur_track im) 1 * 256
               + batch_off - write_batch_off (hfe im) + Z.land off 255 in
      let e := hfe_encode (Z.to_nat nr) (is_v3 (hfe im)) buf bufmask nr
                 (mk_encoder wrbuf w 0 c) in
      let i := e_i e in
      let c := e_c e in
      let im := on_write_data (set_bp (e_wrbuf e)) im in
      let im := on_hfe (set_write_batch_dirty true) im in
      (* i may be larger than nr due to opcodes. *)
      let im := on_hfe (set_trk_pos (u16 (trk_pos (hfe im) + i))) im in
      if trk_len (hfe im) <=? trk_pos (hfe im) then
        if negb (trk_pos (hfe im) - trk_len (hfe im) <=? 2) then Trap
        else
          let im := on_hfe (set_trk_pos 0) im in
          Next c (on_hfe (set_write_wrapped true) im)
      else Next c im.

(** A byte of the sector buffer at a signed offset from its start.  The
    bytes in front of the buffer and behind it belong to other objects. *)
Definition peek (m : list Z) (i : Z) : option Z :=
  if i <? 0 then None else m !! Z.to_nat i.

(** The head of [hfe_write_track], [if (im->hfe.write_batch.len == 0)]:
    with no batch in the sector buffer, load the blocks under the write
    cursor and, on a v3 image whose cursor is not at the start of a block,
    look at the two bytes at [w - 1] and [w] so as not to start inside an
    opcode.  [None] is the failing [ASSERT(!im->hfe.write_batch.dirty)],
    or a look outside the sector buffer. *)
Definition hfe_write_load (im : image) : option image :=
  let batch_secs := 8 in
  if negb (write_batch_len (hfe im) =? 0) then Some im
  else if write_batch_dirty (hfe im) then None
  else
    let im := on_hfe (set_write_batch_off
                (u32 (Z.shiftl (Z.land (trk_pos (hfe im)) (Z.lnot 255)) 1)))
                im in
    let im := on_hfe (set_write_batch_len
                (min_t (u32 (batch_secs * 512))
                       (u32 (Z.land (trk_len (hfe im) * 2 + 511) (Z.lnot 511)
                             - write_batch_off (hfe im))))) im in
    let ofs := trk_off (hfe im) * 512 + write_batch_off (hfe im) in
    let '(wrbuf, f) := F_read (write_batch_len (hfe im)) (bp (write_data im))
                              (F_lseek ofs (fp im)) in
    let im := on_write_data (set_bp wrbuf) im in
    let im := set_fp (F_lseek ofs f) im in
    let pos := trk_pos (hfe im) in
    if is_v3 (hfe im) && (1 <=? Z.land pos 255) then
      (* Avoid writing in the middle of an opcode. *)
      let w := Z.land (cur_track im) 1 * 256
               + pos - write_batch_off (hfe im) - 1 in
      let bump (k : Z) (im : image) :=
        on_hfe (set_trk_pos (u16 (trk_pos (hfe im) + k))) im in
      let before :=
        if 2 <=? Z.land pos 255 then
          match peek wrbuf (w - 1) with
          | None => None
          | Some b =>
              Some (if (Z.land b 0xf =? 0xf) && (Z.shiftr b 4 =? OP_skip)
                    then bump 1 im else im)
          end
        else Some im in
      match before, peek wrbuf w with
      | Some im, Some b =>
          if Z.land b 0xf =? 0xf then
            if Z.shiftr b 4 =? OP_skip then Some (bump 2 im)
            else if Z.shiftr b 4 =? OP_bitrate then Some (bump 1 im)
            else Some im
          else Some im
      | _, _ => None
      end
    else Some im.

(** ** Reading a track: hfe_read_track *)

(** [memcpy(&dst[d], &src[s], n)] on byte arrays.  A store past the end of
    [dst] is dropped here; the C code would run over the array. *)
Definition memcpy (dst : list Z) (d : Z) (src : list Z) (s : Z) (n : nat)
  : list Z :=
  fold_left (fun acc (i : nat) =>
               <[Z.to_nat (d + Z.of_nat i)
                 := src !!! Z.to_nat (s + Z.of_nat i)]> acc)
            (seq 0 n) dst.

(** [[
    while (nr_sec--) {
        memcpy(&bc_b[bc_p & bc_mask],
               &buf[rd->cons*512 + (im->cur_track&1)*256],
               256);
        rd->cons++;
        bc_p += 256;
    }
]] *)
Fixpoint copy_blocks (nr_sec : nat) (bc_b buf : list Z) (bc_p bc_mask : Z)
    (rd_cons side : Z) : list Z * Z * Z :=
  match nr_sec with
  | O => (bc_b, bc_p, rd_cons)
  | S nr_sec' =>
      let bc_b := memcpy bc_b (Z.land bc_p bc_mask) buf
                         (u32 (rd_cons * 512 + side * 256)) 256 in
      copy_blocks nr_sec' bc_b buf (u32 (bc_p + 256)) bc_mask
                  (u32 (rd_cons + 1)) side
  end.

(** The first half of [hfe_read_track]: with the data buffer drained, read
    the next batch of 512-byte blocks.  [batch_secs] is
    [im->hfe.batch_secs]; the handle of this development does not carry
    that field, so its value is passed in. *)
Definition hfe_fetch (batch_secs : Z) (im : image) : image :=
  let rd := read_data im in
  if bprod rd =? bcons rd then
    let h := hfe im in
    let nr_sec := min_t (u32 batch_secs)
                        (u32 (Z.quot (trk_len h + 255 - trk_pos h) 256)) in
    let f := F_lseek (trk_off h * 512 + trk_pos h * 2) (fp im) in
    let '(buf, f) := F_read (u32 (nr_sec * 512)) (bp rd) f in
    let im := set_fp f im in
    let im := set_read_data
                (set_bprod nr_sec (set_bcons 0 (set_bp buf rd))) im in
    let im := on_hfe (set_trk_pos (u16 (trk_pos h + nr_sec * 256))) im in
    if trk_len (hfe im) <=? trk_pos (hfe im)
    then on_hfe (set_trk_pos 0) im else im
  else im.

Definition hfe_read_track (batch_secs : Z) (im : image) : bool * image :=
  let im := hfe_fetch batch_secs im in
  let rd := read_data im in
  let bc := read_bc im in
  (* Fill the raw-bitcell ring buffer. *)
  let bc_p := bprod bc / 8 in
  let bc_c := bcons bc / 8 in
  let bc_len := blen bc in
  let bc_mask := u32 (bc_len - 1) in
  let bc_space := u32 (bc_len - u16 (bc_p - bc_c)) in
  let nr_sec := min_t (u32 (bprod rd - bcons rd)) (bc_space / 256) in
  if nr_sec =? 0 then (false, im)
  else
    let '(bc_b, bc_p, rd_cons) :=
      copy_blocks (Z.to_nat nr_sec) (bp bc) (bp rd) bc_p bc_mask (bcons rd)
                  (Z.land (cur_track im) 1) in
    let im := set_read_data (set_bcons rd_cons rd) im in
    (true, on_read_bc (fun b => set_bprod (u32 (bc_p * 8)) (set_bp bc_b b)) im).

(** ** Track setup: hfe_setup_track *)

(** [[
    for (i = 0; i < im->index_pulses_len; i++)
        if (im->cur_ticks < im->index_pulses[i])
            break;
]] *)
Fixpoint next_pulse (todo : nat) (i : Z) (pulses : list Z) (len ticks : Z)
  : Z :=
  match todo with
  | O => i
  | S todo' =>
      if i <? len then
        if ticks <? pulses !!! Z.to_nat i then i
        else next_pulse todo' (i + 1) pulses len ticks
      else i
  end.

(** What [hfe_setup_track] leaves behind beside the handle: the value of
    [*start_pos], and the two fields of [im->hfe] the handle of this
    development does not carry ([None]: not written). *)
Record setup_result : Type := mk_setup_result {
  sr_im : image;
  sr_start_pos : option Z;
  sr_batch_secs : Z;
  sr_write_start : option Z
}.

(** [write_start] is [get_write(im, im->wr_cons)->start], which the image
    core keeps.  A zero [ticks_per_cell] makes the C code divide by zero;
    here the quotient is 0. *)
Definition hfe_setup_track `{Clock} `{Uninit} (track : Z)
    (start_pos : option Z) (write_start : Z) (im : image) : setup_result :=
  let cyl := u8 (Z.shiftr track (if double_step (hfe im) then 2 else 1)) in
  let side := u8 (Z.land track (nr_sides im - 1)) in
  let track := u16 (cyl * 2 + side) in
  let im := if negb (track =? cur_track im)
            then hfe_seek_track track im else im in
  let sys_ticks := match start_pos with
                   | Some t => t
                   | None => write_start
                   end in
  let im := set_cur_bc (u32 (sys_ticks * 16) / ticks_per_cell im) im in
  let im := set_cur_bc (if tracklen_bc im <=? cur_bc im then 0
                        else cur_bc im) im in
  let im := set_cur_ticks (u32 (cur_bc im * ticks_per_cell im)) im in
  let im := set_ticks_since_flux 0 im in
  let sys_ticks := cur_ticks im / 16 in
  let im := set_read_data (set_bprod 0 (set_bcons 0 (read_data im))) im in
  let im := on_read_bc (fun b => set_bprod 0 (set_bcons 0 b)) im in
  let i := next_pulse (Z.to_nat (index_pulses_len im)) 0 (index_pulses im)
                      (index_pulses_len im) (cur_ticks im) in
  let im := on_hfe (set_next_index_pulses_pos i) im in
  (* Aggressively batch our reads at HD data rate. *)
  let batch_secs := if sysclk_ns 1500 <? write_bc_ticks im then 2 else 8 in
  match start_pos with
  | Some _ =>
      (* Read mode. *)
      let im := on_hfe (set_trk_pos
                          (u16 (Z.land (cur_bc im / 8) (u32 (Z.lnot 255)))))
                       im in
      let im := snd (hfe_read_track batch_secs im) in
      let im := on_read_bc (set_bcons (Z.land (cur_bc im) 2047)) im in
      mk_setup_result im (Some sys_ticks) batch_secs None
  | None =>
      (* Write mode. *)
      let im := on_hfe (set_trk_pos (u16 (cur_bc im / 8))) im in
      let start := trk_pos (hfe im) in
      let im := on_hfe (set_write_wrapped false) im in
      let im := on_hfe (set_write_batch_len 0) im in
      let im := on_hfe (set_write_batch_dirty false) im in
      mk_setup_result im None batch_secs (Some start)
  end.

(** ** The loop of hfe_rdata_flux on a v1 image *)

(** What the loop of [hfe_rdata_flux] keeps true of its locals between
    bitcells, for a track of [T] bitcells, a ring [bc] whose producer
    index is [bc_p], and [nr] samples asked for.  [8 - y] bitcells of the
    byte under the consumer are accounted for in [bc_c] and [cur_bc] but
    not yet emitted. *)
Definition flux_ok (T bc_p nr : Z) (bc : image_buf) (s : flux) : Prop :=
  let im := fx_im s in
  let back := 8 - fx_y s in
  0 <= fx_y s <= 8
  /\ back <= fx_bc_c s <= bc_p
  /\ tracklen_bc im = T /\ read_bc im = bc
  /\ back <= cur_bc im <= T
  /\ (cur_bc im - fx_bc_c s) mod 8 = 0
  /\ 0 <= fx_todo s
  /\ fx_todo s + Z.of_nat (length (fx_tbuf s)) = nr.

(** How far the loop is from its exit: bitcells left in the ring, twice,
    plus one when the end of the track is pending. *)
Definition flux_left (T bc_p : Z) (s : flux) : Z :=
  2 * (bc_p - fx_bc_c s) + (if T <=? cur_bc (fx_im s) then 1 else 0).

End Hfe.

(** * The arena allocator: arena.c *)

Module Arena.

(** What arena.c takes from the linker script and from the board set-up:
    the end of the [.bss] section and the RAM size in KiB. *)
Class Ram : Type := {
  _ebss : Z;
  ram_kb : Z
}.

(** The two file-scope pointers, as addresses. *)
Record arena : Type := mk_arena {
  heap_p : Z;
  heap_top : Z
}.

Definition heap_bot `{Ram} : Z := _ebss.

(** [(sz + 3) & ~3] on a [uint32_t]. *)
Definition round_up_4 (sz : Z) : Z := Z.land (u32 (sz + 3)) (u32 (Z.lnot 3)).

(** [arena_alloc(sz)]: the pointer returned and the arena after the call;
    [None] is the failing [ASSERT(heap_p <= heap_top)].  [heap_p] is a
    32-bit address: [heap_p += ...] wraps at [2^32], and the assertion
    compares the wrapped cursor. *)
Definition arena_alloc (sz : Z) (a : arena) : option (Z * arena) :=
  let p := heap_p a in
  let a := mk_arena (u32 (heap_p a + round_up_4 sz)) (heap_top a) in
  if negb (heap_p a <=? heap_top a) then None else Some (p, a).

Definition arena_total `{Ram} (a : arena) : Z := u32 (heap_top a - heap_bot).

Definition arena_avail (a : arena) : Z := u32 (heap_top a - heap_p a).

Definition arena_init `{Ram} : arena :=
  mk_arena heap_bot (0x20000000 + ram_kb * 1024).

(** A run of [arena_alloc] calls, one per requested size, with the
    pointers they return. *)
Fixpoint arena_allocs (szs : list Z) (a : arena) : option (list Z * arena) :=
  match szs with
  | [] => Some ([], a)
  | sz :: rest =>
      match arena_alloc sz a with
      | None => None
      | Some (p, a) =>
          match arena_allocs rest a with
          | None => None
          | Some (ps, a) => Some (p :: ps, a)
          end
      end
  end.

(** The arena as the allocator keeps it: the cursor is 4-byte aligned and
    lies between the bottom of the heap and its top, in a 32-bit address
    space. *)
Definition arena_ok `{Ram} (a : arena) : Prop :=
  0 <= heap_bot /\ heap_bot <= heap_p a <= heap_top a
  /\ heap_top a < 2 ^ 32 /\ heap_p a mod 4 = 0.

End Arena.

(** * A concrete platform and sample images

    The theorems below hold for every instance of the interfaces; the
    instances here serve to run the engine on concrete inputs. *)

Module Sample.

(** Modelled from the spec: the clock contract names the conversion macros
    only.  The instance is the 72 MHz system clock with a SysTick at an
    eighth of it, which is what the divisor 72 of the HFE bitrate formula
    stands for. *)
Definition stm32_clock : Clock :=
  {| sysclk_us := fun us => us * 72;
     sysclk_ns := fun ns => ns * 72 / 1000;
     sysclk_ms := fun ms => ms * 72000;
     stk_ms := fun ms => ms * 9000;
     sysclk_stk := fun stk => stk * 8;
     stk_sysclk := fun clk => clk / 8 |}.

(** Locals that happen to start out as zero bytes. *)
Definition zero_stack : Uninit :=
  {| uninit := fun n => replicate n 0;
     length_uninit := fun n => length_replicate n 0 |}.

(** Modelled from the spec: [mfmtab] is a 256-entry table giving a 16-bit
    pattern per data byte.  Data bit [k] sits at bit [2k]; the clock bit at
    [2k+1] is set between two zero data bits, the clock before bit 7 being
    computed as if a zero bit came before. *)
Definition mfm_word (b : Z) : Z :=
  let cell (k : Z) :=
    (if Z.testbit b k then Z.shiftl 1 (2 * k) else 0)
    + (if negb (Z.testbit b k) && negb (Z.testbit b (k + 1))
       then Z.shiftl 1 (2 * k + 1) else 0) in
  cell 0 + cell 1 + cell 2 + cell 3 + cell 4 + cell 5 + cell 6 + cell 7.

(** Modelled from the spec: CRC16-CCITT, polynomial 0x1021, no reflection,
    no final XOR, most significant bit first. *)
Definition crc16_bit (crc : Z) : Z :=
  if Z.testbit crc 15 then Z.lxor (u16 (Z.shiftl crc 1)) 0x1021
  else u16 (Z.shiftl crc 1).

Definition crc16_byte (crc b : Z) : Z :=
  Nat.iter 8 crc16_bit (Z.lxor crc (Z.shiftl b 8)).

Definition crc16 (buf : list Z) (crc : Z) : Z := fold_left crc16_byte buf crc.

(** [htobe16] on a little-endian core: the two bytes swapped. *)
Definition bswap16 (x : Z) : Z :=
  Z.lor (Z.shiftl (Z.land x 0xff) 8) (Z.land (Z.shiftr x 8) 0xff).

Definition iso_codec : Codec :=
  {| mfmtab := mfm_word;
     crc16_ccitt := crc16;
     htobe16 := bswap16;
     FM_SYNC_CLK := 0xc7 |}.

Definition stdlib_env : HfeEnv :=
  {| rand := fun _ => 0x55; MAX_CUSTOM_PULSES := 34 |}.

(** A file of [size] bytes that starts with [header] and is zero after
    it. *)
Definition file_of (header : list Z) (size : Z) : FIL :=
  {| f_size := size;
     f_data := fun ofs => default 0 (header !! Z.to_nat ofs);
     f_tell := 0 |}.

(** A ring buffer of [n] zeroed cells that spans [bytes] bytes. *)
Definition ring (n : nat) (bytes : Z) : image_buf :=
  {| bp := replicate n 0; blen := bytes; bprod := 0; bcons := 0 |}.

(** The handle as the mount layer hands it to an opener of img.c: cleared,
    with the file attached, a 4 KiB data buffer and a 4 KiB bitcell ring,
    and no track selected yet. *)
Definition fresh_img (f : FIL) : Img.image :=
  {| Img.fp := f; Img.nr_cyls := 0; Img.nr_sides := 0;
     Img.cur_track := 0xffff; Img.cur_bc := 0; Img.cur_ticks := 0;
     Img.ticks_since_flux := 0; Img.tracklen_bc := 0;
     Img.ticks_per_cell := 0; Img.write_bc_ticks := 0;
     Img.stk_per_rev := 0; Img.sync := SYNC_none;
     Img.read_data := ring 4096 4096; Img.read_bc := ring 2048 4096;
     Img.img := Img.img_zero |}.

(** A 1.44 MB PC image: 80 x 2 x 18 x 512 bytes, all zero. *)
Definition pc_1440k : FIL := file_of [] 1474560.

(** A Kaypro 400k image: 40 x 2 x 10 x 512 bytes. *)
Definition kaypro_400k : FIL := file_of [] 409600.

(** A 720k image, 80 x 2 x 9 x 512 bytes, whose boot sector carries a BPB
    for that geometry and no [0xAA55] signature. *)
Definition bpb_header (bytes_per_sec tot_sec sec_per_track num_heads : Z)
  : list Z :=
  replicate 11 0 ++ [bytes_per_sec mod 256; bytes_per_sec / 256]
  ++ replicate 6 0 ++ [tot_sec mod 256; tot_sec / 256]
  ++ replicate 3 0 ++ [sec_per_track mod 256; sec_per_track / 256]
  ++ [num_heads mod 256; num_heads / 256].

Definition msx_720k : FIL := file_of (bpb_header 512 1440 9 2) 737280.

(** A 360k MSX image, 80 x 1 x 9 x 512 bytes, with a matching BPB and no
    signature. *)
Definition msx_360k : FIL := file_of (bpb_header 512 720 9 1) 368640.

(** A JVC image with a 5-byte header: 10 sectors of 256 bytes per track,
    one side, first sector ID 250; 35 cylinders follow. *)
Definition jvc_high_ids : FIL := file_of [10; 1; 1; 250; 0] 89605.

(** The 1.44 MB image after [img_open] under the default host. *)
Definition opened_1440k : Img.image :=
  match @Img.img_open stm32_clock zero_stack Img.HOST_unspecified
          (fresh_img pc_1440k) with
  | Some (_, im) => im
  | None => fresh_img pc_1440k
  end.

(** The Kaypro 400k image after [img_open] under the Kaypro host. *)
Definition opened_kaypro : Img.image :=
  match @Img.img_open stm32_clock zero_stack Img.HOST_kaypro
          (fresh_img kaypro_400k) with
  | Some (_, im) => im
  | None => fresh_img kaypro_400k
  end.

(** The opened 1.44 MB image set up on track 0 at the index; the setup
    already runs the encoder once. *)
Definition track0_1440k : Img.image :=
  match @Img.img_setup_track iso_codec 0 (Some 0) opened_1440k with
  | Some (im, _) => im
  | None => opened_1440k
  end.

(** [n] further calls of the encoder. *)
Definition read_tracks (n : nat) (im : Img.image) : Img.image :=
  Nat.iter n (fun im => match @Img.image_read_track iso_codec im with
                        | Some (_, im') => im'
                        | None => im
                        end) im.

(** An HFE handle as the mount layer hands it to [hfe_open]: cleared, with
    the file attached and 4 KiB buffers. *)
Definition fresh_hfe (f : FIL) : Hfe.image :=
  {| Hfe.fp := f; Hfe.nr_cyls := 0; Hfe.nr_sides := 0;
     Hfe.cur_track := 0xffff; Hfe.cur_bc := 0; Hfe.cur_ticks := 0;
     Hfe.ticks_since_flux := 0; Hfe.tracklen_bc := 0;
     Hfe.tracklen_ticks := 0; Hfe.ticks_per_cell := 0;
     Hfe.write_bc_ticks := 0; Hfe.stk_per_rev := 0; Hfe.sync := SYNC_none;
     Hfe.index_pulses := replicate 34 0; Hfe.index_pulses_len := 0;
     Hfe.index_pulses_ver := 0;
     Hfe.read_data := ring 4096 4096; Hfe.read_bc := ring 4096 4096;
     Hfe.write_data := ring 4096 4096; Hfe.write_bc := ring 4096 4096;
     Hfe.hfe :=
       {| Hfe.is_v3 := false; Hfe.double_step := false; Hfe.tlut_base := 0;
          Hfe.trk_off := 0; Hfe.trk_len := 0; Hfe.trk_pos := 0;
          Hfe.write_batch_off := 0; Hfe.write_batch_len := 0;
          Hfe.write_batch_dirty := false; Hfe.write_wrapped := false;
          Hfe.next_index_pulses_pos := 0 |} |}.

(** A well-signed HFEv1 header, format revision 0, [nr_tracks] tracks,
    2 sides, 250 kbit/s, track list in block 1. *)
Definition hfe_header (nr_tracks : Z) : list Z :=
  Hfe.HXCPICFE ++ [0; nr_tracks; 2; 0; 250; 0; 0x2c; 0x01; 0; 0; 1; 0;
                   0xff; 0xff; 0; 0; 0; 0].

(** An HFE file whose header declares no tracks. *)
Definition hfe_no_tracks : FIL := file_of (hfe_header 0) 1024.

(** A v3 bitcell ring that starts with a bitrate opcode with operand byte
    0x01, and the flux generator's state in front of it on a track of
    50000 bitcells. *)
Definition bitrate_ring : list Z := [0x4f; 0x01; 0x00; 0x00].

Definition at_bitrate_opcode : Hfe.flux :=
  let im := fresh_hfe (file_of [] 1024) in
  let im := Hfe.set_tracklen_bc 50000 im in
  Hfe.mk_flux (Hfe.set_ticks_per_cell 2304 im) 0 0 2304 8 4 [].


Definition incoming : list Z := [0x80; 0x01; 0x03; 0xff; 0; 0; 0; 0].

(** A board with 64 KiB of RAM whose [.bss] ends 8 KiB into it. *)
Definition stm32_ram : Arena.Ram :=
  {| Arena._ebss := 0x20002000; Arena.ram_kb := 64 |}.

(** An Acorn DFS single-sided image: 80 x 1 x 10 x 256 bytes. *)
Definition ssd_200k : FIL := file_of [] 204800.

(** The handle as [ssd_open] hands it to [fm_open]. *)
Definition ssd_geometry : Img.image :=
  let im := Img.set_nr_sides 1 (fresh_img ssd_200k) in
  let im := Img.set_nr_cyls 80 im in
  let im := Img.on_img (Img.set_interleave 1) im in
  let im := Img.on_img (Img.set_skew 3) im in
  let im := Img.on_img (Img.set_skew_cyls_only true) im in
  let im := Img.on_img (Img.set_sec_no 1) im in
  let im := Img.on_img (Img.set_sec_base (0, 0)) im in
  let im := Img.on_img (Img.set_nr_sectors 10) im in
  Img.on_img (Img.set_gap_3 21) im.

(** A TR-DOS image of 40 x 2 x 16 x 256 bytes whose geometry byte, at
    offset 0x8e3, says so. *)
Definition trd_40x2 : FIL := file_of (replicate 2275 0 ++ [0x17]) 327680.

(** A Dragon VDK image: "dk", header length 12, 40 cylinders, 1 head, and
    40 x 18 x 256 bytes of data. *)
Definition vdk_40x1 : FIL :=
  file_of [100; 107; 12; 0; 0; 0; 0; 0; 40; 1; 0; 0] 184332.

(** The opened 1.44 MB image with track 0 selected and nothing read yet:
    [img_setup_track] without a start position. *)
Definition seeked_1440k : Img.image :=
  match @Img.img_setup_track iso_codec 0 None opened_1440k with
  | Some (im, _) => im
  | None => opened_1440k
  end.

(** The Acorn DFS image after [ssd_open], and set up on track 0 at the
    index. *)
Definition opened_ssd : Img.image :=
  match @Img.ssd_open stm32_clock (fresh_img ssd_200k) with
  | Some (_, im) => im
  | None => fresh_img ssd_200k
  end.

Definition track0_ssd : Img.image :=
  match @Img.img_setup_track iso_codec 0 (Some 0) opened_ssd with
  | Some (im, _) => im
  | None => opened_ssd
  end.

(** An HFE handle in write mode on a track of 1000 bytes per side, with
    the first 8 blocks of the track in the write batch and 16 raw bytes
    waiting in the bitcell ring. *)
Definition hfe_writing : Hfe.image :=
  let im := fresh_hfe (file_of [] 8192) in
  let im := Hfe.set_cur_track 0 im in
  let im := Hfe.on_hfe (Hfe.set_trk_len 1000) im in
  let im := Hfe.on_hfe (Hfe.set_write_batch_len 4096) im in
  Hfe.set_write_bc (set_bprod 128 (ring 4096 4096)) im.

(** An HFEv1 file of 80 tracks whose track list, in block 1, places
    track 0 in block 2 with 2000 bytes (1000 per side); and the handle
    after [hfe_open]. *)
Definition hfe_one_track : FIL :=
  file_of (hfe_header 80 ++ replicate 486 0 ++ [2; 0; 0xd0; 0x07]) 8192.

Definition opened_hfe : Hfe.image :=
  match @Hfe.hfe_open stm32_clock zero_stack (fresh_hfe hfe_one_track) with
  | Some (_, im) => im
  | None => fresh_hfe hfe_one_track
  end.

(** An HFEv1 file whose header gives a bitrate of 40000 kbit/s, above the
    36000 system-clock ticks of half a millisecond. *)
Definition hfe_too_fast : FIL :=
  file_of (Hfe.HXCPICFE ++ [0; 80; 2; 0; 0x40; 0x9c; 0x2c; 0x01; 0; 0; 1; 0;
                            0xff; 0xff; 0; 0; 0; 0]) 8192.

(** The opened HFE image with the first batch of track 0 in the bitcell
    ring. *)
Definition hfe_ring_filled : Hfe.image :=
  snd (Hfe.hfe_read_track 8 opened_hfe).

(** An HFEv3 handle eight bitcells before the end of a track of 8000
    bitcells, with a bitrate opcode under the consumer index. *)
Definition hfe_v3_at_end : Hfe.image :=
  let im := fresh_hfe (file_of [] 8192) in
  let im := Hfe.on_hfe (Hfe.set_is_v3 true) im in
  let im := Hfe.set_tracklen_bc 8000 im in
  let im := Hfe.set_cur_bc 7992 im in
  let im := Hfe.set_ticks_per_cell 2304 im in
  Hfe.set_read_bc {| bp := bitrate_ring ++ replicate 4092 0; blen := 4096;
                     bprod := 2048; bcons := 0 |} im.

(** A headerless JVC image of 80 x 2 x 18 x 256 bytes. *)
Definition jvc_80x2 : FIL := file_of [] 737280.

(** A SABDU image of 80 x 2 x 18 x 512 bytes: the geometry words of the
    46-byte header are at offsets 30, 32 and 34. *)
Definition sdu_1440k : FIL :=
  file_of (replicate 30 0 ++ [80; 0; 2; 0; 18; 0]) 1474606.

(** A PC-98 FDI image whose header gives 1024-byte sectors, 8 sectors,
    2 sides, 333 cylinders and a 4096-byte header. *)
Definition fdi_333_cyls : FIL :=
  file_of ([0; 0; 0; 0;  0x90; 0; 0; 0;  0; 0x10; 0; 0;  0; 0x40; 0x13; 0;
            0; 4; 0; 0;  8; 0; 0; 0;  2; 0; 0; 0;  0x4d; 1; 0; 0]) 1265664.

(** An HFEv3 handle set up to write track 0 (1000 bytes per side, two
    blocks into the file) from position 256, the first byte of the second
    block of side 0.  On file the last byte of the first block is a
    bitrate opcode and the byte at position 256 is its operand, 0x48;
    eight raw bytes wait in the bitcell ring. *)
Definition hfe_v3_on_operand : Hfe.image :=
  let im := fresh_hfe (file_of (replicate 1279 0 ++ [0x4f]
                                ++ replicate 256 0 ++ [0x48]) 8192) in
  let im := Hfe.set_cur_track 0 im in
  let im := Hfe.on_hfe (Hfe.set_is_v3 true) im in
  let im := Hfe.on_hfe (Hfe.set_trk_off 2) im in
  let im := Hfe.on_hfe (Hfe.set_trk_len 1000) im in
  let im := Hfe.on_hfe (Hfe.set_trk_pos 256) im in
  Hfe.set_write_bc {| bp := incoming ++ replicate 4088 0; blen := 4096;
                      bprod := 64; bcons := 0 |} im.

End Sample.

(** * Properties of the sector-image engine *)

Module ImgProofs.
Import Img.

(** ** Tactics *)

Ltac split_ifs :=
  repeat match goal with
         | |- context [if ?c then _ else _] => destruct c
         end.

(** Run the record updates of a let-chain: every setter and getter is
    unfolded, and nothing else. *)
Ltac run_img :=
  cbv beta iota zeta delta
    [trk_off base_off trk_sec rd_sec_pos decode_pos decode_data_pos crc
     layout has_iam gap_2 gap_3 gap_4a post_crc_syncs write_sector sec_base
     sec_map nr_sectors sec_no interleave skew skew_cyls_only data_rate
     gap_4 idx_sz idam_sz dam_sz_pre dam_sz_post rpm fp nr_cyls nr_sides
     cur_track cur_bc cur_ticks ticks_since_flux tracklen_bc ticks_per_cell
     write_bc_ticks stk_per_rev sync read_data read_bc img bp blen bprod
     bcons set_trk_off set_base_off set_trk_sec set_rd_sec_pos
     set_decode_pos set_decode_data_pos set_crc set_layout set_has_iam
     set_gap_2 set_gap_3 set_gap_4a set_post_crc_syncs set_write_sector
     set_sec_base set_sec_map set_nr_sectors set_sec_no set_interleave
     set_skew set_skew_cyls_only set_data_rate set_gap_4 set_idx_sz
     set_idam_sz set_dam_sz_pre set_dam_sz_post set_rpm set_fp set_nr_cyls
     set_nr_sides set_cur_track set_cur_bc set_cur_ticks
     set_ticks_since_flux set_tracklen_bc set_ticks_per_cell
     set_write_bc_ticks set_stk_per_rev set_sync set_read_data set_read_bc
     set_img set_bp set_blen set_bprod set_bcons on_img on_read_data
     on_read_bc enc_sec_sz sec_sz idam_gap_sync sec_base_of im_size].
Ltac run_img_in H :=
  cbv beta iota zeta delta
    [trk_off base_off trk_sec rd_sec_pos decode_pos decode_data_pos crc
     layout has_iam gap_2 gap_3 gap_4a post_crc_syncs write_sector sec_base
     sec_map nr_sectors sec_no interleave skew skew_cyls_only data_rate
     gap_4 idx_sz idam_sz dam_sz_pre dam_sz_post rpm fp nr_cyls nr_sides
     cur_track cur_bc cur_ticks ticks_since_flux tracklen_bc ticks_per_cell
     write_bc_ticks stk_per_rev sync read_data read_bc img bp blen bprod
     bcons set_trk_off set_base_off set_trk_sec set_rd_sec_pos
     set_decode_pos set_decode_data_pos set_crc set_layout set_has_iam
     set_gap_2 set_gap_3 set_gap_4a set_post_crc_syncs set_write_sector
     set_sec_base set_sec_map set_nr_sectors set_sec_no set_interleave
     set_skew set_skew_cyls_only set_data_rate set_gap_4 set_idx_sz
     set_idam_sz set_dam_sz_pre set_dam_sz_post set_rpm set_fp set_nr_cyls
     set_nr_sides set_cur_track set_cur_bc set_cur_ticks
     set_ticks_since_flux set_tracklen_bc set_ticks_per_cell
     set_write_bc_ticks set_stk_per_rev set_sync set_read_data set_read_bc
     set_img set_bp set_blen set_bprod set_bcons on_img on_read_data
     on_read_bc enc_sec_sz sec_sz idam_gap_sync sec_base_of im_size] in H.

(** Project through record updates: getters applied to setters are
    simplified, nothing else is touched. *)
Ltac sim_img :=
  cbn
[trk_off base_off trk_sec rd_sec_pos decode_pos decode_data_pos crc
     layout has_iam gap_2 gap_3 gap_4a post_crc_syncs write_sector sec_base
     sec_map nr_sectors sec_no interleave skew skew_cyls_only data_rate
     gap_4 idx_sz idam_sz dam_sz_pre dam_sz_post rpm fp nr_cyls nr_sides
     cur_track cur_bc cur_ticks ticks_since_flux tracklen_bc ticks_per_cell
     write_bc_ticks stk_per_rev sync read_data read_bc img bp blen bprod
     bcons set_trk_off set_base_off set_trk_sec set_rd_sec_pos
     set_decode_pos set_decode_data_pos set_crc set_layout set_has_iam
     set_gap_2 set_gap_3 set_gap_4a set_post_crc_syncs set_write_sector
     set_sec_base set_sec_map set_nr_sectors set_sec_no set_interleave
     set_skew set_skew_cyls_only set_data_rate set_gap_4 set_idx_sz
     set_idam_sz set_dam_sz_pre set_dam_sz_post set_rpm set_fp set_nr_cyls
     set_nr_sides set_cur_track set_cur_bc set_cur_ticks
     set_ticks_since_flux set_tracklen_bc set_ticks_per_cell
     set_write_bc_ticks set_stk_per_rev set_sync set_read_data set_read_bc
     set_img set_bp set_blen set_bprod set_bcons on_img on_read_data
     on_read_bc].
Ltac sim_img_in H :=
  cbn
[trk_off base_off trk_sec rd_sec_pos decode_pos decode_data_pos crc
     layout has_iam gap_2 gap_3 gap_4a post_crc_syncs write_sector sec_base
     sec_map nr_sectors sec_no interleave skew skew_cyls_only data_rate
     gap_4 idx_sz idam_sz dam_sz_pre dam_sz_post rpm fp nr_cyls nr_sides
     cur_track cur_bc cur_ticks ticks_since_flux tracklen_bc ticks_per_cell
     write_bc_ticks stk_per_rev sync read_data read_bc img bp blen bprod
     bcons set_trk_off set_base_off set_trk_sec set_rd_sec_pos
     set_decode_pos set_decode_data_pos set_crc set_layout set_has_iam
     set_gap_2 set_gap_3 set_gap_4a set_post_crc_syncs set_write_sector
     set_sec_base set_sec_map set_nr_sectors set_sec_no set_interleave
     set_skew set_skew_cyls_only set_data_rate set_gap_4 set_idx_sz
     set_idam_sz set_dam_sz_pre set_dam_sz_post set_rpm set_fp set_nr_cyls
     set_nr_sides set_cur_track set_cur_bc set_cur_ticks
     set_ticks_since_flux set_tracklen_bc set_ticks_per_cell
     set_write_bc_ticks set_stk_per_rev set_sync set_read_data set_read_bc
     set_img set_bp set_blen set_bprod set_bcons on_img on_read_data
     on_read_bc] in H.

(** ** Machine-integer facts *)

Lemma u8_small x : 0 <= x < 256 -> u8 x = x.
Proof. intros. unfold u8. apply Z.mod_small. lia. Qed.

Lemma u16_small x : 0 <= x < 65536 -> u16 x = x.
Proof. intros. unfold u16. apply Z.mod_small. lia. Qed.

Lemma u32_small x : 0 <= x < 4294967296 -> u32 x = x.
Proof. intros. unfold u32. apply Z.mod_small. lia. Qed.

Lemma u8_range x : 0 <= u8 x < 256.
Proof. unfold u8. apply Z.mod_pos_bound. lia. Qed.

(** Drop the wrap-around of every store whose operand is in range. *)
Ltac no_wrap :=
  repeat match goal with
         | |- context [u32 ?x] => rewrite (u32_small x) by lia
         | |- context [u16 ?x] => rewrite (u16_small x) by lia
         | |- context [u8 ?x] => rewrite (u8_small x) by lia
         end.

(** ** The sector map *)

Section SectorMap.

Variables n interleave base : Z.
Hypothesis n_pos : 0 < n.
Hypothesis n_max : n <= MAX_SECS.

(** The scan for a free slot stops within one turn of the track when some
    slot below [n] still holds the filler. *)
Lemma skip_used_finds (d fuel : nat) (sm : list Z) (pos : Z) :
  (d <= fuel)%nat ->
  0 <= pos < n ->
  sm !! Z.to_nat ((pos + Z.of_nat d) mod n) = Some 0xff ->
  exists q, skip_used fuel n sm pos = Some q /\ 0 <= q < n
            /\ sm !! Z.to_nat q = Some 0xff.
Proof.
  revert fuel pos. induction d as [|d IH]; intros fuel pos Hfuel Hpos Hfree.
  - rewrite Z.add_0_r, Z.mod_small in Hfree by lia.
    exists pos. split; [|done].
    destruct fuel; simpl; rewrite (list_lookup_total_correct _ _ _ Hfree); done.
  - destruct fuel as [|fuel]; [lia|]. simpl.
    destruct (sm !!! Z.to_nat pos =? 255) eqn:Hat; simpl.
    + exists pos. split; [done|]. split; [done|].
      apply Z.eqb_eq in Hat.
      destruct (sm !! Z.to_nat pos) as [v|] eqn:Hl.
      * rewrite (list_lookup_total_correct _ _ _ Hl) in Hat. by subst.
      * rewrite list_lookup_total_alt, Hl in Hat. done.
    + unfold MAX_SECS in n_max.
      apply IH; [lia| |].
      * rewrite u32_small by lia. apply Z.mod_pos_bound. lia.
      * rewrite u32_small by lia.
        rewrite Zplus_mod_idemp_l.
        replace (pos + 1 + Z.of_nat d) with (pos + Z.of_nat (S d)) by lia.
        done.
Qed.

(** Overwriting a slot whose old value is accounted for swaps that value
    for the new one in the multiset of the list. *)
Lemma insert_swaps_member (l rest : list Z) (q : nat) (a v : Z) :
  l !! q = Some a ->
  l ≡ₚ a :: rest ->
  <[q:=v]> l ≡ₚ v :: rest.
Proof.
  intros Hq Hl.
  assert (q < length l)%nat by (eapply lookup_lt_Some; eauto).
  rewrite insert_take_drop by done.
  rewrite <- Permutation_middle. apply perm_skip.
  apply (Permutation_cons_inv (a := a)).
  rewrite <- Hl, <- delete_take_drop.
  symmetry. by apply delete_Permutation.
Qed.

(** The loop invariant of the fill loop: after [i] passes the first [n]
    slots hold the first [i] identifiers and [n - i] fillers, in some
    order.  From there the loop runs to its end and leaves exactly the [n]
    identifiers. *)
Lemma fill_sec_map_perm (todo : nat) (i pos : Z) (sm : list Z) :
  Z.of_nat todo = n - i ->
  0 <= i ->
  0 <= pos < n ->
  n <= Z.of_nat (length sm) ->
  take (Z.to_nat n) sm ≡ₚ (u8 <$> seqZ base i) ++ replicate todo 0xff ->
  exists sm',
    fill_sec_map todo n interleave base i pos sm = Some sm'
    /\ length sm' = length sm
    /\ take (Z.to_nat n) sm' ≡ₚ u8 <$> seqZ base n
    /\ drop (Z.to_nat n) sm' = drop (Z.to_nat n) sm.
Proof.
  revert i pos sm.
  induction todo as [|todo IH]; intros i pos sm Htodo Hi Hpos Hlen Hinv.
  - exists sm. simpl. rewrite app_nil_r in Hinv.
    assert (i = n) as -> by lia. done.
  - (* some slot below [n] still holds the filler *)
    assert (exists k : nat, (k < Z.to_nat n)%nat /\ sm !! k = Some 0xff)
      as (k & Hk & Hfree).
    { assert (0xff ∈ take (Z.to_nat n) sm) as Hin.
      { rewrite Hinv. apply elem_of_app. right.
        apply elem_of_replicate. done. }
      apply list_elem_of_lookup in Hin as [k Hk].
      apply lookup_take_Some in Hk as [? ?]. eauto. }
    destruct (skip_used_finds (Z.to_nat ((Z.of_nat k - pos) mod n))
                (Z.to_nat n) sm pos) as (q & Hscan & Hq & Hqfree).
    { pose proof (Z.mod_pos_bound (Z.of_nat k - pos) n n_pos). lia. }
    { done. }
    { pose proof (Z.mod_pos_bound (Z.of_nat k - pos) n n_pos).
      rewrite Z2Nat.id by lia.
      rewrite Zplus_mod_idemp_r.
      replace (pos + (Z.of_nat k - pos)) with (Z.of_nat k) by lia.
      rewrite Z.mod_small by lia. by rewrite Nat2Z.id. }
    simpl. rewrite Hscan. simpl.
    destruct (IH (i + 1)
                 (u32 (q + interleave) mod n)
                 (<[Z.to_nat q := u8 (i + base)]> sm))
      as (sm' & Hrun & Hlen' & Hperm & Hdrop).
    + lia.
    + lia.
    + apply Z.mod_pos_bound. lia.
    + by rewrite length_insert.
    + rewrite take_insert_lt by lia.
      rewrite seqZ_app, fmap_app by lia.
      rewrite (seqZ_cons (base + i) 1), (seqZ_nil _ (Z.pred 1)) by lia. simpl.
      rewrite <- app_assoc. simpl.
      rewrite <- Permutation_middle.
      replace (base + i) with (i + base) by lia.
      apply insert_swaps_member with (a := 0xff).
      * rewrite lookup_take_lt by lia. done.
      * rewrite Hinv. simpl. by rewrite <- Permutation_middle.
    + exists sm'. split; [done|]. split.
      * by rewrite Hlen', length_insert.
      * split; [done|]. rewrite Hdrop. apply drop_insert_lt. lia.
Qed.

End SectorMap.

(** ** The blocks of mfm_open and fm_open, one equation each *)

Ltac by_fields im :=
  destruct im as [? ? ? ? ? ? ? ? ? ? ? ? ? ? []]; reflexivity.

Section Blocks.
Context `{Clock}.

Lemma mfm_defaults_eq (im : image) :
  mfm_defaults im =
  let g := img im in
  let rpm' := or_default (rpm g) 300 in
  set_stk_per_rev (u32 (stk_ms 200 * 300 / rpm'))
    (set_img
       (set_gap_4a (or_default (gap_4a g) GAP_4A)
          (set_gap_3 (or_default (gap_3 g) (GAP_3 !!! Z.to_nat (sec_no g)))
             (set_gap_2 (or_default (gap_2 g) GAP_2) (set_rpm rpm' g))))
       im).
Proof. by_fields im. Qed.

Lemma mfm_sizes_eq (im : image) :
  mfm_sizes im =
  let g := img im in
  set_img
    (set_dam_sz_post (u16 (u16 (2 + gap_3 g) + post_crc_syncs g))
       (set_idam_sz
          (u32 (u32 (min_t (gap_3 g) GAP_SYNC + 8 + 2 + gap_2 g)
                + post_crc_syncs g))
          (set_dam_sz_pre (u16 (GAP_SYNC + 4))
             (set_idx_sz
                (if has_iam g then u32 (gap_4a g + (GAP_SYNC + 4 + GAP_1))
                 else gap_4a g) g))))
    im.
Proof. by_fields im. Qed.

Lemma fm_defaults_eq (im : image) :
  fm_defaults im =
  let g := img im in
  let rpm' := or_default (rpm g) 300 in
  set_stk_per_rev (u32 (stk_ms 200 * 300 / rpm'))
    (set_img
       (set_gap_4a (or_default (gap_4a g) FM_GAP_4A)
          (set_gap_3 (or_default (gap_3 g) (FM_GAP_3 !!! Z.to_nat (sec_no g)))
             (set_gap_2 (or_default (gap_2 g) FM_GAP_2) (set_rpm rpm' g))))
       im).
Proof. by_fields im. Qed.

Lemma fm_sizes_eq (im : image) :
  fm_sizes im =
  let g := img im in
  set_img
    (set_dam_sz_post (u16 (2 + gap_3 g))
       (set_dam_sz_pre (u16 (FM_GAP_SYNC + 1))
          (set_idam_sz (u32 (FM_GAP_SYNC + 5 + 2 + gap_2 g))
             (set_idx_sz (gap_4a g) g))))
    im.
Proof. by_fields im. Qed.

Lemma mfm_rate_eq (tracklen : Z) (im : image) :
  mfm_rate tracklen im =
  let g := img im in
  let rate := u16 (Z.shiftl 250 (rate_loop 3 0 (rpm g) tracklen)) in
  set_tracklen_bc (u32 (rate * 200 * 300 / rpm g))
    (set_img (set_data_rate rate g) im).
Proof. by_fields im. Qed.

Lemma fm_rate_eq (im : image) :
  fm_rate im =
  set_tracklen_bc (u32 (250 * 200 * 300 / rpm (img im)))
    (set_img (set_data_rate 250 (img im)) im).
Proof. by_fields im. Qed.

Lemma track_finish_eq (tracklen : Z) (im : image) :
  track_finish tracklen im =
  let bc := Z.land (u32 (tracklen_bc im + 31)) (u32 (Z.lnot 31)) in
  set_write_bc_ticks (u32 (sysclk_ms 1 / data_rate (img im)))
    (set_img (set_gap_4 (u16 (u32 (bc - tracklen) / 16)) (img im))
       (set_ticks_per_cell (u32 (u32 (sysclk_stk (stk_per_rev im) * 16) / bc))
          (set_tracklen_bc bc im))).
Proof. by_fields im. Qed.

End Blocks.

(** ** What the geometry builders accept and what they leave alone *)

Section Frame.
Context `{Clock}.

Lemma geometry_check (a b c : Z) :
  (a <? 1) || (2 <? a) || (b <? 1) || (254 <? b) || (c <? 1)
  || (MAX_SECS <? c) = false <->
  1 <= a <= 2 /\ 1 <= b <= 254 /\ 1 <= c <= MAX_SECS.
Proof. rewrite !orb_false_iff, !Z.ltb_ge. lia. Qed.

Lemma mfm_open_accepts (im : image) :
  fst (mfm_open im) = true <->
  1 <= nr_sides im <= 2 /\ 1 <= nr_cyls im <= 254
  /\ 1 <= nr_sectors (img im) <= MAX_SECS.
Proof.
  rewrite <- geometry_check. cbv delta [mfm_open]. cbv beta.
  match goal with |- context [if ?c then _ else _] => destruct c end.
  - simpl. split; discriminate.
  - cbv zeta. destruct (mfm_fit _ _). simpl. done.
Qed.

Lemma mfm_open_frame (im : image) : same_layout im (snd (mfm_open im)).
Proof.
  cbv delta [mfm_open mfm_fit]. cbv beta zeta.
  rewrite mfm_rate_eq, mfm_sizes_eq, mfm_defaults_eq.
  split_ifs; rewrite ?track_finish_eq; unfold same_layout; sim_img; done.
Qed.

Lemma fm_open_accepts (im im' : image) :
  fm_open im = Some (true, im') ->
  (1 <= nr_sides im <= 2 /\ 1 <= nr_cyls im <= 254
   /\ 1 <= nr_sectors (img im) <= MAX_SECS)
  /\ same_layout im im'.
Proof.
  rewrite <- geometry_check. cbv delta [fm_open]. cbv beta zeta.
  split_ifs; try discriminate.
  intros Hopen. apply (f_equal (fun r => snd <$> r)) in Hopen.
  simpl in Hopen. injection Hopen as <-.
  rewrite track_finish_eq, fm_rate_eq, fm_sizes_eq, fm_defaults_eq.
  unfold same_layout; sim_img; done.
Qed.

End Frame.

(** ** The sector map of a selected track *)

Lemma head_of_track (cyl side sides : Z) :
  0 <= cyl -> 1 <= sides <= 2 -> 0 <= side < sides ->
  Z.land (cyl * 2 + side) (sides - 1) = side.
Proof.
  intros Hc Hs Hside.
  assert (sides = 1 \/ sides = 2) as [-> | ->] by lia.
  - simpl. rewrite Z.land_0_r. lia.
  - change (2 - 1) with (Z.ones 1). rewrite Z.land_ones by lia.
    change (2 ^ 1) with 2.
    rewrite Z.add_comm, Z.mod_add by lia. apply Z.mod_small. lia.
Qed.

Lemma img_seek_track_map (track cyl side : Z) (im : image) :
  1 <= nr_sectors (img im) <= MAX_SECS ->
  Z.of_nat (length (sec_map (img im))) = MAX_SECS ->
  exists im',
    img_seek_track track cyl side im = Some im'
    /\ cur_track im' = track
    /\ nr_sides im' = nr_sides im
    /\ nr_cyls im' = nr_cyls im
    /\ nr_sectors (img im') = nr_sectors (img im)
    /\ sec_base (img im') = sec_base (img im)
    /\ length (sec_map (img im')) = length (sec_map (img im))
    /\ take (Z.to_nat (nr_sectors (img im))) (sec_map (img im'))
       ≡ₚ u8 <$> seqZ (at2 (sec_base (img im))
                            (Z.land track (nr_sides im - 1)))
                      (nr_sectors (img im)).
Proof.
  intros Hn Hlen.
  destruct im as [? ? ? ? ? ? ? ? ? ? ? ? ? ? []].
  run_img_in Hn. run_img_in Hlen. unfold MAX_SECS in *.
  cbv delta [img_seek_track]. run_img.
  match goal with
  | |- context [fill_sec_map ?t ?a ?b ?c ?d ?e ?f] =>
      destruct (fill_sec_map_perm a b c ltac:(lia) ltac:(unfold MAX_SECS; lia)
                  t d e f)
        as (sm' & Hrun & Hlen' & Hperm & _)
  end.
  - lia.
  - lia.
  - apply Z.mod_pos_bound. lia.
  - unfold memset. rewrite length_app, length_replicate, length_drop. lia.
  - unfold memset.
    rewrite take_app_length' by (by rewrite length_replicate).
    rewrite seqZ_nil by lia. done.
  - rewrite Hrun. eexists. split; [reflexivity|]. simpl.
    repeat split; try done.
    rewrite Hlen'. unfold memset.
    rewrite length_app, length_replicate, length_drop. lia.
Qed.

(** Identifiers that wrap around a byte stay distinct as long as fewer
    than 256 of them are handed out. *)
Lemma sector_ids_nodup (base n : Z) :
  n <= 256 -> NoDup (u8 <$> seqZ base n).
Proof.
  intros Hn. apply NoDup_fmap_2_strong; [|apply NoDup_seqZ].
  intros x y [Hx1 Hx2]%elem_of_seqZ [Hy1 Hy2]%elem_of_seqZ Hxy.
  unfold u8 in Hxy. change (2 ^ 8) with 256 in Hxy.
  pose proof (Z.div_mod x 256 ltac:(lia)).
  pose proof (Z.div_mod y 256 ltac:(lia)).
  lia.
Qed.

(** C1, as amended: for every geometry that mfm_open or fm_open accepts
    and every cylinder and side within it, img_seek_track returns, and the
    first [nr_sectors] slots of [sec_map] then hold the sector IDs
    [(sec_base[side] + i) mod 256] for [i = 0 .. nr_sectors-1], each exactly
    once.  Interleave and skew are arbitrary. *)
Theorem sec_map_permutation `{Clock} (im0 im : image) (cyl side : Z) :
  mfm_open im0 = (true, im) \/ fm_open im0 = Some (true, im) ->
  Z.of_nat (length (sec_map (img im0))) = MAX_SECS ->
  0 <= cyl < nr_cyls im ->
  0 <= side < nr_sides im ->
  exists im',
    img_seek_track (cyl * 2 + side) cyl side im = Some im'
    /\ take (Z.to_nat (nr_sectors (img im))) (sec_map (img im'))
       ≡ₚ u8 <$> seqZ (at2 (sec_base (img im)) side) (nr_sectors (img im))
    /\ NoDup (take (Z.to_nat (nr_sectors (img im))) (sec_map (img im'))).
Proof.
  intros Hopen Hlen Hcyl Hside.
  assert ((1 <= nr_sides im0 <= 2 /\ 1 <= nr_cyls im0 <= 254
           /\ 1 <= nr_sectors (img im0) <= MAX_SECS)
          /\ same_layout im0 im) as [(Hs & Hc & Hn) Hsame].
  { destruct Hopen as [Hopen | Hopen].
    - split.
      + apply mfm_open_accepts. by rewrite Hopen.
      + pose proof (mfm_open_frame im0) as Hf. by rewrite Hopen in Hf.
    - by apply fm_open_accepts. }
  destruct Hsame as (Es & Ec & _ & En & Eb & Em & _).
  destruct (img_seek_track_map (cyl * 2 + side) cyl side im)
    as (im' & Hseek & _ & _ & _ & _ & _ & _ & Hperm).
  { lia. }
  { by rewrite Em. }
  rewrite head_of_track in Hperm by lia.
  exists im'. split; [done|]. split; [done|].
  rewrite Hperm. apply sector_ids_nodup. unfold MAX_SECS in *. lia.
Qed.

(** C1 as the spec words it fails where the IDs pass 255: a JVC header may
    name any first sector ID, and with first ID 250 and 10 sectors per track
    the map holds 250..255 and then 0..3, not 250..259. *)
Lemma sec_map_range_counterexample :
  let opened := @jvc_open Sample.stm32_clock
                  (Sample.fresh_img Sample.jvc_high_ids) in
  fst opened = true
  /\ sec_base (img (snd opened)) = (250, 250)
  /\ nr_sectors (img (snd opened)) = 10
  /\ exists im',
       img_seek_track 0 0 0 (snd opened) = Some im'
       /\ ~ (take 10 (sec_map (img im')) ≡ₚ seqZ 250 10).
Proof.
  cbv zeta. split; [by vm_compute|]. split; [by vm_compute|].
  split; [by vm_compute|].
  eexists. split; [vm_compute; reflexivity|].
  intros Hperm.
  assert (259 ∈ take 10 [250; 1; 254; 251; 2; 255; 252; 3; 0; 253]) as Hin.
  { assert (259 ∈ seqZ 250 10) as Hin by (apply elem_of_seqZ; lia).
    revert Hin. rewrite <- Hperm. by vm_compute. }
  vm_compute in Hin.
  repeat (apply elem_of_cons in Hin as [Hin | Hin]; [discriminate|]).
  by apply elem_of_nil in Hin.
Qed.

(** The amended statement at work on the 1.44 MB image, cylinder 3,
    side 1. *)
Lemma sec_map_permutation_witness :
  exists im',
    img_seek_track (3 * 2 + 1) 3 1 Sample.opened_1440k = Some im'
    /\ take (Z.to_nat (nr_sectors (img Sample.opened_1440k)))
            (sec_map (img im'))
       ≡ₚ u8 <$> seqZ (at2 (sec_base (img Sample.opened_1440k)) 1)
                      (nr_sectors (img Sample.opened_1440k))
    /\ NoDup (take (Z.to_nat (nr_sectors (img Sample.opened_1440k)))
                   (sec_map (img im'))).
Proof.
  apply (sec_map_permutation (H := Sample.stm32_clock)
           Sample.opened_1440k Sample.opened_1440k 3 1).
  - left. vm_compute. reflexivity.
  - vm_compute. reflexivity.
  - vm_compute. split; [discriminate | reflexivity].
  - vm_compute. split; [discriminate | reflexivity].
Defined.

(** ** Track length arithmetic *)

(** [(x + 31) & ~31] on 32-bit operands rounds up to a multiple of 32. *)
Lemma round_up_32 (x : Z) :
  0 <= x < 2 ^ 32 - 31 ->
  Z.land (u32 (x + 31)) (u32 (Z.lnot 31)) = 32 * ((x + 31) / 32).
Proof.
  intros Hx. rewrite (u32_small (x + 31)) by lia.
  change (u32 (Z.lnot 31)) with (Z.shiftl (Z.ones 27) 5).
  change 32 with (2 ^ 5). rewrite Z.mul_comm.
  rewrite <- Z.shiftr_div_pow2, <- Z.shiftl_mul_pow2 by lia.
  apply Z.bits_inj'. intros k Hk. rewrite Z.land_spec.
  destruct (Z.ltb_spec k 5).
  - rewrite !Z.shiftl_spec_low by lia. apply andb_false_r.
  - rewrite !Z.shiftl_spec, Z.shiftr_spec by lia.
    replace (k - 5 + 5) with k by lia.
    destruct (Z.ltb_spec k 32).
    + rewrite Z.ones_spec_low by lia. apply andb_true_r.
    + rewrite Z.ones_spec_high by lia. rewrite andb_false_r.
      rewrite <- (Z.mod_small (x + 31) (2 ^ 32)) by lia.
      symmetry. apply Z.mod_pow2_bits_high. lia.
Qed.

(** Once the rounded track is known to hold the encoded data with less
    than a 16-bit count of bytes to spare, GAP4 takes up the slack
    exactly. *)
Lemma gap_4_exact (tracklen bc : Z) :
  tracklen mod 16 = 0 -> bc mod 32 = 0 ->
  0 <= tracklen <= bc -> bc - tracklen < 1048576 -> bc < 2 ^ 32 ->
  u16 (u32 (bc - tracklen) / 16) = (bc - tracklen) / 16
  /\ tracklen + (bc - tracklen) / 16 * 16 = bc.
Proof.
  intros Ht Hbc Hle Hslack Hmax.
  rewrite u32_small by lia.
  apply Z.mod_divide in Ht; [|lia]. destruct Ht as [a ->].
  apply Z.mod_divide in Hbc; [|lia]. destruct Hbc as [b ->].
  replace (b * 32 - a * 16) with ((2 * b - a) * 16) in * by lia.
  rewrite Z.div_mul by lia.
  split; [apply u16_small|]; lia.
Qed.




Lemma sec_sz_range (im : image) :
  0 <= sec_no (img im) <= 7 -> 128 <= sec_sz im <= 16384.
Proof.
  intros Hk. unfold sec_sz.
  assert (sec_no (img im) = 0 \/ sec_no (img im) = 1 \/ sec_no (img im) = 2
          \/ sec_no (img im) = 3 \/ sec_no (img im) = 4
          \/ sec_no (img im) = 5 \/ sec_no (img im) = 6
          \/ sec_no (img im) = 7) as Hcases by lia.
  repeat destruct Hcases as [-> | Hcases]; try rewrite Hcases; vm_compute;
    split; discriminate.
Qed.

(** [enc_sec_sz] reads four fields of the IMG block and nothing else. *)
Lemma enc_sec_sz_ext (im im' : image) :
  idam_sz (img im') = idam_sz (img im) ->
  dam_sz_pre (img im') = dam_sz_pre (img im) ->
  sec_no (img im') = sec_no (img im) ->
  dam_sz_post (img im') = dam_sz_post (img im) ->
  enc_sec_sz im' = enc_sec_sz im.
Proof. unfold enc_sec_sz, sec_sz. by intros -> -> -> ->. Qed.

Section TrackLength.
Context `{Clock}.




Lemma track_finish_fields (t : Z) (im : image) (s : sync_mode) :
  let im' := set_sync s (track_finish t im) in
  let bc := Z.land (u32 (tracklen_bc im + 31)) (u32 (Z.lnot 31)) in
  tracklen_bc im' = bc
  /\ gap_4 (img im') = u16 (u32 (bc - t) / 16)
  /\ idx_sz (img im') = idx_sz (img im)
  /\ nr_sectors (img im') = nr_sectors (img im)
  /\ enc_sec_sz im' = enc_sec_sz im.
Proof.
  destruct im as [? ? ? ? ? ? ? ? ? ? ? ? ? ? []]. cbv zeta.
  repeat split; reflexivity.
Qed.




End TrackLength.



(** ** Seed scenarios of the type-table matcher *)

(** Without skew every track starts its map at slot 0. *)
Lemma seek_track_no_skew (track cyl side : Z) (im : image) :
  skew (img im) = 0 ->
  0 < nr_sectors (img im) ->
  let n := nr_sectors (img im) in
  let base := at2 (sec_base (img im)) (Z.land track (nr_sides im - 1)) in
  (fun im' => sec_map (img im')) <$> img_seek_track track cyl side im
  = fill_sec_map (Z.to_nat n) n (interleave (img im)) base 0 0
      (memset (sec_map (img im)) 0xff n).
Proof.
  intros Hskew Hn. cbv zeta.
  destruct im as [? ? ? ? ? ? ? ? ? ? ? ? ? ? []].
  cbv delta [img_seek_track]. run_img. run_img_in Hskew. run_img_in Hn.
  subst. rewrite Z.mul_0_r.
  change (u32 0) with 0. rewrite Z.mod_0_l by lia.
  by destruct (fill_sec_map _ _ _ _ _ _ _).
Qed.

(** What an opener settled on, read back from its result. *)
Lemma opened_as_inv (r : option (bool * image)) g :
  (fun x => (fst x, opened_as (snd x))) <$> r = Some (true, g) ->
  exists im, r = Some (true, im) /\ opened_as im = g.
Proof.
  destruct r as [[ok im]|]; simpl; [|discriminate].
  intros [= -> <-]. by exists im.
Qed.

Lemma kaypro_side1_map :
  [10; 17; 14; 11; 18; 15; 12; 19; 16; 13] ≡ₚ seqZ 10 10.
Proof.
  change (seqZ 10 10) with [10; 11; 12; 13; 14; 15; 16; 17; 18; 19].
  apply NoDup_Permutation.
  - apply (bool_decide_unpack _). vm_compute. exact I.
  - apply (bool_decide_unpack _). vm_compute. exact I.
  - intros x. rewrite !elem_of_cons, !elem_of_nil. lia.
Qed.

Section Seeds.
Context `{Clock} `{Uninit}.

(** C4, amended: a 1 474 560-byte image under the default host opens as
    80 cylinders, 2 sides, 18 sectors of 512 bytes (size code 2), gap 3 of
    84 and the IAM present, at the data rate 1000 that the sector count
    selects; interleave is 1, skew 0 and the first sector ID 1 on both
    sides, so every track's sector map is 1, 2, ..., 18. *)
Theorem open_pc_1440k (f : FIL) :
  f_size f = 1474560 ->
  exists im,
    img_open HOST_unspecified (Sample.fresh_img f) = Some (true, im)
    /\ nr_cyls im = 80 /\ nr_sides im = 2
    /\ sec_no (img im) = 2 /\ nr_sectors (img im) = 18
    /\ gap_3 (img im) = 84 /\ data_rate (img im) = 1000
    /\ has_iam (img im) = true
    /\ interleave (img im) = 1 /\ skew (img im) = 0
    /\ sec_base (img im) = (1, 1)
    /\ forall cyl side, 0 <= cyl < 80 -> 0 <= side < 2 ->
       exists im',
         img_seek_track (cyl * 2 + side) cyl side im = Some im'
         /\ take 18 (sec_map (img im')) = seqZ 1 18.
Proof.
  intros Hsize. destruct f as [size data tell]. simpl in Hsize. subst size.
  destruct (opened_as_inv
              (img_open HOST_unspecified
                 (Sample.fresh_img
                    {| f_size := 1474560; f_data := data; f_tell := tell |}))
              (80, 2, 2, 18, 84, 1000, true, 1, 0, (1, 1)))
    as (im & -> & Hg); [vm_compute; reflexivity|].
  injection Hg as Hc Hs Hno Hn Hg3 Hrate Hiam Hil Hskew Hbase.
  exists im. do 11 (split; [done|]).
  intros cyl side Hcyl Hside.
  pose proof (seek_track_no_skew (cyl * 2 + side) cyl side im Hskew
                ltac:(lia)) as Hmap.
  cbv zeta in Hmap. rewrite Hn, Hil, Hbase in Hmap.
  assert (at2 (1, 1) (Z.land (cyl * 2 + side) (nr_sides im - 1)) = 1) as Hb
    by (unfold at2; by destruct (_ =? 0)).
  assert (forall sm, fill_sec_map (Z.to_nat 18) 18 1 1 0 0 (memset sm 255 18)
                     = Some (seqZ 1 18 ++ drop 18 sm)) as Hfill
    by (intros sm; vm_compute; reflexivity).
  rewrite Hb, Hfill in Hmap.
  destruct (img_seek_track _ _ _ im) as [im'|]; [|discriminate].
  injection Hmap as Hm. exists im'. by rewrite Hm.
Qed.

(** C5, amended: a 409 600-byte image under the Kaypro host opens as 40
    cylinders, 2 sides, 10 sectors with interleave 3 and inter-track
    numbering over the table's base 0: the first sector ID is 0 on side 0
    and 0 + 10 = 10 on side 1, and on every side-1 track the sector map is
    10, 17, 14, 11, 18, 15, 12, 19, 16, 13, a permutation of 10..19. *)
Theorem open_kaypro_400k (f : FIL) :
  f_size f = 409600 ->
  exists im,
    img_open HOST_kaypro (Sample.fresh_img f) = Some (true, im)
    /\ nr_cyls im = 40 /\ nr_sides im = 2
    /\ nr_sectors (img im) = 10 /\ interleave (img im) = 3
    /\ sec_base (img im) = (0, 10)
    /\ forall cyl, 0 <= cyl < 40 ->
       exists im',
         img_seek_track (cyl * 2 + 1) cyl 1 im = Some im'
         /\ take 10 (sec_map (img im'))
            = [10; 17; 14; 11; 18; 15; 12; 19; 16; 13]
         /\ take 10 (sec_map (img im')) ≡ₚ seqZ 10 10.
Proof.
  intros Hsize. destruct f as [size data tell]. simpl in Hsize. subst size.
  destruct (opened_as_inv
              (img_open HOST_kaypro
                 (Sample.fresh_img
                    {| f_size := 409600; f_data := data; f_tell := tell |}))
              (40, 2, 2, 10, 30, 500, true, 3, 0, (0, 10)))
    as (im & -> & Hg); [vm_compute; reflexivity|].
  injection Hg as Hc Hs Hno Hn Hg3 Hrate Hiam Hil Hskew Hbase.
  exists im. do 6 (split; [done|]).
  intros cyl Hcyl.
  pose proof (seek_track_no_skew (cyl * 2 + 1) cyl 1 im Hskew
                ltac:(lia)) as Hmap.
  cbv zeta in Hmap. rewrite Hn, Hil, Hbase, Hs in Hmap.
  rewrite head_of_track in Hmap by lia.
  assert (forall sm, fill_sec_map (Z.to_nat 10) 10 3 (at2 (0, 10) 1) 0 0
                       (memset sm 255 10)
                     = Some ([10; 17; 14; 11; 18; 15; 12; 19; 16; 13]
                             ++ drop 10 sm)) as Hfill
    by (intros sm; vm_compute; reflexivity).
  rewrite Hfill in Hmap.
  destruct (img_seek_track _ _ _ im) as [im'|]; [|discriminate].
  injection Hmap as Hm. exists im'. rewrite Hm.
  split; [done|]. split; [done|]. apply kaypro_side1_map.
Qed.

End Seeds.

(** C4 as stated fails on the data rate: the zero-filled 1.44 MB image
    opens at 1000, not 500. *)
Lemma open_pc_1440k_counterexample :
  data_rate (img Sample.opened_1440k) <> 500
  /\ data_rate (img Sample.opened_1440k) = 1000.
Proof. split; [vm_compute; discriminate | vm_compute; reflexivity]. Qed.

Lemma open_pc_1440k_witness :
  f_size Sample.pc_1440k = 1474560
  /\ exists im,
    @img_open Sample.stm32_clock Sample.zero_stack HOST_unspecified
      (Sample.fresh_img Sample.pc_1440k) = Some (true, im)
    /\ data_rate (img im) = 1000.
Proof.
  split; [reflexivity|].
  destruct (@open_pc_1440k Sample.stm32_clock Sample.zero_stack
              Sample.pc_1440k eq_refl) as (im & Hopen & H).
  exists im. split; [exact Hopen | tauto].
Defined.

(** C5 as stated fails on the base: side 1 of the opened Kaypro image
    starts at sector ID 10, and ID 20 is not in its map while ID 10 is. *)
Lemma open_kaypro_400k_counterexample :
  let im := Sample.opened_kaypro in
  snd (sec_base (img im)) = 10
  /\ snd (sec_base (img im)) <> 11
  /\ exists im',
    img_seek_track 1 0 1 im = Some im'
    /\ take 10 (sec_map (img im')) = [10; 17; 14; 11; 18; 15; 12; 19; 16; 13]
    /\ ~ take 10 (sec_map (img im')) ≡ₚ seqZ 11 10.
Proof.
  cbv zeta. split; [vm_compute; reflexivity|].
  split; [vm_compute; discriminate|].
  eexists. split; [vm_compute; reflexivity|].
  split; [vm_compute; reflexivity|].
  intros Hp.
  assert (10 ∈ seqZ 11 10) as Hin.
  { rewrite <- Hp. vm_compute. constructor. }
  apply elem_of_seqZ in Hin. lia.
Qed.

Lemma open_kaypro_400k_witness :
  f_size Sample.kaypro_400k = 409600
  /\ exists im,
    @img_open Sample.stm32_clock Sample.zero_stack HOST_kaypro
      (Sample.fresh_img Sample.kaypro_400k) = Some (true, im)
    /\ sec_base (img im) = (0, 10).
Proof.
  split; [reflexivity|].
  destruct (@open_kaypro_400k Sample.stm32_clock Sample.zero_stack
              Sample.kaypro_400k eq_refl) as (im & Hopen & H).
  exists im. split; [exact Hopen | tauto].
Defined.

(** ** The BPB probes: pc_dos_open and msx_open *)

(** A two-byte read that lies inside the file. *)
Lemma F_read_word (x : list Z) (f : FIL) (ofs : Z) :
  ofs + 2 <= f_size f ->
  F_read 2 x (F_lseek ofs f)
  = ([u8 (f_data f ofs); u8 (f_data f (ofs + 1))] ++ drop 2 x,
     F_lseek (ofs + 2) f).
Proof.
  intros Hofs. unfold F_read, F_bytes, F_avail, F_lseek. simpl.
  rewrite Z.min_l by lia. simpl. by rewrite Z.add_0_r.
Qed.

Lemma bpb_read_eq `{Uninit} (im : image) :
  512 <= f_size (fp im) ->
  bpb_read im
  = (mk_bpb (word_at (fp im) 510) (word_at (fp im) 11)
       (word_at (fp im) 24) (word_at (fp im) 26) (word_at (fp im) 19),
     set_fp (F_lseek 21 (fp im)) im).
Proof.
  intros Hsize. unfold bpb_read.
  rewrite F_read_word by lia.
  rewrite !(F_read_word _ (F_lseek _ _)) by (simpl; lia).
  reflexivity.
Qed.

Section Probes.
Context `{Clock} `{Uninit}.

(** C8, amended: on a file of at least 512 bytes, [pc_dos_open] returns
    false whenever the little-endian word at offset 510 is not 0xAA55, and
    the handle it leaves differs from the one it got in the file position
    only, so no geometry is committed.  [msx_open] reads the BPB only when
    the image size is 320 KiB or 360 KiB; there a plausible BPB (512 bytes
    per sector, 1 or 2 heads, a sector total that matches the size, 8 or 9
    sectors per track) is accepted whatever the word at offset 510 is, and
    fixes sides, cylinders and sectors. *)
Theorem bpb_probes (im : image) :
  512 <= f_size (fp im) ->
  let f := fp im in
  (word_at f 510 <> 0xaa55 ->
   pc_dos_open im = (false, set_fp (F_lseek 21 f) im))
  /\ (im_size im = 320 * 1024 \/ im_size im = 360 * 1024 ->
      word_at f 11 = 512 ->
      word_at f 26 = 1 \/ word_at f 26 = 2 ->
      word_at f 19 = im_size im / 512 ->
      word_at f 24 = 8 \/ word_at f 24 = 9 ->
      exists im',
        msx_open im = (true, im')
        /\ nr_sides im' = word_at f 26
        /\ nr_cyls im' = (if word_at f 26 =? 1 then 80 else 40)
        /\ nr_sectors (img im') = word_at f 24
        /\ sec_base (img im') = (1, 1)
        /\ interleave (img im') = 1 /\ skew (img im') = 0).
Proof.
  intros Hsize f. subst f. split.
  - intros Hsig. unfold pc_dos_open. rewrite bpb_read_eq by done.
    cbn [sig]. apply Z.eqb_neq in Hsig. by rewrite Hsig.
  - intros Hsz Hbps Hheads Htot Hspt.
    cbv delta [msx_open]. cbv beta.
    assert ((im_size im =? 320 * 1024) || (im_size im =? 360 * 1024) = true)
      as -> by (apply orb_true_iff; rewrite !Z.eqb_eq; lia).
    rewrite bpb_read_eq by done.
    cbv beta iota. cbn [bytes_per_sec num_heads tot_sec sec_per_track].
    assert (im_size (set_fp (F_lseek 21 (fp im)) im) = im_size im) as ->
      by (by destruct im).
    assert ((word_at (fp im) 11 =? 512)
            && ((word_at (fp im) 26 =? 1) || (word_at (fp im) 26 =? 2))
            && (word_at (fp im) 19 =? im_size im / word_at (fp im) 11)
            && ((word_at (fp im) 24 =? 8) || (word_at (fp im) 24 =? 9))
            = true) as ->.
    { rewrite !andb_true_iff, !orb_true_iff, !Z.eqb_eq, Hbps. lia. }
    cbv zeta.
    match goal with
    | |- context [mfm_open ?x] =>
        pose proof (mfm_open_accepts x) as Hacc;
        pose proof (mfm_open_frame x) as Hframe;
        destruct (mfm_open x) as [ok im']
    end.
    cbn [fst snd] in Hacc, Hframe.
    destruct Hframe as (Hs & Hc & _ & Hn & Hb & _ & Hi & Hk).
    destruct im as [? ? ? ? ? ? ? ? ? ? ? ? ? ? []].
    run_img_in Hacc. run_img_in Hs. run_img_in Hc. run_img_in Hn.
    run_img_in Hb. run_img_in Hi. run_img_in Hk.
    set (heads := word_at _ 26) in *. set (spt := word_at _ 24) in *.
    rewrite (u8_small heads) in * by lia.
    rewrite (u8_small spt) in * by lia.
    assert (ok = true) as ->.
    { apply Hacc. unfold MAX_SECS. destruct (heads =? 1); lia. }
    exists im'. done.
Qed.

End Probes.

(** C8 as stated fails for [msx_open] on other sizes: the 720k image has a
    plausible BPB, yet the probe does not read it and returns false. *)
Lemma msx_open_size_counterexample :
  let im := Sample.fresh_img Sample.msx_720k in
  let f := fp im in
  word_at f 11 = 512 /\ word_at f 26 = 2
  /\ word_at f 19 = im_size im / 512 /\ word_at f 24 = 9
  /\ fst (@msx_open Sample.stm32_clock Sample.zero_stack im) = false.
Proof. vm_compute. repeat split. Qed.

Lemma bpb_probes_witness :
  let im := Sample.fresh_img Sample.msx_360k in
  512 <= f_size (fp im)
  /\ word_at (fp im) 510 <> 0xaa55
  /\ fst (@pc_dos_open Sample.stm32_clock Sample.zero_stack im) = false
  /\ exists im',
    @msx_open Sample.stm32_clock Sample.zero_stack im = (true, im')
    /\ nr_sides im' = 1 /\ nr_cyls im' = 80 /\ nr_sectors (img im') = 9.
Proof.
  cbv zeta.
  assert (512 <= f_size (fp (Sample.fresh_img Sample.msx_360k))) as Hsize
    by (vm_compute; discriminate).
  assert (word_at (fp (Sample.fresh_img Sample.msx_360k)) 510 <> 0xaa55)
    as Hsig by (vm_compute; discriminate).
  destruct (@bpb_probes Sample.stm32_clock Sample.zero_stack
              (Sample.fresh_img Sample.msx_360k) Hsize) as [Hpc Hmsx].
  split; [exact Hsize|]. split; [exact Hsig|].
  split; [by rewrite (Hpc Hsig)|].
  destruct Hmsx as (im' & Hopen & Hs & Hc & Hn & _).
  - right. vm_compute. reflexivity.
  - vm_compute. reflexivity.
  - left. vm_compute. reflexivity.
  - vm_compute. reflexivity.
  - right. vm_compute. reflexivity.
  - exists im'. split; [exact Hopen|]. split; [exact Hs|].
    split; [exact Hc | exact Hn].
Defined.

(** ** Track setup: img_setup_track *)

(** The encoders and the position decoder leave the selected track, its
    sector map and its file offset alone. *)
Lemma img_fetch_data_track (im : image) :
  track_state (img_fetch_data im) = track_state im.
Proof.
  destruct im as [? ? ? ? ? ? ? ? ? ? ? ? ? ? []].
  cbv delta [img_fetch_data track_state]. run_img.
  split_ifs; try reflexivity;
    match goal with |- context [F_read ?n ?o ?f] => by destruct (F_read n o f)
    end.
Qed.

Lemma calc_start_pos_track (im : image) :
  track_state (snd (calc_start_pos im)) = track_state im.
Proof.
  destruct im as [? ? ? ? ? ? ? ? ? ? ? ? ? ? []].
  cbv delta [calc_start_pos track_state]. run_img.
  split_ifs; reflexivity.
Qed.

Lemma read_track_done_track (e : emitter) (im : image) :
  track_state (snd (read_track_done e im)) = track_state im.
Proof. by destruct im as [? ? ? ? ? ? ? ? ? ? ? ? ? ? []]. Qed.

Section Setup.
Context `{Codec}.

Ltac read_track_cases im :=
  cbv beta zeta;
  match goal with
  | |- context [img_fetch_data ?im0] => generalize (img_fetch_data im0)
  end;
  intros im;
  destruct (bc_words _) as [[bc_p0 bc_mask] bc_space];
  split_ifs; cbv beta iota zeta.

Lemma mfm_read_track_track (im : image) :
  track_state (snd (mfm_read_track im)) = track_state im.
Proof.
  rewrite <- (img_fetch_data_track im).
  cbv delta [mfm_read_track]. read_track_cases im1;
    rewrite ?read_track_done_track;
    by destruct im1 as [? ? ? ? ? ? ? ? ? ? ? ? ? ? []].
Qed.

Lemma fm_read_track_track (im : image) :
  has_iam (img im) = false ->
  exists r, fm_read_track im = Some r /\ track_state (snd r) = track_state im.
Proof.
  intros Hiam.
  assert (has_iam (img (img_fetch_data im)) = false) as Hiam'.
  { pose proof (img_fetch_data_track im) as E. unfold track_state in E.
    injection E as _ _ E _ _. by rewrite E. }
  rewrite <- (img_fetch_data_track im). revert Hiam'. clear Hiam.
  cbv delta [fm_read_track]. read_track_cases im1;
    intros Hiam; try discriminate;
    (eexists; split; [reflexivity|]); cbn [snd];
    rewrite ?read_track_done_track;
    by destruct im1 as [? ? ? ? ? ? ? ? ? ? ? ? ? ? []].
Qed.

Lemma img_seek_track_frame (track cyl side : Z) (im ims : image) :
  img_seek_track track cyl side im = Some ims ->
  track_state ims
  = (track, sync im, has_iam (img im), sec_map (img ims), trk_off (img ims)).
Proof.
  destruct im as [? ? ? ? ? ? ? ? ? ? ? ? ? ? []].
  cbv delta [img_seek_track]. run_img.
  destruct (fill_sec_map _ _ _ _ _ _ _) as [sm|]; [|discriminate].
  cbn [mbind option_bind]. by intros [= <-].
Qed.

(** The clamp, in the function's own 8-bit arithmetic. *)
Lemma clamp_cyl (track cyls : Z) :
  1 <= cyls <= 254 ->
  min_t (u8 (track / 2)) (u8 (cyls - 1))
  = Z.min (track / 2 mod 256) (cyls - 1).
Proof.
  intros Hc. rewrite (u8_small (cyls - 1)) by lia.
  unfold min_t, u8. change (2 ^ 8) with 256.
  destruct (Z.ltb_spec (track / 2 mod 256) (cyls - 1)); lia.
Qed.

Lemma clamp_side (track sides : Z) :
  1 <= sides <= 2 ->
  min_t (u8 (Z.land track 1)) (u8 (sides - 1))
  = Z.min (track mod 2) (sides - 1).
Proof.
  intros Hs. rewrite (u8_small (sides - 1)) by lia.
  change 1 with (Z.ones 1) at 1. rewrite Z.land_ones by lia.
  change (2 ^ 1) with 2.
  assert (0 <= track mod 2 < 2) by (apply Z.mod_pos_bound; lia).
  rewrite u8_small by lia.
  unfold min_t. destruct (Z.ltb_spec (track mod 2) (sides - 1)); lia.
Qed.

Lemma setup_position_track (start_pos : option Z) (im : image) :
  (sync im = SYNC_fm -> has_iam (img im) = false) ->
  exists im' sp,
    setup_position start_pos im = Some (im', sp)
    /\ track_state im' = track_state im.
Proof.
  intros Hfm. cbv delta [setup_position]. cbv beta zeta.
  match goal with
  | |- context [calc_start_pos ?z] =>
      pose proof (calc_start_pos_track z) as Hcs;
      assert (track_state z = track_state im) as Hz
        by (by destruct im as [? ? ? ? ? ? ? ? ? ? ? ? ? ? []]);
      destruct (calc_start_pos z) as [off imc]
  end.
  cbn [snd] in Hcs. rewrite Hz in Hcs. clear Hz.
  set (W := on_read_bc _ (on_read_data _ imc)).
  assert (track_state W = track_state im) as HW
    by (rewrite <- Hcs; by destruct imc as [? ? ? ? ? ? ? ? ? ? ? ? ? ? []]).
  clearbody W.
  destruct start_pos as [t|]; [|by exists W, None].
  assert (exists r, image_read_track W = Some r
                    /\ track_state (snd r) = track_state im)
    as (r & -> & Hr).
  { unfold image_read_track, img_read_track.
    destruct (sync W) eqn:Hsync.
    - eexists. split; [reflexivity|]. by rewrite mfm_read_track_track.
    - destruct (fm_read_track_track W) as (r & Hr & Ht).
      + unfold track_state in HW. injection HW as _ Hsy Hiam _ _.
        rewrite Hiam. apply Hfm. by rewrite <- Hsy.
      + exists r. split; [done|]. by rewrite Ht.
    - eexists. split; [reflexivity|]. by rewrite mfm_read_track_track. }
  cbn [mbind option_bind]. eexists _, _. split; [reflexivity|].
  rewrite <- Hr. by destruct (snd r) as [? ? ? ? ? ? ? ? ? ? ? ? ? ? []].
Qed.

(** C9, amended: [img_setup_track] never rejects a track request.  The
    cylinder is [track / 2] as the 8-bit local holds it, that is modulo
    256, and the side is the low bit of [track]; the cylinder is clamped
    to [nr_cyls - 1] and the side to [nr_sides - 1], the seek (when the
    clamped track is not the current one) and the rest of the setup
    return, and the handle ends up on the clamped track with the sector
    map and file offset of that track. *)
Theorem img_setup_track_clamps (track : Z) (start_pos : option Z)
    (im : image) :
  1 <= nr_cyls im <= 254 -> 1 <= nr_sides im <= 2 ->
  1 <= nr_sectors (img im) <= MAX_SECS ->
  Z.of_nat (length (sec_map (img im))) = MAX_SECS ->
  (sync im = SYNC_fm -> has_iam (img im) = false) ->
  let cyl := Z.min (track / 2 mod 256) (nr_cyls im - 1) in
  let side := Z.min (track mod 2) (nr_sides im - 1) in
  exists ims im' sp,
    (if cyl * 2 + side =? cur_track im then Some im
     else img_seek_track (cyl * 2 + side) cyl side im) = Some ims
    /\ img_setup_track track start_pos im = Some (im', sp)
    /\ 0 <= cyl < nr_cyls im /\ 0 <= side < nr_sides im
    /\ cur_track im' = cyl * 2 + side
    /\ sec_map (img im') = sec_map (img ims)
    /\ trk_off (img im') = trk_off (img ims).
Proof.
  intros Hc Hs Hn Hlen Hfm cyl side.
  assert (0 <= track / 2 mod 256 < 256) by (apply Z.mod_pos_bound; lia).
  assert (0 <= track mod 2 < 2) by (apply Z.mod_pos_bound; lia).
  assert (0 <= cyl < nr_cyls im /\ 0 <= side < nr_sides im) as [Hcyl Hside]
    by (subst cyl side; lia).
  cbv delta [img_setup_track]. cbv beta zeta.
  rewrite clamp_cyl, clamp_side by done. fold cyl side.
  rewrite (u16_small (cyl * 2 + side)) by lia.
  assert (exists ims,
             (if cyl * 2 + side =? cur_track im then Some im
              else img_seek_track (cyl * 2 + side) cyl side im) = Some ims
             /\ cur_track ims = cyl * 2 + side
             /\ sync ims = sync im /\ has_iam (img ims) = has_iam (img im))
    as (ims & Hseek & Ht & Hsy & Hiam).
  { destruct (Z.eqb_spec (cyl * 2 + side) (cur_track im)) as [E|E].
    - by exists im.
    - destruct (img_seek_track_map (cyl * 2 + side) cyl side im Hn Hlen)
        as (ims & Hseek & _).
      exists ims. split; [done|].
      apply img_seek_track_frame in Hseek. unfold track_state in Hseek.
      by injection Hseek as -> -> ->. }
  destruct (setup_position_track start_pos ims) as (im' & sp & Hrun & Hst).
  { rewrite Hsy, Hiam. exact Hfm. }
  exists ims, im', sp. split; [exact Hseek|].
  split.
  { destruct (cyl * 2 + side =? cur_track im); cbn [negb];
      rewrite Hseek; exact Hrun. }
  unfold track_state in Hst. injection Hst as -> _ _ -> ->. done.
Qed.
End Setup.

(** C9 as stated fails once the cylinder no longer fits the 8-bit local:
    track 512 is cylinder 256, beyond the 80 cylinders of the image, yet
    setup lands on track 0 and not on the last cylinder. *)
Lemma img_setup_track_wrap_counterexample :
  let im := Sample.opened_1440k in
  nr_cyls im <= 512 / 2
  /\ exists im' sp,
    @img_setup_track Sample.iso_codec 512 None im = Some (im', sp)
    /\ cur_track im' = 0
    /\ cur_track im' <> (nr_cyls im - 1) * 2 + 0.
Proof.
  cbv zeta. split; [vm_compute; discriminate|].
  eexists _, _. split; [vm_compute; reflexivity|].
  split; [vm_compute; reflexivity | vm_compute; discriminate].
Qed.

Lemma img_setup_track_clamps_witness :
  let im := Sample.opened_1440k in
  1 <= nr_cyls im <= 254 /\ 1 <= nr_sides im <= 2
  /\ 1 <= nr_sectors (img im) <= MAX_SECS
  /\ Z.of_nat (length (sec_map (img im))) = MAX_SECS
  /\ (sync im = SYNC_fm -> has_iam (img im) = false)
  /\ exists im' sp,
    @img_setup_track Sample.iso_codec 201 (Some 0) im = Some (im', sp)
    /\ cur_track im' = 159.
Proof.
  cbv zeta.
  assert (1 <= nr_cyls Sample.opened_1440k <= 254) as Hc
    by (vm_compute; split; discriminate).
  assert (1 <= nr_sides Sample.opened_1440k <= 2) as Hs
    by (vm_compute; split; discriminate).
  assert (1 <= nr_sectors (img Sample.opened_1440k) <= MAX_SECS) as Hn
    by (vm_compute; split; discriminate).
  assert (Z.of_nat (length (sec_map (img Sample.opened_1440k))) = MAX_SECS)
    as Hlen by (vm_compute; reflexivity).
  assert (sync Sample.opened_1440k = SYNC_fm ->
          has_iam (img Sample.opened_1440k) = false) as Hfm
    by (vm_compute; discriminate).
  do 5 (split; [assumption|]).
  destruct (@img_setup_track_clamps Sample.iso_codec 201 (Some 0)
              Sample.opened_1440k Hc Hs Hn Hlen Hfm)
    as (ims & im' & sp & _ & Hrun & _ & _ & Htrack & _).
  exists im', sp. split; [exact Hrun|].
  rewrite Htrack. vm_compute. reflexivity.
Defined.

(** ** The MFM encoder across calls *)

(** C3: the clock-suppression rule is not kept across two calls of
    [mfm_read_track], because every call starts with [pr = 0].  On track 0
    of the zero-filled 1.44 MB image the setup call and two more calls
    emit 146 + 44 + 16 = 206 words, ending with the sync words 0x4489
    (emitted raw) and the data mark 0xFB, whose low data bit is 1; the next
    call starts the sector data, and its first byte 0x00 goes out as the
    full table pattern with the top clock bit still set. *)
Theorem mfm_clock_bit_across_calls :
  let before := Sample.read_tracks 2 Sample.track0_1440k in
  let after := Sample.read_tracks 3 Sample.track0_1440k in
  let ring := bp (read_bc after) in
  bprod (read_bc before) / 16 = 206
  /\ bprod (read_bc after) / 16 = 206 + 512
  /\ ring !!! 204%nat = Sample.bswap16 0x4489
  /\ ring !!! 205%nat = Sample.bswap16 (Sample.mfm_word 0xfb)
  /\ Z.testbit (Sample.mfm_word 0xfb) 0 = true
  /\ ring !!! 206%nat = Sample.bswap16 (Sample.mfm_word 0x00)
  /\ Z.testbit (Sample.mfm_word 0x00) 15 = true.
Proof. vm_compute. repeat split. Qed.

End ImgProofs.

(** * Pre-encoded images: statements about hfe.c *)

Module HfeProofs.
Import Hfe.

(** ** The write encoder keeps opcodes *)

Section Encode.
Variables (is_v3 : bool) (buf : list Z) (bufmask nr : Z).

(** What one pass can do: store one byte under the cursor, or keep the
    buffer and step over one to three bytes. *)
Lemma encode_pass_cases (s : encoder) :
  (encode_pass is_v3 buf bufmask s = mk_encoder
              (<[Z.to_nat (e_w s)
                 := rbit8 (buf !!! Z.to_nat (Z.land (e_c s) bufmask))]>
                 (e_wrbuf s))
              (e_w s + 1) (e_i s + 1) (u32 (e_c s + 1)))
  \/ exists k, 1 <= k <= 3
               /\ encode_pass is_v3 buf bufmask s
                  = mk_encoder (e_wrbuf s) (e_w s + k) (e_i s + k)
                             (e_c s).
Proof.
  unfold encode_pass.
  repeat match goal with
         | |- context [if ?c then _ else _] => destruct c
         end;
    solve [ by left | right; eexists; split; [|reflexivity]; lia ].
Qed.

Lemma encode_pass_forward (s : encoder) :
  e_w s < e_w (encode_pass is_v3 buf bufmask s)
  /\ e_i s < e_i (encode_pass is_v3 buf bufmask s).
Proof.
  destruct (encode_pass_cases s) as [-> | (k & Hk & ->)]; simpl; lia.
Qed.

Lemma encode_pass_other (s : encoder) (j : nat) :
  j <> Z.to_nat (e_w s) ->
  e_wrbuf (encode_pass is_v3 buf bufmask s) !! j = e_wrbuf s !! j.
Proof.
  intros Hj.
  destruct (encode_pass_cases s) as [-> | (k & Hk & ->)]; simpl; [|done].
  by apply list_lookup_insert_ne.
Qed.


(** A byte that holds an opcode other than the flaky-byte one is never
    written, whether the cursor stops on it, steps over it as an operand,
    or does not get to it. *)
Lemma encode_pass_keeps (s : encoder) (j : nat) (b : Z) :
  is_v3 = true ->
  e_wrbuf s !! j = Some b ->
  Z.land b 0xf = 0xf -> Z.shiftr b 4 <> OP_rand ->
  e_wrbuf (encode_pass is_v3 buf bufmask s) !! j = Some b.
Proof.
  intros Hv3 Hb Hlow Hop.
  destruct (decide (j = Z.to_nat (e_w s))) as [-> | Hj];
    [|by rewrite encode_pass_other].
  unfold encode_pass.
  rewrite (list_lookup_total_correct _ _ _ Hb).
  apply Z.eqb_eq in Hlow. apply Z.eqb_neq in Hop.
  rewrite Hv3, Hlow, Hop. simpl.
  by repeat match goal with
            | |- context [if ?c then _ else _] => destruct c
            end.
Qed.

Lemma hfe_encode_keeps (fuel : nat) (s : encoder) (j : nat) (b : Z) :
  is_v3 = true ->
  e_wrbuf s !! j = Some b ->
  Z.land b 0xf = 0xf -> Z.shiftr b 4 <> OP_rand ->
  e_wrbuf (hfe_encode fuel is_v3 buf bufmask nr s) !! j = Some b.
Proof.
  intros Hv3. revert s.
  induction fuel as [|fuel IH]; intros s Hb Hlow Hop; [done|].
  simpl. destruct (e_i s <? nr); [|done].
  apply IH; [|done..]. by apply encode_pass_keeps.
Qed.


(** That much fuel runs the loop to its exit test. *)
Lemma hfe_encode_done (fuel : nat) (s : encoder) :
  (Z.to_nat (nr - e_i s) <= fuel)%nat ->
  nr <= e_i (hfe_encode fuel is_v3 buf bufmask nr s).
Proof.
  revert s. induction fuel as [|fuel IH]; intros s Hf; [simpl; lia|].
  simpl. destruct (Z.ltb_spec (e_i s) nr) as [Hlt|Hge]; [|done].
  pose proof (encode_pass_forward s) as [_ Hi].
  apply IH. lia.
Qed.



End Encode.

(** One pass of the [for (;;)] loop of [hfe_write_track] hands the sector
    buffer to the encoder and stores what it returns, so the opcodes of the
    batch survive the pass. *)
Lemma hfe_write_block_keeps (p c c' : Z) (im im' : image) (j : nat) (b : Z) :
  is_v3 (hfe im) = true ->
  hfe_write_block p c im = Next c' im' ->
  bp (write_data im) !! j = Some b ->
  Z.land b 0xf = 0xf -> Z.shiftr b 4 <> OP_rand ->
  bp (write_data im') !! j = Some b.
Proof.
  intros Hv3 Hrun Hb Hlow Hop. revert Hrun.
  unfold hfe_write_block. cbv zeta.
  repeat match goal with
         | |- context [if ?c then _ else _] => destruct c
         end; try discriminate;
    intros [= _ <-]; destruct im; simpl in *;
    apply hfe_encode_keeps; done.
Qed.





(** ** The bitrate opcode in the flux generator *)

Section Bitrate.
Context `{Clock} `{HfeEnv}.

(** C7, amended: in [hfe_rdata_flux] on an HFEv3 image, a pass of the loop
    that finds a byte-aligned bitrate opcode before the end of the track
    consumes 16 bits (opcode byte and operand byte), writes no flux and
    leaves through [continue]; with [x] the operand byte in reversed bit
    order, it sets [ticks_per_cell] to [sysclk_us(2) * 16 * x / 72], in the
    handle and in the loop's local, and [write_bc_ticks] to a sixteenth of
    that. *)
Theorem flux_iter_bitrate (bc_b : list Z) (bc_mask : Z) (s : flux) :
  let im := fx_im s in
  let bc_c := fx_bc_c s in
  let opcode := u8 (bc_b !!! Z.to_nat (Z.land (bc_c / 8) bc_mask)) in
  let operand := bc_b !!! Z.to_nat (Z.land (bc_c / 8 + 1) bc_mask) in
  let tpc := u32 (sysclk_us 2 * 16 * rbit8 operand / 72) in
  fx_y s = 8 ->
  cur_bc im < tracklen_bc im ->
  bc_c mod 8 = 0 ->
  Z.land opcode 0xf = 0xf -> Z.shiftr opcode 4 = OP_bitrate ->
  exists s',
    flux_iter bc_b bc_mask true s = Some (s', false)
    /\ fx_bc_c s' = u32 (bc_c + 16)
    /\ cur_bc (fx_im s') = u32 (cur_bc im + 16)
    /\ cur_ticks (fx_im s') = cur_ticks im
    /\ fx_tbuf s' = fx_tbuf s /\ fx_todo s' = fx_todo s
    /\ fx_ticks s' = fx_ticks s /\ fx_y s' = 8
    /\ fx_ticks_per_cell s' = tpc
    /\ ticks_per_cell (fx_im s') = tpc
    /\ write_bc_ticks (fx_im s') = tpc / 16.
Proof.
  intros im bc_c opcode operand tpc Hy Hbc Hal Hlow Hop.
  unfold flux_iter. fold im bc_c. rewrite Hy. simpl negb.
  destruct (Z.leb_spec (tracklen_bc im) (cur_bc im)); [lia|].
  cbv zeta. rewrite Hal, Z.shiftr_0_r. fold opcode.
  rewrite Hlow, Hop. simpl.
  eexists. split; [reflexivity|]. simpl.
  by destruct im.
Qed.

End Bitrate.


(** C7 as stated fails on the bit order: operand byte 0x01 is read as 0x80
    and gives 4096 ticks per cell, where the formula on the byte itself
    gives 32. *)
Lemma bitrate_operand_counterexample :
  exists s',
    @flux_iter Sample.stm32_clock Sample.stdlib_env Sample.bitrate_ring 3
      true Sample.at_bitrate_opcode = Some (s', false)
    /\ Sample.bitrate_ring !!! 1%nat = 0x01
    /\ fx_ticks_per_cell s' = 4096
    /\ ticks_per_cell (fx_im s') = 4096
    /\ @sysclk_us Sample.stm32_clock 2 * 16 * 0x01 / 72 = 32.
Proof. eexists. vm_compute. repeat split. Qed.

Lemma flux_iter_bitrate_witness :
  exists s',
    @flux_iter Sample.stm32_clock Sample.stdlib_env Sample.bitrate_ring 3
      true Sample.at_bitrate_opcode = Some (s', false)
    /\ fx_bc_c s' = 16 /\ fx_tbuf s' = [] /\ fx_ticks_per_cell s' = 4096.
Proof.
  destruct (@flux_iter_bitrate Sample.stm32_clock Sample.stdlib_env
              Sample.bitrate_ring 3 Sample.at_bitrate_opcode)
    as (s' & Hrun & Hc & _ & _ & Hbuf & _ & _ & _ & Htpc & _).
  - reflexivity.
  - vm_compute. reflexivity.
  - reflexivity.
  - reflexivity.
  - reflexivity.
  - exists s'. split; [exact Hrun|]. split; [exact Hc|].
    split; [exact Hbuf | exact Htpc].
Defined.

(** ** Opening: the header checks *)

(** A byte of a read that lies inside the file. *)
Lemma F_read_byte (n : Z) (old : list Z) (f : FIL) (k : nat) :
  n <= f_size f - f_tell f -> (Z.of_nat k < n) ->
  (F_read n old f).1 !!! k = u8 (f_data f (f_tell f + Z.of_nat k)).
Proof.
  intros Hn Hk. unfold F_read, F_bytes, F_avail. cbn [fst].
  rewrite Z.min_l by lia.
  apply list_lookup_total_correct.
  rewrite lookup_app_l by (rewrite length_fmap, length_seq; lia).
  rewrite list_lookup_fmap, lookup_seq_lt by lia. done.
Qed.

Section Open.
Context `{Clock} `{Uninit}.

(** C10: [hfe_open] returns false for every header whose [nr_tracks]
    byte, at offset 9, is zero, whatever the signature, the revision, the
    side count and the bitrate are; the geometry of the handle is left as
    it was. *)
Theorem hfe_open_no_tracks (im : image) :
  26 <= f_size (fp im) - f_tell (fp im) ->
  u8 (f_data (fp im) (f_tell (fp im) + 9)) = 0 ->
  exists im',
    hfe_open im = Some (false, im')
    /\ nr_cyls im' = nr_cyls im /\ nr_sides im' = nr_sides im.
Proof.
  intros Hsize Hzero. unfold hfe_open.
  pose proof (F_read_byte 26 (uninit 26) (fp im) 9 Hsize ltac:(lia)) as Hb.
  destruct (F_read 26 (uninit 26) (fp im)) as [dhdr f].
  cbn [fst] in Hb. change (Z.of_nat 9) with 9 in Hb. rewrite Hzero in Hb.
  unfold dh_nr_tracks. rewrite Hb. simpl.
  repeat match goal with
         | |- context [if ?c then _ else _] => destruct c
         end; eexists; (split; [reflexivity|]); by destruct im.
Qed.

End Open.

Lemma hfe_open_no_tracks_witness :
  let im := Sample.fresh_hfe Sample.hfe_no_tracks in
  26 <= f_size (fp im) - f_tell (fp im)
  /\ strn_eq 8 (F_bytes 26 (fp im)) HXCPICFE = true
  /\ fst <$> @hfe_open Sample.stm32_clock Sample.zero_stack
               (Sample.fresh_hfe (Sample.file_of (Sample.hfe_header 80) 1024))
     = Some true
  /\ exists im',
    @hfe_open Sample.stm32_clock Sample.zero_stack im = Some (false, im').
Proof.
  cbv zeta.
  assert (26 <= f_size (fp (Sample.fresh_hfe Sample.hfe_no_tracks))
                - f_tell (fp (Sample.fresh_hfe Sample.hfe_no_tracks)))
    as Hsize by (vm_compute; discriminate).
  split; [exact Hsize|]. split; [vm_compute; reflexivity|].
  split; [vm_compute; reflexivity|].
  destruct (@hfe_open_no_tracks Sample.stm32_clock Sample.zero_stack
              (Sample.fresh_hfe Sample.hfe_no_tracks) Hsize)
    as (im' & Hopen & _).
  - vm_compute. reflexivity.
  - by exists im'.
Defined.

End HfeProofs.

(** * Statements about arena.c *)

Module ArenaProofs.
Import Arena.

(** Masking with [~(2^k - 1)] on 32 bits rounds down to a multiple of
    [2^k]. *)
Lemma land_clear_low (x k : Z) :
  0 <= x < 2 ^ 32 -> 0 <= k <= 32 ->
  Z.land x (u32 (Z.lnot (Z.ones k))) = 2 ^ k * (x / 2 ^ k).
Proof.
  intros Hx Hk. rewrite Z.mul_comm.
  rewrite <- Z.shiftr_div_pow2, <- Z.shiftl_mul_pow2 by lia.
  apply Z.bits_inj'. intros j Hj. rewrite Z.land_spec. unfold u32.
  destruct (Z.ltb_spec j k).
  - rewrite Z.shiftl_spec_low by lia.
    rewrite Z.mod_pow2_bits_low by lia.
    rewrite Z.lnot_spec, Z.ones_spec_low by lia. apply andb_false_r.
  - rewrite Z.shiftl_spec, Z.shiftr_spec by lia.
    replace (j - k + k) with j by lia.
    destruct (Z.ltb_spec j 32).
    + rewrite Z.mod_pow2_bits_low by lia.
      rewrite Z.lnot_spec, Z.ones_spec_high by lia. apply andb_true_r.
    + rewrite Z.mod_pow2_bits_high by lia. rewrite andb_false_r.
      rewrite <- (Z.mod_small x (2 ^ 32)) by lia.
      symmetry. apply Z.mod_pow2_bits_high. lia.
Qed.

(** The rounded size is the least multiple of 4 that holds [sz] bytes, as
    long as [sz + 3] still fits 32 bits. *)
Lemma round_up_4_fits (sz : Z) :
  0 <= sz <= 4294967292 ->
  round_up_4 sz mod 4 = 0 /\ sz <= round_up_4 sz < sz + 4.
Proof.
  intros Hsz. unfold round_up_4.
  assert (u32 (sz + 3) = sz + 3) as -> by (unfold u32; apply Z.mod_small; lia).
  change (Z.lnot 3) with (Z.lnot (Z.ones 2)).
  rewrite land_clear_low by lia. change (2 ^ 2) with 4.
  pose proof (Z.div_mod (sz + 3) 4 ltac:(lia)).
  pose proof (Z.mod_pos_bound (sz + 3) 4 ltac:(lia)).
  split; [|lia]. rewrite Z.mul_comm. apply Z.mod_mul. lia.
Qed.

(** Past that, [sz + 3] wraps and the rounded size is 0. *)
Lemma round_up_4_wraps (sz : Z) :
  4294967292 < sz < 4294967296 -> round_up_4 sz = 0.
Proof.
  intros Hsz. unfold round_up_4.
  assert (sz = 4294967293 \/ sz = 4294967294 \/ sz = 4294967295)
    as [-> | [-> | ->]] by lia; reflexivity.
Qed.

Lemma round_up_4_range (sz : Z) :
  0 <= round_up_4 sz < 2 ^ 32 /\ round_up_4 sz mod 4 = 0.
Proof.
  unfold round_up_4.
  assert (0 <= u32 (sz + 3) < 2 ^ 32) as Hx
    by (unfold u32; apply Z.mod_pos_bound; lia).
  change (Z.lnot 3) with (Z.lnot (Z.ones 2)).
  rewrite land_clear_low by lia. change (2 ^ 2) with 4.
  pose proof (Z.div_mod (u32 (sz + 3)) 4 ltac:(lia)).
  pose proof (Z.mod_pos_bound (u32 (sz + 3)) 4 ltac:(lia)).
  split; [lia|]. rewrite Z.mul_comm. apply Z.mod_mul. lia.
Qed.

(** The 32-bit cursor after [heap_p += r]. *)
Lemma cursor_add (p r : Z) :
  0 <= p < 2 ^ 32 -> 0 <= r < 2 ^ 32 ->
  u32 (p + r) = if p + r <? 2 ^ 32 then p + r else p + r - 2 ^ 32.
Proof.
  intros Hp Hr. unfold u32. destruct (Z.ltb_spec (p + r) (2 ^ 32)).
  - apply Z.mod_small. lia.
  - replace (p + r) with (p + r - 2 ^ 32 + 1 * 2 ^ 32) at 1 by lia.
    rewrite Z.mod_add by lia. apply Z.mod_small. lia.
Qed.

Section Allocator.
Context `{Ram}.

(** A request that cannot carry the cursor past the end of the address
    space either trips the assertion or moves the cursor up by the rounded
    size. *)
Lemma arena_alloc_step (sz p : Z) (a a' : arena) :
  arena_ok a ->
  round_up_4 sz < 2 ^ 32 - heap_top a ->
  arena_alloc sz a = Some (p, a') ->
  arena_ok a' /\ p = heap_p a /\ heap_top a' = heap_top a
  /\ heap_p a' = heap_p a + round_up_4 sz.
Proof.
  intros (Hb & Hp & Ht & Hal) Hfit. unfold arena_alloc. simpl.
  pose proof (round_up_4_range sz) as [Hr Hm].
  rewrite cursor_add by lia.
  destruct (Z.ltb_spec (heap_p a + round_up_4 sz) (2 ^ 32)); [|lia].
  destruct (Z.leb_spec (heap_p a + round_up_4 sz) (heap_top a));
    [|discriminate].
  intros [= <- <-]. simpl.
  unfold arena_ok. simpl.
  repeat split; try lia.
  rewrite Z.add_mod, Hal, Hm by lia. reflexivity.
Qed.

(** X1: as long as no request is large enough to carry the 32-bit cursor
    past the end of the address space (each is below [2^32 - heap_top - 3]
    bytes), the blocks handed out by a run of [arena_alloc] calls are
    4-byte aligned, lie inside the arena in the order of the calls, and do
    not overlap. *)
Theorem arena_allocs_disjoint (szs ps : list Z) (a a' : arena) :
  arena_ok a ->
  Forall (fun sz => 0 <= sz < 2 ^ 32 - heap_top a - 3) szs ->
  arena_allocs szs a = Some (ps, a') ->
  length ps = length szs
  /\ arena_ok a'
  /\ forall (i : nat) (p sz : Z),
       ps !! i = Some p -> szs !! i = Some sz ->
       p mod 4 = 0
       /\ heap_p a <= p /\ p + sz <= heap_p a'
       /\ forall (j : nat) (q : Z),
            (i < j)%nat -> ps !! j = Some q -> p + sz <= q.
Proof.
  intros Hok Hszs Hrun.
  enough (forall T : Z,
            Forall (fun sz => 0 <= sz < 2 ^ 32 - T - 3) szs ->
            forall ps a, arena_ok a -> heap_top a = T ->
            arena_allocs szs a = Some (ps, a') ->
            length ps = length szs
            /\ arena_ok a'
            /\ forall (i : nat) (p sz : Z),
                 ps !! i = Some p -> szs !! i = Some sz ->
                 p mod 4 = 0
                 /\ heap_p a <= p /\ p + sz <= heap_p a'
                 /\ forall (j : nat) (q : Z),
                      (i < j)%nat -> ps !! j = Some q -> p + sz <= q)
    as Hall by (by apply (Hall (heap_top a))).
  clear. intros T Hszs.
  induction Hszs as [|sz szs Hsz Hszs IH]; intros ps a Hok HT; simpl.
  - intros [= <- <-]. split; [done|]. split; [done|]. intros i p sz [=].
  - destruct (arena_alloc sz a) as [[p a1]|] eqn:Ea; [|discriminate].
    destruct (arena_allocs szs a1) as [[ps1 a2]|] eqn:Er; [|discriminate].
    intros [= <- <-].
    assert (0 <= T) as HT0 by (destruct Hok as (? & ? & ? & ?); lia).
    pose proof (round_up_4_fits sz ltac:(lia)) as [_ Hfit].
    assert (round_up_4 sz < 2 ^ 32 - heap_top a) as Hroom by lia.
    destruct (arena_alloc_step _ _ _ _ Hok Hroom Ea)
      as (Hok1 & -> & Ht1 & Hp1).
    assert (heap_top a1 = T) as HT1 by lia.
    destruct (IH _ _ Hok1 HT1 Er) as (Hlen & Hok2 & Hblk).
    destruct Hok as (_ & _ & _ & Hal).
    assert (heap_p a1 <= heap_p a2) as Hmono.
    { destruct szs as [|sz' szs'].
      - simpl in Er. injection Er as _ <-. lia.
      - destruct ps1 as [|q ps1']; [simpl in Hlen; lia|].
        destruct (Hblk 0%nat q sz' eq_refl eq_refl) as (_ & Hlo & Hhi & _).
        apply Forall_cons in Hszs as [Hsz' _]. lia. }
    split; [simpl; lia|]. split; [done|].
    intros [|i] p' sz'; simpl.
    + intros [= <-] [= <-]. repeat split; try lia.
      intros [|j] q Hj; [lia|]. simpl. intros Hq.
      assert (is_Some (szs !! j)) as [s Hs].
      { apply lookup_lt_is_Some. rewrite <- Hlen. by eapply lookup_lt_Some. }
      destruct (Hblk _ _ _ Hq Hs) as (_ & Hlo & _). lia.
    + intros Hp' Hs'.
      destruct (Hblk _ _ _ Hp' Hs') as (Hm & Hlo & Hhi & Hafter).
      repeat split; try lia.
      intros [|j] q Hj; [lia|]. simpl. apply Hafter. lia.
Qed.

(** X2: [arena_alloc] fails its assertion exactly when the rounded size
    exceeds what [arena_avail] reports and the cursor, advanced by it,
    stays below [2^32].  A success of that kind takes the rounded size off
    [arena_avail].  When the advanced cursor reaches [2^32] it wraps: the
    call succeeds although the rounded size exceeds [arena_avail], and the
    cursor ends below where it was.  [arena_total] never moves. *)
Theorem arena_alloc_accounting (sz : Z) (a : arena) :
  arena_ok a ->
  match arena_alloc sz a with
  | None =>
      heap_p a + round_up_4 sz < 2 ^ 32 /\ arena_avail a < round_up_4 sz
  | Some (p, a') =>
      p = heap_p a /\ arena_total a' = arena_total a
      /\ if heap_p a + round_up_4 sz <? 2 ^ 32
         then round_up_4 sz <= arena_avail a
              /\ arena_avail a' = arena_avail a - round_up_4 sz
         else arena_avail a < round_up_4 sz
              /\ heap_p a' = heap_p a + round_up_4 sz - 2 ^ 32
              /\ heap_p a' < heap_p a
  end.
Proof.
  intros (Hb & Hp & Ht & Hal).
  pose proof (round_up_4_range sz) as [Hr _].
  unfold arena_alloc, arena_avail, arena_total. simpl.
  rewrite cursor_add by lia.
  unfold u32. rewrite (Z.mod_small (heap_top a - heap_p a)) by lia.
  destruct (Z.ltb_spec (heap_p a + round_up_4 sz) (2 ^ 32)).
  - destruct (Z.leb_spec (heap_p a + round_up_4 sz) (heap_top a)); simpl;
      [|lia].
    rewrite (Z.mod_small (heap_top a - (heap_p a + round_up_4 sz))) by lia.
    lia.
  - destruct (Z.leb_spec (heap_p a + round_up_4 sz - 2 ^ 32) (heap_top a));
      simpl; lia.
Qed.

(** X3: a request within three bytes of 4 GiB wraps to a rounded size of
    zero: the call succeeds, returns the cursor and reserves nothing, so
    the next call returns the same address.  The cursor is a 32-bit
    address at or below the top of the heap. *)
Theorem arena_alloc_wraps (sz sz' : Z) (a : arena) :
  0 <= heap_p a <= heap_top a -> heap_top a < 2 ^ 32 ->
  4294967292 < sz < 4294967296 ->
  arena_alloc sz a = Some (heap_p a, a)
  /\ forall p a', arena_alloc sz' a = Some (p, a') -> p = heap_p a.
Proof.
  intros Hp Ht Hsz. unfold arena_alloc. simpl.
  rewrite (round_up_4_wraps sz Hsz), Z.add_0_r.
  rewrite (ImgProofs.u32_small (heap_p a)) by lia.
  destruct (Z.leb_spec (heap_p a) (heap_top a)); [|lia]. simpl.
  split; [by destruct a|].
  intros p a'. destruct (_ <=? _); [|discriminate]. by intros [= <- _].
Qed.

End Allocator.

Lemma arena_allocs_disjoint_witness :
  let a := @arena_init Sample.stm32_ram in
  exists ps a',
    arena_allocs [5; 0; 4096] a = Some (ps, a')
    /\ ps = [0x20002000; 0x20002008; 0x20002008]
    /\ heap_p a' = 0x20003008.
Proof.
  cbv zeta.
  assert (@arena_ok Sample.stm32_ram (@arena_init Sample.stm32_ram)) as Hok
    by (vm_compute; repeat split; discriminate).
  assert (Forall (fun sz => 0 <= sz < 2 ^ 32
                                   - heap_top (@arena_init Sample.stm32_ram)
                                   - 3) [5; 0; 4096]) as Hszs
    by (repeat constructor; vm_compute; done).
  destruct (arena_allocs [5; 0; 4096] (@arena_init Sample.stm32_ram))
    as [[ps a']|] eqn:Erun; [|vm_compute in Erun; discriminate].
  pose proof (@arena_allocs_disjoint Sample.stm32_ram _ _ _ _ Hok Hszs Erun)
    as (_ & _ & _).
  exists ps, a'. split; [reflexivity|].
  vm_compute in Erun. by injection Erun as <- <-.
Defined.

Lemma arena_alloc_accounting_witness :
  let a := @arena_init Sample.stm32_ram in
  arena_avail a = 57344
  /\ arena_alloc 57345 a = None
  /\ (exists p a', arena_alloc 57341 a = Some (p, a') /\ arena_avail a' = 0)
  /\ exists p a',
       arena_alloc 4026531840 a = Some (p, a')
       /\ heap_p a' = 0x10002000 /\ heap_p a' < heap_p a.
Proof.
  cbv zeta.
  assert (@arena_ok Sample.stm32_ram (@arena_init Sample.stm32_ram)) as Hok
    by (vm_compute; repeat split; discriminate).
  split; [reflexivity|]. split; [reflexivity|]. split.
  - pose proof (@arena_alloc_accounting Sample.stm32_ram 57341 _ Hok)
      as Hacc.
    destruct (arena_alloc 57341 (@arena_init Sample.stm32_ram))
      as [[p a']|]; [|vm_compute in Hacc; destruct Hacc; discriminate].
    exists p, a'. split; [reflexivity|].
    destruct Hacc as (_ & _ & Hfit).
    change (round_up_4 57341 <= 57344
            /\ arena_avail a' = 57344 - 57344) in Hfit.
    by destruct Hfit as [_ ->].
  - pose proof (@arena_alloc_accounting Sample.stm32_ram 4026531840 _ Hok)
      as Hacc.
    destruct (arena_alloc 4026531840 (@arena_init Sample.stm32_ram))
      as [[p a']|]; [|vm_compute in Hacc; destruct Hacc; discriminate].
    exists p, a'. split; [reflexivity|].
    destruct Hacc as (_ & _ & Hwrap).
    change (57344 < 4026531840
            /\ heap_p a' = 0x20002000 + 4026531840 - 2 ^ 32
            /\ heap_p a' < 0x20002000) in Hwrap.
    destruct Hwrap as (_ & -> & _). split; [reflexivity | reflexivity].
Defined.

Lemma arena_alloc_wraps_witness :
  let a := @arena_init Sample.stm32_ram in
  arena_alloc 4294967295 a = Some (heap_p a, a).
Proof.
  cbv zeta.
  apply (arena_alloc_wraps 4294967295 0 (@arena_init Sample.stm32_ram)).
  - vm_compute. split; discriminate.
  - reflexivity.
  - lia.
Defined.

End ArenaProofs.

(** * More statements about img.c *)

Module ImgOpeners.
Import Img.
Import ImgProofs.

(** ** The type-table matcher *)

Lemma type_fits_ranges (ty : struct_img_type) :
  type_fits ty = true ->
  0 <= ty_nr_secs ty < 64 /\ 0 <= ty_nr_sides ty < 2
  /\ 0 <= ty_no ty < 8 /\ 0 <= ty_gap3 ty < 256
  /\ 0 <= ty_interleave ty < 8 /\ 0 <= ty_base ty < 2
  /\ 0 <= ty_skew ty < 16 /\ 0 <= ty_rpm ty < 4.
Proof.
  unfold type_fits. rewrite !andb_true_iff, !Z.leb_le, !Z.ltb_lt. lia.
Qed.

Lemma shiftl_128_range (no : Z) :
  0 <= no < 8 -> 128 <= Z.shiftl 128 no <= 16384.
Proof.
  intros Hno. rewrite Z.shiftl_mul_pow2 by lia.
  assert (no = 0 \/ no = 1 \/ no = 2 \/ no = 3 \/ no = 4 \/ no = 5
          \/ no = 6 \/ no = 7) as Hc by lia.
  repeat (destruct Hc as [-> | Hc]; [simpl; lia|]). subst. simpl. lia.
Qed.

Lemma type_cyl_sz_range (ty : struct_img_type) :
  type_fits ty = true -> 0 <= type_cyl_sz ty <= 2064384.
Proof.
  intros Hfit. apply type_fits_ranges in Hfit.
  destruct Hfit as (Hs & Hd & Hn & _).
  pose proof (shiftl_128_range _ Hn). unfold type_cyl_sz. nia.
Qed.

(** The search of [_img_open]: the first row, in table order, and the
    lowest cylinder count in the row's window whose size is the file's. *)
Lemma walk_types_spec (type : list struct_img_type) (size : Z) :
  forallb type_fits type = true ->
  match walk_types type size with
  | Some (ty, n) =>
      ty ∈ type_rows type
      /\ type_min_cyls ty <= n <= type_max_cyls ty
      /\ n * type_cyl_sz ty = size
  | None =>
      forall ty n, ty ∈ type_rows type ->
                   type_min_cyls ty <= n <= type_max_cyls ty ->
                   n * type_cyl_sz ty <> size
  end.
Proof.
  induction type as [|ty rest IH]; cbn [walk_types forallb type_rows].
  - intros _ ty n Hin. by apply elem_of_nil in Hin.
  - rewrite andb_true_iff. intros [Hfit Hrest].
    destruct (ty_nr_secs ty =? 0) eqn:Hsecs.
    { intros ty' n Hin. by apply elem_of_nil in Hin. }
    pose proof (type_cyl_sz_range ty Hfit) as Hsz.
    fold (type_cyl_sz ty).
    rewrite (u32_small (type_cyl_sz ty)) by lia.
    assert ((if ty_cyls ty =? _C 40 then (38, 42) else (77, 85))
            = (type_min_cyls ty, type_max_cyls ty)) as ->
      by (unfold type_min_cyls, type_max_cyls; change (_C 40) with 1;
          by destruct (ty_cyls ty =? 1)).
    assert (38 <= type_min_cyls ty /\ type_max_cyls ty <= 85) as Hwin
      by (unfold type_min_cyls, type_max_cyls;
          destruct (ty_cyls ty =? _C 40); lia).
    destruct (find _ _) as [n|] eqn:Hfind.
    + apply find_some in Hfind as [Hin Heq].
      apply list_elem_of_In, elem_of_seqZ in Hin.
      apply Z.eqb_eq in Heq. rewrite u32_small in Heq by nia.
      split; [by left|]. split; [lia | done].
    + specialize (IH Hrest).
      destruct (walk_types rest size) as [[ty' n']|].
      * destruct IH as (Hin & Hn & Heq).
        split; [by right | done].
      * intros ty' n Hin Hn. apply elem_of_cons in Hin as [-> | Hin];
          [|by apply IH].
        pose proof (find_none _ _ Hfind n) as Hne.
        rewrite <- list_elem_of_In, elem_of_seqZ in Hne.
        specialize (Hne ltac:(lia)). apply Z.eqb_neq in Hne.
        rewrite u32_small in Hne by nia. done.
Qed.



Section TableOpen.
Context `{Clock}.

Ltac frame_by_fields im :=
  destruct im as [? ? ? ? ? ? ? ? ? ? ? ? ? ? []];
  repeat match goal with
         | |- context [if ?c then _ else _] => destruct c
         end; reflexivity.

Lemma mfm_defaults_frame (im : image) :
  open_frame (mfm_defaults im) = open_frame im.
Proof. frame_by_fields im. Qed.

Lemma mfm_sizes_frame (im : image) :
  open_frame (mfm_sizes im) = open_frame im.
Proof. frame_by_fields im. Qed.

Lemma mfm_rate_frame (t : Z) (im : image) :
  open_frame (mfm_rate t im) = open_frame im.
Proof. frame_by_fields im. Qed.

Lemma mfm_fit_frame (t : Z) (im : image) :
  open_frame (snd (mfm_fit t im)) = open_frame im.
Proof. unfold mfm_fit. frame_by_fields im. Qed.

Lemma track_finish_frame (t : Z) (im : image) (s : sync_mode) :
  open_frame (set_sync s (track_finish t im)) = open_frame im.
Proof. frame_by_fields im. Qed.

Lemma fm_defaults_frame (im : image) :
  open_frame (fm_defaults im) = open_frame im.
Proof. frame_by_fields im. Qed.

Lemma fm_sizes_frame (im : image) :
  open_frame (fm_sizes im) = open_frame im.
Proof. frame_by_fields im. Qed.

Lemma fm_rate_frame (im : image) :
  open_frame (fm_rate im) = open_frame im.
Proof. frame_by_fields im. Qed.

Lemma open_frame_geometry (im im' : image) :
  open_frame im' = open_frame im ->
  nr_cyls im' = nr_cyls im /\ nr_sides im' = nr_sides im
  /\ nr_sectors (img im') = nr_sectors (img im)
  /\ sec_no (img im') = sec_no (img im)
  /\ base_off (img im') = base_off (img im)
  /\ fp im' = fp im.
Proof. unfold open_frame. cbv zeta. intros [=]. done. Qed.

Lemma open_frame_layout (im im' : image) :
  open_frame im' = open_frame im ->
  layout (img im') = layout (img im)
  /\ has_iam (img im') = has_iam (img im)
  /\ post_crc_syncs (img im') = post_crc_syncs (img im)
  /\ sec_base (img im') = sec_base (img im)
  /\ sec_map (img im') = sec_map (img im)
  /\ interleave (img im') = interleave (img im)
  /\ skew (img im') = skew (img im)
  /\ skew_cyls_only (img im') = skew_cyls_only (img im).
Proof. unfold open_frame. cbv zeta. intros [=]. done. Qed.

(** Neither geometry builder touches the file, the geometry, the sector
    numbering or the position state. *)
Lemma mfm_open_keeps (im : image) :
  open_frame (snd (mfm_open im)) = open_frame im.
Proof.
  cbv delta [mfm_open]. cbv beta.
  destruct (_ || _); [done|]. cbv zeta.
  destruct (mfm_fit _ _) as [t im'] eqn:Efit. cbn [snd].
  rewrite track_finish_frame.
  change im' with (snd (t, im')). rewrite <- Efit.
  by rewrite mfm_fit_frame, mfm_rate_frame, mfm_sizes_frame,
    mfm_defaults_frame.
Qed.

Lemma fm_open_keeps (im : image) (ok : bool) (im' : image) :
  fm_open im = Some (ok, im') -> open_frame im' = open_frame im.
Proof.
  cbv delta [fm_open]. cbv beta.
  destruct (_ || _); [by intros [= _ <-]|]. cbv zeta.
  destruct (negb _); [discriminate|]. intros [= _ <-].
  by rewrite track_finish_frame, fm_rate_frame, fm_sizes_frame,
    fm_defaults_frame.
Qed.

(** [_img_open] commits the row and cylinder count the search finds; the
    geometry builder behind it accepts every row that fits the
    bit-fields. *)
Lemma _img_open_found (type : list struct_img_type) (im : image) :
  forallb type_fits type = true ->
  match walk_types type (im_size im) with
  | Some (ty, n) =>
      exists im',
        _img_open type im = (true, im')
        /\ nr_cyls im' = n
        /\ nr_sides im' = ty_nr_sides ty + 1
        /\ nr_sectors (img im') = ty_nr_secs ty
        /\ sec_no (img im') = ty_no ty
        /\ sec_sz im' = Z.shiftl 128 (ty_no ty)
  | None => _img_open type im = (false, im)
  end.
Proof.
  intros Hfits. pose proof (walk_types_spec type (im_size im) Hfits) as Hw.
  unfold _img_open.
  destruct (walk_types type (im_size im)) as [[ty n]|]; [|done].
  destruct Hw as (Hin & Hn & Hsize).
  assert (type_fits ty = true) as Hfit.
  { apply forallb_forall with (x := ty) in Hfits; [done|].
    apply list_elem_of_In. clear -Hin.
    induction type as [|t rest IH]; simpl in *; [by apply elem_of_nil in Hin|].
    destruct (ty_nr_secs t =? 0); [by apply elem_of_nil in Hin|].
    apply elem_of_cons in Hin as [-> | Hin]; [by left | right; by apply IH]. }
  assert (ty_nr_secs ty <> 0) as Hsecs.
  { clear -Hin. induction type as [|t rest IH]; simpl in *;
      [by apply elem_of_nil in Hin|].
    destruct (Z.eqb_spec (ty_nr_secs t) 0); [by apply elem_of_nil in Hin|].
    apply elem_of_cons in Hin as [-> | Hin]; [done | by apply IH]. }
  pose proof (type_fits_ranges ty Hfit) as (Hs & Hd & Hno & _).
  assert (38 <= type_min_cyls ty /\ type_max_cyls ty <= 85) as Hwin
    by (unfold type_min_cyls, type_max_cyls;
        destruct (ty_cyls ty =? _C 40); lia).
  cbv zeta.
  match goal with
  | |- context [mfm_open ?x] =>
      pose proof (mfm_open_accepts x) as Hacc;
      pose proof (mfm_open_keeps x) as Hkeep;
      destruct (mfm_open x) as [ok im']
  end.
  cbn [fst snd] in Hacc, Hkeep.
  apply open_frame_geometry in Hkeep as (Ec & Es & En & Eno & _).
  sim_img_in Hacc. sim_img_in Es. sim_img_in Ec. sim_img_in En.
  sim_img_in Eno.
  rewrite (u8_small n) in Hacc, Ec by lia.
  rewrite (u8_small (ty_nr_sides ty + 1)) in Hacc, Es by lia.
  assert (ok = true) as -> by (apply Hacc; unfold MAX_SECS; lia).
  exists im'. split; [done|].
  unfold sec_sz. rewrite Eno.
  pose proof (shiftl_128_range _ Hno).
  rewrite u32_small by lia. done.
Qed.


End TableOpen.

(** Every table of img.c fits the bit-fields. *)
Lemma source_tables_fit :
  Forall (fun type => forallb type_fits type = true)
    [img_type; adfs_type; akai_type; casio_type; d81_type; dec_type;
     ensoniq_type; fluke_type; kaypro_type; mbd_type; memotech_type;
     msx_type; nascom_type; pc98_type; uknc_type; st_type].
Proof. repeat constructor. Qed.


(** ** Host profiles *)

Lemma bpb_read_size `{Uninit} (im : image) :
  f_size (fp (snd (bpb_read im))) = f_size (fp im).
Proof. by destruct im. Qed.

Section Hosts.
Context `{Clock} `{Uninit}.

(** Whether [_img_open] accepts is a matter of the image size alone. *)
Lemma _img_open_by_size (type : list struct_img_type) (im1 im2 : image) :
  forallb type_fits type = true ->
  im_size im1 = im_size im2 ->
  fst (_img_open type im1) = fst (_img_open type im2).
Proof.
  intros Hfits Hsize.
  pose proof (_img_open_found type im1 Hfits) as H1.
  pose proof (_img_open_found type im2 Hfits) as H2.
  rewrite Hsize in H1.
  destruct (walk_types type (im_size im2)) as [[ty n]|].
  - destruct H1 as (? & -> & _), H2 as (? & -> & _). done.
  - by rewrite H1, H2.
Qed.

Lemma img_open_fallback_accepts (im0 im : image) :
  base_off (img im0) = 0 ->
  fst (_img_open img_type im0) = true ->
  f_size (fp im) = f_size (fp im0) ->
  exists im', img_open_fallback im = (true, im').
Proof.
  intros Hoff Hok Hsz. unfold img_open_fallback.
  pose proof (_img_open_by_size img_type (set_img img_zero im) im0 eq_refl)
    as Hsame.
  destruct (_img_open img_type (set_img img_zero im)) as [ok im'].
  exists im'. f_equal. cbn [fst] in Hsame. rewrite Hsame, Hok; [done|].
  unfold im_size. rewrite Hoff. destruct im, im0. simpl in *. by rewrite Hsz.
Qed.

Lemma _img_open_file (type : list struct_img_type) (im : image) :
  f_size (fp (snd (_img_open type im))) = f_size (fp im).
Proof.
  unfold _img_open. destruct (walk_types _ _) as [[ty n]|]; [|done].
  cbv zeta.
  match goal with
  | |- context [mfm_open ?x] =>
      pose proof (mfm_open_keeps x) as Hkeep; destruct (mfm_open x) as [ok im']
  end.
  cbn [snd] in *. apply open_frame_geometry in Hkeep as (_ & _ & _ & _ & _ & ->).
  by destruct im.
Qed.

Lemma msx_open_file (im : image) :
  f_size (fp (snd (msx_open im))) = f_size (fp im).
Proof.
  unfold msx_open.
  destruct (_ || _).
  - pose proof (bpb_read_size im) as Hb.
    destruct (bpb_read im) as [b im1]. cbn [snd] in Hb.
    destruct (_ && _).
    + cbv zeta.
      match goal with
      | |- context [mfm_open ?x] =>
          pose proof (mfm_open_keeps x) as Hkeep;
          destruct (mfm_open x) as [[] im']
      end; cbn [snd] in *;
        apply open_frame_geometry in Hkeep as (_ & _ & _ & _ & _ & Hfp).
      * rewrite Hfp, <- Hb. by destruct im1.
      * rewrite _img_open_file. cbn. rewrite Hfp, <- Hb. by destruct im1.
    + rewrite _img_open_file. by rewrite <- Hb.
  - by rewrite _img_open_file.
Qed.

Lemma pc_dos_open_file (im : image) :
  f_size (fp (snd (pc_dos_open im))) = f_size (fp im).
Proof.
  unfold pc_dos_open.
  pose proof (bpb_read_size im) as Hb.
  destruct (bpb_read im) as [b im1]. cbn [snd] in Hb. rewrite <- Hb.
  cbv zeta.
  repeat match goal with
         | |- context [if ?c then _ else _] => destruct c
         end; try (by destruct im1).
  match goal with
  | |- context [mfm_open ?x] =>
      pose proof (mfm_open_keeps x) as Hkeep; destruct (mfm_open x) as [ok im']
  end.
  cbn [snd] in *. apply open_frame_geometry in Hkeep as (_ & _ & _ & _ & _ & ->).
  by destruct im1.
Qed.

(** X5: a host profile never takes away what the default list offers.
    For every host other than TI99 and UKNC, an image at offset 0 whose
    size the default list matches is opened, by the host's own table or
    probe or else by the fallback to the default list. *)
Theorem img_open_default_list (host : host_t) (im : image) :
  has_fallback host = true ->
  base_off (img im) = 0 ->
  fst (_img_open img_type im) = true ->
  exists im', img_open host im = Some (true, im').
Proof.
  intros Hhost Hoff Hok.
  assert (forall type im1, f_size (fp im1) = f_size (fp im) ->
            exists im', img_open_with type im1 = (true, im')) as Hwith.
  { intros type im1 Hsz. unfold img_open_with.
    pose proof (_img_open_file type im1) as Hf.
    destruct (_img_open type im1) as [[] im2]; [by exists im2|].
    apply (img_open_fallback_accepts im); [done..|].
    cbn [snd] in Hf. congruence. }
  assert (forall r : bool * image,
            f_size (fp (snd r)) = f_size (fp im) ->
            exists im', (let '(ok, im1) := r in
                         Some (if ok then (true, im1)
                               else img_open_fallback im1))
                        = Some (true, im')) as Hprobe.
  { intros [[] im1] Hsz; [by exists im1|].
    destruct (img_open_fallback_accepts im im1 Hoff Hok Hsz) as [im' ->].
    by exists im'. }
  destruct host; try discriminate; cbn [img_open];
    try (by edestruct Hwith as [im' ->]; [|by exists im']).
  - apply Hprobe, msx_open_file.
  - apply Hprobe, pc_dos_open_file.
Qed.

End Hosts.

Lemma img_open_default_list_witness :
  let im := Sample.fresh_img Sample.msx_720k in
  has_fallback HOST_msx = true
  /\ base_off (img im) = 0
  /\ fst (@_img_open Sample.stm32_clock img_type im) = true
  /\ fst (@msx_open Sample.stm32_clock Sample.zero_stack im) = false
  /\ exists im',
    @img_open Sample.stm32_clock Sample.zero_stack HOST_msx im
    = Some (true, im').
Proof.
  cbv zeta. split; [reflexivity|]. split; [reflexivity|].
  assert (fst (@_img_open Sample.stm32_clock img_type
                 (Sample.fresh_img Sample.msx_720k)) = true) as Hok
    by (vm_compute; reflexivity).
  split; [exact Hok|]. split; [vm_compute; reflexivity|].
  exact (@img_open_default_list Sample.stm32_clock Sample.zero_stack
           HOST_msx (Sample.fresh_img Sample.msx_720k) eq_refl eq_refl Hok).
Defined.

(** ** FM geometry: fm_open *)

Section FmLength.
Context `{Clock}.

Lemma FM_GAP_3_range (k : Z) :
  0 <= k <= 7 -> 27 <= FM_GAP_3 !!! Z.to_nat k <= 255.
Proof.
  intros Hk.
  assert (k = 0 \/ k = 1 \/ k = 2 \/ k = 3 \/ k = 4 \/ k = 5 \/ k = 6 \/ k = 7)
    as Hcases by lia.
  repeat destruct Hcases as [-> | Hcases]; try subst k; vm_compute;
    split; discriminate.
Qed.

(** What the first two blocks of [fm_open] establish. *)
Lemma fm_sizes_ranges (im : image) :
  0 <= sec_no (img im) <= 7 ->
  0 <= gap_2 (img im) < 256 -> 0 <= gap_3 (img im) < 256 ->
  0 <= gap_4a (img im) < 256 ->
  (rpm (img im) = 0 \/ 60 <= rpm (img im) < 65536) ->
  let im2 := fm_sizes (fm_defaults im) in
  nr_sectors (img im2) = nr_sectors (img im)
  /\ rpm (img im2) = or_default (rpm (img im)) 300
  /\ 60 <= rpm (img im2) < 65536
  /\ 0 < idx_sz (img im2) < 256
  /\ 0 < enc_sec_sz im2 <= 17500.
Proof.
  intros Hno Hg2 Hg3 Hg4a Hrpm.
  pose proof (FM_GAP_3_range _ Hno) as Hdef.
  pose proof (sec_sz_range im Hno) as Hsz.
  cbv zeta. rewrite fm_sizes_eq, fm_defaults_eq.
  unfold enc_sec_sz. cbv zeta. sim_img.
  change (sec_sz _) with (sec_sz im).
  unfold or_default, FM_GAP_2, FM_GAP_4A, FM_GAP_SYNC.
  repeat match goal with
         | |- context [?a =? ?b] => destruct (Z.eqb_spec a b)
         end;
    no_wrap; lia.
Qed.

Lemma fm_rate_fields (im : image) :
  let im' := fm_rate im in
  tracklen_bc im' = u32 (250 * 200 * 300 / rpm (img im))
  /\ idx_sz (img im') = idx_sz (img im)
  /\ nr_sectors (img im') = nr_sectors (img im)
  /\ enc_sec_sz im' = enc_sec_sz im.
Proof.
  destruct im as [? ? ? ? ? ? ? ? ? ? ? ? ? ? []]. cbv zeta.
  repeat split; reflexivity.
Qed.

Lemma fm_open_blocks (im : image) :
  1 <= nr_sides im <= 2 -> 1 <= nr_cyls im <= 254 ->
  1 <= nr_sectors (img im) <= MAX_SECS ->
  let im2 := fm_sizes (fm_defaults im) in
  let t := min_tracklen im2 in
  fm_open im
  = if negb (t <? tracklen_bc (fm_rate im2)) then None
    else Some (true, set_sync SYNC_fm (track_finish t (fm_rate im2))).
Proof.
  intros Hs Hc Hn. cbv delta [fm_open]. cbv beta.
  rewrite (proj2 (geometry_check _ _ _)) by done. reflexivity.
Qed.

(** X6: for a geometry that passes the range check of [fm_open], with the
    fields of the IMG block in the range of their C types and a drive
    speed that is unset or at least 60 rpm, the assertion of [fm_open]
    fails exactly when the encoded sectors and the index gap need at least
    the 250 kbit/s track length; otherwise [fm_open] returns true, its
    track length is a multiple of 32 bitcells above the encoded length,
    [gap_4] is the slack divided by 16, and index gap, encoded sectors and
    GAP4 add up to [tracklen_bc] exactly. *)
Theorem fm_open_track_length (im : image) :
  1 <= nr_sides im <= 2 -> 1 <= nr_cyls im <= 254 ->
  1 <= nr_sectors (img im) <= MAX_SECS ->
  0 <= sec_no (img im) <= 7 ->
  0 <= gap_2 (img im) < 256 -> 0 <= gap_3 (img im) < 256 ->
  0 <= gap_4a (img im) < 256 ->
  (rpm (img im) = 0 \/ 60 <= rpm (img im) < 65536) ->
  let im2 := fm_sizes (fm_defaults im) in
  let need := (idx_sz (img im2) + nr_sectors (img im) * enc_sec_sz im2) * 16 in
  let std := 250 * 200 * 300 / or_default (rpm (img im)) 300 in
  if std <=? need then fm_open im = None
  else
    exists im',
      fm_open im = Some (true, im')
      /\ sync im' = SYNC_fm
      /\ (idx_sz (img im') + nr_sectors (img im') * enc_sec_sz im') * 16
         = need
      /\ tracklen_bc im' mod 32 = 0
      /\ need < tracklen_bc im'
      /\ gap_4 (img im') = (tracklen_bc im' - need) / 16
      /\ idx_sz (img im') * 16
         + nr_sectors (img im') * (enc_sec_sz im' * 16)
         + gap_4 (img im') * 16
         = tracklen_bc im'.
Proof.
  intros Hs Hc Hn Hno Hg2 Hg3 Hg4a Hrpm.
  destruct (fm_sizes_ranges im Hno Hg2 Hg3 Hg4a Hrpm)
    as (En & Erpm & Hrpm' & Hidx & Hess).
  cbv zeta in *. rewrite fm_open_blocks by done. cbv zeta.
  set (im2 := fm_sizes (fm_defaults im)) in *.
  destruct (fm_rate_fields im2) as (Ebc & Eidx & En3 & Eess).
  cbv zeta in Ebc, Eidx, En3, Eess.
  rewrite Ebc, Erpm.
  rewrite Erpm in Hrpm'.
  set (r := or_default (rpm (img im)) 300) in *.
  unfold MAX_SECS in *.
  assert (min_tracklen im2
          = (idx_sz (img im2) + nr_sectors (img im) * enc_sec_sz im2) * 16)
    as Et.
  { unfold min_tracklen. rewrite En. cbv zeta.
    rewrite (u32_small (enc_sec_sz im2 * _)) by nia.
    rewrite (u32_small (_ + idx_sz _)) by nia.
    rewrite u32_small by nia. lia. }
  rewrite Et.
  set (need := (idx_sz (img im2) + nr_sectors (img im) * enc_sec_sz im2) * 16)
    in *.
  assert (0 <= 250 * 200 * 300 / r <= 250000) as Hstd.
  { split; [apply Z.div_pos; lia|].
    apply Z.div_le_upper_bound; lia. }
  rewrite (u32_small (250 * 200 * 300 / r)) by lia.
  set (std := 250 * 200 * 300 / r) in *.
  destruct (Z.leb_spec std need) as [Hfail | Hfit].
  - destruct (Z.ltb_spec need std); [lia | reflexivity].
  - destruct (Z.ltb_spec need std); [|lia]. cbn [negb].
    eexists. split; [reflexivity|].
    destruct (track_finish_fields need (fm_rate im2) SYNC_fm)
      as (Fbc & Fg4 & Fidx & Fn & Fess).
    cbv zeta in Fbc, Fg4, Fidx, Fn, Fess.
    rewrite Fidx, Fn, Fess, Eidx, En3, Eess, Fbc, Fg4, Ebc, Erpm, En.
    fold r. rewrite (u32_small (250 * 200 * 300 / r)) by (fold std; lia).
    fold std. rewrite round_up_32 by lia.
    assert (need mod 16 = 0) as Hmod16
      by (unfold need; apply Z.mod_mul; lia).
    pose proof (Z.div_mod (std + 31) 32 ltac:(lia)) as Hdm.
    pose proof (Z.mod_pos_bound (std + 31) 32 ltac:(lia)) as Hmb.
    destruct (gap_4_exact need (32 * ((std + 31) / 32))) as [Hg Hsum];
      try lia.
    { rewrite Z.mul_comm. apply Z.mod_mul. lia. }
    rewrite Hg. fold need.
    split; [by destruct (fm_rate im2)|].
    split; [reflexivity|].
    split; [rewrite Z.mul_comm; apply Z.mod_mul; lia|].
    split; [lia|]. split; [reflexivity|].
    unfold need in *. lia.
Qed.

End FmLength.

Lemma fm_open_track_length_witness :
  exists im',
    @ssd_open Sample.stm32_clock (Sample.fresh_img Sample.ssd_200k)
    = Some (true, im')
    /\ tracklen_bc im' = 50016 /\ gap_4 (img im') = 10.
Proof.
  pose proof (@fm_open_track_length Sample.stm32_clock Sample.ssd_geometry)
    as Hlen.
  destruct Hlen as (im' & Hopen & _ & _ & _ & _ & _ & _).
  - vm_compute. split; discriminate.
  - vm_compute. split; discriminate.
  - vm_compute. split; discriminate.
  - vm_compute. split; discriminate.
  - vm_compute. split; [discriminate | reflexivity].
  - vm_compute. split; [discriminate | reflexivity].
  - vm_compute. split; [discriminate | reflexivity].
  - left. reflexivity.
  - exists im'. split; [exact Hopen|].
    vm_compute in Hopen. injection Hopen as <-. split; reflexivity.
Defined.

(** ** TI-99/4A images: ti99_open *)

Section Ti99.
Context `{Clock} `{Uninit}.

(** [fm_open] on a geometry whose encoded track is known to fit. *)
Lemma fm_open_fits (im : image) (t bc : Z) :
  1 <= nr_sides im <= 2 -> 1 <= nr_cyls im <= 254 ->
  1 <= nr_sectors (img im) <= MAX_SECS ->
  min_tracklen (fm_sizes (fm_defaults im)) = t ->
  tracklen_bc (fm_rate (fm_sizes (fm_defaults im))) = bc ->
  t < bc ->
  exists im', fm_open im = Some (true, im')
              /\ open_frame im' = open_frame im.
Proof.
  intros Hs Hc Hn Et Ebc Hlt.
  pose proof (fm_open_keeps im) as Hkeep.
  rewrite fm_open_blocks in * by done. cbv zeta in *.
  rewrite Et, Ebc in *.
  destruct (Z.ltb_spec t bc); [|lia]. cbn [negb] in *.
  eexists. split; [reflexivity|]. by eapply Hkeep.
Qed.

(** The single-density TI-99 tracks: 9 sectors of 256 bytes with GAP3 44
    need 48208 of the 50000 bitcells of a 300 rpm track. *)
Lemma fm_open_ti99 (im : image) :
  gap_2 (img im) = 0 -> gap_4a (img im) = 0 -> rpm (img im) = 0 ->
  gap_3 (img im) = 44 -> sec_no (img im) = 1 ->
  nr_sectors (img im) = 9 ->
  1 <= nr_sides im <= 2 -> 1 <= nr_cyls im <= 254 ->
  exists im', fm_open im = Some (true, im')
              /\ open_frame im' = open_frame im.
Proof.
  intros Hg2 Hg4a Hrpm Hg3 Hno Hn Hs Hc.
  apply (fm_open_fits im 48208 50000); try done.
  - rewrite Hn. unfold MAX_SECS. lia.
  - destruct im as [? ? ? ? ? ? ? ? ? ? ? ? ? ? []]. simpl in *. by subst.
  - destruct im as [? ? ? ? ? ? ? ? ? ? ? ? ? ? []]. simpl in *. by subst.
Qed.

Lemma ti99_geom_fields (c s n : Z) (il : option Z) (g : Z) (im : image) :
  let x := ti99_geom c s n il g im in
  (nr_cyls x = c /\ nr_sides x = s /\ nr_sectors (img x) = n
   /\ gap_3 (img x) = g)
  /\ (sec_no (img x) = sec_no (img im) /\ layout (img x) = layout (img im)
      /\ has_iam (img x) = has_iam (img im))
  /\ (gap_2 (img x) = gap_2 (img im) /\ gap_4a (img x) = gap_4a (img im)
      /\ rpm (img x) = rpm (img im)).
Proof.
  destruct im as [? ? ? ? ? ? ? ? ? ? ? ? ? ? []], il; repeat split.
Qed.

(** X7: on a handle whose gaps and speed are unset, and for an image
    below 40 MiB, [ti99_open] never trips the assertion of [fm_open]; when
    it accepts, the image is a whole number of 256-byte sectors and
    cylinders x sides x sectors is exactly the sector count of the image,
    less the 3-sector bad-sector map when there is one.  The layout is
    sequential with side 1 reversed, and there is no IAM. *)
Theorem ti99_open_covers (im : image) :
  gap_2 (img im) = 0 -> gap_4a (img im) = 0 -> rpm (img im) = 0 ->
  0 <= im_size im < 640 * 256 * 256 ->
  let secs := im_size im / 256 in
  let main := if secs mod 10 =? 3 then secs - 3 else secs in
  exists ok im',
    ti99_open im = Some (ok, im')
    /\ (ok = true ->
        im_size im mod 256 = 0
        /\ nr_cyls im' * nr_sides im' * nr_sectors (img im') = main
        /\ sec_sz im' = 256
        /\ layout (img im') = LAYOUT_sequential_reverse_side1
        /\ has_iam (img im') = false).
Proof.
  intros Hg2 Hg4a Hrpm Hsize secs main.
  unfold ti99_open. rewrite (u32_small (im_size im)) by lia.
  destruct (Z.eqb_spec (im_size im mod 256) 0) as [Hmul|]; cbn [negb];
    [|by eexists _, _].
  fold secs. cbv zeta. fold main.
  destruct (Z.eqb_spec main 0) as [|Hnz]; [by eexists _, _|].
  destruct (F_read 20 (uninit 20) (fp im)) as [vib f].
  set (im0 := on_img (set_layout _) _).
  assert (gap_2 (img im0) = 0 /\ gap_4a (img im0) = 0 /\ rpm (img im0) = 0
          /\ sec_no (img im0) = 1
          /\ layout (img im0) = LAYOUT_sequential_reverse_side1
          /\ has_iam (img im0) = false) as (G2 & G4a & Grpm & Gno & Glay & Giam)
    by (subst im0; destruct im as [? ? ? ? ? ? ? ? ? ? ? ? ? ? []];
        simpl in *; by subst).
  clearbody im0.
  assert (0 <= main < 640 * 256) as Hmain.
  { subst main secs. pose proof (Z.div_mod (im_size im) 256 ltac:(lia)).
    assert (0 <= im_size im / 256 < 640 * 256)
      by (split; [apply Z.div_pos; lia | apply Z.div_lt_upper_bound; lia]).
    pose proof (Z.mod_pos_bound (im_size im / 256) 10 ltac:(lia)).
    pose proof (Z.div_mod (im_size im / 256) 10 ltac:(lia)).
    destruct (Z.eqb_spec ((im_size im / 256) mod 10) 3); lia. }
  clearbody main.
  pose proof (Z.div_mod main (40 * 9) ltac:(lia)) as D9.
  pose proof (Z.div_mod main (40 * 16) ltac:(lia)) as D16.
  assert (forall c s n il g,
            main = c * s * n ->
            exists ok im',
              Some (mfm_open (ti99_geom c s n il g im0)) = Some (ok, im')
              /\ (ok = true ->
                  im_size im mod 256 = 0
                  /\ nr_cyls im' * nr_sides im' * nr_sectors (img im') = main
                  /\ sec_sz im' = 256
                  /\ layout (img im') = LAYOUT_sequential_reverse_side1
                  /\ has_iam (img im') = false)) as Hmfm.
  { intros c s n il g Hfit.
    pose proof (mfm_open_keeps (ti99_geom c s n il g im0)) as Hk.
    destruct (mfm_open _) as [ok im']. cbn [snd] in Hk.
    destruct (open_frame_geometry _ _ Hk) as (Ec & Es & En & Eno & _).
    destruct (open_frame_layout _ _ Hk) as (El & Ei & _).
    destruct (ti99_geom_fields c s n il g im0)
      as ((Fc & Fs & Fn & _) & (Fno & Fl & Fi) & _).
    cbv zeta in *. exists ok, im'. split; [done|]. intros _.
    unfold sec_sz.
    rewrite Ec, Es, En, Eno, El, Ei, Fc, Fs, Fn, Fno, Fl, Fi, Gno, Glay, Giam.
    done. }
  assert (forall c s,
            main = c * s * 9 -> 1 <= s <= 2 -> 1 <= c <= 254 ->
            exists ok im',
              fm_open (ti99_geom c s 9 None 44 im0) = Some (ok, im')
              /\ (ok = true ->
                  im_size im mod 256 = 0
                  /\ nr_cyls im' * nr_sides im' * nr_sectors (img im') = main
                  /\ sec_sz im' = 256
                  /\ layout (img im') = LAYOUT_sequential_reverse_side1
                  /\ has_iam (img im') = false)) as Hfm.
  { intros c s Hfit Hs Hc.
    destruct (ti99_geom_fields c s 9 None 44 im0)
      as ((Fc & Fs & Fn & Fg3) & (Fno & Fl & Fi) & (F2 & F4a & Frpm)).
    cbv zeta in *.
    destruct (fm_open_ti99 (ti99_geom c s 9 None 44 im0))
      as (im' & -> & Hk); try congruence; try lia.
    destruct (open_frame_geometry _ _ Hk) as (Ec & Es & En & Eno & _).
    destruct (open_frame_layout _ _ Hk) as (El & Ei & _).
    exists true, im'. split; [done|]. intros _.
    unfold sec_sz.
    rewrite Ec, Es, En, Eno, El, Ei, Fc, Fs, Fn, Fno, Fl, Fi, Gno, Glay, Giam.
    done. }
  destruct (Z.eqb_spec (main mod (40 * 9)) 0) as [M9|M9].
  - repeat match goal with
           | |- context [main / (40 * 9) =? ?k] =>
               destruct (Z.eqb_spec (main / (40 * 9)) k)
           | |- context [if ?c && ?d then _ else _] => destruct (c && d)
           end;
      try (apply Hmfm; lia); try (apply Hfm; lia).
    by eexists _, _.
  - destruct (Z.eqb_spec (main mod (40 * 16)) 0) as [M16|M16];
      [|by eexists _, _].
    assert (1 <= main / (40 * 16) < 256) as Hsides by lia.
    rewrite u8_small by lia.
    assert (forall v, nr_sides (set_nr_sides v im0) = v) as ->
      by (intros v; by destruct im0).
    destruct (Z.leb_spec (main / (40 * 16)) 2); [|by eexists _, _].
    destruct (Hmfm 40 (main / (40 * 16)) 16 (Some 5) 44)
      as (ok & im' & E & Hok); [lia|].
    exists ok, im'. split; [|done].
    rewrite <- E.
    assert (ti99_geom 40 (main / (40 * 16)) 16 (Some 5) 44
              (set_nr_sides (main / (40 * 16)) im0)
            = ti99_geom 40 (main / (40 * 16)) 16 (Some 5) 44 im0) as ->
      by (by destruct im0 as [? ? ? ? ? ? ? ? ? ? ? ? ? ? []]).
    reflexivity.
Qed.
End Ti99.

Lemma ti99_open_covers_witness :
  let im := Sample.fresh_img (Sample.file_of [] 92928) in
  0 <= im_size im < 640 * 256 * 256
  /\ exists im',
    @ti99_open Sample.stm32_clock Sample.zero_stack im = Some (true, im')
    /\ nr_cyls im' * nr_sides im' * nr_sectors (img im') = 360.
Proof.
  cbv zeta.
  assert (0 <= im_size (Sample.fresh_img (Sample.file_of [] 92928))
          < 640 * 256 * 256) as Hsize by (vm_compute; split; congruence).
  split; [exact Hsize|].
  destruct (@ti99_open_covers Sample.stm32_clock Sample.zero_stack
              (Sample.fresh_img (Sample.file_of [] 92928))
              eq_refl eq_refl eq_refl Hsize) as (ok & im' & Hopen & Hfit).
  assert (ok = true) as ->.
  { apply (f_equal (fmap fst)) in Hopen. vm_compute in Hopen. congruence. }
  exists im'. split; [exact Hopen|].
  destruct (Hfit eq_refl) as (_ & -> & _). reflexivity.
Defined.

(** ** Openers with a fixed or header-given geometry *)

Section Fixed.
Context `{Clock} `{Uninit}.

Lemma mfm_open_total (im : image) :
  1 <= nr_sides im <= 2 -> 1 <= nr_cyls im <= 254 ->
  1 <= nr_sectors (img im) <= MAX_SECS ->
  exists im', mfm_open im = (true, im') /\ open_frame im' = open_frame im.
Proof.
  intros Hs Hc Hn.
  pose proof (proj2 (mfm_open_accepts im) (conj Hs (conj Hc Hn))) as Hok.
  pose proof (mfm_open_keeps im) as Hk.
  destruct (mfm_open im) as [ok im']. cbn [fst snd] in *. subst ok.
  by exists im'.
Qed.

(** X8: [trd_open] accepts every image, as 16 sectors of 256 bytes
    numbered from 1.  The geometry byte at offset 0x8e3 selects 80 or 40
    cylinders and 2 or 1 sides; with any other byte the size decides, and
    the guess is 40 cylinders on one side below 320 KiB and 80 cylinders
    on two sides from there on, never 40 x 2 or 80 x 1. *)
Theorem trd_open_geometry (im : image) :
  0x8e3 < f_size (fp im) ->
  let g := u8 (f_data (fp im) 0x8e3) in
  exists im',
    trd_open im = (true, im')
    /\ nr_sectors (img im') = 16 /\ sec_sz im' = 256
    /\ sec_base (img im') = (1, 1)
    /\ (nr_cyls im', nr_sides im')
       = if g =? 0x16 then (80, 2)
         else if g =? 0x17 then (40, 2)
         else if g =? 0x18 then (80, 1)
         else if g =? 0x19 then (40, 1)
         else if im_size im <? 40 * 2 * 16 * 256 then (40, 1)
         else (80, 2).
Proof.
  intros Hsize g. unfold trd_open.
  pose proof (HfeProofs.F_read_byte 1 (uninit 1) (F_lseek 0x8e3 (fp im)) 0)
    as Hbyte.
  cbn [F_lseek f_size f_tell f_data] in Hbyte.
  rewrite Z.add_0_r in Hbyte. specialize (Hbyte ltac:(lia) ltac:(lia)).
  assert (f_size (snd (F_read 1 (uninit 1) (F_lseek 0x8e3 (fp im))))
          = f_size (fp im)) as Hfs by reflexivity.
  destruct (F_read 1 (uninit 1) (F_lseek 0x8e3 (fp im))) as [buf f].
  cbn [fst snd] in Hbyte, Hfs. rewrite Hbyte. fold g.
  assert (u8 g = g) as -> by (apply u8_small, u8_range).
  assert (im_size (set_fp f im) = im_size im) as ->
    by (unfold im_size; destruct im; simpl in *; by rewrite Hfs).
  assert (forall c s,
            1 <= c <= 254 -> 1 <= s <= 2 ->
            exists im',
              (let im1 := set_nr_sides s (set_nr_cyls c (set_fp f im)) in
               let im1 := on_img (set_sec_no 1) im1 in
               let im1 := on_img (set_interleave 1) im1 in
               let im1 := on_img (set_skew 0) im1 in
               let im1 := on_img (set_sec_base (1, 1)) im1 in
               let im1 := on_img (set_nr_sectors 16) im1 in
               let im1 := on_img (set_gap_3 57) im1 in
               let im1 := on_img (set_has_iam true) im1 in
               mfm_open im1) = (true, im')
              /\ nr_sectors (img im') = 16 /\ sec_sz im' = 256
              /\ sec_base (img im') = (1, 1)
              /\ (nr_cyls im', nr_sides im') = (c, s)) as Hopen.
  { intros c s Hc Hs. cbv zeta.
    match goal with
    | |- context [mfm_open ?x] =>
        destruct (mfm_open_total x) as (im' & -> & Hk)
    end; try (destruct im as [? ? ? ? ? ? ? ? ? ? ? ? ? ? []]; simpl;
              unfold MAX_SECS; lia).
    exists im'. split; [done|].
    destruct (open_frame_geometry _ _ Hk) as (Ec & Es & En & Eno & _).
    destruct (open_frame_layout _ _ Hk) as (_ & _ & _ & Eb & _).
    unfold sec_sz. rewrite Ec, Es, En, Eno, Eb.
    by destruct im as [? ? ? ? ? ? ? ? ? ? ? ? ? ? []]. }
  destruct (g =? 0x16); [by apply Hopen|].
  destruct (g =? 0x17); [by apply Hopen|].
  destruct (g =? 0x18); [by apply Hopen|].
  destruct (g =? 0x19); [by apply Hopen|].
  destruct (Z.leb_spec (im_size im) (40 * 16 * 256)),
    (Z.ltb_spec (im_size im) (40 * 2 * 16 * 256));
    try lia; by apply Hopen.
Qed.

(** A read that lies inside the file delivers the file's bytes. *)
Lemma F_read_full (n : Z) (old : list Z) (f : FIL) :
  0 <= n <= f_size f - f_tell f ->
  F_read n old f
  = (((fun i : nat => u8 (f_data f (f_tell f + Z.of_nat i)))
        <$> seq 0 (Z.to_nat n))
     ++ drop (Z.to_nat n) old,
     F_lseek (f_tell f + n) f).
Proof.
  intros Hn. unfold F_read, F_bytes, F_avail, F_lseek.
  rewrite Z.min_l by lia. rewrite length_fmap, length_seq.
  by rewrite Z2Nat.id by lia.
Qed.

Lemma lookup_total_tail (l : list Z) (i : nat) :
  tail l !!! i = l !!! S i.
Proof. by destruct l. Qed.

(** X9: [vdk_open] accepts exactly the images whose 12-byte header starts
    with "dk", gives a header length of at least 12, 1 or 2 heads and 1 to
    254 cylinders.  It then takes cylinders and heads from the header,
    18 sectors of 256 bytes per track, and starts the data at the header
    length. *)
Theorem vdk_open_header (im : image) :
  12 <= f_size (fp im) - f_tell (fp im) ->
  let b (k : Z) := u8 (f_data (fp im) (f_tell (fp im) + k)) in
  let hlen := b 2 + 256 * b 3 in
  let '(ok, im') := vdk_open im in
  (ok = true <->
   b 0 = 100 /\ b 1 = 107 /\ 12 <= hlen
   /\ (b 9 = 1 \/ b 9 = 2) /\ 1 <= b 8 <= 254)
  /\ (ok = true ->
      nr_cyls im' = b 8 /\ nr_sides im' = b 9
      /\ nr_sectors (img im') = 18 /\ sec_sz im' = 256
      /\ base_off (img im') = hlen).
Proof.
  intros Hsize b hlen. unfold vdk_open.
  pose proof (fun k Hk => HfeProofs.F_read_byte 12 (uninit 12) (fp im) k
                            Hsize Hk) as Hbyte.
  destruct (F_read 12 (uninit 12) (fp im)) as [hdr f]. cbn [fst] in Hbyte.
  pose proof (Hbyte 0%nat ltac:(lia)) as B0.
  pose proof (Hbyte 1%nat ltac:(lia)) as B1.
  pose proof (Hbyte 2%nat ltac:(lia)) as B2.
  pose proof (Hbyte 3%nat ltac:(lia)) as B3.
  pose proof (Hbyte 8%nat ltac:(lia)) as B8.
  pose proof (Hbyte 9%nat ltac:(lia)) as B9.
  clear Hbyte.
  change (u8 (f_data (fp im) (f_tell (fp im) + Z.of_nat 0))) with (b 0) in B0.
  change (u8 (f_data (fp im) (f_tell (fp im) + Z.of_nat 1))) with (b 1) in B1.
  change (u8 (f_data (fp im) (f_tell (fp im) + Z.of_nat 2))) with (b 2) in B2.
  change (u8 (f_data (fp im) (f_tell (fp im) + Z.of_nat 3))) with (b 3) in B3.
  change (u8 (f_data (fp im) (f_tell (fp im) + Z.of_nat 8))) with (b 8) in B8.
  change (u8 (f_data (fp im) (f_tell (fp im) + Z.of_nat 9))) with (b 9) in B9.
  assert (forall k, 0 <= b k < 256) as Hb by (intros k; apply u8_range).
  assert (le16 (drop 2 hdr) = hlen) as ->
    by (unfold le16; rewrite !lookup_total_drop; simpl; by rewrite B2, B3).
  assert (strn_eq 2 hdr [100; 107] = (b 0 =? 100) && (b 1 =? 107)) as ->.
  { unfold strn_eq. cbn [tail]. rewrite lookup_total_tail, B0, B1.
    change ([100; 107] !!! 0%nat) with 100. change ([107] !!! 0%nat) with 107.
    destruct (Z.eqb_spec (b 0) 100) as [->|]; [|done]. simpl.
    by destruct (Z.eqb_spec (b 1) 107) as [->|]. }
  rewrite B8, B9, !u8_small by done.
  clearbody b hlen. clear B0 B1 B2 B3 B8 B9.
  destruct (Z.eqb_spec (b 0) 100), (Z.eqb_spec (b 1) 107),
    (Z.ltb_spec hlen 12); cbn [negb andb orb];
    try (split; [split; [discriminate | lia] | discriminate]).
  assert (forall v i, nr_sides (set_nr_sides v i) = v) as ->
    by (intros v i; by destruct i).
  destruct (Z.eqb_spec (b 9) 1), (Z.eqb_spec (b 9) 2); cbn [negb andb];
    try (split; [split; [discriminate | lia] | discriminate]); try lia.
  all: match goal with
       | |- context [mfm_open ?x] =>
           pose proof (mfm_open_accepts x) as Hacc;
           pose proof (mfm_open_keeps x) as Hk;
           destruct (mfm_open x) as [ok im']
       end;
    cbn [fst snd] in Hacc, Hk;
    destruct (open_frame_geometry _ _ Hk) as (Ec & Es & En & Eno & Eoff & _);
    unfold sec_sz; rewrite Ec, Es, En, Eno, Eoff; rewrite Hacc;
    destruct im as [? ? ? ? ? ? ? ? ? ? ? ? ? ? []]; simpl;
    unfold MAX_SECS; split; [|intros _; repeat split; lia]; lia.
Qed.

(** The Acorn DFS tracks: 10 sectors of 256 bytes with GAP3 21 need 49856
    bitcells; the 300 rpm track of 50000 is rounded up to 50016. *)
Lemma fm_open_dfs (im : image) :
  gap_2 (img im) = 0 -> gap_4a (img im) = 0 -> rpm (img im) = 0 ->
  gap_3 (img im) = 21 -> sec_no (img im) = 1 ->
  nr_sectors (img im) = 10 ->
  1 <= nr_sides im <= 2 -> 1 <= nr_cyls im <= 254 ->
  exists im', fm_open im = Some (true, im')
              /\ open_frame im' = open_frame im
              /\ sync im' = SYNC_fm
              /\ tracklen_bc im' = 50016 /\ gap_4 (img im') = 10.
Proof.
  intros Hg2 Hg4a Hrpm Hg3 Hno Hn Hs Hc.
  assert (min_tracklen (fm_sizes (fm_defaults im)) = 49856) as Et
    by (destruct im as [? ? ? ? ? ? ? ? ? ? ? ? ? ? []]; simpl in *; by subst).
  assert (tracklen_bc (fm_rate (fm_sizes (fm_defaults im))) = 50000) as Ebc
    by (destruct im as [? ? ? ? ? ? ? ? ? ? ? ? ? ? []]; simpl in *; by subst).
  assert (1 <= nr_sectors (img im) <= MAX_SECS) as Hn'
    by (rewrite Hn; unfold MAX_SECS; lia).
  pose proof (fm_open_blocks im Hs Hc Hn') as Hb. cbv zeta in Hb.
  destruct (track_finish_fields 49856
              (fm_rate (fm_sizes (fm_defaults im))) SYNC_fm)
    as (Fbc & Fg4 & _).
  cbv zeta in Fbc, Fg4. rewrite Ebc in Fbc, Fg4.
  rewrite Et, Ebc in Hb.
  change (negb (49856 <? 50000)) with false in Hb. cbv iota in Hb.
  exists (set_sync SYNC_fm
            (track_finish 49856 (fm_rate (fm_sizes (fm_defaults im))))).
  split; [exact Hb|].
  split; [exact (fm_open_keeps im true _ Hb)|].
  split; [reflexivity|].
  split; [exact Fbc | exact Fg4].
Qed.

(** X10: on a handle whose gaps and speed are unset, [ssd_open] and
    [dsd_open] accept every image, whatever its size, as 80 cylinders of
    10 single-density sectors of 256 bytes on one or two sides; the
    encoded track takes 49856 of the 50016 bitcells and leaves a GAP4 of
    10 bytes. *)
Theorem dfs_open_accepts (im : image) :
  gap_2 (img im) = 0 -> gap_4a (img im) = 0 -> rpm (img im) = 0 ->
  exists im1 im2,
    ssd_open im = Some (true, im1) /\ dsd_open im = Some (true, im2)
    /\ nr_sides im1 = 1 /\ nr_sides im2 = 2
    /\ Forall (fun im' =>
                 nr_cyls im' = 80 /\ nr_sectors (img im') = 10
                 /\ sec_sz im' = 256 /\ sync im' = SYNC_fm
                 /\ tracklen_bc im' = 50016 /\ gap_4 (img im') = 10)
              [im1; im2].
Proof.
  intros Hg2 Hg4a Hrpm.
  assert (forall s, 1 <= s <= 2 ->
            exists im',
              dfs_open (set_nr_sides s im) = Some (true, im')
              /\ nr_sides im' = s
              /\ nr_cyls im' = 80 /\ nr_sectors (img im') = 10
              /\ sec_sz im' = 256 /\ sync im' = SYNC_fm
              /\ tracklen_bc im' = 50016 /\ gap_4 (img im') = 10) as Hdfs.
  { intros s Hs. unfold dfs_open. cbv zeta.
    match goal with |- context [fm_open ?x] => set (x0 := x) end.
    assert (gap_2 (img x0) = 0 /\ gap_4a (img x0) = 0 /\ rpm (img x0) = 0
            /\ gap_3 (img x0) = 21 /\ sec_no (img x0) = 1
            /\ nr_sectors (img x0) = 10 /\ nr_sides x0 = s
            /\ nr_cyls x0 = 80)
      as (G2 & G4a & Grpm & G3 & Gno & Gn & Gs & Gc)
      by (subst x0; destruct im as [? ? ? ? ? ? ? ? ? ? ? ? ? ? []];
          simpl in *; by subst).
    clearbody x0.
    destruct (fm_open_dfs x0) as (im' & -> & Hk & Hsync & Hbc & Hg4);
      try done; try lia.
    destruct (open_frame_geometry _ _ Hk) as (Ec & Es & En & Eno & _).
    exists im'. split; [reflexivity|].
    unfold sec_sz. rewrite Ec, Es, En, Eno, Gc, Gs, Gn, Gno, Hbc, Hg4.
    done. }
  destruct (Hdfs 1 ltac:(lia)) as (im1 & E1 & S1 & F1).
  destruct (Hdfs 2 ltac:(lia)) as (im2 & E2 & S2 & F2).
  exists im1, im2.
  split; [exact E1|]. split; [exact E2|].
  split; [exact S1|]. split; [exact S2|].
  repeat constructor; tauto.
Qed.

End Fixed.

Lemma trd_open_geometry_witness :
  let im := Sample.fresh_img Sample.trd_40x2 in
  0x8e3 < f_size (fp im)
  /\ exists im',
    @trd_open Sample.stm32_clock Sample.zero_stack im = (true, im')
    /\ (nr_cyls im', nr_sides im') = (40, 2).
Proof.
  cbv zeta.
  assert (0x8e3 < f_size (fp (Sample.fresh_img Sample.trd_40x2))) as Hsize
    by reflexivity.
  split; [exact Hsize|].
  destruct (@trd_open_geometry Sample.stm32_clock Sample.zero_stack
              (Sample.fresh_img Sample.trd_40x2) Hsize)
    as (im' & Hopen & _ & _ & _ & Hgeo).
  exists im'. split; [exact Hopen | exact Hgeo].
Defined.

Lemma vdk_open_header_witness :
  let im := Sample.fresh_img Sample.vdk_40x1 in
  12 <= f_size (fp im) - f_tell (fp im)
  /\ exists im',
    @vdk_open Sample.stm32_clock Sample.zero_stack im = (true, im')
    /\ nr_cyls im' = 40 /\ nr_sides im' = 1 /\ base_off (img im') = 12.
Proof.
  cbv zeta.
  assert (12 <= f_size (fp (Sample.fresh_img Sample.vdk_40x1))
                - f_tell (fp (Sample.fresh_img Sample.vdk_40x1))) as Hsize
    by (vm_compute; discriminate).
  split; [exact Hsize|].
  pose proof (@vdk_open_header Sample.stm32_clock Sample.zero_stack
                (Sample.fresh_img Sample.vdk_40x1) Hsize) as Hhdr.
  cbv zeta in Hhdr.
  destruct (vdk_open (Sample.fresh_img Sample.vdk_40x1)) as [ok im'].
  destruct Hhdr as [Hiff Hgeo].
  assert (ok = true) as ->.
  { apply Hiff. vm_compute.
    repeat split; try discriminate. by left. }
  exists im'. split; [reflexivity|].
  destruct (Hgeo eq_refl) as (Hc & Hs & _ & _ & Hoff).
  repeat split; [exact Hc | exact Hs | exact Hoff].
Defined.

Lemma dfs_open_accepts_witness :
  exists im1,
    @ssd_open Sample.stm32_clock (Sample.fresh_img Sample.ssd_200k)
    = Some (true, im1)
    /\ nr_sides im1 = 1.
Proof.
  destruct (@dfs_open_accepts Sample.stm32_clock
              (Sample.fresh_img Sample.ssd_200k) eq_refl eq_refl eq_refl)
    as (im1 & im2 & E1 & _ & S1 & _).
  exists im1. split; [exact E1 | exact S1].
Defined.
End ImgOpeners.

(** * The track engine of img.c *)

Module ImgEngine.
Import Img.
Import ImgProofs.

(** ** Where a track lives in the file *)

Lemma lxor_low_bit (c s : Z) :
  0 <= c -> 0 <= s <= 1 -> Z.lxor (c * 2 + s) 1 = c * 2 + (1 - s).
Proof.
  intros Hc Hs.
  assert (Z.lxor (c * 2) 1 = c * 2 + 1) as E0.
  { rewrite <- Z.add_nocarry_lxor; [done|].
    apply Z.bits_inj'. intros k Hk. rewrite Z.land_spec, Z.bits_0.
    destruct (Z.eq_dec k 0) as [->|].
    - rewrite Z.mul_comm, Z.testbit_even_0. done.
    - replace (Z.testbit 1 k) with false; [by rewrite andb_false_r|].
      symmetry. apply (Z.bits_above_log2 1 k); simpl; lia. }
  assert (s = 0 \/ s = 1) as [-> | ->] by lia.
  - by rewrite Z.add_0_r, Z.sub_0_r.
  - rewrite <- E0, Z.lxor_assoc, Z.lxor_nilpotent, Z.lxor_0_r. lia.
Qed.

(** The file offset [img_seek_track] settles on is the base offset plus a
    whole number of track lengths; which number depends on the layout. *)
Lemma img_seek_track_off (track cyl side : Z) (im im' : image) :
  1 <= nr_sides im <= 2 -> nr_cyls im < 256 ->
  0 <= cyl < nr_cyls im -> 0 <= side < nr_sides im ->
  0 <= nr_sectors (img im) -> 0 <= base_off (img im) ->
  base_off (img im)
  + nr_cyls im * nr_sides im * (nr_sectors (img im) * sec_sz im) < 2 ^ 32 ->
  img_seek_track track cyl side im = Some im' ->
  let k :=
    if layout (img im) =? LAYOUT_sequential_reverse_side1 then
      if side =? 0 then cyl else 2 * nr_cyls im - cyl - 1
    else if layout (img im) =? LAYOUT_interleaved_swap_sides then
      cyl * nr_sides im + (nr_sides im - 1 - side)
    else cyl * nr_sides im + side in
  trk_off (img im')
  = base_off (img im) + k * (nr_sectors (img im) * sec_sz im).
Proof.
  intros Hs Hcyls Hc Hside Hn Hbase Hfit.
  assert (0 <= sec_sz im < 2 ^ 32) as Hsz
    by (unfold sec_sz, u32; apply Z.mod_pos_bound; lia).
  set (len := nr_sectors (img im) * sec_sz im) in *.
  assert (0 <= len) as Hlen by (subst len; nia).
  assert (forall k, 0 <= k < nr_cyls im * nr_sides im ->
                    0 <= k * len /\ base_off (img im) + k * len + len
                                    <= base_off (img im)
                                       + nr_cyls im * nr_sides im * len)
    as Hk by (intros; nia).
  assert (len < 2 ^ 32) as Hlen32.
  { destruct (Hk 0) as [_ ?]; [nia|]. lia. }
  cbv delta [img_seek_track]. cbv beta zeta.
  destruct (fill_sec_map _ _ _ _ _ _ _) as [sm|]; [|discriminate].
  cbn [mbind option_bind]. intros [= <-].
  assert (sec_sz (on_img (set_sec_map sm)
                    (on_img (set_sec_map
                               (memset (sec_map (img (set_cur_track track im)))
                                  255
                                  (nr_sectors (img (set_cur_track track im)))))
                       (set_cur_track track im))) = sec_sz im) as Esz
    by (by destruct im as [? ? ? ? ? ? ? ? ? ? ? ? ? ? []]).
  destruct im as [f cyls sides ct cb cti tsf tbc tpc wbt spr sy rd rb
                    [to bo ts rsp dp ddp cr lay iam g2 g3 g4a pcs ws sb smap
                       n sno il sk sco dr g4 ix ids dpre dpost rp]].
  unfold sec_sz in Esz |- *. sim_img. sim_img_in Esz.
  cbn [trk_off base_off layout nr_sectors sec_no img nr_sides nr_cyls] in *.
  subst len. sim_img_in Hk. sim_img_in Hlen32. sim_img_in Hfit.
  cbn [nr_sectors sec_no img nr_sides nr_cyls base_off] in *.
  unfold sec_sz in Hk, Hlen32, Hfit, Hsz.
  cbn [nr_sectors sec_no img nr_sides nr_cyls base_off] in *.
  unfold sec_sz. cbn [sec_no img].
  set (L := n * u32 (Z.shiftl 128 sno)) in *.
  rewrite (u32_small L) by lia.
  unfold LAYOUT_sequential_reverse_side1, LAYOUT_interleaved_swap_sides.
  destruct (lay =? 2).
  - destruct (Z.eqb_spec side 0) as [Hz | Hnz]; cbn [negb].
    + destruct (Hk cyl) as [? ?]; [nia|].
      rewrite (u32_small (cyl * L)) by lia. rewrite u32_small by lia. lia.
    + rewrite (u32_small (2 * cyls - cyl - 1)) by lia.
      destruct (Hk (2 * cyls - cyl - 1)) as [? ?]; [nia|].
      rewrite (u32_small (_ * L)) by lia. rewrite u32_small by lia. lia.
  - rewrite (u32_small (cyl * sides + side)) by nia.
    destruct (lay =? 1).
    + assert (Z.lxor (cyl * sides + side) (u32 (sides - 1))
              = cyl * sides + (sides - 1 - side)) as ->.
      { assert (sides = 1 \/ sides = 2) as [-> | ->] by lia.
        - change (u32 (1 - 1)) with 0. rewrite Z.lxor_0_r. lia.
        - change (u32 (2 - 1)) with 1. rewrite lxor_low_bit by lia. lia. }
      destruct (Hk (cyl * sides + (sides - 1 - side))) as [? ?]; [nia|].
      rewrite (u32_small (_ * L)) by lia. rewrite u32_small by lia. lia.
    + destruct (Hk (cyl * sides + side)) as [? ?]; [nia|].
      rewrite (u32_small (_ * L)) by lia. rewrite u32_small by lia. lia.
Qed.

(** X11: in a geometry whose data area ends below 4 GiB, the byte ranges
    [img_seek_track] assigns to the tracks lie inside the data area, which
    starts at [base_off] and holds cylinders x sides tracks, and the
    ranges of two different (cylinder, side) pairs never overlap.  This
    holds for each of the three layouts. *)
Theorem track_extents_disjoint (im im1 im2 : image)
    (t1 c1 s1 t2 c2 s2 : Z) :
  1 <= nr_sides im <= 2 -> nr_cyls im < 256 ->
  0 <= c1 < nr_cyls im -> 0 <= s1 < nr_sides im ->
  0 <= c2 < nr_cyls im -> 0 <= s2 < nr_sides im ->
  0 <= nr_sectors (img im) -> 0 <= base_off (img im) ->
  let len := nr_sectors (img im) * sec_sz im in
  let area := nr_cyls im * nr_sides im * len in
  base_off (img im) + area < 2 ^ 32 ->
  img_seek_track t1 c1 s1 im = Some im1 ->
  img_seek_track t2 c2 s2 im = Some im2 ->
  (base_off (img im) <= trk_off (img im1)
   /\ trk_off (img im1) + len <= base_off (img im) + area)
  /\ ((c1, s1) <> (c2, s2) ->
      trk_off (img im1) + len <= trk_off (img im2)
      \/ trk_off (img im2) + len <= trk_off (img im1)).
Proof.
  intros Hs Hcyls Hc1 Hs1 Hc2 Hs2 Hn Hbase len area Hfit H1 H2.
  pose proof (img_seek_track_off t1 c1 s1 im im1 Hs Hcyls Hc1 Hs1 Hn Hbase Hfit H1)
    as E1.
  pose proof (img_seek_track_off t2 c2 s2 im im2 Hs Hcyls Hc2 Hs2 Hn Hbase Hfit H2)
    as E2.
  cbv zeta in E1, E2. fold len in E1, E2.
  assert (0 <= sec_sz im < 2 ^ 32) as Hsz
    by (unfold sec_sz, u32; apply Z.mod_pos_bound; lia).
  assert (0 <= len) as Hlen by (subst len; nia).
  revert E1 E2.
  set (k1 := if layout (img im) =? _ then _ else _).
  intros E1.
  set (k2 := if layout (img im) =? _ then _ else _).
  intros E2.
  assert (0 <= k1 < nr_cyls im * nr_sides im) as Hk1
    by (subst k1; repeat case_match; nia).
  assert (0 <= k2 < nr_cyls im * nr_sides im) as Hk2
    by (subst k2; repeat case_match; nia).
  assert ((c1, s1) <> (c2, s2) -> k1 <> k2) as Hinj.
  { intros Hne Hk. apply Hne. subst k1 k2.
    assert (nr_sides im = 1 \/ nr_sides im = 2) as [Es | Es] by lia;
      rewrite Es in *;
      repeat case_match; f_equal; lia. }
  rewrite E1, E2. subst area. split; [nia|].
  intros Hne. specialize (Hinj Hne).
  destruct (Z_lt_ge_dec k1 k2); [left | right]; nia.
Qed.

Lemma track_extents_disjoint_witness :
  exists im1 im2,
    img_seek_track 0 0 0 Sample.opened_1440k = Some im1
    /\ img_seek_track 1 0 1 Sample.opened_1440k = Some im2
    /\ (trk_off (img im1) + 18 * 512 <= trk_off (img im2)
        \/ trk_off (img im2) + 18 * 512 <= trk_off (img im1)).
Proof.
  destruct (img_seek_track 0 0 0 Sample.opened_1440k) as [im1|] eqn:E1;
    [|exfalso; vm_compute in E1; discriminate].
  destruct (img_seek_track 1 0 1 Sample.opened_1440k) as [im2|] eqn:E2;
    [|exfalso; vm_compute in E2; discriminate].
  exists im1, im2. split; [reflexivity|]. split; [reflexivity|].
  refine (proj2 (track_extents_disjoint Sample.opened_1440k im1 im2
                   0 0 0 1 0 1 _ _ _ _ _ _ _ _ _ E1 E2) _);
    vm_compute; intuition discriminate.
Defined.

(** ** Where a bitcell position falls: calc_start_pos *)

Lemma s32_small x : - 2 ^ 31 <= x < 2 ^ 31 -> s32 x = x.
Proof. intros. unfold s32. rewrite Z.mod_small by lia. lia. Qed.

(** Drop the wrap-around of every store whose operand is in range, signed
    stores included. *)
Ltac no_wrap_s :=
  repeat match goal with
         | |- context [u32 ?x] => rewrite (u32_small x) by lia
         | |- context [u16 ?x] => rewrite (u16_small x) by lia
         | |- context [s32 ?x] => rewrite (s32_small x) by lia
         end.

(** X12: [calc_start_pos] locates a bitcell position in the track layout.
    With the region sizes in range and [cur_bc] inside the track, the
    16-bitcell word index [cur_bc / 16] is the start of the region that
    [decode_pos] names plus the returned offset, and the offset is inside
    that region: the post-index gap (0), the IDAM, DAM, data or post-data
    region of sector slot [s] (4s+1 .. 4s+4), or the pre-index gap
    (4n+1); data and pre-index gap are counted in chunks of 1024 bytes by
    [decode_data_pos].  [trk_sec] is the slot whose data is fetched next:
    [s], or the following slot once the data region is passed. *)
Theorem calc_start_pos_locates (im : image) :
  let g := img im in
  let n := nr_sectors g in
  let ess := idam_sz g + dam_sz_pre g + sec_sz im + dam_sz_post g in
  let w := cur_bc im / 16 in
  1 <= n <= MAX_SECS -> 0 <= sec_no g <= 7 ->
  0 <= idx_sz g < 65536 -> 0 <= idam_sz g < 65536 ->
  0 <= dam_sz_pre g < 65536 -> 0 <= dam_sz_post g < 65536 ->
  0 <= gap_4 g < 65536 ->
  0 <= cur_bc im -> w < idx_sz g + n * ess + gap_4 g ->
  let '(off, im') := calc_start_pos im in
  let g' := img im' in
  0 <= off /\ crc g' = 0xffff
  /\ ((decode_pos g' = 0 /\ w = off /\ off < idx_sz g /\ trk_sec g' = 0)
      \/ (exists s,
            0 <= s < n
            /\ let b := idx_sz g + s * ess in
               (decode_pos g' = 4 * s + 1 /\ w = b + off
                /\ off < idam_sz g /\ trk_sec g' = s /\ rd_sec_pos g' = 0)
               \/ (decode_pos g' = 4 * s + 2 /\ w = b + idam_sz g + off
                   /\ off < dam_sz_pre g /\ trk_sec g' = s
                   /\ rd_sec_pos g' = 0)
               \/ (decode_pos g' = 4 * s + 3
                   /\ w = b + idam_sz g + dam_sz_pre g
                          + 1024 * decode_data_pos g' + off
                   /\ off < 1024
                   /\ 1024 * decode_data_pos g' + off < sec_sz im
                   /\ trk_sec g' = s
                   /\ rd_sec_pos g' = decode_data_pos g')
               \/ (decode_pos g' = 4 * s + 4
                   /\ w = b + idam_sz g + dam_sz_pre g + sec_sz im + off
                   /\ off < dam_sz_post g
                   /\ trk_sec g' = (s + 1) mod n /\ rd_sec_pos g' = 0))
      \/ (decode_pos g' = 4 * n + 1
          /\ w = idx_sz g + n * ess + 1024 * decode_data_pos g' + off
          /\ off < 1024 /\ trk_sec g' = 0)).
Proof.
  intros g n ess w Hn Hno Hidx Hidam Hpre Hpost Hg4 Hbc Hw.
  assert (128 <= sec_sz im <= 16384) as Hsz.
  { unfold sec_sz. fold g. rewrite Z.shiftl_mul_pow2 by lia.
    assert (2 ^ 0 <= 2 ^ sec_no g <= 2 ^ 7)
      by (split; apply Z.pow_le_mono_r; lia).
    rewrite u32_small by lia. lia. }
  assert (0 <= w) as Hw0 by (subst w; apply Z.div_pos; lia).
  subst g n ess w. unfold MAX_SECS in *.
  destruct im as [f cyls sides ct cb cti tsf tbc tpc wbt spr sy rd rb
                    [to bo ts rsp dp ddp cr lay iam g2 g3 g4a pcs ws sb smap
                       n sno il sk sco dr g4 ix ids dpre dpost rp]].
  cbn [img nr_sectors sec_no idx_sz idam_sz dam_sz_pre dam_sz_post gap_4
         cur_bc] in *.
  unfold sec_sz in *. cbn [img sec_no] in *.
  set (S := u32 (Z.shiftl 128 sno)) in *.
  set (W := cb / 16) in *.
  cbv delta [calc_start_pos]. run_img. fold S. fold W.
  set (E := ids + dpre + S + dpost) in *.
  destruct (Z.ltb_spec W ix) as [Hlt | Hge].
  { cbn [img decode_pos trk_sec crc]. split; [lia|]. split; [done|].
    left. repeat split; lia. }
  assert (0 < E) as HE by lia.
  rewrite (u32_small E) by lia.
  rewrite (u32_small (W - ix)) by nia.
  set (D := W - ix) in *.
  pose proof (Z.div_mod D E ltac:(lia)) as HD.
  pose proof (Z.mod_pos_bound D E HE) as HR.
  assert (0 <= D / E) as HQ0 by (apply Z.div_pos; lia).
  assert (D / E < 2 ^ 26) as HQ1.
  { apply Z.div_lt_upper_bound; [lia|]. nia. }
  set (Q := D / E) in *.
  rewrite (s32_small Q) by lia.
  destruct (Z.ltb_spec Q n) as [Hsec | Hgap].
  - rewrite (u16_small Q) by lia.
    rewrite (s32_small (Q * 4 + 1)) by lia.
    assert (D - Q * E = D mod E) as Hr by lia.
    rewrite Hr. set (R := D mod E) in *.
    rewrite (u32_small R) by lia.
    destruct (Z.leb_spec ids R) as [Hdam | Hidam'].
    + rewrite (u32_small (R - ids)) by lia.
      rewrite (s32_small (Q * 4 + 1 + 1)) by lia.
      destruct (Z.leb_spec dpre (R - ids)) as [Hdata | Hdam'].
      * rewrite (u32_small (R - ids - dpre)) by lia.
        rewrite (s32_small (Q * 4 + 1 + 1 + 1)) by lia.
        destruct (Z.ltb_spec (R - ids - dpre) S) as [Hin | Hpostd].
        -- pose proof (Z.div_mod (R - ids - dpre) 1024 ltac:(lia)) as HC.
           pose proof (Z.mod_pos_bound (R - ids - dpre) 1024 ltac:(lia)).
           assert (0 <= (R - ids - dpre) / 1024 < 16)
             by (split; [apply Z.div_pos; lia
                        | apply Z.div_lt_upper_bound; lia]).
           rewrite (u16_small (_ / 1024)) by lia.
           cbn [img decode_pos trk_sec crc rd_sec_pos decode_data_pos].
           split; [lia|]. split; [done|].
           right. left. exists Q. split; [lia|]. cbv zeta.
           right. right. left. repeat split; lia.
        -- rewrite (u32_small (R - ids - dpre - S)) by lia.
           rewrite (s32_small (Q * 4 + 1 + 1 + 1 + 1)) by lia.
           pose proof (Z.mod_pos_bound (Q + 1) n ltac:(lia)).
           rewrite (u16_small ((Q + 1) mod n)) by lia.
           cbn [img decode_pos trk_sec crc rd_sec_pos decode_data_pos].
           split; [lia|]. split; [done|].
           right. left. exists Q. split; [lia|]. cbv zeta.
           right. right. right. repeat split; lia.
      * cbn [img decode_pos trk_sec crc rd_sec_pos decode_data_pos].
        split; [lia|]. split; [done|].
        right. left. exists Q. split; [lia|]. cbv zeta.
        right. left. repeat split; lia.
    + cbn [img decode_pos trk_sec crc rd_sec_pos decode_data_pos].
      split; [lia|]. split; [done|].
      right. left. exists Q. split; [lia|]. cbv zeta.
      left. repeat split; lia.
  - assert (n * E <= D) as HnE by nia.
    rewrite (u32_small (D - n * E)) by lia.
    rewrite (s32_small (n * 4 + 1)) by lia.
    pose proof (Z.div_mod (D - n * E) 1024 ltac:(lia)) as HC.
    pose proof (Z.mod_pos_bound (D - n * E) 1024 ltac:(lia)).
    assert (0 <= (D - n * E) / 1024 < 64)
      by (split; [apply Z.div_pos; lia | apply Z.div_lt_upper_bound; lia]).
    rewrite (u16_small (_ / 1024)) by lia.
    cbn [img decode_pos trk_sec crc rd_sec_pos decode_data_pos].
    split; [lia|]. split; [done|].
    right. right. repeat split; lia.
Qed.

Lemma calc_start_pos_locates_witness :
  let im := set_cur_bc 3200 Sample.opened_1440k in
  0 <= fst (calc_start_pos im) /\ crc (img (snd (calc_start_pos im))) = 0xffff.
Proof.
  cbv zeta.
  set (im := set_cur_bc 3200 Sample.opened_1440k).
  assert (1 <= nr_sectors (img im) <= MAX_SECS) as B1
    by (vm_compute; intuition discriminate).
  assert (0 <= sec_no (img im) <= 7) as B2
    by (vm_compute; intuition discriminate).
  assert (0 <= idx_sz (img im) < 65536) as B3
    by (vm_compute; intuition discriminate).
  assert (0 <= idam_sz (img im) < 65536) as B4
    by (vm_compute; intuition discriminate).
  assert (0 <= dam_sz_pre (img im) < 65536) as B5
    by (vm_compute; intuition discriminate).
  assert (0 <= dam_sz_post (img im) < 65536) as B6
    by (vm_compute; intuition discriminate).
  assert (0 <= gap_4 (img im) < 65536) as B7
    by (vm_compute; intuition discriminate).
  assert (0 <= cur_bc im) as B8 by (vm_compute; discriminate).
  assert (cur_bc im / 16
          < idx_sz (img im)
            + nr_sectors (img im)
              * (idam_sz (img im) + dam_sz_pre (img im) + sec_sz im
                 + dam_sz_post (img im))
            + gap_4 (img im)) as B9 by (vm_compute; reflexivity).
  pose proof (calc_start_pos_locates im B1 B2 B3 B4 B5 B6 B7 B8 B9) as Hloc.
  destruct (calc_start_pos im) as [off im'].
  destruct Hloc as (Hoff & Hcrc & _). split; [exact Hoff | exact Hcrc].
Defined.
(** ** Fetching sector data: img_fetch_data *)

(** X13: with the data ring empty, [img_fetch_data] reads one chunk of at
    most 1024 bytes of the sector in rotational slot [trk_sec], starting
    at chunk [rd_sec_pos]; the in-track offset is kept in 16 bits.  When
    the sectors of a track take no more than 65536 bytes the chunk is read
    from inside the byte range of the current track, at sector index times
    sector size plus the chunk offset; the data buffer then holds those
    bytes of the file, the producer index moves on by one, and the fetch
    position advances to the next chunk or to the next slot, wrapping to
    slot 0 after the last. *)
Theorem img_fetch_data_reads (im : image) :
  let g := img im in
  let n := nr_sectors g in
  let sec := u8 (sec_map g !!! Z.to_nat (trk_sec g) - sec_base_of im) in
  let chunk := Z.min 1024 (sec_sz im - rd_sec_pos g * 1024) in
  let pos := trk_off g + u16 (sec * sec_sz im + rd_sec_pos g * 1024) in
  bprod (read_data im) = bcons (read_data im) ->
  1 <= n <= MAX_SECS -> 0 <= sec_no g <= 7 ->
  0 <= trk_off g -> trk_off g + 65536 < 2 ^ 32 ->
  sec < n -> 0 <= trk_sec g < n ->
  0 <= rd_sec_pos g -> rd_sec_pos g * 1024 < sec_sz im ->
  pos + chunk <= f_size (fp im) ->
  let im' := img_fetch_data im in
  (n * sec_sz im <= 65536 ->
   pos = trk_off g + sec * sec_sz im + rd_sec_pos g * 1024
   /\ pos + chunk <= trk_off g + n * sec_sz im)
  /\ (forall i : nat,
        Z.of_nat i < chunk ->
        bp (read_data im') !!! i = u8 (f_data (fp im) (pos + Z.of_nat i)))
  /\ bprod (read_data im') = u32 (bprod (read_data im) + 1)
  /\ bcons (read_data im') = bcons (read_data im)
  /\ (trk_sec (img im'), rd_sec_pos (img im'))
     = if 1024 <? sec_sz im - rd_sec_pos g * 1024
       then (trk_sec g, rd_sec_pos g + 1)
       else (if trk_sec g + 1 <? n then trk_sec g + 1 else 0, 0).
Proof.
  intros g n sec chunk pos Hempty Hn Hno Hoff Hoff32 Hsec Hts Hrsp0 Hrsp Hfile.
  assert (128 <= sec_sz im <= 16384) as Hsz.
  { unfold sec_sz. fold g. rewrite Z.shiftl_mul_pow2 by lia.
    assert (2 ^ 0 <= 2 ^ sec_no g <= 2 ^ 7)
      by (split; apply Z.pow_le_mono_r; lia).
    rewrite u32_small by lia. lia. }
  assert (0 <= sec) as Hsec0 by (subst sec; apply u8_range).
  pose proof (Z.mod_pos_bound (sec * sec_sz im + rd_sec_pos g * 1024)
                (2 ^ 16) ltac:(lia)) as Hu16.
  fold (u16 (sec * sec_sz im + rd_sec_pos g * 1024)) in Hu16.
  set (len := sec_sz im - rd_sec_pos g * 1024) in *.
  assert (0 < chunk <= 1024 /\ chunk <= len) as Hchunk by (subst chunk; lia).
  cbv zeta. split.
  { intros Hfit. subst pos.
    rewrite u16_small by (unfold MAX_SECS in *; nia).
    split; [lia|]. subst chunk len. nia. }
  unfold MAX_SECS in *.
  revert Hfile. subst pos chunk sec len g n.
  destruct im as [f cyls sides ct cb cti tsf tbc tpc wbt spr sy
                    [rp rl rpr rc] rb
                    [to bo ts rsp dp ddp cr lay iam g2 g3 g4a pcs ws sb smap
                       n sno il sk sco dr g4 ix ids dpre dpost rp']].
  cbn [img nr_sectors sec_no trk_off trk_sec rd_sec_pos sec_map read_data
         bprod bcons fp] in *.
  subst rc.
  set (im0 := mk_image _ _ _ _ _ _ _ _ _ _ _ _ _ _ _) in *.
  set (S := sec_sz im0) in *.
  set (sec := u8 (smap !!! Z.to_nat ts - sec_base_of im0)) in *.
  intros Hfile.
  cbv delta [img_fetch_data]. cbv beta zeta.
  change (read_data im0) with (mk_image_buf rp rl rpr rpr).
  cbn [bprod bcons bp]. rewrite Z.eqb_refl. cbn [negb].
  change (img im0) with
    (mk_image_img to bo ts rsp dp ddp cr lay iam g2 g3 g4a pcs ws sb smap
       n sno il sk sco dr g4 ix ids dpre dpost rp').
  cbn [sec_map trk_sec rd_sec_pos trk_off nr_sectors].
  fold sec. fold S.
  rewrite (u16_small (S - rsp * 1024)) by lia.
  set (off := u16 (sec * S + rsp * 1024)) in *.
  rewrite (u32_small (to + off)) by lia.
  destruct (Z.ltb_spec 1024 (S - rsp * 1024)) as [Hmore | Hlast].
  - rewrite Z.min_l in * by lia.
    destruct (F_read 1024 rp (F_lseek (to + off) (fp _))) as [buf f'] eqn:Hrd.
    split.
    { intros i Hi. cbn [read_data bp on_read_data set_read_data set_bp
                          set_bprod set_fp].
      replace buf with (F_read 1024 rp (F_lseek (to + off) f)).1
        by (subst im0; cbn [fp on_img set_img] in Hrd; by rewrite Hrd).
      rewrite HfeProofs.F_read_byte; cbn [f_tell f_size f_data F_lseek];
        [done | subst im0; cbn [fp] in Hfile; lia | lia]. }
    cbn. rewrite (u16_small (rsp + 1)) by lia. done.
  - rewrite Z.min_r in * by lia.
    rewrite (u16_small (ts + 1)) by lia.
    match goal with
    | |- context [F_read ?k rp ?ff] =>
        destruct (F_read k rp ff) as [buf f'] eqn:Hrd
    end.
    split.
    { intros i Hi.
      assert (buf = (F_read (S - rsp * 1024) rp (F_lseek (to + off) f)).1)
        as ->.
      { subst im0. cbn [fp on_img set_img img set_rd_sec_pos set_trk_sec
                          nr_sectors trk_sec] in Hrd.
        destruct (n <=? ts + 1); cbn [fp on_img set_img] in Hrd;
          by rewrite Hrd. }
      destruct (n <=? _);
        cbn [read_data bp on_read_data set_read_data set_bp set_bprod set_fp];
        (rewrite HfeProofs.F_read_byte; cbn [f_tell f_size f_data F_lseek];
         [done | subst im0; cbn [fp] in Hfile; lia | lia]). }
    subst im0. cbn [img on_img set_img set_rd_sec_pos set_trk_sec nr_sectors
                      trk_sec].
    destruct (Z.leb_spec n (ts + 1)), (Z.ltb_spec (ts + 1) n); try lia;
      cbn; done.
Qed.

Lemma img_fetch_data_reads_witness :
  let im := Sample.seeked_1440k in
  bprod (read_data (img_fetch_data im)) = 1
  /\ (trk_sec (img (img_fetch_data im)), rd_sec_pos (img (img_fetch_data im)))
     = (1, 0).
Proof.
  cbv zeta. set (im := Sample.seeked_1440k).
  assert (bprod (read_data im) = bcons (read_data im)) as B1
    by (vm_compute; reflexivity).
  assert (1 <= nr_sectors (img im) <= MAX_SECS) as B2
    by (vm_compute; intuition discriminate).
  assert (0 <= sec_no (img im) <= 7) as B3
    by (vm_compute; intuition discriminate).
  assert (0 <= trk_off (img im)) as B4 by (vm_compute; discriminate).
  assert (trk_off (img im) + 65536 < 2 ^ 32) as B5
    by (vm_compute; reflexivity).
  assert (u8 (sec_map (img im) !!! Z.to_nat (trk_sec (img im))
              - sec_base_of im) < nr_sectors (img im)) as B6
    by (vm_compute; reflexivity).
  assert (0 <= trk_sec (img im) < nr_sectors (img im)) as B7
    by (vm_compute; intuition discriminate).
  assert (0 <= rd_sec_pos (img im)) as B8 by (vm_compute; discriminate).
  assert (rd_sec_pos (img im) * 1024 < sec_sz im) as B9
    by (vm_compute; reflexivity).
  assert (trk_off (img im)
          + u16 (u8 (sec_map (img im) !!! Z.to_nat (trk_sec (img im))
                     - sec_base_of im) * sec_sz im
                 + rd_sec_pos (img im) * 1024)
          + Z.min 1024 (sec_sz im - rd_sec_pos (img im) * 1024)
          <= f_size (fp im)) as B10 by (vm_compute; discriminate).
  destruct (img_fetch_data_reads im B1 B2 B3 B4 B5 B6 B7 B8 B9 B10)
    as (_ & _ & Hprod & _ & Hnext).
  split; [exact Hprod | exact Hnext].
Defined.
(** ** How many words the encoder emits *)

Section Emit.
Context `{Codec}.

(** The producer index, as the ring sees it. *)
Lemma u32_add_l (x y : Z) : u32 (u32 x + y) = u32 (x + y).
Proof. unfold u32. by rewrite Z.add_mod_idemp_l. Qed.

Lemma u32_mul_16 (x : Z) : u32 (u32 x * 16) = u32 (x * 16).
Proof. unfold u32. by rewrite Z.mul_mod_idemp_l. Qed.

Lemma u32_idemp (x : Z) : u32 (u32 x) = u32 x.
Proof. unfold u32. by rewrite Z.mod_mod. Qed.

Lemma bc_p_iter (step : emitter -> emitter) (k : nat) (e : emitter) :
  (forall e, bc_p (step e) = u32 (bc_p e + 1)) ->
  u32 (bc_p (Nat.iter k step e)) = u32 (bc_p e + Z.of_nat k).
Proof.
  intros Hstep. induction k as [|k IH].
  - simpl. by rewrite Z.add_0_r.
  - rewrite Nat.iter_succ, Hstep, u32_idemp, <- u32_add_l, IH, u32_add_l.
    f_equal. lia.
Qed.

Lemma bc_p_times (step : emitter -> emitter) (n : Z) (e : emitter) :
  (forall e, bc_p (step e) = u32 (bc_p e + 1)) -> 0 <= n ->
  u32 (bc_p (times n step e)) = u32 (u32 (bc_p e) + n).
Proof.
  intros Hstep Hn. unfold times. rewrite bc_p_iter by done.
  rewrite u32_add_l. f_equal. lia.
Qed.

Lemma bc_p_each (emit : Z -> emitter -> emitter) (bs : list Z)
    (e : emitter) :
  (forall b e, bc_p (emit b e) = u32 (bc_p e + 1)) ->
  u32 (bc_p (emit_each emit bs e))
  = u32 (u32 (bc_p e) + Z.of_nat (length bs)).
Proof.
  intros Hstep. unfold emit_each. revert e.
  induction bs as [|b bs IH]; intros e.
  - simpl. by rewrite Z.add_0_r, u32_idemp.
  - cbn [fold_left length]. rewrite IH, Hstep, u32_idemp, !u32_add_l.
    f_equal. lia.
Qed.

Lemma bc_p_raw (m r : Z) (e : emitter) :
  bc_p (emit_raw m r e) = u32 (bc_p e + 1).
Proof. reflexivity. Qed.

Lemma bc_p_byte (m b : Z) (e : emitter) :
  bc_p (emit_byte m b e) = u32 (bc_p e + 1).
Proof. reflexivity. Qed.

Lemma bc_p_fm_raw (m r : Z) (e : emitter) :
  bc_p (fm_emit_raw m r e) = u32 (bc_p e + 1).
Proof. reflexivity. Qed.

Lemma bc_p_fm_byte (m b : Z) (e : emitter) :
  bc_p (fm_emit_byte m b e) = u32 (bc_p e + 1).
Proof. reflexivity. Qed.

Lemma bc_p_one (step : emitter -> emitter) (e : emitter) :
  (forall e, bc_p (step e) = u32 (bc_p e + 1)) ->
  u32 (bc_p (step e)) = u32 (u32 (bc_p e) + 1).
Proof. intros ->. by rewrite u32_idemp, u32_add_l. Qed.

Lemma length_first_bytes (n : Z) (buf : list Z) :
  Z.of_nat (length (first_bytes n buf)) = Z.max 0 n.
Proof. unfold first_bytes. rewrite length_fmap, length_seq. lia. Qed.

(** What [read_track_done] publishes. *)
Lemma read_track_done_spec (e : emitter) (im : image) :
  exists im',
    read_track_done e im = (true, im')
    /\ bprod (read_bc im') = u32 (u32 (bc_p e) * 16)
    /\ bcons (read_bc im') = bcons (read_bc im)
    /\ decode_pos (img im') = s32 (decode_pos (img im) + 1).
Proof.
  eexists. split; [reflexivity|].
  destruct im as [? ? ? ? ? ? ? ? ? ? ? ? ? ? []].
  cbn. by rewrite u32_mul_16.
Qed.

(** Count the words of a chain of emissions. *)
Ltac count_words :=
  repeat first
    [ rewrite bc_p_times by (first [apply bc_p_byte | apply bc_p_raw
                                    | apply bc_p_fm_byte | apply bc_p_fm_raw
                                    | lia])
    | rewrite bc_p_each by (first [apply bc_p_byte | apply bc_p_fm_byte])
    | rewrite (bc_p_one (emit_byte _ _)) by apply bc_p_byte
    | rewrite (bc_p_one (emit_raw _ _)) by apply bc_p_raw
    | rewrite (bc_p_one (fm_emit_byte _ _)) by apply bc_p_fm_byte
    | rewrite (bc_p_one (fm_emit_raw _ _)) by apply bc_p_fm_raw ];
  rewrite ?u32_add_l.

Ltac count_done :=
  count_words; cbn [bc_p length drop]; rewrite ?length_first_bytes;
  rewrite u32_mul_16; apply (f_equal u32);
  apply (f_equal (fun x => x * 16)); no_wrap; lia.

(** Step over the common exit of the encoders. *)
Ltac done_track :=
  match goal with
  | |- context [read_track_done ?e ?i] =>
      let im' := fresh "im'" in
      let Hr := fresh "Hr" in
      let Hp := fresh "Hp" in
      let Hc := fresh "Hc" in
      let Hd := fresh "Hd" in
      destruct (read_track_done_spec e i) as (im' & Hr & Hp & Hc & Hd);
      rewrite Hr; cbv beta iota; rewrite Hp, Hc, Hd; clear Hr Hp Hc Hd
  end.

Ltac sim_done :=
  cbn [read_bc on_read_bc on_img set_read_bc set_img bcons set_bprod set_bp
         img decode_pos set_decode_pos set_decode_data_pos set_crc
         on_read_data set_read_data set_bcons set_trk_sec set_rd_sec_pos].

Lemma land_3_phase (x : Z) : 0 <= x -> Z.land x 3 = x mod 4.
Proof. intros. change 3 with (Z.ones 2). by rewrite Z.land_ones by lia. Qed.

(** The sizes [mfm_sizes] computes are what the handle holds. *)
Lemma mfm_sizes_fixed (im : image) :
  mfm_sizes im = im ->
  0 <= gap_2 (img im) < 256 -> 0 <= gap_3 (img im) < 256 ->
  0 <= gap_4a (img im) < 256 -> 0 <= post_crc_syncs (img im) < 256 ->
  idx_sz (img im)
  = gap_4a (img im) + (if has_iam (img im) then GAP_SYNC + 4 + GAP_1 else 0)
  /\ idam_sz (img im)
     = idam_gap_sync im + 8 + 2 + post_crc_syncs (img im) + gap_2 (img im)
  /\ dam_sz_pre (img im) = GAP_SYNC + 4
  /\ dam_sz_post (img im) = 2 + post_crc_syncs (img im) + gap_3 (img im)
  /\ 0 <= idam_gap_sync im <= 12.
Proof.
  intros Hfix H2 H3 H4a Hpcs.
  assert (0 <= idam_gap_sync im <= 12) as Higs
    by (unfold idam_gap_sync, min_t, GAP_SYNC; case_match; lia).
  assert (idx_sz (img (mfm_sizes im)) = idx_sz (img im)) as E1
    by (by rewrite Hfix).
  assert (idam_sz (img (mfm_sizes im)) = idam_sz (img im)) as E2
    by (by rewrite Hfix).
  assert (dam_sz_pre (img (mfm_sizes im)) = dam_sz_pre (img im)) as E3
    by (by rewrite Hfix).
  assert (dam_sz_post (img (mfm_sizes im)) = dam_sz_post (img im)) as E4
    by (by rewrite Hfix).
  clear Hfix. revert E1 E2 E3 E4 Higs. unfold idam_gap_sync.
  destruct im as [? ? ? ? ? ? ? ? ? ? ? ? ? ? []].
  cbv delta [mfm_sizes]. run_img.
  cbn [img gap_2 gap_3 gap_4a post_crc_syncs has_iam] in *.
  unfold GAP_SYNC, GAP_1 in *.
  intros <- <- <- <- Higs.
  repeat split; try lia.
  - case_match; no_wrap; lia.
  - no_wrap. lia.
  - no_wrap. lia.
Qed.

(** [img_fetch_data] touches the file, the data ring and the fetch
    position, and nothing the encoder decides on. *)
Lemma img_fetch_data_keeps (im : image) :
  read_bc (img_fetch_data im) = read_bc im
  /\ cur_track (img_fetch_data im) = cur_track im
  /\ exists ts rsp,
       img (img_fetch_data im)
       = set_trk_sec ts (set_rd_sec_pos rsp (img im)).
Proof.
  destruct im as [? ? ? ? ? ? ? ? ? ? ? ? ? ? []].
  cbv delta [img_fetch_data]. run_img.
  split_ifs;
    try match goal with
        | |- context [F_read ?n ?o ?f] => destruct (F_read n o f)
        end;
    (split; [reflexivity|]); (split; [reflexivity|]);
    eexists _, _; reflexivity.
Qed.

(** X14: one call of [mfm_read_track] emits exactly the words that
    [mfm_open] budgeted for the region [decode_pos] names.  On a handle
    whose region sizes are those [mfm_sizes] computes, the call declines
    exactly when the ring has less room than the region (or its next
    chunk of at most 1024 bytes) needs, and then only the data fetch has
    happened; otherwise the producer index advances by [idx_sz],
    [idam_sz], [dam_sz_pre], the data chunk, [dam_sz_post] or the GAP4
    chunk, and [decode_pos] moves to the next region, staying put while a
    chunked region has bytes left and skipping an empty post-index gap. *)
Theorem mfm_read_track_budget (im : image) :
  let g := img im in
  let n := nr_sectors g in
  let dp := decode_pos g in
  let p := bprod (read_bc im) / 16 in
  let space :=
    u32 (blen (read_bc im) / 2 - u16 (p - bcons (read_bc im) / 16)) in
  let left_of total := u16 (total - decode_data_pos g * 1024) in
  let words :=
    if dp =? 0 then idx_sz g
    else if dp =? n * 4 + 1 then Z.min 1024 (left_of (gap_4 g))
    else match (dp - 1) mod 4 with
         | 0 => idam_sz g
         | 1 => dam_sz_pre g
         | 2 => Z.min 1024 (left_of (u16 (sec_sz im)))
         | _ => dam_sz_post g
         end in
  let next :=
    if dp =? 0 then 1
    else if dp =? n * 4 + 1 then
      if 1024 <? left_of (gap_4 g) then dp
      else if idx_sz g =? 0 then 1 else 0
    else if ((dp - 1) mod 4 =? 2) && (1024 <? left_of (u16 (sec_sz im)))
    then dp else dp + 1 in
  mfm_sizes im = im ->
  0 <= gap_2 g < 256 -> 0 <= gap_3 g < 256 -> 0 <= gap_4a g < 256 ->
  0 <= post_crc_syncs g < 256 ->
  1 <= n <= MAX_SECS -> 0 <= dp <= n * 4 + 1 ->
  0 <= bprod (read_bc im) < 2 ^ 32 ->
  let '(ok, im') := mfm_read_track im in
  ok = negb (space <? words)
  /\ if ok then
       bprod (read_bc im') = u32 ((p + words) * 16)
       /\ bcons (read_bc im') = bcons (read_bc im)
       /\ decode_pos (img im') = next
     else im' = img_fetch_data im.
Proof.
  intros g n dp p space left_of words next Hfix H2 H3 H4a Hpcs Hn Hdp Hprod.
  destruct (mfm_sizes_fixed im Hfix H2 H3 H4a Hpcs)
    as (Eidx & Eidam & Epre & Epost & Higs).
  destruct (img_fetch_data_keeps im) as (Hbc & Hct & ts' & rsp' & Himg).
  cbv delta [mfm_read_track]. cbv beta zeta.
  set (im1 := img_fetch_data im) in *. clearbody im1.
  assert (idam_gap_sync im1 = idam_gap_sync im) as Higs1
    by (unfold idam_gap_sync; by rewrite Himg).
  assert (sec_sz im1 = sec_sz im) as Hsz1
    by (unfold sec_sz; by rewrite Himg).
  destruct im1 as [f1 cyls1 sides1 ct1 cb1 cti1 tsf1 tbc1 tpc1 wbt1 spr1 sy1
                     rd1 rb1 g1].
  cbn [read_bc cur_track img] in Hbc, Hct, Himg. subst rb1 ct1 g1.
  subst g n dp p space left_of words next. unfold MAX_SECS in *.
  revert Higs1 Hsz1 Eidx Eidam Epre Epost Higs.
  generalize (idam_gap_sync im). intros igs.
  generalize (sec_sz im). intros S.
  destruct im as [f cyls sides ct cb cti tsf tbc tpc wbt spr sy rd
                    [rbp rbl rbpr rbc]
                    [to bo ts rsp dp ddp cr lay iam g2 g3 g4a pcs ws sb smap
                       n sno il sk sco dr g4 ix ids dpre dpost rp]].
  cbn [img read_bc bprod bcons blen bp nr_sectors decode_pos
         decode_data_pos gap_2 gap_3 gap_4a gap_4 post_crc_syncs idx_sz
         idam_sz dam_sz_pre dam_sz_post has_iam set_trk_sec set_rd_sec_pos
         sec_map sec_no crc cur_track] in *.
  intros Higs1 Hsz1 Eidx Eidam Epre Epost Higs.
  unfold bc_words. cbn [bprod bcons blen bp]. rewrite Higs1, Hsz1.
  unfold GAP_SYNC, GAP_1 in *.
  set (P := rbpr / 16) in *.
  assert (0 <= P < 2 ^ 28) as HP
    by (subst P; split; [apply Z.div_pos; lia
                        | apply Z.div_lt_upper_bound; lia]).
  set (space := u32 (rbl / 2 - u16 (P - rbc / 16))).
  assert (forall total, 0 <= u16 (total - ddp * 1024) < 65536) as Hleft
    by (intros; unfold u16; apply Z.mod_pos_bound; lia).
  destruct (Z.eqb_spec dp 0) as [Hz | Hnz].
  { (* Post-index track gap *)
    destruct (Z.ltb_spec space ix) as [Hfull | Hroom]; cbn [negb]; [done|].
    done_track. sim_done.
    split; [done|].
    split; [|split; [done | subst dp; by rewrite s32_small by lia]].
    destruct iam; cbv iota in Eidx; count_done. }
  destruct (Z.eqb_spec dp (n * 4 + 1)) as [Hgap | Hsec].
  { (* Pre-index track gap *)
    specialize (Hleft g4). set (sz := u16 (g4 - ddp * 1024)) in *.
    unfold min_t.
    replace (if sz <? 1024 then sz else 1024) with (Z.min 1024 sz)
      by (destruct (Z.ltb_spec sz 1024); lia).
    destruct (Z.ltb_spec space (Z.min 1024 sz)) as [Hfull | Hroom];
      cbn [negb]; [done|].
    destruct (Z.ltb_spec 1024 sz) as [Hmore | Hlast];
      done_track; sim_done;
      (split; [done|]);
      (split; [count_done|]);
      (split; [done|]).
    - rewrite (s32_small (dp - 1)) by lia. rewrite s32_small by lia. lia.
    - destruct (Z.eqb_spec ix 0); cbn [negb]; by rewrite s32_small by lia. }
  rewrite (land_3_phase (dp - 1)) by lia.
  pose proof (Z.mod_pos_bound (dp - 1) 4 ltac:(lia)) as Hm.
  set (m := (dp - 1) mod 4) in *.
  assert (m = 0 \/ m = 1 \/ m = 2 \/ m = 3) as [-> | [-> | [-> | ->]]]
    by lia;
    cbn [Z.eqb Pos.eqb andb].
  - (* IDAM *)
    destruct (Z.ltb_spec space ids) as [Hfull | Hroom]; cbn [negb]; [done|].
    done_track. sim_done.
    split; [done|].
    split; [|split; [done | by rewrite s32_small by lia]].
    count_done.
  - (* DAM *)
    destruct (Z.ltb_spec space dpre) as [Hfull | Hroom]; cbn [negb]; [done|].
    done_track. sim_done.
    split; [done|].
    split; [|split; [done | by rewrite s32_small by lia]].
    count_done.
  - (* Data *)
    specialize (Hleft (u16 S)). set (sz := u16 (u16 S - ddp * 1024)) in *.
    unfold min_t.
    replace (if sz <? 1024 then sz else 1024) with (Z.min 1024 sz)
      by (destruct (Z.ltb_spec sz 1024); lia).
    destruct (Z.ltb_spec space (Z.min 1024 sz)) as [Hfull | Hroom];
      cbn [negb]; [done|].
    destruct (Z.ltb_spec 1024 sz) as [Hmore | Hlast];
      done_track; sim_done;
      (split; [done|]);
      (split; [count_done|]);
      (split; [done|]).
    + rewrite (s32_small (dp - 1)) by lia. rewrite s32_small by lia. lia.
    + by rewrite s32_small by lia.
  - (* Post Data *)
    destruct (Z.ltb_spec space dpost) as [Hfull | Hroom]; cbn [negb]; [done|].
    done_track. sim_done.
    split; [done|].
    split; [|split; [done | by rewrite s32_small by lia]].
    count_done.
Qed.

(** The sizes [fm_sizes] computes are what the handle holds. *)
Lemma fm_sizes_fixed (im : image) :
  fm_sizes im = im ->
  0 <= gap_2 (img im) < 256 -> 0 <= gap_3 (img im) < 256 ->
  0 <= gap_4a (img im) < 256 ->
  idx_sz (img im) = gap_4a (img im)
  /\ idam_sz (img im) = FM_GAP_SYNC + 5 + 2 + gap_2 (img im)
  /\ dam_sz_pre (img im) = FM_GAP_SYNC + 1
  /\ dam_sz_post (img im) = 2 + gap_3 (img im).
Proof.
  intros Hfix H2 H3 H4a.
  assert (idx_sz (img (fm_sizes im)) = idx_sz (img im)) as E1
    by (by rewrite Hfix).
  assert (idam_sz (img (fm_sizes im)) = idam_sz (img im)) as E2
    by (by rewrite Hfix).
  assert (dam_sz_pre (img (fm_sizes im)) = dam_sz_pre (img im)) as E3
    by (by rewrite Hfix).
  assert (dam_sz_post (img (fm_sizes im)) = dam_sz_post (img im)) as E4
    by (by rewrite Hfix).
  clear Hfix. revert E1 E2 E3 E4.
  destruct im as [? ? ? ? ? ? ? ? ? ? ? ? ? ? []].
  cbv delta [fm_sizes]. run_img.
  cbn [img gap_2 gap_3 gap_4a] in *.
  unfold FM_GAP_SYNC in *.
  intros <- <- <- <-.
  repeat split; no_wrap; lia.
Qed.

(** X15: one call of [fm_read_track] emits exactly the words that
    [fm_open] budgeted for the region [decode_pos] names.  On a handle
    whose region sizes are those [fm_sizes] computes, the assertion
    [!has_iam] fails only in the post-index gap, with room in the ring and
    the IAM flag set.  Otherwise the call declines exactly when the ring
    has less room than the region (or its next chunk of at most 1024
    bytes) needs, and then only the data fetch has happened; else the
    producer index advances by the size of the region and [decode_pos]
    moves to the next region, staying put while a chunked region has
    bytes left and skipping an empty post-index gap. *)
Theorem fm_read_track_budget (im : image) :
  let g := img im in
  let n := nr_sectors g in
  let dp := decode_pos g in
  let p := bprod (read_bc im) / 16 in
  let space :=
    u32 (blen (read_bc im) / 2 - u16 (p - bcons (read_bc im) / 16)) in
  let left_of total := u16 (total - decode_data_pos g * 1024) in
  let words :=
    if dp =? 0 then idx_sz g
    else if dp =? n * 4 + 1 then Z.min 1024 (left_of (gap_4 g))
    else match (dp - 1) mod 4 with
         | 0 => idam_sz g
         | 1 => dam_sz_pre g
         | 2 => Z.min 1024 (left_of (u16 (sec_sz im)))
         | _ => dam_sz_post g
         end in
  let next :=
    if dp =? 0 then 1
    else if dp =? n * 4 + 1 then
      if 1024 <? left_of (gap_4 g) then dp
      else if idx_sz g =? 0 then 1 else 0
    else if ((dp - 1) mod 4 =? 2) && (1024 <? left_of (u16 (sec_sz im)))
    then dp else dp + 1 in
  fm_sizes im = im ->
  0 <= gap_2 g < 256 -> 0 <= gap_3 g < 256 -> 0 <= gap_4a g < 256 ->
  1 <= n <= MAX_SECS -> 0 <= dp <= n * 4 + 1 ->
  0 <= bprod (read_bc im) < 2 ^ 32 ->
  match fm_read_track im with
  | None => dp = 0 /\ has_iam g = true /\ idx_sz g <= space
  | Some (ok, im') =>
      ok = negb (space <? words)
      /\ if ok then
           bprod (read_bc im') = u32 ((p + words) * 16)
           /\ bcons (read_bc im') = bcons (read_bc im)
           /\ decode_pos (img im') = next
         else im' = img_fetch_data im
  end.
Proof.
  intros g n dp p space left_of words next Hfix H2 H3 H4a Hn Hdp Hprod.
  destruct (fm_sizes_fixed im Hfix H2 H3 H4a)
    as (Eidx & Eidam & Epre & Epost).
  destruct (img_fetch_data_keeps im) as (Hbc & Hct & ts' & rsp' & Himg).
  cbv delta [fm_read_track]. cbv beta zeta.
  set (im1 := img_fetch_data im) in *. clearbody im1.
  assert (sec_sz im1 = sec_sz im) as Hsz1
    by (unfold sec_sz; by rewrite Himg).
  destruct im1 as [f1 cyls1 sides1 ct1 cb1 cti1 tsf1 tbc1 tpc1 wbt1 spr1 sy1
                     rd1 rb1 g1].
  cbn [read_bc cur_track img] in Hbc, Hct, Himg. subst rb1 ct1 g1.
  subst g n dp p space left_of words next. unfold MAX_SECS in *.
  revert Hsz1 Eidx Eidam Epre Epost.
  generalize (sec_sz im). intros S.
  destruct im as [f cyls sides ct cb cti tsf tbc tpc wbt spr sy rd
                    [rbp rbl rbpr rbc]
                    [to bo ts rsp dp ddp cr lay iam g2 g3 g4a pcs ws sb smap
                       n sno il sk sco dr g4 ix ids dpre dpost rp]].
  cbn [img read_bc bprod bcons blen bp nr_sectors decode_pos
         decode_data_pos gap_2 gap_3 gap_4a gap_4 post_crc_syncs idx_sz
         idam_sz dam_sz_pre dam_sz_post has_iam set_trk_sec set_rd_sec_pos
         sec_map sec_no crc cur_track] in *.
  intros Hsz1 Eidx Eidam Epre Epost.
  unfold bc_words. cbn [bprod bcons blen bp]. rewrite Hsz1.
  unfold FM_GAP_SYNC in *.
  set (P := rbpr / 16) in *.
  assert (0 <= P < 2 ^ 28) as HP
    by (subst P; split; [apply Z.div_pos; lia
                        | apply Z.div_lt_upper_bound; lia]).
  set (space := u32 (rbl / 2 - u16 (P - rbc / 16))).
  assert (forall total, 0 <= u16 (total - ddp * 1024) < 65536) as Hleft
    by (intros; unfold u16; apply Z.mod_pos_bound; lia).
  destruct (Z.eqb_spec dp 0) as [Hz | Hnz].
  { (* Post-index track gap *)
    destruct (Z.ltb_spec space ix) as [Hfull | Hroom]; cbn [negb]; [done|].
    destruct iam; [done|].
    done_track. sim_done.
    split; [done|].
    split; [|split; [done | subst dp; by rewrite s32_small by lia]].
    count_done. }
  destruct (Z.eqb_spec dp (n * 4 + 1)) as [Hgap | Hsec].
  { (* Pre-index track gap *)
    specialize (Hleft g4). set (sz := u16 (g4 - ddp * 1024)) in *.
    unfold min_t.
    replace (if sz <? 1024 then sz else 1024) with (Z.min 1024 sz)
      by (destruct (Z.ltb_spec sz 1024); lia).
    destruct (Z.ltb_spec space (Z.min 1024 sz)) as [Hfull | Hroom];
      cbn [negb]; [done|].
    destruct (Z.ltb_spec 1024 sz) as [Hmore | Hlast];
      done_track; sim_done;
      (split; [done|]);
      (split; [count_done|]);
      (split; [done|]).
    - rewrite (s32_small (dp - 1)) by lia. rewrite s32_small by lia. lia.
    - destruct (Z.eqb_spec ix 0); cbn [negb]; by rewrite s32_small by lia. }
  rewrite (land_3_phase (dp - 1)) by lia.
  pose proof (Z.mod_pos_bound (dp - 1) 4 ltac:(lia)) as Hm.
  set (m := (dp - 1) mod 4) in *.
  assert (m = 0 \/ m = 1 \/ m = 2 \/ m = 3) as [-> | [-> | [-> | ->]]]
    by lia;
    cbn [Z.eqb Pos.eqb andb].
  - (* IDAM *)
    destruct (Z.ltb_spec space ids) as [Hfull | Hroom]; cbn [negb]; [done|].
    done_track. sim_done.
    split; [done|].
    split; [|split; [done | by rewrite s32_small by lia]].
    count_done.
  - (* DAM *)
    destruct (Z.ltb_spec space dpre) as [Hfull | Hroom]; cbn [negb]; [done|].
    done_track. sim_done.
    split; [done|].
    split; [|split; [done | by rewrite s32_small by lia]].
    count_done.
  - (* Data *)
    specialize (Hleft (u16 S)). set (sz := u16 (u16 S - ddp * 1024)) in *.
    unfold min_t.
    replace (if sz <? 1024 then sz else 1024) with (Z.min 1024 sz)
      by (destruct (Z.ltb_spec sz 1024); lia).
    destruct (Z.ltb_spec space (Z.min 1024 sz)) as [Hfull | Hroom];
      cbn [negb]; [done|].
    destruct (Z.ltb_spec 1024 sz) as [Hmore | Hlast];
      done_track; sim_done;
      (split; [done|]);
      (split; [count_done|]);
      (split; [done|]).
    + rewrite (s32_small (dp - 1)) by lia. rewrite s32_small by lia. lia.
    + by rewrite s32_small by lia.
  - (* Post Data *)
    destruct (Z.ltb_spec space dpost) as [Hfull | Hroom]; cbn [negb]; [done|].
    done_track. sim_done.
    split; [done|].
    split; [|split; [done | by rewrite s32_small by lia]].
    count_done.
Qed.

End Emit.
Lemma mfm_read_track_budget_witness :
  exists im',
    @mfm_read_track Sample.iso_codec Sample.track0_1440k = (true, im')
    /\ decode_pos (img im') = 2.
Proof.
  set (im := Sample.track0_1440k).
  assert (mfm_sizes im = im) as B0 by (vm_compute; reflexivity).
  assert (0 <= gap_2 (img im) < 256) as B1
    by (vm_compute; intuition discriminate).
  assert (0 <= gap_3 (img im) < 256) as B2
    by (vm_compute; intuition discriminate).
  assert (0 <= gap_4a (img im) < 256) as B3
    by (vm_compute; intuition discriminate).
  assert (0 <= post_crc_syncs (img im) < 256) as B4
    by (vm_compute; intuition discriminate).
  assert (1 <= nr_sectors (img im) <= MAX_SECS) as B5
    by (vm_compute; intuition discriminate).
  assert (0 <= decode_pos (img im) <= nr_sectors (img im) * 4 + 1) as B6
    by (vm_compute; intuition discriminate).
  assert (0 <= bprod (read_bc im) < 2 ^ 32) as B7
    by (vm_compute; intuition discriminate).
  pose proof (@mfm_read_track_budget Sample.iso_codec im
                B0 B1 B2 B3 B4 B5 B6 B7) as Hrun.
  cbv zeta in Hrun.
  destruct (@mfm_read_track Sample.iso_codec im) as [ok im'].
  destruct Hrun as [Hok Hrun].
  assert (ok = true) as -> by (rewrite Hok; vm_compute; reflexivity).
  destruct Hrun as (_ & _ & Hnext).
  exists im'. split; [reflexivity|]. rewrite Hnext. vm_compute. reflexivity.
Defined.

Lemma fm_read_track_budget_witness :
  exists im',
    @fm_read_track Sample.iso_codec Sample.track0_ssd = Some (true, im')
    /\ decode_pos (img im') = 2.
Proof.
  set (im := Sample.track0_ssd).
  assert (fm_sizes im = im) as B0 by (vm_compute; reflexivity).
  assert (0 <= gap_2 (img im) < 256) as B1
    by (vm_compute; intuition discriminate).
  assert (0 <= gap_3 (img im) < 256) as B2
    by (vm_compute; intuition discriminate).
  assert (0 <= gap_4a (img im) < 256) as B3
    by (vm_compute; intuition discriminate).
  assert (1 <= nr_sectors (img im) <= MAX_SECS) as B5
    by (vm_compute; intuition discriminate).
  assert (0 <= decode_pos (img im) <= nr_sectors (img im) * 4 + 1) as B6
    by (vm_compute; intuition discriminate).
  assert (0 <= bprod (read_bc im) < 2 ^ 32) as B7
    by (vm_compute; intuition discriminate).
  pose proof (@fm_read_track_budget Sample.iso_codec im
                B0 B1 B2 B3 B5 B6 B7) as Hrun.
  cbv zeta in Hrun.
  destruct (@fm_read_track Sample.iso_codec im) as [[ok im']|].
  - destruct Hrun as [Hok Hrun].
    assert (ok = true) as -> by (rewrite Hok; vm_compute; reflexivity).
    destruct Hrun as (_ & _ & Hnext).
    exists im'. split; [reflexivity|]. rewrite Hnext. vm_compute.
    reflexivity.
  - exfalso. destruct Hrun as (Hdp & _). vm_compute in Hdp. discriminate.
Defined.
End ImgEngine.

(** * More statements about hfe.c *)

Module HfeEngine.
Import Hfe.
Import HfeProofs.

(** ** One pass of the write loop *)

Section EncodeShape.
Variables (is_v3 : bool) (buf : list Z) (bufmask nr : Z).

(** What the encoding loop does to its locals: cursor and counter move
    together, the counter overshoots by at most two, the ring consumer
    takes one byte per store, and every store lands between the entry
    cursor and [nr] bytes after it. *)
Lemma hfe_encode_shape (fuel : nat) (s : encoder) :
  0 <= e_w s -> 0 <= e_c s < 2 ^ 32 -> e_i s <= nr ->
  let r := hfe_encode fuel is_v3 buf bufmask nr s in
  e_w r - e_i r = e_w s - e_i s
  /\ e_i s <= e_i r <= nr + 2
  /\ (exists k, 0 <= k <= nr - e_i s /\ e_c r = u32 (e_c s + k))
  /\ length (e_wrbuf r) = length (e_wrbuf s)
  /\ forall j : nat,
       Z.of_nat j < e_w s \/ e_w s - e_i s + nr <= Z.of_nat j ->
       e_wrbuf r !! j = e_wrbuf s !! j.
Proof.
  revert s. induction fuel as [|fuel IH]; intros s Hw Hc Hi; cbv zeta.
  { simpl. repeat split; try lia.
    exists 0. rewrite Z.add_0_r. split; [lia|].
    unfold u32. by rewrite Z.mod_small by lia. }
  simpl. destruct (Z.ltb_spec (e_i s) nr) as [Hlt | Hge].
  2:{ repeat split; try lia.
      exists 0. rewrite Z.add_0_r. split; [lia|].
      unfold u32. by rewrite Z.mod_small by lia. }
  destruct (encode_pass_cases is_v3 buf bufmask s) as [E | (k & Hk & E)].
  - (* a store *)
    rewrite E.
    set (s' := mk_encoder _ _ _ _).
    assert (0 <= u32 (e_c s + 1) < 2 ^ 32) as Hc'
      by (unfold u32; apply Z.mod_pos_bound; lia).
    destruct (IH s' ltac:(simpl; lia) Hc' ltac:(simpl; lia))
      as (Hwi & Hir & (k & Hk & Hck) & Hlen & Hout).
    cbn [e_w e_i e_c e_wrbuf s'] in *.
    split; [lia|]. split; [lia|]. split.
    { exists (k + 1). split; [lia|]. rewrite Hck.
      unfold u32. rewrite Z.add_mod_idemp_l by lia. f_equal. lia. }
    split; [by rewrite Hlen, length_insert|].
    intros j Hj. rewrite Hout by lia.
    apply list_lookup_insert_ne. lia.
  - (* an opcode is stepped over *)
    rewrite E.
    set (s' := mk_encoder _ _ _ _).
    destruct (Z_le_gt_dec (e_i s + k) nr) as [Hin | Hover].
    + destruct (IH s' ltac:(simpl; lia) Hc ltac:(simpl; lia))
        as (Hwi & Hir & (k' & Hk' & Hck) & Hlen & Hout).
      cbn [e_w e_i e_c e_wrbuf s'] in *.
      split; [lia|]. split; [lia|]. split; [exists k'; split; [lia | done]|].
      split; [done|].
      intros j Hj. apply Hout. lia.
    + assert (hfe_encode fuel is_v3 buf bufmask nr s' = s') as ->.
      { destruct fuel; [done|]. simpl.
        destruct (Z.ltb_spec (e_i s + k) nr); [lia | done]. }
      cbn [e_w e_i e_c e_wrbuf s'].
      split; [lia|]. split; [lia|]. split.
      { exists 0. rewrite Z.add_0_r. split; [lia|].
        unfold u32. by rewrite Z.mod_small by lia. }
      done.
Qed.

End EncodeShape.

Lemma min_t_min (a b : Z) : min_t a b = Z.min a b.
Proof. unfold min_t. destruct (Z.ltb_spec a b); lia. Qed.

Lemma land_255_range (x : Z) : 0 <= x -> 0 <= Z.land x 255 < 256.
Proof.
  intros. change 255 with (Z.ones 8). rewrite Z.land_ones by lia.
  apply Z.mod_pos_bound. lia.
Qed.

(** What a pass that runs the encoder returns. *)
Lemma hfe_write_block_next (p c : Z) (im : image) :
  let wr := write_bc im in
  let bufmask := u32 (blen wr - 1) in
  let off := trk_pos (hfe im) in
  let space := Z.land (u32 (p - c)) bufmask in
  let nr := Z.min (Z.min space (256 - Z.land off 255))
                  (u32 (trk_len (hfe im) - off)) in
  let batch_off := u32 (Z.shiftl (Z.land off (u32 (Z.lnot 255))) 1) in
  let w := Z.land (cur_track im) 1 * 256
           + batch_off - write_batch_off (hfe im) + Z.land off 255 in
  let e := hfe_encode (Z.to_nat nr) (is_v3 (hfe im)) (bp wr) bufmask nr
             (mk_encoder (bp (write_data im)) w 0 c) in
  match hfe_write_block p c im with
  | Bail wb => if wb then nr <> 0 else nr = 0
  | Trap =>
      nr <> 0 /\ write_batch_off (hfe im) <= batch_off
      /\ 2 < u16 (off + e_i e) - trk_len (hfe im)
  | Next c' im' =>
      nr <> 0 /\ write_batch_off (hfe im) <= batch_off
      /\ c' = e_c e
      /\ bp (write_data im') = e_wrbuf e
      /\ write_batch_dirty (hfe im') = true
      /\ trk_len (hfe im') = trk_len (hfe im)
      /\ (trk_pos (hfe im'), write_wrapped (hfe im'))
         = if trk_len (hfe im) <=? u16 (off + e_i e)
           then (0, true)
           else (u16 (off + e_i e), write_wrapped (hfe im))
  end.
Proof.
  cbv zeta. unfold hfe_write_block. cbv zeta. rewrite !min_t_min.
  match goal with
  | |- context [?x =? 0] => destruct (Z.eqb_spec x 0) as [Hz | Hnz]
  end; [done|].
  match goal with
  | |- context [if ?a || ?b then _ else _] => destruct (a || b) eqn:Hbail
  end; [done|].
  apply orb_false_elim in Hbail as [Hlo _]. apply Z.ltb_ge in Hlo.
  destruct im as [? ? ? ? ? ? ? ? ? ? ? ? ? ? ? ? ? ? ? ? []].
  cbn [hfe trk_pos trk_len write_batch_off cur_track is_v3 write_bc
         write_data bp blen on_write_data on_hfe set_hfe set_write_data
         set_bp set_write_batch_dirty set_trk_pos set_write_wrapped
         write_batch_dirty write_wrapped] in *.
  match goal with
  | |- context [?a <=? ?b] => destruct (Z.leb_spec a b) as [Hend | Hmid]
  end.
  - match goal with
    | |- context [negb (?a <=? 2)] =>
        destruct (Z.leb_spec a 2) as [Hok | Hbad]
    end; cbn [negb].
    + repeat split; try done.
    + repeat split; done.
  - repeat split; try done.
Qed.
Section WriteBlock.

(** X16: one pass of the write loop of [hfe_write_track], entered with
    the track position at or below the track length (itself below 65534),
    never trips [ASSERT(trk_pos - trk_len <= 2)].  When it encodes, the
    new position is below the track length again: either it moved
    forward, or the pass ran to the end of the track, the position is back
    at 0 and the wrapped flag is set. *)
Theorem hfe_write_block_no_trap (p c : Z) (im : image) :
  0 <= trk_pos (hfe im) <= trk_len (hfe im) ->
  trk_len (hfe im) + 2 < 65536 ->
  0 <= c < 2 ^ 32 ->
  match hfe_write_block p c im with
  | Trap => False
  | Bail _ => True
  | Next c' im' =>
      0 <= trk_pos (hfe im') < trk_len (hfe im)
      /\ (trk_pos (hfe im) < trk_pos (hfe im')
          /\ write_wrapped (hfe im') = write_wrapped (hfe im)
          \/ trk_pos (hfe im') = 0 /\ write_wrapped (hfe im') = true)
  end.
Proof.
  intros Hpos Hlen Hc.
  pose proof (hfe_write_block_next p c im) as Hrun. cbv zeta in Hrun.
  set (bufmask := u32 (blen (write_bc im) - 1)) in *.
  set (off := trk_pos (hfe im)) in *.
  set (space := Z.land (u32 (p - c)) bufmask) in *.
  set (nr := Z.min (Z.min space (256 - Z.land off 255))
                   (u32 (trk_len (hfe im) - off))) in *.
  set (batch_off := u32 (Z.shiftl (Z.land off (u32 (Z.lnot 255))) 1)) in *.
  set (w := Z.land (cur_track im) 1 * 256 + batch_off
            - write_batch_off (hfe im) + Z.land off 255) in *.
  set (e := hfe_encode _ _ _ _ _ _) in *.
  assert (0 <= bufmask) as Hmask
    by (subst bufmask; unfold u32; apply Z.mod_pos_bound; lia).
  assert (0 <= space) as Hspace.
  { subst space. apply Z.land_nonneg. by right. }
  pose proof (land_255_range off ltac:(lia)) as Hlow.
  assert (u32 (trk_len (hfe im) - off) = trk_len (hfe im) - off) as Hleft
    by (unfold u32; apply Z.mod_small; lia).
  assert (0 <= nr <= trk_len (hfe im) - off) as Hnr by lia.
  assert (0 <= Z.land (cur_track im) 1) as Hside
    by (apply Z.land_nonneg; by right).
  assert (write_batch_off (hfe im) <= batch_off ->
          nr <= e_i e <= nr + 2) as Hi.
  { intros Hlo.
    destruct (hfe_encode_shape (is_v3 (hfe im)) (bp (write_bc im)) bufmask nr
                (Z.to_nat nr) (mk_encoder (bp (write_data im)) w 0 c))
      as (_ & Hir & _); cbn [e_w e_i e_c]; try lia.
    fold e in Hir. split; [|lia].
    subst e. apply hfe_encode_done. cbn [e_i]. lia. }
  destruct (hfe_write_block p c im) as [wb | | c' im'].
  - done.
  - destruct Hrun as (Hnz & Hlo & Hbad).
    specialize (Hi Hlo). unfold u16 in Hbad.
    rewrite Z.mod_small in Hbad by lia. lia.
  - destruct Hrun as (Hnz & Hlo & _ & _ & _ & _ & Hnext).
    specialize (Hi Hlo). unfold u16 in Hnext.
    rewrite Z.mod_small in Hnext by lia.
    destruct (Z.leb_spec (trk_len (hfe im)) (off + e_i e));
      injection Hnext as -> ->.
    + split; [lia|]. by right.
    + split; [lia|]. left. split; [lia | done].
Qed.

(** X17: a pass of the write loop that encodes touches the write batch
    only inside the 256-byte half of the block that belongs to the current
    side: the bytes in front of the cursor and those from [nr] bytes after
    it are what they were, and that window ends at or before the end of
    the half block.  It takes at most [nr] bytes from the bitcell ring,
    and [nr] is no more than the ring holds. *)
Theorem hfe_write_block_confined (p c c' : Z) (im im' : image) :
  0 <= trk_pos (hfe im) <= trk_len (hfe im) ->
  trk_len (hfe im) < 65536 ->
  0 <= c < 2 ^ 32 ->
  hfe_write_block p c im = Next c' im' ->
  let bufmask := u32 (blen (write_bc im) - 1) in
  let off := trk_pos (hfe im) in
  let space := Z.land (u32 (p - c)) bufmask in
  let nr := Z.min (Z.min space (256 - Z.land off 255))
                  (u32 (trk_len (hfe im) - off)) in
  let batch_off := u32 (Z.shiftl (Z.land off (u32 (Z.lnot 255))) 1) in
  let half := Z.land (cur_track im) 1 * 256
              + batch_off - write_batch_off (hfe im) in
  let w := half + Z.land off 255 in
  0 <= half /\ half <= w /\ w + nr <= half + 256
  /\ 1 <= nr <= space
  /\ (exists k, 0 <= k <= nr /\ c' = u32 (c + k))
  /\ length (bp (write_data im')) = length (bp (write_data im))
  /\ forall j : nat,
       Z.of_nat j < w \/ w + nr <= Z.of_nat j ->
       bp (write_data im') !! j = bp (write_data im) !! j.
Proof.
  intros Hpos Hlen16 Hc Hnext.
  pose proof (hfe_write_block_next p c im) as Hrun. cbv zeta in Hrun.
  rewrite Hnext in Hrun. cbv zeta.
  set (bufmask := u32 (blen (write_bc im) - 1)) in *.
  set (off := trk_pos (hfe im)) in *.
  set (space := Z.land (u32 (p - c)) bufmask) in *.
  set (nr := Z.min (Z.min space (256 - Z.land off 255))
                   (u32 (trk_len (hfe im) - off))) in *.
  set (batch_off := u32 (Z.shiftl (Z.land off (u32 (Z.lnot 255))) 1)) in *.
  set (e := hfe_encode _ _ _ _ _ _) in *.
  destruct Hrun as (Hnz & Hlo & -> & -> & _).
  assert (0 <= bufmask) as Hmask
    by (subst bufmask; unfold u32; apply Z.mod_pos_bound; lia).
  assert (0 <= space) as Hspace.
  { subst space. apply Z.land_nonneg. by right. }
  pose proof (land_255_range off ltac:(lia)) as Hlow.
  assert (u32 (trk_len (hfe im) - off) = trk_len (hfe im) - off) as Hleft
    by (unfold u32; apply Z.mod_small; lia).
  assert (0 <= Z.land (cur_track im) 1) as Hside
    by (apply Z.land_nonneg; by right).
  destruct (hfe_encode_shape (is_v3 (hfe im)) (bp (write_bc im)) bufmask nr
              (Z.to_nat nr)
              (mk_encoder (bp (write_data im))
                 (Z.land (cur_track im) 1 * 256 + batch_off
                  - write_batch_off (hfe im) + Z.land off 255) 0 c))
    as (_ & _ & (k & Hk & Hck) & Hlen & Hout); cbn [e_w e_i e_c]; try lia.
  fold e in Hck, Hlen, Hout. cbn [e_w e_i e_c e_wrbuf] in *.
  split; [lia|]. split; [lia|]. split; [lia|]. split; [lia|].
  split; [exists k; split; [lia | done]|].
  split; [done|].
  intros j Hj. apply Hout. lia.
Qed.

End WriteBlock.

Lemma hfe_write_block_no_trap_witness :
  match hfe_write_block 16 0 Sample.hfe_writing with
  | Trap => False
  | Bail _ => True
  | Next _ im' => 0 <= trk_pos (hfe im') < 1000
  end.
Proof.
  assert (0 <= trk_pos (hfe Sample.hfe_writing)
          <= trk_len (hfe Sample.hfe_writing)) as B1
    by (vm_compute; intuition discriminate).
  assert (trk_len (hfe Sample.hfe_writing) + 2 < 65536) as B2
    by (vm_compute; reflexivity).
  assert (0 <= 0 < 2 ^ 32) as B3 by (vm_compute; intuition discriminate).
  pose proof (hfe_write_block_no_trap 16 0 Sample.hfe_writing B1 B2 B3)
    as Hrun.
  destruct (hfe_write_block 16 0 Sample.hfe_writing) as [| |c' im'];
    [exact I | exact Hrun | exact (proj1 Hrun)].
Defined.

Lemma hfe_write_block_confined_witness :
  exists c' im',
    hfe_write_block 16 0 Sample.hfe_writing = Next c' im'
    /\ length (bp (write_data im')) = 4096%nat
    /\ bp (write_data im') !! 16%nat = Some 0.
Proof.
  assert (0 <= trk_pos (hfe Sample.hfe_writing)
          <= trk_len (hfe Sample.hfe_writing)) as B1
    by (vm_compute; intuition discriminate).
  assert (0 <= 0 < 2 ^ 32) as B3 by (vm_compute; intuition discriminate).
  destruct (hfe_write_block 16 0 Sample.hfe_writing) as [| |c' im'] eqn:E;
    [exfalso; vm_compute in E; discriminate
    |exfalso; vm_compute in E; discriminate|].
  exists c', im'. split; [reflexivity|].
  assert (trk_len (hfe Sample.hfe_writing) < 65536) as B2
    by (vm_compute; reflexivity).
  destruct (hfe_write_block_confined 16 0 c' Sample.hfe_writing im'
              B1 B2 B3 E) as (_ & _ & _ & _ & _ & Hlen & Hout).
  split; [exact Hlen|].
  rewrite (Hout 16%nat); [reflexivity|].
  right. vm_compute. discriminate.
Defined.
(** ** Reading a track into the bitcell ring *)


Lemma memcpy_spec (dst src : list Z) (d s : Z) (n : nat) :
  0 <= d ->
  length (memcpy dst d src s n) = length dst
  /\ (forall i : nat,
        (i < n)%nat -> d + Z.of_nat i < Z.of_nat (length dst) ->
        memcpy dst d src s n !! Z.to_nat (d + Z.of_nat i)
        = Some (src !!! Z.to_nat (s + Z.of_nat i)))
  /\ (forall j : nat,
        Z.of_nat j < d \/ d + Z.of_nat n <= Z.of_nat j ->
        memcpy dst d src s n !! j = dst !! j).
Proof.
  intros Hd. unfold memcpy. induction n as [|n (IHlen & IHin & IHout)].
  { simpl. split; [done|]. split; [intros; lia | done]. }
  rewrite seq_S, fold_left_app. cbn [fold_left Nat.add].
  split; [by rewrite length_insert|]. split.
  - intros i Hi Hlen.
    destruct (decide (i = n)) as [-> | Hne].
    + apply list_lookup_insert_eq. rewrite IHlen. lia.
    + rewrite list_lookup_insert_ne by lia. apply IHin; lia.
  - intros j Hj. rewrite list_lookup_insert_ne by lia. apply IHout. lia.
Qed.

Lemma mod_window (L a t : Z) :
  0 < L -> 0 <= t < L -> (a + t - a) mod L = t.
Proof. intros. replace (a + t - a) with t by lia. by apply Z.mod_small. Qed.

(** Positions of the ring, counted from the producer index. *)
Lemma ring_offset (L p j : Z) :
  0 < L -> 0 <= j < L ->
  j = (p + (j - p) mod L) mod L.
Proof.
  intros HL Hj. rewrite Z.add_mod_idemp_r by lia.
  replace (p + (j - p)) with j by lia. by rewrite Z.mod_small.
Qed.

Lemma u32_small' (x : Z) : 0 <= x < 2 ^ 32 -> u32 x = x.
Proof. intros. unfold u32. by apply Z.mod_small. Qed.

Lemma u16_small' (x : Z) : 0 <= x < 2 ^ 16 -> u16 x = x.
Proof. intros. unfold u16. by apply Z.mod_small. Qed.

Section CopyBlocks.
Variables (buf : list Z) (L side : Z).
Hypothesis HL : 0 < L.
Hypothesis HL256 : L mod 256 = 0.

Lemma block_fits (p : Z) :
  0 <= p -> p mod 256 = 0 -> p mod L + 256 <= L /\ (p mod L) mod 256 = 0.
Proof.
  intros Hp Hp256.
  pose proof (Z.mod_pos_bound p L HL) as Hd.
  assert ((p mod L) mod 256 = 0) as Hd256.
  { apply Z.mod_divide in HL256; [|lia]. destruct HL256 as [m ->].
    rewrite Z.mul_comm, Z.rem_mul_r by lia.
    rewrite Z.add_mod, Hp256 by lia.
    rewrite (Z.mul_comm 256), Z.mod_mul by lia. done. }
  split; [|done].
  apply Z.mod_divide in HL256; [|lia]. destruct HL256 as [m Hm].
  apply Z.mod_divide in Hd256; [|lia]. destruct Hd256 as [k Hk].
  lia.
Qed.

Lemma mod_eq (a q r : Z) : 0 <= r < L -> a = L * q + r -> a mod L = r.
Proof. intros Hr Ha. symmetry. by apply (Z.mod_unique_pos a L q r). Qed.

Lemma copy_blocks_spec (nr : nat) (mask : Z) (bc_b : list Z)
    (bc_p rd_cons : Z) :
  (forall x, 0 <= x -> Z.land x mask = x mod L) ->
  Z.of_nat (length bc_b) = L ->
  0 <= bc_p -> bc_p mod 256 = 0 -> bc_p + 256 * Z.of_nat nr < 2 ^ 32 ->
  256 * Z.of_nat nr <= L ->
  0 <= rd_cons -> rd_cons + Z.of_nat nr < 2 ^ 22 -> 0 <= side <= 1 ->
  exists b',
    copy_blocks nr bc_b buf bc_p mask rd_cons side
    = (b', bc_p + 256 * Z.of_nat nr, rd_cons + Z.of_nat nr)
    /\ length b' = length bc_b
    /\ (forall t,
          0 <= t < 256 * Z.of_nat nr ->
          b' !! Z.to_nat ((bc_p + t) mod L)
          = Some (buf !!! Z.to_nat ((rd_cons + t / 256) * 512 + side * 256
                                    + t mod 256)))
    /\ (forall j : nat,
          Z.of_nat j < L ->
          256 * Z.of_nat nr <= (Z.of_nat j - bc_p) mod L ->
          b' !! j = bc_b !! j).
Proof.
  intros Hmask. revert bc_b bc_p rd_cons.
  induction nr as [|n IH]; intros bc_b bc_p rd_cons Hlen Hp Hp256 Hp32 Hfit
                             Hc Hc32 Hside.
  { exists bc_b. cbn [copy_blocks]. rewrite !Z.mul_0_r, !Z.add_0_r.
    split; [done|]. split; [done|]. split; [intros; lia | done]. }
  cbn [copy_blocks]. rewrite Hmask by done.
  pose proof (Z.div_mod bc_p L ltac:(lia)) as Hq.
  pose proof (Z.mod_pos_bound bc_p L HL) as Hd.
  destruct (block_fits bc_p Hp Hp256) as [Hblk _].
  set (d := bc_p mod L) in *. set (q := bc_p / L) in *.
  rewrite (u32_small' (rd_cons * 512 + side * 256)) by lia.
  rewrite (u32_small' (bc_p + 256)) by lia.
  rewrite (u32_small' (rd_cons + 1)) by lia.
  destruct (memcpy_spec bc_b buf d (rd_cons * 512 + side * 256) 256
              ltac:(lia)) as (Mlen & Min & Mout).
  set (b1 := memcpy bc_b d buf (rd_cons * 512 + side * 256) 256) in *.
  destruct (IH b1 (bc_p + 256) (rd_cons + 1)) as (b' & Hrun & Hlen' & Hin & Hout);
    try lia.
  { rewrite Z.add_mod, Hp256 by lia. done. }
  exists b'. split.
  { rewrite Hrun. f_equal; [f_equal|]; lia. }
  split; [by rewrite Hlen', Mlen|]. split.
  - intros t Ht. destruct (Z_lt_ge_dec t 256) as [Hfirst | Hrest].
    + assert ((bc_p + t) mod L = d + t) as ->
        by (apply (mod_eq _ q); lia).
      rewrite Hout.
      * replace (d + t) with (d + Z.of_nat (Z.to_nat t)) by lia.
        rewrite Min by lia.
        rewrite Z.div_small, Z.mod_small by lia.
        do 3 f_equal. lia.
      * lia.
      * assert ((Z.of_nat (Z.to_nat (d + t)) - (bc_p + 256)) mod L
                = L + t - 256) as -> by (apply (mod_eq _ (- q - 1)); lia).
        lia.
    + replace (bc_p + t) with (bc_p + 256 + (t - 256)) by lia.
      rewrite Hin by lia.
      assert ((t - 256) / 256 = t / 256 - 1 /\ (t - 256) mod 256 = t mod 256)
        as [-> ->].
      { pose proof (Z.div_mod t 256 ltac:(lia)).
        pose proof (Z.mod_pos_bound t 256 ltac:(lia)).
        pose proof (Z.div_mod (t - 256) 256 ltac:(lia)).
        pose proof (Z.mod_pos_bound (t - 256) 256 ltac:(lia)).
        lia. }
      do 3 f_equal. lia.
  - intros j Hj Hfar.
    pose proof (Z.mod_pos_bound (Z.of_nat j - bc_p) L HL) as Hr.
    pose proof (Z.div_mod (Z.of_nat j - bc_p) L ltac:(lia)) as Hjq.
    rewrite Hout.
    + apply Mout.
      destruct (Z_lt_ge_dec (Z.of_nat j) d) as [|Hge]; [by left|].
      destruct (Z_lt_ge_dec (Z.of_nat j) (d + 256)) as [Hin'|]; [|right; lia].
      exfalso.
      assert ((Z.of_nat j - bc_p) mod L = Z.of_nat j - d) as E
        by (apply (mod_eq _ (- q)); lia).
      lia.
    + lia.
    + assert ((Z.of_nat j - (bc_p + 256)) mod L
              = (Z.of_nat j - bc_p) mod L - 256) as ->.
      { apply (mod_eq _ ((Z.of_nat j - bc_p) / L)); lia. }
      lia.
Qed.

End CopyBlocks.
Lemma land_mask_mod (k x : Z) :
  0 <= k -> Z.land x (2 ^ k - 1) = x mod 2 ^ k.
Proof.
  intros Hk. rewrite <- Z.land_ones by done. f_equal.
  rewrite Z.ones_equiv. lia.
Qed.

Lemma pow2_mod_256 (k : Z) : 8 <= k -> 2 ^ k mod 256 = 0.
Proof.
  intros Hk. replace k with (k - 8 + 8) by lia.
  rewrite Z.pow_add_r by lia. change (2 ^ 8) with 256.
  by rewrite Z.mod_mul by lia.
Qed.

Lemma land_1_range (x : Z) : 0 <= Z.land x 1 <= 1.
Proof.
  replace (Z.land x 1) with (x mod 2).
  - pose proof (Z.mod_pos_bound x 2 ltac:(lia)). lia.
  - symmetry. apply (Z.land_ones x 1). lia.
Qed.

(** The batch read at the head of [hfe_read_track]. *)
Lemma hfe_fetch_spec (batch_secs : Z) (im : image) :
  let h := hfe im in
  let nr_read := Z.min batch_secs ((trk_len h + 255 - trk_pos h) / 256) in
  let start := trk_off h * 512 + trk_pos h * 2 in
  bprod (read_data im) = bcons (read_data im) ->
  1 <= batch_secs <= 8 ->
  0 <= trk_pos h < trk_len h -> trk_len h <= 32767 ->
  start + nr_read * 512 <= f_size (fp im) ->
  let im1 := hfe_fetch batch_secs im in
  1 <= nr_read <= 8
  /\ read_bc im1 = read_bc im /\ cur_track im1 = cur_track im
  /\ bprod (read_data im1) = nr_read /\ bcons (read_data im1) = 0
  /\ (forall i : nat,
        Z.of_nat i < nr_read * 512 ->
        bp (read_data im1) !!! i = u8 (f_data (fp im) (start + Z.of_nat i)))
  /\ trk_pos (hfe im1)
     = (if trk_len h <=? trk_pos h + nr_read * 256 then 0
        else trk_pos h + nr_read * 256)
  /\ trk_len (hfe im1) = trk_len h /\ trk_off (hfe im1) = trk_off h.
Proof.
  intros h nr_read start Hempty Hbatch Hpos Hlen Hfile. subst h.
  assert (0 <= (trk_len (hfe im) + 255 - trk_pos (hfe im)) / 256 < 256)
    as Hblocks
    by (split; [apply Z.div_pos; lia | apply Z.div_lt_upper_bound; lia]).
  assert (1 <= (trk_len (hfe im) + 255 - trk_pos (hfe im)) / 256) as Hone
    by (apply Z.div_le_lower_bound; lia).
  assert (nr_read * 256 <= trk_len (hfe im) + 255 - trk_pos (hfe im)) as Hspan.
  { pose proof (Z.mul_div_le (trk_len (hfe im) + 255 - trk_pos (hfe im)) 256
                  ltac:(lia)). lia. }
  cbv zeta. split; [lia|].
  unfold hfe_fetch. rewrite Hempty, Z.eqb_refl. cbv zeta.
  rewrite Z.quot_div_nonneg by lia.
  rewrite (u32_small' batch_secs) by lia.
  rewrite (u32_small' (_ / 256)) by lia.
  rewrite min_t_min. fold nr_read.
  rewrite (u32_small' (nr_read * 512)) by lia. fold start.
  pose proof (fun i => F_read_byte (nr_read * 512) (bp (read_data im))
                         (F_lseek start (fp im)) i) as Hbytes.
  destruct (F_read (nr_read * 512) (bp (read_data im))
              (F_lseek start (fp im))) as [buf f].
  cbn [fst f_size f_tell f_data F_lseek] in Hbytes.
  unfold u16. rewrite (Z.mod_small (_ + _)) by lia.
  destruct im as [? ? ? ? ? ? ? ? ? ? ? ? ? ? ? ? ? ? ? ? []].
  cbn [hfe trk_pos trk_len trk_off read_data read_bc cur_track fp
         on_hfe set_hfe set_trk_pos set_read_data set_fp set_bprod set_bcons
         set_bp bprod bcons bp] in *.
  destruct (Z.leb_spec trk_len0 (trk_pos0 + nr_read * 256));
    cbn [hfe trk_pos trk_len trk_off read_data read_bc cur_track fp
           on_hfe set_hfe set_trk_pos set_read_data set_fp set_bprod
           set_bcons set_bp bprod bcons bp];
    repeat split; try done; intros i Hi; apply Hbytes; lia.
Qed.

(** X18: with the data buffer drained, [hfe_read_track] reads the next
    batch of 512-byte blocks and copies, block by block, the 256-byte half
    that belongs to the current side into the bitcell ring.  For a ring
    whose length is a power of two from 256 to 32768 bytes and a producer
    index on a block boundary, it returns false exactly when no block fits
    the free space; otherwise byte [t] behind the producer index is the
    byte of the file at track offset, block [t / 256], side half, byte
    [t mod 256]; ring bytes outside the copied window are untouched, the
    producer index advances by 2048 bitcells per block, and the track
    position moves on by the blocks read, back to 0 at the end of the
    track. *)
Theorem hfe_read_track_blocks (batch_secs k : Z) (im : image) :
  let h := hfe im in
  let bc := read_bc im in
  let L := blen bc in
  let side := Z.land (cur_track im) 1 in
  let bc_p := bprod bc / 8 in
  let space := L - (bc_p - bcons bc / 8) in
  let nr_read := Z.min batch_secs ((trk_len h + 255 - trk_pos h) / 256) in
  let nr := Z.min nr_read (space / 256) in
  let start := trk_off h * 512 + trk_pos h * 2 in
  bprod (read_data im) = bcons (read_data im) ->
  1 <= batch_secs <= 8 ->
  0 <= trk_pos h < trk_len h -> trk_len h <= 32767 ->
  start + nr_read * 512 <= f_size (fp im) ->
  L = 2 ^ k -> 8 <= k <= 15 -> Z.of_nat (length (bp bc)) = L ->
  0 <= bcons bc <= bprod bc -> bprod bc < 2 ^ 32 ->
  bprod bc mod 2048 = 0 -> bc_p - bcons bc / 8 <= L ->
  let '(ok, im') := hfe_read_track batch_secs im in
  ok = (0 <? nr)
  /\ (0 < nr ->
      bprod (read_bc im') = u32 (bprod bc + nr * 2048)
      /\ bcons (read_bc im') = bcons bc
      /\ length (bp (read_bc im')) = length (bp bc)
      /\ (bprod (read_data im'), bcons (read_data im')) = (nr_read, nr)
      /\ trk_pos (hfe im')
         = (if trk_len h <=? trk_pos h + nr_read * 256 then 0
            else trk_pos h + nr_read * 256)
      /\ (forall t,
            0 <= t < nr * 256 ->
            bp (read_bc im') !! Z.to_nat ((bc_p + t) mod L)
            = Some (u8 (f_data (fp im)
                          (start + t / 256 * 512 + side * 256 + t mod 256))))
      /\ (forall j : nat,
            Z.of_nat j < L -> nr * 256 <= (Z.of_nat j - bc_p) mod L ->
            bp (read_bc im') !! j = bp bc !! j)).
Proof.
  intros h bc L side bc_p space nr_read nr start Hempty Hbatch Hpos Hlen
         Hfile HL Hk Hring Hcons Hprod Halign Hocc.
  subst h.
  destruct (hfe_fetch_spec batch_secs im Hempty Hbatch Hpos Hlen Hfile)
    as (Hnr & Ebc & Ect & Erp & Erc & Ebuf & Epos & _).
  fold nr_read start in Hnr, Erp, Ebuf, Epos.
  unfold hfe_read_track. cbv zeta.
  set (im1 := hfe_fetch batch_secs im) in *. clearbody im1.
  rewrite Ebc, Erp, Erc, Ect. fold bc L.
  assert (256 <= L <= 32768) as HLr.
  { rewrite HL. change 256 with (2 ^ 8). change 32768 with (2 ^ 15).
    split; apply Z.pow_le_mono_r; lia. }
  assert (0 <= bcons bc / 8 <= bc_p) as Hc8.
  { split; [apply Z.div_pos; lia|]. subst bc_p.
    apply Z.div_le_mono; lia. }
  assert (bc_p < 2 ^ 29) as Hp29
    by (subst bc_p; apply Z.div_lt_upper_bound; lia).
  assert (bc_p mod 256 = 0 /\ bc_p * 8 = bprod bc) as [Hp256 Hp8].
  { subst bc_p. apply Z.mod_divide in Halign; [|lia].
    destruct Halign as [m Hm]. rewrite Hm.
    replace (m * 2048) with (m * 256 * 8) by lia.
    rewrite Z.div_mul by lia. rewrite Z.mod_mul by lia. lia. }
  fold bc_p.
  rewrite (u16_small' (bc_p - bcons bc / 8)) by lia.
  rewrite (u32_small' (L - _)) by lia. fold space.
  replace (nr_read - 0) with nr_read by lia.
  rewrite (u32_small' nr_read) by lia.
  rewrite min_t_min. fold nr.
  assert (0 <= space / 256) as Hsp by (apply Z.div_pos; lia).
  assert (nr * 256 <= L) as Hfit.
  { pose proof (Z.mul_div_le space 256 ltac:(lia)). lia. }
  destruct (Z.eqb_spec nr 0) as [Hz | Hnz].
  { rewrite Hz. split; [done | lia]. }
  rewrite (u32_small' (L - 1)) by lia.
  destruct (copy_blocks_spec (bp (read_data im1)) L side ltac:(lia)
              ltac:(rewrite HL; apply pow2_mod_256; lia)
              (Z.to_nat nr) (L - 1) (bp bc) bc_p 0)
    as (b' & Hrun & Hlen' & Hin & Hout); try lia.
  { intros x _. rewrite HL. apply land_mask_mod. lia. }
  { subst side. apply land_1_range. }
  fold side. rewrite Hrun. rewrite !Z2Nat.id in * by lia.
  split; [by destruct (Z.ltb_spec 0 nr); [|lia]|]. intros _.
  assert (read_bc (on_read_bc
                     (fun b => set_bprod (u32 ((bc_p + 256 * nr) * 8))
                                 (set_bp b' b))
                     (set_read_data (set_bcons (0 + nr) (read_data im1)) im1))
          = set_bprod (u32 ((bc_p + 256 * nr) * 8)) (set_bp b' bc)
          /\ read_data (on_read_bc
                          (fun b => set_bprod (u32 ((bc_p + 256 * nr) * 8))
                                      (set_bp b' b))
                          (set_read_data (set_bcons (0 + nr) (read_data im1))
                             im1))
             = set_bcons (0 + nr) (read_data im1)
          /\ hfe (on_read_bc
                    (fun b => set_bprod (u32 ((bc_p + 256 * nr) * 8))
                                (set_bp b' b))
                    (set_read_data (set_bcons (0 + nr) (read_data im1)) im1))
             = hfe im1) as (-> & -> & ->).
  { subst bc. rewrite <- Ebc.
    by destruct im1 as [? ? ? ? ? ? ? ? ? ? ? ? ? ? ? ? ? ? ? ? []]. }
  cbn [bprod bcons bp set_bprod set_bp set_bcons].
  rewrite Erp, Epos.
  split; [f_equal; lia|]. split; [done|]. split; [done|].
  split; [f_equal; lia|]. split; [done|]. split.
  - intros t Ht. rewrite Hin by lia. f_equal.
    assert (0 <= t / 256 < nr) as Hblk
      by (split; [apply Z.div_pos; lia | apply Z.div_lt_upper_bound; lia]).
    pose proof (Z.mod_pos_bound t 256 ltac:(lia)) as Hoff.
    assert (0 <= side <= 1) as Hside by (subst side; apply land_1_range).
    assert (nr <= nr_read) as Hle by (unfold nr; lia).
    rewrite Ebuf by lia. do 2 f_equal. lia.
  - intros j Hj Hfar. apply Hout; lia.
Qed.
Lemma hfe_read_track_blocks_witness :
  exists im',
    hfe_read_track 8 Sample.opened_hfe = (true, im')
    /\ bprod (read_bc im') = 8192
    /\ trk_pos (hfe im') = 0.
Proof.
  set (im := Sample.opened_hfe).
  assert (bprod (read_data im) = bcons (read_data im)) as B1
    by (vm_compute; reflexivity).
  assert (1 <= 8 <= 8) as B2 by lia.
  assert (0 <= trk_pos (hfe im) < trk_len (hfe im)) as B3
    by (vm_compute; intuition discriminate).
  assert (trk_len (hfe im) <= 32767) as B4 by (vm_compute; discriminate).
  assert (trk_off (hfe im) * 512 + trk_pos (hfe im) * 2
          + Z.min 8 ((trk_len (hfe im) + 255 - trk_pos (hfe im)) / 256) * 512
          <= f_size (fp im)) as B5 by (vm_compute; discriminate).
  assert (blen (read_bc im) = 2 ^ 12) as B6 by (vm_compute; reflexivity).
  assert (8 <= 12 <= 15) as B7 by lia.
  assert (Z.of_nat (length (bp (read_bc im))) = blen (read_bc im)) as B8
    by (vm_compute; reflexivity).
  assert (0 <= bcons (read_bc im) <= bprod (read_bc im)) as B9
    by (vm_compute; intuition discriminate).
  assert (bprod (read_bc im) < 2 ^ 32) as B10 by (vm_compute; reflexivity).
  assert (bprod (read_bc im) mod 2048 = 0) as B11
    by (vm_compute; reflexivity).
  assert (bprod (read_bc im) / 8 - bcons (read_bc im) / 8
          <= blen (read_bc im)) as B12 by (vm_compute; discriminate).
  pose proof (hfe_read_track_blocks 8 12 im B1 B2 B3 B4 B5 B6 B7 B8 B9 B10
                B11 B12) as Hrun.
  cbv zeta in Hrun.
  destruct (hfe_read_track 8 im) as [ok im'].
  destruct Hrun as [Hok Hrun].
  assert (ok = true) as -> by (rewrite Hok; vm_compute; reflexivity).
  destruct Hrun as (Hprod & _ & _ & _ & Hpos & _);
    [vm_compute; reflexivity|].
  exists im'. split; [reflexivity|].
  split; [rewrite Hprod | rewrite Hpos]; vm_compute; reflexivity.
Defined.
(** ** Track setup *)

(** [hfe_read_track] leaves the position on the track and the timing
    alone. *)
Lemma hfe_read_track_keeps (batch_secs : Z) (im : image) :
  let im' := snd (hfe_read_track batch_secs im) in
  cur_track im' = cur_track im /\ cur_bc im' = cur_bc im
  /\ cur_ticks im' = cur_ticks im
  /\ ticks_since_flux im' = ticks_since_flux im
  /\ tracklen_bc im' = tracklen_bc im
  /\ ticks_per_cell im' = ticks_per_cell im
  /\ next_index_pulses_pos (hfe im') = next_index_pulses_pos (hfe im)
  /\ trk_len (hfe im') = trk_len (hfe im)
  /\ trk_off (hfe im') = trk_off (hfe im).
Proof.
  cbv zeta. unfold hfe_read_track, hfe_fetch. cbv zeta.
  destruct im as [? ? ? ? ? ? ? ? ? ? ? ? ? ? ? ? ? ? ? ? []].
  cbn [read_data read_bc hfe fp trk_len trk_pos trk_off].
  repeat first
    [ match goal with
      | |- context [F_read ?a ?b ?c] => destruct (F_read a b c) as [? ?]
      end
    | match goal with
      | |- context [copy_blocks ?a ?b ?c ?d ?e ?f ?g] =>
          destruct (copy_blocks a b c d e f g) as [[? ?] ?]
      end
    | match goal with
      | |- context [if ?c then _ else _] => destruct c
      end
    | progress cbn [read_data read_bc hfe fp trk_len trk_pos trk_off on_hfe
                      set_hfe set_trk_pos set_read_data set_fp cur_track] ];
    done.
Qed.

Lemma next_pulse_spec (pulses : list Z) (len ticks : Z) (todo : nat)
    (i : Z) :
  0 <= i -> (Z.to_nat (len - i) <= todo)%nat ->
  let r := next_pulse todo i pulses len ticks in
  i <= r /\ (r <= len \/ r = i)
  /\ (forall j, i <= j < r -> pulses !!! Z.to_nat j <= ticks)
  /\ (r < len -> ticks < pulses !!! Z.to_nat r).
Proof.
  revert i. induction todo as [|todo IH]; intros i Hi Hfuel; cbv zeta.
  - cbn [next_pulse]. split; [lia|]. split; [by right|].
    split; intros; lia.
  - cbn [next_pulse]. destruct (Z.ltb_spec i len) as [Hin | Hout].
    + destruct (Z.ltb_spec ticks (pulses !!! Z.to_nat i)) as [Hhit | Hmiss].
      * split; [lia|]. split; [by right|]. split; [intros; lia | done].
      * destruct (IH (i + 1) ltac:(lia) ltac:(lia)) as (Hle & Hup & Hlow & Hat).
        split; [lia|]. split; [left; lia|]. split; [|done].
        intros j Hj. destruct (Z.eq_dec j i) as [-> | Hne]; [lia|].
        apply Hlow. lia.
    + split; [lia|]. split; [by right|]. split; intros; lia.
Qed.

Lemma on_read_bc_proj (f : image_buf -> image_buf) (im : image) :
  read_bc (on_read_bc f im) = f (read_bc im)
  /\ cur_track (on_read_bc f im) = cur_track im
  /\ cur_bc (on_read_bc f im) = cur_bc im
  /\ cur_ticks (on_read_bc f im) = cur_ticks im
  /\ ticks_since_flux (on_read_bc f im) = ticks_since_flux im
  /\ hfe (on_read_bc f im) = hfe im.
Proof. by destruct im. Qed.

Section Setup.
Context `{Clock} `{Uninit}.

(** X19: [hfe_setup_track] in read mode, on a track that lies inside the
    file and with a non-zero cell time.  The bitcell position is the start
    tick scaled by the cell time, or 0 when that is past the end of the
    track; the tick position and the returned start position follow from
    it.  The first batch of blocks is in the ring and the consumer index
    is the position within the 256-byte block it starts in, so the byte
    under the consumer index is the byte of the file for byte [cur_bc / 8]
    of the current side of the track.  The index-pulse cursor is the first
    recorded pulse later than the tick position. *)
Theorem hfe_setup_track_read (track t write_start k : Z) (im : image) :
  let cyl := u8 (Z.shiftr track (if double_step (hfe im) then 2 else 1)) in
  let side := u8 (Z.land track (nr_sides im - 1)) in
  let trk := u16 (cyl * 2 + side) in
  let im0 := if negb (trk =? cur_track im)
             then hfe_seek_track trk im else im in
  let h := hfe im0 in
  let tpc := ticks_per_cell im0 in
  let pos := u32 (t * 16) / tpc in
  let cb := if tracklen_bc im0 <=? pos then 0 else pos in
  0 < tpc -> 0 < trk_len h <= 32767 -> tracklen_bc im0 = trk_len h * 8 ->
  0 <= trk_off h ->
  trk_off h * 512 + (trk_len h + 255) / 256 * 512 <= f_size (fp im0) ->
  blen (read_bc im0) = 2 ^ k -> 8 <= k <= 15 ->
  Z.of_nat (length (bp (read_bc im0))) = blen (read_bc im0) ->
  0 <= index_pulses_len im0 ->
  let r := hfe_setup_track track (Some t) write_start im in
  let im' := sr_im r in
  cur_track im' = cur_track im0
  /\ (cur_bc im' = cb /\ 0 <= cb < tracklen_bc im0)
  /\ cur_ticks im' = u32 (cb * tpc)
  /\ sr_start_pos r = Some (u32 (cb * tpc) / 16)
  /\ ticks_since_flux im' = 0
  /\ (bcons (read_bc im') = cb mod 2048
      /\ cb / 2048 * 2048 + bcons (read_bc im') = cb
      /\ bcons (read_bc im') < bprod (read_bc im'))
  /\ bp (read_bc im') !! Z.to_nat (cb mod 2048 / 8)
     = Some (u8 (f_data (fp im0)
                   (trk_off h * 512 + cb / 2048 * 512
                    + Z.land (cur_track im0) 1 * 256 + cb / 8 mod 256)))
  /\ (sr_batch_secs r = 2 \/ sr_batch_secs r = 8)
  /\ sr_write_start r = None
  /\ (let i := next_index_pulses_pos (hfe im') in
      (forall j, 0 <= j < i -> index_pulses im0 !!! Z.to_nat j <= u32 (cb * tpc))
      /\ (i < index_pulses_len im0 ->
          u32 (cb * tpc) < index_pulses im0 !!! Z.to_nat i)).
Proof.
  intros cyl side trk im0 h tpc pos cb Htpc Hlen Hbc Hoff Hfile HL Hk Hring
         Hpulses r im'.
  subst r im'. unfold hfe_setup_track. cbv zeta.
  fold cyl. fold side. fold trk. fold im0.
  clearbody im0. clear cyl side trk.
  assert (0 <= pos) as Hpos0.
  { subst pos. apply Z.div_pos; [|lia]. unfold u32.
    apply Z.mod_pos_bound. lia. }
  assert (0 <= cb < tracklen_bc im0) as Hcb.
  { subst cb. destruct (Z.leb_spec (tracklen_bc im0) pos); lia. }
  assert (cb / 8 < trk_len (hfe im0)) as Hbyte
    by (apply Z.div_lt_upper_bound; subst h; lia).
  assert (0 <= cb / 8) as Hbyte0 by (apply Z.div_pos; lia).
  assert (Z.land (cb / 8) (u32 (Z.lnot 255)) = cb / 2048 * 256) as Hblock.
  { change 255 with (Z.ones 8).
    rewrite ArenaProofs.land_clear_low by (subst h; lia).
    change (2 ^ 8) with 256. rewrite Z.div_div by lia.
    change (8 * 256) with 2048. lia. }
  assert (Z.land cb 2047 = cb mod 2048) as Hlow
    by (change 2047 with (Z.ones 11); rewrite Z.land_ones by lia; done).
  pose proof (Z.div_mod cb 2048 ltac:(lia)) as Hdm.
  pose proof (Z.mod_pos_bound cb 2048 ltac:(lia)) as Hm.
  assert (0 <= cb / 2048) as Hq by (apply Z.div_pos; lia).
  assert (cb / 2048 * 256 <= cb / 8) as Hblk_le.
  { pose proof (Z.div_mod cb 8 ltac:(lia)).
    pose proof (Z.mod_pos_bound cb 8 ltac:(lia)).
    apply Z.div_le_lower_bound; lia. }
  assert (cb mod 2048 / 8 = cb / 8 - cb / 2048 * 256
          /\ cb / 8 mod 256 = cb / 8 - cb / 2048 * 256) as [Hin8 Hin256].
  { pose proof (Z.div_mod cb 8 ltac:(lia)).
    pose proof (Z.mod_pos_bound cb 8 ltac:(lia)).
    pose proof (Z.div_mod (cb mod 2048) 8 ltac:(lia)).
    pose proof (Z.mod_pos_bound (cb mod 2048) 8 ltac:(lia)).
    pose proof (Z.div_mod (cb / 8) 256 ltac:(lia)).
    pose proof (Z.mod_pos_bound (cb / 8) 256 ltac:(lia)).
    lia. }
  destruct (next_pulse_spec (index_pulses im0) (index_pulses_len im0)
              (u32 (cb * tpc)) (Z.to_nat (index_pulses_len im0)) 0
              ltac:(lia) ltac:(lia)) as (Hi0 & _ & Hbefore & Hat).
  cbv zeta in Hi0, Hbefore, Hat.
  set (bs := if sysclk_ns 1500 <? _ then 2 else 8).
  assert (1 <= bs <= 8 /\ (bs = 2 \/ bs = 8)) as [Hbs Hbs']
    by (subst bs; case_match; lia).
  match goal with
  | |- context [hfe_read_track bs ?x] => set (X := x)
  end.
  assert (read_data X = set_bprod 0 (set_bcons 0 (read_data im0))
          /\ read_bc X = set_bprod 0 (set_bcons 0 (read_bc im0))
          /\ fp X = fp im0 /\ cur_track X = cur_track im0
          /\ cur_bc X = cb /\ cur_ticks X = u32 (cb * tpc)
          /\ ticks_since_flux X = 0
          /\ trk_pos (hfe X) = cb / 2048 * 256
          /\ trk_len (hfe X) = trk_len (hfe im0)
          /\ trk_off (hfe X) = trk_off (hfe im0)
          /\ next_index_pulses_pos (hfe X)
             = next_pulse (Z.to_nat (index_pulses_len im0)) 0
                          (index_pulses im0) (index_pulses_len im0)
                          (u32 (cb * tpc)))
    as (Xrd & Xbc & Xfp & Xct & Xcb & Xticks & Xtsf & Xpos & Xlen & Xoff
        & Xnext).
  { subst X cb pos tpc h.
    destruct im0 as [? ? ? ? ? ? ? ? ? ? ? ? ? ? ? ? ? ? ? ? []].
    cbn [read_data read_bc fp cur_track cur_bc cur_ticks ticks_since_flux
           hfe trk_pos trk_len trk_off next_index_pulses_pos
           index_pulses index_pulses_len tracklen_bc ticks_per_cell
           on_hfe set_hfe set_trk_pos set_next_index_pulses_pos on_read_bc
           set_read_bc set_read_data set_ticks_since_flux set_cur_ticks
           set_cur_bc] in *.
    rewrite Hblock. rewrite u16_small' by lia. done. }
  pose proof (hfe_read_track_blocks bs k X) as Hrun. cbv zeta in Hrun.
  pose proof (hfe_read_track_keeps bs X) as Hkeep. cbv zeta in Hkeep.
  rewrite Xrd, Xbc, Xfp, Xct, Xpos, Xlen, Xoff in Hrun.
  rewrite Xct, Xcb, Xticks, Xtsf, Xnext, Xlen, Xoff in Hkeep.
  cbn [bprod bcons bp blen set_bprod set_bcons] in Hrun.
  change (0 / 8) with 0 in Hrun. rewrite !Z.sub_0_r, !Z.add_0_l in Hrun.
  assert (256 <= blen (read_bc im0) <= 32768) as HLr.
  { rewrite HL. change 256 with (2 ^ 8). change 32768 with (2 ^ 15).
    split; apply Z.pow_le_mono_r; lia. }
  set (L := blen (read_bc im0)) in *.
  set (nr_read := Z.min bs ((trk_len (hfe im0) + 255 - cb / 2048 * 256) / 256))
    in *.
  assert (1 <= nr_read /\ nr_read <= (trk_len (hfe im0) + 255) / 256
                                     - cb / 2048) as [Hnr1 Hnr2].
  { assert ((trk_len (hfe im0) + 255 - cb / 2048 * 256) / 256
            = (trk_len (hfe im0) + 255) / 256 - cb / 2048) as Ediv.
    { replace (trk_len (hfe im0) + 255 - cb / 2048 * 256)
        with (trk_len (hfe im0) + 255 + (- (cb / 2048)) * 256) by lia.
      rewrite Z.div_add by lia. lia. }
    assert (1 <= (trk_len (hfe im0) + 255) / 256 - cb / 2048).
    { pose proof (Z.div_mod (trk_len (hfe im0) + 255) 256 ltac:(lia)).
      pose proof (Z.mod_pos_bound (trk_len (hfe im0) + 255) 256 ltac:(lia)).
      lia. }
    unfold nr_read. rewrite Ediv. lia. }
  assert (1 <= L / 256) as HL1 by (apply Z.div_le_lower_bound; lia).
  set (nr := Z.min nr_read (L / 256)) in *.
  assert (1 <= nr) as Hnr by (subst nr; lia).
  specialize (Hrun eq_refl Hbs ltac:(subst h; lia) ltac:(subst h; lia)
                   ltac:(subst h; lia) HL Hk Hring ltac:(lia) ltac:(lia)
                   eq_refl ltac:(lia)).
  destruct (hfe_read_track bs X) as [ok im1]. cbn [snd] in *.
  destruct Hrun as [_ Hrun].
  destruct (Hrun ltac:(lia)) as (Rprod & Rcons & _ & _ & _ & Rin & _).
  destruct Hkeep as (Kct & Kcb & Kticks & Ktsf & _ & _ & Knext & _ & _).
  cbn [sr_im sr_start_pos sr_batch_secs sr_write_start].
  destruct (on_read_bc_proj (set_bcons (Z.land (cur_bc im1) 2047)) im1)
    as (-> & -> & -> & -> & -> & ->).
  cbn [bcons bprod bp set_bcons].
  rewrite Kct, Kcb, Kticks, Ktsf, Knext, Hlow, Rprod.
  rewrite (u32_small' (nr * 2048)) by lia.
  split; [done|]. split; [done|]. split; [done|]. split; [done|].
  split; [done|]. split; [lia|]. split.
  { assert (0 <= cb mod 2048 / 8 < 256) as Hin
      by (split; [apply Z.div_pos; lia | apply Z.div_lt_upper_bound; lia]).
    specialize (Rin (cb mod 2048 / 8)).
    rewrite ?Z.add_0_l in Rin.
    rewrite (Z.mod_small (cb mod 2048 / 8) L) in Rin by lia.
    rewrite Rin by lia. do 3 f_equal.
    rewrite (Z.div_small (cb mod 2048 / 8) 256) by lia.
    rewrite (Z.mod_small (cb mod 2048 / 8) 256) by lia.
    subst h. lia. }
  split; [done|]. split; [done|]. split; [|done].
  intros j Hj. apply Hbefore. lia.
Qed.

End Setup.
Lemma hfe_setup_track_read_witness :
  let r := @hfe_setup_track Sample.stm32_clock Sample.zero_stack
             0 (Some 1000) 0 Sample.opened_hfe in
  cur_bc (sr_im r) = 6 /\ sr_start_pos r = Some 864
  /\ bcons (read_bc (sr_im r)) = 6.
Proof.
  cbv zeta.
  pose proof (@hfe_setup_track_read Sample.stm32_clock Sample.zero_stack
                0 1000 0 12 Sample.opened_hfe) as Hset.
  cbv zeta in Hset.
  destruct Hset as (_ & (Hcb & _) & _ & Hstart & _ & (Hcons & _) & _).
  - vm_compute. reflexivity.
  - vm_compute. intuition discriminate.
  - vm_compute. reflexivity.
  - vm_compute. discriminate.
  - vm_compute. discriminate.
  - vm_compute. reflexivity.
  - lia.
  - vm_compute. reflexivity.
  - vm_compute. discriminate.
  - split; [|split].
    + rewrite Hcb. vm_compute. reflexivity.
    + rewrite Hstart. vm_compute. reflexivity.
    + rewrite Hcons. vm_compute. reflexivity.
Defined.
(** ** Opening: the bitrate *)

Section OpenBitrate.
Context `{Clock} `{Uninit}.

(** X20: [hfe_open] checks the header bitrate against zero only.  A
    well-formed header whose bitrate is above [sysclk_us(500)] is
    accepted, and the handle is left with [write_bc_ticks] and
    [ticks_per_cell] both 0: the divisor of the position computation in
    [hfe_setup_track]. *)
Theorem hfe_open_fast_bitrate (im : image) :
  let hdr := F_bytes 26 (fp im) in
  length hdr = 26%nat ->
  (strn_eq 8 hdr HXCHFEV3 = true /\ dh_formatrevision hdr <= 0
   \/ strn_eq 8 hdr HXCHFEV3 = false /\ strn_eq 8 hdr HXCPICFE = true
      /\ dh_formatrevision hdr <= 1) ->
  dh_nr_tracks hdr <> 0 -> 1 <= dh_nr_sides hdr <= 2 ->
  0 <= sysclk_us 500 < dh_bitrate hdr ->
  8 * 512 <= blen (read_data im) ->
  exists im',
    hfe_open im = Some (true, im')
    /\ is_v3 (hfe im') = strn_eq 8 hdr HXCHFEV3
    /\ nr_sides im' = dh_nr_sides hdr
    /\ write_bc_ticks im' = 0 /\ ticks_per_cell im' = 0.
Proof.
  intros hdr Hlen Hsig Htracks Hsides Hrate Hbuf.
  unfold hfe_open, F_read. fold hdr. rewrite Hlen.
  rewrite drop_ge by (by rewrite length_uninit).
  rewrite app_nil_r. cbv zeta.
  assert ((if strn_eq 8 hdr HXCHFEV3
           then if 0 <? dh_formatrevision hdr then None else Some true
           else if strn_eq 8 hdr HXCPICFE
                then if 1 <? dh_formatrevision hdr then None else Some false
                else None) = Some (strn_eq 8 hdr HXCHFEV3)) as ->.
  { destruct Hsig as [[-> Hrev] | (-> & -> & Hrev)].
    - by destruct (Z.ltb_spec 0 (dh_formatrevision hdr)); [lia|].
    - by destruct (Z.ltb_spec 1 (dh_formatrevision hdr)); [lia|]. }
  destruct (Z.eqb_spec (dh_nr_tracks hdr) 0) as [|_]; [done|].
  destruct (Z.ltb_spec (dh_nr_sides hdr) 1) as [|_]; [lia|].
  destruct (Z.ltb_spec 2 (dh_nr_sides hdr)) as [|_]; [lia|].
  destruct (Z.eqb_spec (dh_bitrate hdr) 0) as [|_]; [lia|].
  cbn [orb].
  rewrite (Z.div_small (sysclk_us 500)) by lia.
  change (u32 0) with 0.
  match goal with
  | |- context [negb (?a <=? blen ?b)] =>
      replace (a <=? blen b) with true
  end.
  2:{ symmetry. apply Z.leb_le.
      by destruct im as [? ? ? ? ? ? ? ? ? ? ? ? ? ? ? ? ? ? ? ? []]. }
  cbn [negb]. eexists. split; [reflexivity|].
  unfold hfe_seek_track.
  destruct (F_read 4 _ _) as [thdr f].
  by destruct im as [? ? ? ? ? ? ? ? ? ? ? ? ? ? ? ? ? ? ? ? []].
Qed.

End OpenBitrate.

Lemma hfe_open_fast_bitrate_witness :
  exists im',
    @hfe_open Sample.stm32_clock Sample.zero_stack
      (Sample.fresh_hfe Sample.hfe_too_fast) = Some (true, im')
    /\ ticks_per_cell im' = 0.
Proof.
  destruct (@hfe_open_fast_bitrate Sample.stm32_clock Sample.zero_stack
              (Sample.fresh_hfe Sample.hfe_too_fast))
    as (im' & Hopen & _ & _ & _ & Hcell).
  - vm_compute. reflexivity.
  - right. vm_compute. intuition discriminate.
  - vm_compute. discriminate.
  - vm_compute. intuition discriminate.
  - vm_compute. intuition discriminate.
  - vm_compute. discriminate.
  - exists im'. split; [exact Hopen | exact Hcell].
Defined.
End HfeEngine.

(** * The flux generator of hfe.c on v1 images *)

Module HfeFlux.
Import Hfe.
Import HfeProofs.

Lemma u32_id (x : Z) : 0 <= x < 2 ^ 32 -> u32 x = x.
Proof. intros. unfold u32. by apply Z.mod_small. Qed.

(** The inner loop over the bits of a byte. *)
Lemma flux_bits_spec (fuel : nat) (x : Z) (s : flux) :
  (Z.to_nat (8 - fx_y s) <= fuel)%nat ->
  0 <= fx_y s <= 8 -> 1 <= fx_todo s < 2 ^ 32 ->
  exists s' out,
    flux_bits fuel x s = (s', out)
    /\ fx_im s' = fx_im s /\ fx_bc_c s' = fx_bc_c s
    /\ fx_y s <= fx_y s' <= 8
    /\ 0 <= fx_todo s'
    /\ fx_todo s' + Z.of_nat (length (fx_tbuf s'))
       = fx_todo s + Z.of_nat (length (fx_tbuf s))
    /\ (if out then fx_todo s' = 0 /\ fx_y s < fx_y s'
        else fx_y s' = 8 /\ 1 <= fx_todo s').
Proof.
  revert x s. induction fuel as [|fuel IH]; intros x s Hfuel Hy Htodo.
  { exists s, false. cbn [flux_bits]. repeat split; lia. }
  cbn [flux_bits]. destruct (Z.ltb_spec (fx_y s) 8) as [Hlt | Hge].
  2:{ exists s, false. repeat split; lia. }
  destruct (Z.testbit x 0).
  - rewrite (u32_id (fx_todo s - 1)) by lia.
    destruct (Z.eqb_spec (fx_todo s - 1) 0) as [Hz | Hnz].
    + eexists _, true. split; [reflexivity|].
      cbn [fx_im fx_bc_c fx_y fx_todo fx_tbuf].
      rewrite length_app. cbn [length]. repeat split; lia.
    + match goal with
      | |- context [flux_bits fuel ?x' ?s1] =>
          destruct (IH x' s1) as (s' & out & Hrun & Him & Hc & Hy' & Ht0
                                     & Hsum & Hout)
      end; cbn [fx_im fx_bc_c fx_y fx_todo fx_tbuf] in *; try lia.
      exists s', out. split; [exact Hrun|].
      rewrite length_app in Hsum. cbn [length] in Hsum.
      repeat split; try done; try lia.
      destruct out; lia.
  - match goal with
    | |- context [flux_bits fuel ?x' ?s1] =>
        destruct (IH x' s1) as (s' & out & Hrun & Him & Hc & Hy' & Ht0
                                   & Hsum & Hout)
    end; cbn [fx_im fx_bc_c fx_y fx_todo fx_tbuf] in *; try lia.
    exists s', out. split; [exact Hrun|].
    repeat split; try done; try lia.
    destruct out; lia.
Qed.

Lemma round_up_2048 (x : Z) :
  0 <= x -> x + 2047 < 2 ^ 32 ->
  Z.land (u32 (x + (256 * 8 - 1))) (u32 (Z.lnot (256 * 8 - 1)))
  = 2048 * ((x + 2047) / 2048).
Proof.
  intros Hx Hfit. change (256 * 8 - 1) with (Z.ones 11).
  rewrite u32_id by (change (Z.ones 11) with 2047; lia).
  rewrite ArenaProofs.land_clear_low
    by (change (Z.ones 11) with 2047; lia).
  reflexivity.
Qed.

Section V1.
Context `{Clock} `{HfeEnv}.
Variables (T bc_p nr : Z) (bc : image_buf) (bc_b : list Z) (bc_mask : Z).
Hypothesis HT : 0 < T < 2 ^ 32.
Hypothesis HT8 : T mod 8 = 0.
Hypothesis Hp : 0 <= bc_p < 2 ^ 32.
Hypothesis Hp2048 : bc_p mod 2048 = 0.
Hypothesis Hnr : nr < 2 ^ 32.

(** One pass through the outer loop. *)
Lemma flux_iter_v1 (s : flux) :
  flux_ok T bc_p nr bc s -> fx_y s = 8 -> 1 <= fx_todo s ->
  24 <= bc_p - fx_bc_c s ->
  exists s' out,
    flux_iter bc_b bc_mask false s = Some (s', out)
    /\ flux_ok T bc_p nr bc s'
    /\ fx_bc_c s <= fx_bc_c s' - (8 - fx_y s')
    /\ flux_left T bc_p s' < flux_left T bc_p s
    /\ (if out then fx_todo s' = 0 else fx_y s' = 8 /\ 1 <= fx_todo s').
Proof.
  intros (Hy & Hc & HTim & Hbc & Hcb & Hcong & Ht0 & Hsum) Hy8 Htodo Hroom.
  cbv zeta in *. unfold flux_iter. cbv zeta.
  rewrite Hy8 in *. cbn [Z.eqb Pos.eqb negb andb]. rewrite HTim.
  destruct (Z.leb_spec T (cur_bc (fx_im s))) as [Hend | Hmid].
  - (* the end of the track *)
    assert (cur_bc (fx_im s) = T) as Hat by lia.
    rewrite Hat, Z.eqb_refl. cbn [negb].
    apply Z.mod_divide in Hp2048; [|lia]. destruct Hp2048 as [m Hm].
    rewrite round_up_2048 by lia.
    pose proof (Z.div_mod (fx_bc_c s + 2047) 2048 ltac:(lia)) as Hdm.
    pose proof (Z.mod_pos_bound (fx_bc_c s + 2047) 2048 ltac:(lia)) as Hmb.
    set (c' := 2048 * ((fx_bc_c s + 2047) / 2048)) in *.
    assert (fx_bc_c s <= c' <= bc_p) as Hc'.
    { split; [lia|]. subst c'.
      assert ((fx_bc_c s + 2047) / 2048 < m + 1); [|lia].
      apply Z.div_lt_upper_bound; lia. }
    eexists _, false. split; [reflexivity|].
    unfold flux_ok, flux_left. cbn [fx_im fx_bc_c fx_y fx_todo fx_tbuf].
    rewrite ?Hy8.
    match goal with
    | |- context [on_hfe _ ?i] =>
        assert (tracklen_bc (on_hfe (set_next_index_pulses_pos 0) i) = T
                /\ read_bc (on_hfe (set_next_index_pulses_pos 0) i) = bc
                /\ cur_bc (on_hfe (set_next_index_pulses_pos 0) i) = 0)
          as (-> & -> & ->)
    end.
    { revert HTim Hbc.
      destruct (fx_im s) as [? ? ? ? ? ? ? ? ? ? ? ? ? ? ? ? ? ? ? ? []].
      cbn. by destruct (negb _). }
    rewrite Hat.
    destruct (Z.leb_spec T 0); [lia|]. destruct (Z.leb_spec T T); [|lia].
    assert ((0 - c') mod 8 = 0) as Hc8.
    { subst c'. replace (0 - 2048 * ((fx_bc_c s + 2047) / 2048))
        with (- (256 * ((fx_bc_c s + 2047) / 2048)) * 8) by lia.
      apply Z.mod_mul. lia. }
    repeat split; try done; try lia.
  - (* a data byte *)
    set (y := fx_bc_c s mod 8).
    pose proof (Z.mod_pos_bound (fx_bc_c s) 8 ltac:(lia)) as Hyb. fold y in Hyb.
    unfold flux_emit. cbv zeta. cbn [fx_im fx_bc_c fx_ticks
                                          fx_ticks_per_cell fx_todo fx_tbuf].
    rewrite (u32_id (fx_bc_c s + (8 - y))) by lia.
    match goal with
    | |- context [flux_bits 8 ?x ?s1] =>
        destruct (flux_bits_spec 8 x s1) as (s' & out & Hrun & Him & Hcc
                                                & Hy' & Ht0' & Hsum' & Hout)
    end; cbn [fx_im fx_bc_c fx_y fx_todo fx_tbuf] in *; try lia.
    rewrite Hrun. exists s', out. split; [reflexivity|].
    (* the position reaches the end of the track exactly *)
    assert (cur_bc (fx_im s) + (8 - y) <= T) as Hfit.
    { pose proof (Z.div_mod (fx_bc_c s) 8 ltac:(lia)) as D1. fold y in D1.
      apply Z.mod_divide in HT8; [|lia]. destruct HT8 as [m Hm].
      apply Z.mod_divide in Hcong; [|lia]. destruct Hcong as [k Hk].
      lia. }
    assert (cur_bc (fx_im s') = cur_bc (fx_im s) + (8 - y)
            /\ tracklen_bc (fx_im s') = T /\ read_bc (fx_im s') = bc)
      as (Ecb & ET & Ebc).
    { rewrite Him. revert HTim Hbc Hcb Hmid Hfit.
      destruct (fx_im s) as [? ? ? ? ? ? ? ? ? ? ? ? ? ? ? ? ? ? ? ? []].
      cbn [cur_bc tracklen_bc read_bc set_cur_ticks set_cur_bc].
      intros. rewrite u32_id by lia. done. }
    unfold flux_ok, flux_left. rewrite Hcc, Ecb, ET, Ebc.
    split.
    { assert ((cur_bc (fx_im s) + (8 - y) - (fx_bc_c s + (8 - y))) mod 8 = 0)
        by (replace (cur_bc (fx_im s) + (8 - y) - (fx_bc_c s + (8 - y)))
              with (cur_bc (fx_im s) - fx_bc_c s) by lia; done).
      repeat split; try done; try lia. }
    split; [lia|]. split.
    { destruct (Z.leb_spec T (cur_bc (fx_im s))); [lia|].
      destruct (Z.leb_spec T (cur_bc (fx_im s) + (8 - y))); lia. }
    destruct out; lia.
Qed.

(** The loop runs to its exit, and what it keeps. *)
Lemma flux_loop_v1 (fuel : nat) (s : flux) :
  flux_ok T bc_p nr bc s -> fx_y s = 8 -> 1 <= fx_todo s ->
  (Z.to_nat (flux_left T bc_p s) < fuel)%nat ->
  exists s',
    flux_loop fuel bc_b bc_p bc_mask false s = Some s'
    /\ flux_ok T bc_p nr bc s'
    /\ fx_bc_c s <= fx_bc_c s' - (8 - fx_y s')
    /\ (1 <= fx_todo s' -> fx_y s' = 8 /\ bc_p - fx_bc_c s' < 24).
Proof.
  revert s. induction fuel as [|fuel IH]; intros s Hok Hy8 Htodo Hfuel;
    [lia|].
  cbn [flux_loop].
  pose proof Hok as (_ & Hc & _). cbv zeta in Hc. rewrite Hy8 in Hc.
  rewrite (u32_id (bc_p - fx_bc_c s)) by lia.
  change (3 * 8) with 24.
  destruct (Z.leb_spec 24 (bc_p - fx_bc_c s)) as [Hroom | Hdone].
  2:{ exists s. split; [done|]. split; [done|]. split; [lia|]. done. }
  destruct (flux_iter_v1 s Hok Hy8 Htodo Hroom)
    as (s1 & out & -> & Hok1 & Hmono & Hless & Hout).
  destruct out.
  - exists s1. split; [done|]. split; [done|]. split; [done|]. lia.
  - destruct Hout as [Hy1 Ht1].
    assert (0 <= flux_left T bc_p s1) as Hpos.
    { pose proof Hok1 as (_ & Hc1 & _). cbv zeta in Hc1.
      unfold flux_left. case_match; lia. }
    destruct (IH s1 Hok1 Hy1 Ht1 ltac:(lia))
      as (s' & Hrun & Hok' & Hmono' & Hexit).
    exists s'. split; [done|]. split; [done|]. split; [|done].
    rewrite Hy1 in Hmono. lia.
Qed.

End V1.

Section Flux.
Context `{Clock} `{HfeEnv}.

(** X21: on a v1 image (no opcodes), [hfe_rdata_flux] runs to its end
    without tripping an assertion whenever the position is inside the
    track and a whole number of bytes away from the consumer index, the
    track is a whole number of bytes long, and the producer index is on a
    block boundary.  It returns the number of samples it wrote, at most
    [nr]; the consumer index moves forward and never passes the producer
    index; it stops short of [nr] samples only with fewer than 24 bitcells
    left in the ring; and the position is again inside the track and a
    whole number of bytes away from the consumer index. *)
Theorem hfe_rdata_flux_v1 (fuel : nat) (nr : Z) (im : image) :
  let bc := read_bc im in
  let T := tracklen_bc im in
  is_v3 (hfe im) = false ->
  0 < T < 2 ^ 32 -> T mod 8 = 0 -> 0 <= cur_bc im <= T ->
  0 <= bcons bc <= bprod bc -> bprod bc < 2 ^ 32 ->
  bprod bc mod 2048 = 0 ->
  (cur_bc im - bcons bc) mod 8 = 0 ->
  1 <= nr < 65536 ->
  (Z.to_nat (2 * (bprod bc - bcons bc) + 1) < fuel)%nat ->
  exists tbuf n im',
    hfe_rdata_flux fuel nr im = Some (tbuf, n, im')
    /\ n = Z.of_nat (length tbuf) /\ n <= nr
    /\ bcons bc <= bcons (read_bc im') <= bprod bc
    /\ bprod (read_bc im') = bprod bc
    /\ (n < nr -> bprod bc - bcons (read_bc im') < 24)
    /\ tracklen_bc im' = T
    /\ 0 <= cur_bc im' <= T
    /\ (cur_bc im' - bcons (read_bc im')) mod 8 = 0.
Proof.
  intros bc T Hv1 HT HT8 Hcb Hcons Hprod Halign Hcong Hnr Hfuel.
  unfold hfe_rdata_flux. cbv zeta. fold bc. rewrite Hv1.
  set (s0 := mk_flux im (bcons bc) (ticks_since_flux im) (ticks_per_cell im)
                     8 nr []).
  assert (flux_ok T (bprod bc) nr bc s0) as Hok0.
  { unfold flux_ok, s0. cbn [fx_im fx_bc_c fx_y fx_todo fx_tbuf length].
    repeat split; try done; try lia. }
  assert (Z.to_nat (flux_left T (bprod bc) s0) < fuel)%nat as Hfuel0.
  { unfold flux_left, s0. cbn [fx_im fx_bc_c]. case_match; lia. }
  destruct (flux_loop_v1 T (bprod bc) nr bc (bp bc) (u32 (blen bc - 1))
              HT HT8 ltac:(lia) Halign ltac:(lia) fuel s0 Hok0 eq_refl
              ltac:(cbn; lia) Hfuel0)
    as (s' & -> & Hok & Hmono & Hexit).
  cbn [mbind option_bind].
  destruct Hok as (Hy & Hc & HTim & Hbc & Hcb' & Hcong' & Ht0 & Hsum).
  cbv zeta in *. cbn [fx_bc_c s0] in Hmono.
  eexists _, _, _. split; [reflexivity|].
  assert (u16 (nr - fx_todo s') = Z.of_nat (length (fx_tbuf s'))) as ->
    by (unfold u16; rewrite Z.mod_small by lia; lia).
  split; [done|]. split; [lia|].
  match goal with
  | |- context [set_ticks_since_flux ?a (set_cur_ticks ?b
                  (set_cur_bc ?c (on_read_bc ?f ?i)))] =>
      assert (read_bc (set_ticks_since_flux a
                         (set_cur_ticks b (set_cur_bc c (on_read_bc f i))))
              = f (read_bc i)
              /\ tracklen_bc (set_ticks_since_flux a
                                (set_cur_ticks b
                                   (set_cur_bc c (on_read_bc f i))))
                 = tracklen_bc i
              /\ cur_bc (set_ticks_since_flux a
                           (set_cur_ticks b (set_cur_bc c (on_read_bc f i))))
                 = c) as (-> & -> & ->)
        by (by destruct i as [? ? ? ? ? ? ? ? ? ? ? ? ? ? ? ? ? ? ? ? []])
  end.
  assert (cur_bc (on_read_bc
                    (set_bcons (u32 (fx_bc_c s' - (8 - fx_y s'))))
                    (fx_im s')) = cur_bc (fx_im s')) as ->
    by (by destruct (fx_im s') as [? ? ? ? ? ? ? ? ? ? ? ? ? ? ? ? ? ? ? ? []]).
  rewrite Hbc, HTim. cbn [bcons bprod set_bcons].
  rewrite !u32_id by lia.
  split; [lia|]. split; [done|]. split.
  { intros Hshort. destruct Hexit as [Hy8 Hdone]; [lia|].
    rewrite Hy8. lia. }
  split; [done|]. split; [lia|].
  replace (cur_bc (fx_im s') - (8 - fx_y s')
           - (fx_bc_c s' - (8 - fx_y s')))
    with (cur_bc (fx_im s') - fx_bc_c s') by lia.
  done.
Qed.

End Flux.

Lemma hfe_rdata_flux_v1_witness :
  exists tbuf n im',
    @hfe_rdata_flux Sample.stm32_clock Sample.stdlib_env
      (Z.to_nat 20000) 4 Sample.hfe_ring_filled = Some (tbuf, n, im')
    /\ n <= 4
    /\ bcons (read_bc im') <= 8192.
Proof.
  set (im := Sample.hfe_ring_filled).
  assert (is_v3 (hfe im) = false) as B1 by (vm_compute; reflexivity).
  assert (0 < tracklen_bc im < 2 ^ 32) as B2
    by (vm_compute; intuition discriminate).
  assert (tracklen_bc im mod 8 = 0) as B3 by (vm_compute; reflexivity).
  assert (0 <= cur_bc im <= tracklen_bc im) as B4
    by (vm_compute; intuition discriminate).
  assert (0 <= bcons (read_bc im) <= bprod (read_bc im)) as B5
    by (vm_compute; intuition discriminate).
  assert (bprod (read_bc im) < 2 ^ 32) as B6 by (vm_compute; reflexivity).
  assert (bprod (read_bc im) mod 2048 = 0) as B7 by (vm_compute; reflexivity).
  assert ((cur_bc im - bcons (read_bc im)) mod 8 = 0) as B8
    by (vm_compute; reflexivity).
  assert (1 <= 4 < 65536) as B9 by lia.
  assert (bprod (read_bc im) = 8192 /\ bcons (read_bc im) = 0) as [E1 E2]
    by (vm_compute; split; reflexivity).
  assert (Z.to_nat (2 * (bprod (read_bc im) - bcons (read_bc im)) + 1)
          < Z.to_nat 20000)%nat as B10 by (rewrite E1, E2; lia).
  destruct (@hfe_rdata_flux_v1 Sample.stm32_clock Sample.stdlib_env
              (Z.to_nat 20000) 4 im B1 B2 B3 B4 B5 B6 B7 B8 B9 B10)
    as (tbuf & n & im' & Hrun & _ & Hn & [_ Hc] & _).
  exists tbuf, n, im'. split; [exact Hrun|]. split; [exact Hn|].
  rewrite E1 in Hc. exact Hc.
Defined.

Section TrackEnd.
Context `{Clock} `{HfeEnv}.

(** X22: an HFEv3 track whose last byte is a bitrate opcode stops the
    flux generator.  With the consumer on that byte, byte-aligned, eight
    bitcells before the end of the track and at least five bytes in the
    ring, the pass over the opcode moves the position 16 bitcells on, past
    the end of the track, and the next pass fails
    [ASSERT(im->cur_bc == im->tracklen_bc)]: [hfe_rdata_flux] returns no
    result, however long it is run. *)
Theorem hfe_rdata_flux_bitrate_at_end (nr : Z) (im : image) :
  let bc := read_bc im in
  let opcode :=
    u8 (bp bc !!! Z.to_nat (Z.land (bcons bc / 8) (u32 (blen bc - 1)))) in
  let s0 := mk_flux im (bcons bc) (ticks_since_flux im) (ticks_per_cell im)
                    8 nr [] in
  is_v3 (hfe im) = true ->
  bcons bc mod 8 = 0 ->
  Z.land opcode 0xf = 0xf -> Z.shiftr opcode 4 = OP_bitrate ->
  0 <= cur_bc im -> tracklen_bc im = cur_bc im + 8 ->
  tracklen_bc im + 8 < 2 ^ 32 ->
  0 <= bcons bc -> bcons bc + 40 <= bprod bc -> bprod bc < 2 ^ 32 ->
  (exists s1,
     flux_iter (bp bc) (u32 (blen bc - 1)) true s0 = Some (s1, false)
     /\ cur_bc (fx_im s1) = tracklen_bc im + 8
     /\ tracklen_bc (fx_im s1) = tracklen_bc im
     /\ flux_iter (bp bc) (u32 (blen bc - 1)) true s1 = None)
  /\ forall fuel, hfe_rdata_flux fuel nr im = None.
Proof.
  intros bc opcode s0 Hv3 Hal Hlow Hop Hcb HT Hfit Hc0 Hring Hprod.
  assert (exists s1,
            flux_iter (bp bc) (u32 (blen bc - 1)) true s0 = Some (s1, false)
            /\ cur_bc (fx_im s1) = tracklen_bc im + 8
            /\ tracklen_bc (fx_im s1) = tracklen_bc im
            /\ fx_y s1 = 8 /\ fx_bc_c s1 = bcons bc + 16) as Hfirst.
  { unfold flux_iter, s0. cbn [fx_im fx_bc_c fx_y]. cbn [Z.eqb Pos.eqb negb].
    destruct (Z.leb_spec (tracklen_bc im) (cur_bc im)); [lia|].
    cbv zeta. rewrite Hal, Z.shiftr_0_r. fold opcode.
    rewrite Hlow, Hop. cbn [andb Z.eqb Pos.eqb OP_index OP_bitrate].
    unfold flux_skip. cbn [fx_im fx_bc_c fx_y fx_ticks fx_todo fx_tbuf].
    eexists. split; [reflexivity|].
    cbn [fx_im fx_bc_c fx_y].
    rewrite (u32_id (bcons bc + 2 * 8)) by lia.
    split; [|split; [|split; [done | lia]]].
    - destruct im as [? ? ? ? ? ? ? ? ? ? ? ? ? ? ? ? ? ? ? ? []].
      cbn [cur_bc tracklen_bc set_cur_bc set_write_bc_ticks
             set_ticks_per_cell] in *.
      rewrite u32_id by lia. lia.
    - by destruct im as [? ? ? ? ? ? ? ? ? ? ? ? ? ? ? ? ? ? ? ? []]. }
  destruct Hfirst as (s1 & Hrun & Hcb1 & HT1 & Hy1 & Hc1).
  assert (flux_iter (bp bc) (u32 (blen bc - 1)) true s1 = None) as Hnext.
  { unfold flux_iter. rewrite Hy1. cbn [Z.eqb Pos.eqb negb].
    rewrite HT1, Hcb1.
    destruct (Z.leb_spec (tracklen_bc im) (tracklen_bc im + 8)); [|lia].
    destruct (Z.eqb_spec (tracklen_bc im + 8) (tracklen_bc im)); [lia|].
    done. }
  split; [by exists s1|].
  intros fuel. unfold hfe_rdata_flux. cbv zeta. fold bc. rewrite Hv3.
  fold s0.
  destruct fuel as [|fuel]; [done|]. cbn [flux_loop].
  replace (fx_bc_c s0) with (bcons bc) by done.
  rewrite (u32_id (bprod bc - bcons bc)) by lia.
  destruct (Z.leb_spec (3 * 8) (bprod bc - bcons bc)); [|lia].
  rewrite Hrun.
  destruct fuel as [|fuel]; [done|]. cbn [flux_loop].
  rewrite Hc1, (u32_id (bprod bc - (bcons bc + 16))) by lia.
  destruct (Z.leb_spec (3 * 8) (bprod bc - (bcons bc + 16))); [|lia].
  by rewrite Hnext.
Qed.

End TrackEnd.

Lemma hfe_rdata_flux_bitrate_at_end_witness :
  @hfe_rdata_flux Sample.stm32_clock Sample.stdlib_env 100 4
    Sample.hfe_v3_at_end = None.
Proof.
  refine (proj2 (@hfe_rdata_flux_bitrate_at_end Sample.stm32_clock
                   Sample.stdlib_env 4 Sample.hfe_v3_at_end
                   _ _ _ _ _ _ _ _ _ _) 100%nat);
    vm_compute; first [reflexivity | discriminate].
Defined.
End HfeFlux.

(** * Openers that take the geometry from the image size *)

Module ImgBySize.
Import Img.
Import ImgProofs.
Import ImgOpeners.

Lemma F_read_none (old : list Z) (f : FIL) :
  F_read 0 old f
  = (old, {| f_size := f_size f; f_data := f_data f;
             f_tell := f_tell f + 0 |}).
Proof.
  unfold F_read, F_bytes, F_avail.
  replace (Z.to_nat (Z.min 0 (f_size f - f_tell f))) with 0%nat by lia.
  reflexivity.
Qed.

Section Jvc.
Context `{Clock} `{Uninit}.

(** [mfm_open] on a geometry of [c] cylinders and [s] sides of eighteen
    256-byte sectors. *)
Lemma mfm_open_jvc (x : image) (c s : Z) :
  1 <= c <= 254 -> 1 <= s <= 2 ->
  nr_cyls x = c -> nr_sides x = s ->
  nr_sectors (img x) = 18 -> sec_no (img x) = 1 ->
  sec_base (img x) = (1, 1) -> base_off (img x) = 0 ->
  exists im',
    mfm_open x = (true, im')
    /\ base_off (img im') = 0
    /\ nr_sectors (img im') = 18 /\ sec_sz im' = 256
    /\ sec_base (img im') = (1, 1)
    /\ nr_sides im' = s /\ nr_cyls im' = c.
Proof.
  intros Hc Hs Ec Es En Eno Eb Eoff.
  destruct (mfm_open_total x) as (im' & -> & Hkeep);
    try (unfold MAX_SECS; lia).
  exists im'. split; [done|].
  destruct (open_frame_geometry _ _ Hkeep)
    as (Ec' & Es' & En' & Eno' & Eoff' & _).
  destruct (open_frame_layout _ _ Hkeep) as (_ & _ & _ & Eb' & _).
  unfold sec_sz. rewrite Ec', Es', En', Eno', Eb', Eoff'.
  rewrite Ec, Es, En, Eno, Eb, Eoff. done.
Qed.

(** Without a header [jvc_open] hands [mfm_open] the default geometry,
    with the cylinder count taken from the size. *)
Lemma jvc_open_runs (im : image) :
  let size := f_size (fp im) in
  0 < size -> size mod 256 = 0 -> size / 4608 < 256 ->
  exists x,
    jvc_open im = mfm_open x
    /\ nr_sides x = (if 88 <=? size / 4608 then 2 else 1)
    /\ nr_cyls x
       = (if 88 <=? size / 4608
          then size / 9216 + (if 256 <=? size mod 9216 then 1 else 0)
          else size / 4608 + (if 256 <=? size mod 4608 then 1 else 0))
    /\ nr_sectors (img x) = 18 /\ sec_no (img x) = 1
    /\ sec_base (img x) = (1, 1) /\ base_off (img x) = 0.
Proof.
  intros size Hpos H256 Hcyls.
  assert (Z.land size 255 = 0) as Hland
    by (change 255 with (Z.ones 8); rewrite Z.land_ones by lia; done).
  assert (0 <= size / 4608) as Hc0 by (apply Z.div_pos; lia).
  pose proof (Z.div_mod size 4608 ltac:(lia)) as D1.
  pose proof (Z.mod_pos_bound size 4608 ltac:(lia)) as M1.
  assert (size / 4608 / 2 = size / 9216) as Ehalf
    by (rewrite Z.div_div by lia; done).
  assert (0 <= size / 9216 < 128) as Hc2
    by (split; [apply Z.div_pos; lia | apply Z.div_lt_upper_bound; lia]).
  destruct im as [fp0 ? ? ? ? ? ? ? ? ? ? ? ? ?
                    [? ? ? ? ? ? ? ? ? ? ? ? ? ? ? ? ? ? ? ? ? ? ? ? ? ? ? ?]].
  cbn [fp] in size.
  cbv beta delta [jvc_open]. run_img.
  fold size. rewrite Hland. change (min_t 0 5) with 0.
  rewrite F_read_none. cbv beta iota. cbn [f_size]. fold size.
  cbn [lookup_total list_lookup_total Z.eqb negb andb orb Pos.eqb].
  change (Z.land 1 3) with 1.
  destruct (Z.ltb_spec size 0) as [|_]; [lia|].
  rewrite Z.sub_0_r.
  change (u32 (Z.shiftl 128 1)) with 256.
  change (u32 (256 * 18 * 1)) with 4608.
  rewrite (u8_small (size / 4608)) by lia.
  destruct (Z.leb_spec 88 (size / 4608)) as [Hbig | Hsmall].
  - cbn [andb Z.eqb Pos.eqb]. cbv beta iota. cbn [f_size].
    destruct (Z.ltb_spec size 0) as [|_]; [lia|]. rewrite Z.sub_0_r.
    change (u8 (1 + 1)) with 2. change (u32 (4608 * 2)) with 9216.
    rewrite Ehalf.
    destruct (Z.leb_spec 256 (size mod 9216)) as [Hpart | Hwhole].
    + rewrite (u8_small (size / 9216 + 1)) by lia.
      eexists. split; [reflexivity|]. cbv beta iota. done.
    + eexists. split; [reflexivity|]. cbv beta iota.
      repeat split; try done; lia.
  - cbn [andb]. cbv beta iota. cbn [f_size].
    destruct (Z.ltb_spec size 0) as [|_]; [lia|]. rewrite Z.sub_0_r.
    destruct (Z.leb_spec 256 (size mod 4608)) as [Hpart | Hwhole].
    + rewrite (u8_small (size / 4608 + 1)) by lia.
      eexists. split; [reflexivity|]. cbv beta iota. done.
    + eexists. split; [reflexivity|]. cbv beta iota.
      repeat split; try done; lia.
Qed.

(** X23: a JVC image without a header, that is one whose size is a
    multiple of 256 bytes, is opened with the default geometry of 18
    sectors of 256 bytes numbered from 1.  Up to 87 whole single-sided
    cylinders it is single-sided, from 88 on it is taken as double-sided;
    a trailing partial cylinder counts as one more.  The cylinders cover
    the image exactly: no byte of the image lies outside them, and the
    last cylinder is not empty. *)
Theorem jvc_open_headerless (im : image) :
  let size := f_size (fp im) in
  0 < size -> size mod 256 = 0 -> size / 4608 < 256 ->
  exists im',
    jvc_open im = (true, im')
    /\ base_off (img im') = 0
    /\ nr_sectors (img im') = 18 /\ sec_sz im' = 256
    /\ sec_base (img im') = (1, 1)
    /\ nr_sides im' = (if 88 <=? size / 4608 then 2 else 1)
    /\ (nr_cyls im' - 1) * nr_sides im' * 4608 < size
       <= nr_cyls im' * nr_sides im' * 4608.
Proof.
  intros size Hpos H256 Hcyls.
  assert (Z.land size 255 = 0) as Hland
    by (change 255 with (Z.ones 8); rewrite Z.land_ones by lia; done).
  assert (0 <= size / 4608) as Hc0 by (apply Z.div_pos; lia).
  pose proof (Z.div_mod size 4608 ltac:(lia)) as D1.
  pose proof (Z.mod_pos_bound size 4608 ltac:(lia)) as M1.
  pose proof (Z.div_mod size 9216 ltac:(lia)) as D2.
  pose proof (Z.mod_pos_bound size 9216 ltac:(lia)) as M2.
  pose proof H256 as Hmult.
  apply Z.mod_divide in Hmult; [|lia]. destruct Hmult as [k Hk].
  assert (size mod 4608 = 0 \/ 256 <= size mod 4608) as P1.
  { assert (size mod 4608 = 256 * (k - 18 * (size / 4608))) by lia. lia. }
  assert (size mod 9216 = 0 \/ 256 <= size mod 9216) as P2.
  { assert (size mod 9216 = 256 * (k - 36 * (size / 9216))) by lia. lia. }
  assert (0 <= size / 9216 < 128) as Hc2
    by (split; [apply Z.div_pos; lia | apply Z.div_lt_upper_bound; lia]).
  assert (88 <= size / 4608 -> 44 <= size / 9216) as Hc3
    by (intros; replace (size / 9216) with (size / 4608 / 2)
          by (rewrite Z.div_div by lia; done);
        apply Z.div_le_lower_bound; lia).
  destruct (jvc_open_runs im Hpos H256 Hcyls)
    as (x & -> & Es & Ec & En & Eno & Eb & Eoff).
  fold size in Es, Ec.
  destruct (mfm_open_jvc x (nr_cyls x) (nr_sides x))
    as (im' & -> & ? & ? & ? & ? & Es' & Ec'); try done.
  { rewrite Ec.
    destruct (Z.leb_spec 88 (size / 4608)),
      (Z.leb_spec 256 (size mod 9216)), (Z.leb_spec 256 (size mod 4608));
      lia. }
  { rewrite Es. destruct (88 <=? size / 4608); lia. }
  exists im'. rewrite Es', Ec', Es, Ec.
  repeat split; try done;
    destruct (Z.leb_spec 88 (size / 4608)),
      (Z.leb_spec 256 (size mod 9216)), (Z.leb_spec 256 (size mod 4608));
    lia.
Qed.

End Jvc.

Section Opd.
Context `{Clock}.

(** X24: [opd_open] accepts an image exactly when its size is 184320 or
    737280 bytes, and then as 40 x 1 or 80 x 2 tracks of 18 sectors of
    256 bytes numbered from 0, a geometry that accounts for every byte of
    the image. *)
Theorem opd_open_sizes (im : image) :
  let '(ok, im') := opd_open im in
  (ok = true <-> im_size im = 184320 \/ im_size im = 737280)
  /\ (ok = true ->
      nr_sectors (img im') = 18 /\ sec_sz im' = 256
      /\ sec_base (img im') = (0, 0)
      /\ (nr_cyls im', nr_sides im')
         = (if im_size im =? 184320 then (40, 1) else (80, 2))
      /\ nr_cyls im' * nr_sides im' * (18 * 256) = im_size im).
Proof.
  unfold opd_open.
  assert (forall c s,
            1 <= c <= 254 -> 1 <= s <= 2 ->
            exists im',
              (let im1 := set_nr_sides s (set_nr_cyls c im) in
               let im1 := on_img (set_sec_no 1) im1 in
               let im1 := on_img (set_interleave 13) im1 in
               let im1 := on_img (set_skew 13) im1 in
               let im1 := on_img (set_skew_cyls_only true) im1 in
               let im1 := on_img (set_sec_base (0, 0)) im1 in
               let im1 := on_img (set_nr_sectors 18) im1 in
               let im1 := on_img (set_gap_3 12) im1 in
               let im1 := on_img (set_has_iam true) im1 in
               mfm_open im1) = (true, im')
              /\ nr_sectors (img im') = 18 /\ sec_sz im' = 256
              /\ sec_base (img im') = (0, 0)
              /\ nr_cyls im' = c /\ nr_sides im' = s) as Hopen.
  { intros c s Hc Hs. cbv zeta.
    match goal with
    | |- context [mfm_open ?x] =>
        destruct (mfm_open_total x) as (im' & -> & Hk)
    end; try (destruct im as [? ? ? ? ? ? ? ? ? ? ? ? ? ? []]; simpl;
              unfold MAX_SECS; lia).
    exists im'. split; [done|].
    destruct (open_frame_geometry _ _ Hk) as (Ec & Es & En & Eno & _).
    destruct (open_frame_layout _ _ Hk) as (_ & _ & _ & Eb & _).
    unfold sec_sz. rewrite Ec, Es, En, Eno, Eb.
    by destruct im as [? ? ? ? ? ? ? ? ? ? ? ? ? ? []]. }
  destruct (Z.eqb_spec (im_size im) 184320) as [E1 | N1].
  - destruct (Hopen 40 1 ltac:(lia) ltac:(lia))
      as (im' & Hm & En & Esz & Eb & Ec & Es).
    cbv zeta in Hm. cbv beta iota. rewrite Hm.
    rewrite En, Esz, Eb, Ec, Es, E1. split; [split; [tauto | done] | done].
  - destruct (Z.eqb_spec (im_size im) 737280) as [E2 | N2].
    + destruct (Hopen 80 2 ltac:(lia) ltac:(lia))
        as (im' & Hm & En & Esz & Eb & Ec & Es).
      cbv zeta in Hm. cbv beta iota. rewrite Hm.
      rewrite En, Esz, Eb, Ec, Es, E2. split; [split; [tauto | done] | done].
    + split; [split; [discriminate | lia] | discriminate].
Qed.

End Opd.

Lemma jvc_open_headerless_witness :
  let im := Sample.fresh_img Sample.jvc_80x2 in
  (0 < f_size (fp im) /\ f_size (fp im) mod 256 = 0
   /\ f_size (fp im) / 4608 < 256)
  /\ exists im',
    @jvc_open Sample.stm32_clock im = (true, im')
    /\ nr_sides im' = 2 /\ nr_cyls im' = 80.
Proof.
  cbv zeta.
  assert (0 < f_size (fp (Sample.fresh_img Sample.jvc_80x2))) as H1
    by reflexivity.
  assert (f_size (fp (Sample.fresh_img Sample.jvc_80x2)) mod 256 = 0) as H2
    by reflexivity.
  assert (f_size (fp (Sample.fresh_img Sample.jvc_80x2)) / 4608 < 256) as H3
    by reflexivity.
  split; [by repeat split|].
  destruct (@jvc_open_headerless Sample.stm32_clock
              (Sample.fresh_img Sample.jvc_80x2) H1 H2 H3)
    as (im' & Hopen & _ & _ & _ & _ & Hsides & Hcover).
  change (nr_sides im' = 2) in Hsides.
  exists im'. split; [exact Hopen|]. split; [exact Hsides|].
  rewrite Hsides in Hcover.
  change (f_size (fp (Sample.fresh_img Sample.jvc_80x2))) with 737280
    in Hcover.
  lia.
Defined.

End ImgBySize.

(** * Openers that take the geometry from an image header *)

Module ImgHeaders.
Import Img.
Import ImgProofs.
Import ImgOpeners.

(** A store to a [uint8_t] keeps the low byte of a little-endian word. *)
Lemma u8_low_byte (a rest : Z) : 0 <= a < 256 -> u8 (a + 256 * rest) = a.
Proof.
  intros Ha. unfold u8. change (2 ^ 8) with 256.
  rewrite (Z.mul_comm 256), Z.mod_add by lia.
  apply Z.mod_small. lia.
Qed.

Lemma u8_low_byte32 (a b c d : Z) :
  0 <= a < 256 -> u8 (a + 256 * b + 65536 * c + 16777216 * d) = a.
Proof.
  intros Ha.
  replace (a + 256 * b + 65536 * c + 16777216 * d)
    with (a + 256 * (b + 256 * c + 65536 * d)) by lia.
  by apply u8_low_byte.
Qed.

Section Headers.
Context `{Clock} `{Uninit}.

(** X25: [sdu_open] looks at nothing but the low bytes of the three
    geometry words of the 46-byte header: it accepts exactly when they give
    40 or 80 cylinders, 1 or 2 heads and 9, 18 or 36 sectors, whatever the
    signature, the high bytes of the words and the size of the image are.
    The image is then opened with that geometry, 512-byte sectors and the
    data starting at offset 46. *)
Theorem sdu_open_header (im : image) :
  46 <= f_size (fp im) - f_tell (fp im) ->
  let b (k : Z) := u8 (f_data (fp im) (f_tell (fp im) + k)) in
  let '(ok, im') := sdu_open im in
  (ok = true <->
   (b 30 = 40 \/ b 30 = 80) /\ (b 32 = 1 \/ b 32 = 2)
   /\ (b 34 = 9 \/ b 34 = 18 \/ b 34 = 36))
  /\ (ok = true ->
      nr_cyls im' = b 30 /\ nr_sides im' = b 32
      /\ nr_sectors (img im') = b 34 /\ sec_sz im' = 512
      /\ base_off (img im') = 46).
Proof.
  intros Hsize b. unfold sdu_open.
  pose proof (fun k Hk => HfeProofs.F_read_byte 46 (uninit 46) (fp im) k
                            Hsize Hk) as Hbyte.
  destruct (F_read 46 (uninit 46) (fp im)) as [hdr f]. cbn [fst] in Hbyte.
  pose proof (Hbyte 30%nat ltac:(lia)) as B30.
  pose proof (Hbyte 32%nat ltac:(lia)) as B32.
  pose proof (Hbyte 34%nat ltac:(lia)) as B34.
  clear Hbyte.
  change (u8 (f_data (fp im) (f_tell (fp im) + Z.of_nat 30))) with (b 30)
    in B30.
  change (u8 (f_data (fp im) (f_tell (fp im) + Z.of_nat 32))) with (b 32)
    in B32.
  change (u8 (f_data (fp im) (f_tell (fp im) + Z.of_nat 34))) with (b 34)
    in B34.
  assert (forall k, 0 <= b k < 256) as Hb by (intros k; apply u8_range).
  assert (u8 (le16 (drop 30 hdr)) = b 30) as ->
    by (unfold le16; rewrite !lookup_total_drop; simpl; rewrite B30;
        by apply u8_low_byte).
  assert (u8 (le16 (drop 32 hdr)) = b 32) as ->
    by (unfold le16; rewrite !lookup_total_drop; simpl; rewrite B32;
        by apply u8_low_byte).
  assert (u8 (le16 (drop 34 hdr)) = b 34) as ->
    by (unfold le16; rewrite !lookup_total_drop; simpl; rewrite B34;
        by apply u8_low_byte).
  clearbody b. clear B30 B32 B34.
  assert (forall v i, nr_sides (set_nr_sides v i) = v) as Es
    by (intros v i; by destruct i).
  assert (forall v w i, nr_cyls (set_nr_sides w (set_nr_cyls v i)) = v) as Ec
    by (intros v w i; by destruct i).
  assert (forall g i, nr_sides (on_img g i) = nr_sides i) as Es'
    by (intros g i; by destruct i).
  assert (forall g i, nr_cyls (on_img g i) = nr_cyls i) as Ec'
    by (intros g i; by destruct i).
  assert (forall v i, nr_sectors (img (on_img (set_nr_sectors v) i)) = v)
    as En by (intros v i; by destruct i as [? ? ? ? ? ? ? ? ? ? ? ? ? ? []]).
  rewrite Es', Es, Ec', Ec, En.
  destruct (Z.eqb_spec (b 30) 40), (Z.eqb_spec (b 30) 80),
    (Z.eqb_spec (b 32) 1), (Z.eqb_spec (b 32) 2),
    (Z.eqb_spec (b 34) 9), (Z.eqb_spec (b 34) 18), (Z.eqb_spec (b 34) 36);
    cbn [negb andb orb];
    try (split; [split; [discriminate | lia] | discriminate]); try lia.
  all: match goal with
       | |- context [mfm_open ?x] =>
           pose proof (mfm_open_accepts x) as Hacc;
           pose proof (mfm_open_keeps x) as Hk;
           destruct (mfm_open x) as [ok im']
       end;
    cbn [fst snd] in Hacc, Hk;
    destruct (open_frame_geometry _ _ Hk) as (Ec1 & Es1 & En1 & Eno & Eoff & _);
    unfold sec_sz; rewrite Ec1, Es1, En1, Eno, Eoff; rewrite Hacc;
    destruct im as [? ? ? ? ? ? ? ? ? ? ? ? ? ? []]; simpl;
    unfold MAX_SECS; split; [|intros _; repeat split; lia]; lia.
Qed.

(** X26: [pc98fdi_open] trusts the 32-byte header.  The cylinder, side
    and sector counts are 32-bit words of which only the low byte is kept,
    and the image is accepted exactly when these bytes give 1 to 254
    cylinders, 1 or 2 sides and 1 to 64 sectors.  A sector size word other
    than 512 means 1024-byte sectors, and the data start at the offset the
    header_size word gives. *)
Theorem pc98fdi_open_header (im : image) :
  32 <= f_size (fp im) - f_tell (fp im) ->
  let b (k : Z) := u8 (f_data (fp im) (f_tell (fp im) + k)) in
  let w (k : Z) :=
    b k + 256 * b (k + 1) + 65536 * b (k + 2) + 16777216 * b (k + 3) in
  let '(ok, im') := pc98fdi_open im in
  (ok = true <->
   1 <= b 28 <= 254 /\ (b 24 = 1 \/ b 24 = 2) /\ 1 <= b 20 <= 64)
  /\ (ok = true ->
      nr_cyls im' = b 28 /\ nr_sides im' = b 24
      /\ nr_sectors (img im') = b 20
      /\ sec_sz im' = (if w 16 =? 512 then 512 else 1024)
      /\ base_off (img im') = w 8).
Proof.
  intros Hsize b w. unfold pc98fdi_open.
  pose proof (fun k Hk => HfeProofs.F_read_byte 32 (uninit 32) (fp im) k
                            Hsize Hk) as Hbyte.
  destruct (F_read 32 (uninit 32) (fp im)) as [hdr f]. cbn [fst] in Hbyte.
  pose proof (Hbyte 8%nat ltac:(lia)) as B8.
  pose proof (Hbyte 9%nat ltac:(lia)) as B9.
  pose proof (Hbyte 10%nat ltac:(lia)) as B10.
  pose proof (Hbyte 11%nat ltac:(lia)) as B11.
  pose proof (Hbyte 16%nat ltac:(lia)) as B16.
  pose proof (Hbyte 17%nat ltac:(lia)) as B17.
  pose proof (Hbyte 18%nat ltac:(lia)) as B18.
  pose proof (Hbyte 19%nat ltac:(lia)) as B19.
  pose proof (Hbyte 20%nat ltac:(lia)) as B20.
  pose proof (Hbyte 24%nat ltac:(lia)) as B24.
  pose proof (Hbyte 28%nat ltac:(lia)) as B28.
  clear Hbyte.
  assert (forall k, 0 <= b k < 256) as Hb by (intros k; apply u8_range).
  assert (le32 (drop 8 hdr) = w 8) as ->
    by (unfold le32; rewrite !lookup_total_drop; simpl;
        by rewrite B8, B9, B10, B11).
  assert (le32 (drop 16 hdr) = w 16) as ->
    by (unfold le32; rewrite !lookup_total_drop; simpl;
        by rewrite B16, B17, B18, B19).
  assert (u8 (le32 (drop 20 hdr)) = b 20) as ->
    by (unfold le32; rewrite !lookup_total_drop; simpl; rewrite B20;
        by apply u8_low_byte32).
  assert (u8 (le32 (drop 24 hdr)) = b 24) as ->
    by (unfold le32; rewrite !lookup_total_drop; simpl; rewrite B24;
        by apply u8_low_byte32).
  assert (u8 (le32 (drop 28 hdr)) = b 28) as ->
    by (unfold le32; rewrite !lookup_total_drop; simpl; rewrite B28;
        by apply u8_low_byte32).
  assert (0 <= w 8 < 2 ^ 32) as Hw8.
  { pose proof (Hb 8). pose proof (Hb (8 + 1)). pose proof (Hb (8 + 2)).
    pose proof (Hb (8 + 3)). unfold w. lia. }
  clearbody w. clearbody b.
  clear B8 B9 B10 B11 B16 B17 B18 B19 B20 B24 B28.
  destruct (le32 (drop 4 hdr) =? 48), (Z.eqb_spec (w 16) 512).
  all: match goal with
       | |- context [mfm_open ?x] =>
           pose proof (mfm_open_accepts x) as Hacc;
           pose proof (mfm_open_keeps x) as Hk;
           destruct (mfm_open x) as [ok im']
       end;
    cbn [fst snd] in Hacc, Hk;
    destruct (open_frame_geometry _ _ Hk) as (Ec1 & Es1 & En1 & Eno & Eoff & _);
    unfold sec_sz; rewrite Ec1, Es1, En1, Eno, Eoff; rewrite Hacc;
    destruct im as [? ? ? ? ? ? ? ? ? ? ? ? ? ? []]; simpl;
    unfold MAX_SECS; split; [|intros _; repeat split; lia]; lia.
Qed.

End Headers.

Lemma sdu_open_header_witness :
  let im := Sample.fresh_img Sample.sdu_1440k in
  46 <= f_size (fp im) - f_tell (fp im)
  /\ exists im',
    @sdu_open Sample.stm32_clock Sample.zero_stack im = (true, im')
    /\ nr_cyls im' = 80 /\ nr_sides im' = 2 /\ nr_sectors (img im') = 18.
Proof.
  cbv zeta.
  assert (46 <= f_size (fp (Sample.fresh_img Sample.sdu_1440k))
                - f_tell (fp (Sample.fresh_img Sample.sdu_1440k))) as Hsize
    by (vm_compute; discriminate).
  split; [exact Hsize|].
  pose proof (@sdu_open_header Sample.stm32_clock Sample.zero_stack
                (Sample.fresh_img Sample.sdu_1440k) Hsize) as Hhdr.
  cbv zeta in Hhdr.
  destruct (sdu_open (Sample.fresh_img Sample.sdu_1440k)) as [ok im'].
  destruct Hhdr as [Hiff Hgeo].
  assert (ok = true) as ->.
  { apply Hiff. vm_compute. repeat split; tauto. }
  exists im'. split; [reflexivity|].
  destruct (Hgeo eq_refl) as (Hc & Hs & Hn & _ & _).
  repeat split; [exact Hc | exact Hs | exact Hn].
Defined.

Lemma pc98fdi_open_header_witness :
  let im := Sample.fresh_img Sample.fdi_333_cyls in
  32 <= f_size (fp im) - f_tell (fp im)
  /\ exists im',
    @pc98fdi_open Sample.stm32_clock Sample.zero_stack im = (true, im')
    /\ nr_cyls im' = 77 /\ sec_sz im' = 1024 /\ base_off (img im') = 4096.
Proof.
  cbv zeta.
  assert (32 <= f_size (fp (Sample.fresh_img Sample.fdi_333_cyls))
                - f_tell (fp (Sample.fresh_img Sample.fdi_333_cyls)))
    as Hsize by (vm_compute; discriminate).
  split; [exact Hsize|].
  pose proof (@pc98fdi_open_header Sample.stm32_clock Sample.zero_stack
                (Sample.fresh_img Sample.fdi_333_cyls) Hsize) as Hhdr.
  cbv zeta in Hhdr.
  destruct (pc98fdi_open (Sample.fresh_img Sample.fdi_333_cyls))
    as [ok im'].
  destruct Hhdr as [Hiff Hgeo].
  assert (ok = true) as ->.
  { apply Hiff. vm_compute. repeat split; try discriminate. by right. }
  exists im'. split; [reflexivity|].
  destruct (Hgeo eq_refl) as (Hc & _ & _ & Hsz & Hoff).
  repeat split; [exact Hc | exact Hsz | exact Hoff].
Defined.
End ImgHeaders.

(** * The batch load of hfe_write_track *)

Module HfeLoad.
Import Hfe.

(** Masking with [~(2^k - 1)] rounds down to a multiple of [2^k]. *)
Lemma land_lnot_ones (x k : Z) :
  0 <= k -> Z.land x (Z.lnot (Z.ones k)) = 2 ^ k * (x / 2 ^ k).
Proof.
  intros Hk. rewrite Z.mul_comm.
  rewrite <- Z.shiftr_div_pow2, <- Z.shiftl_mul_pow2 by lia.
  apply Z.bits_inj'. intros j Hj. rewrite Z.land_spec, Z.lnot_spec by lia.
  destruct (Z.ltb_spec j k).
  - rewrite Z.shiftl_spec_low, Z.ones_spec_low by lia. apply andb_false_r.
  - rewrite Z.shiftl_spec, Z.shiftr_spec, Z.ones_spec_high by lia.
    replace (j - k + k) with j by lia. apply andb_true_r.
Qed.

(** X27: on an HFEv3 image, when [hfe_write_track] loads a fresh batch
    with the write cursor past the first block of the track (from position
    256 on side 0, from 512 on side 1) and not at the start of a block, the
    byte it examines so as not to start inside an opcode, at
    [wrbuf + (cur_track & 1) * 256 + trk_pos - write_batch.off - 1], lies
    in front of the sector buffer: [write_batch.off] is twice the block
    base of the cursor. *)
Theorem hfe_write_load_outside (im : image) :
  is_v3 (hfe im) = true ->
  write_batch_len (hfe im) = 0 -> write_batch_dirty (hfe im) = false ->
  256 * (Z.land (cur_track im) 1 + 1) <= trk_pos (hfe im) < 65536 ->
  1 <= Z.land (trk_pos (hfe im)) 255 ->
  hfe_write_load im = None.
Proof.
  intros Hv3 Hlen Hdirty Hpos Hin.
  assert (0 <= Z.land (cur_track im) 1 <= 1) as Hside.
  { change (Z.land (cur_track im) 1)
      with (Z.land (cur_track im) (Z.ones 1)).
    rewrite Z.land_ones by lia. change (2 ^ 1) with 2.
    pose proof (Z.mod_pos_bound (cur_track im) 2 ltac:(lia)). lia. }
  assert (Z.land (trk_pos (hfe im)) 255 = trk_pos (hfe im) mod 256) as E255
    by (change 255 with (Z.ones 8); by rewrite Z.land_ones by lia).
  assert (Z.land (trk_pos (hfe im)) (Z.lnot 255)
          = 256 * (trk_pos (hfe im) / 256)) as Ebase
    by (change 255 with (Z.ones 8); by rewrite land_lnot_ones by lia).
  pose proof (Z.div_mod (trk_pos (hfe im)) 256 ltac:(lia)) as Hdm.
  pose proof (Z.mod_pos_bound (trk_pos (hfe im)) 256 ltac:(lia)) as Hm.
  assert (0 <= trk_pos (hfe im) / 256 < 256) as Hq
    by (split; [apply Z.div_pos; lia | apply Z.div_lt_upper_bound; lia]).
  unfold hfe_write_load. rewrite Hlen, Hdirty. cbn [Z.eqb negb].
  rewrite Ebase, Z.shiftl_mul_pow2 by lia. change (2 ^ 1) with 2.
  rewrite (HfeEngine.u32_small' (256 * _ * 2)) by lia.
  cbv zeta.
  destruct im as [? ? ? ? ? ? ? ? ? ? ? ? ? ? ? ? ? ? ? ? []].
  cbn [hfe trk_pos trk_len trk_off write_data cur_track fp is_v3
         write_batch_off write_batch_len write_batch_dirty
         on_hfe set_hfe set_write_batch_off set_write_batch_len
         on_write_data set_write_data set_fp set_bp bp] in *.
  destruct (F_read _ _ _) as [wrbuf f].
  cbn [hfe trk_pos trk_len trk_off write_data cur_track fp is_v3
         write_batch_off write_batch_len write_batch_dirty
         on_hfe set_hfe set_write_batch_off set_write_batch_len set_trk_pos
         on_write_data set_write_data set_fp set_bp bp].
  rewrite Hv3. cbn [andb].
  destruct (Z.leb_spec 1 (Z.land trk_pos0 255)); [|lia].
  unfold peek.
  match goal with
  | |- context [?w <? 0] =>
      match w with
      | _ - 1 - 1 => fail 1
      | _ => destruct (Z.ltb_spec w 0); [|lia]
      end
  end.
  destruct (2 <=? Z.land trk_pos0 255); [|done].
  match goal with
  | |- context [?w <? 0] => destruct (Z.ltb_spec w 0); [|lia]
  end.
  done.
Qed.

Lemma hfe_write_load_outside_witness :
  let im := on_hfe (set_trk_pos 300) Sample.hfe_v3_on_operand in
  trk_pos (hfe im) = 300 /\ Z.land (cur_track im) 1 = 0
  /\ hfe_write_load im = None.
Proof.
  cbv zeta. split; [reflexivity|]. split; [reflexivity|].
  apply hfe_write_load_outside.
  - reflexivity.
  - reflexivity.
  - reflexivity.
  - change (256 * (0 + 1) <= 300 < 65536). lia.
  - change (1 <= 44). lia.
Defined.

End HfeLoad.
